(* ===== verification/_CoqProject ===== *)
-Q . S2P
Prelude.v
Crypto.v
BlockStore.v
Codec.v
Json.v
JsonSpec.v
JsonObject.v
Keys.v
KeysSpec.v
DataNode.v
FreeSpace.v
StateNode.v
Cache.v
CacheSpec.v
DataNodeIO.v
MemorySpec.v
Trie.v
StateKV.v
KVSpec.v
Platform.v
TrieSpec.v
TrieHeap.v
TrieModel.v
TrieNodes.v
TrieWalk.v
TrieRefine.v
KVRefine.v
Persist.v
Witnesses.v
KVWitnesses.v
Ledger.v
LedgerSpec.v
LedgerWitnesses.v
EnclaveData.v
EnclaveDataSpec.v
Attestation.v
Provisioning.v
Enclave.v
EnclaveSpec.v
ProvisioningSpec.v
EnclavePlatform.v
EnclaveWitnesses.v
ProvisioningWitnesses.v
Concurrency.v
Wasm.v
WasmSpec.v
ContractLib.v
ContractSpec.v
ContractKV.v
Interpreter.v
InterpreterSpec.v
Isolation.v
WasmPlatform.v
WasmWitnesses.v
Values.v
ValuesSpec.v
ValuesWitnesses.v
ContractBase.v
ContractServices.v
ContractBaseSpec.v
ContractBaseWitnesses.v
HostEnclave.v
HostContract.v
HostSignup.v
ProvisioningHost.v
HostSpec.v
HostInitSpec.v
HostSignupSpec.v
ProvisioningHostSpec.v
HostWitnesses.v
