(* ===== verification/Prelude.v ===== *)
(** * Private Data Objects: a verification library

    Private Data Objects runs smart contracts on encrypted state inside SGX enclaves and anchors every
    state change in a ledger.  This library models the C++ of the system and proves the properties on
    which its users rely.  Paths below are relative to src/.

    ** The system and the files of the library

    The state of a contract is a key value store, laid out in fixed-size encrypted blocks that live in an
    untrusted block store.  From the bottom up (common/):

    - Prelude: machine integers with their wrap-around, byte arrays, the exception classes of error.h as
      the type [error], the result and the state-and-error monads in which every operation is written,
      and the lemmas and tactics on them;
    - Codec: packages/base64, hex_string.cpp, types.cpp;
    - Crypto: crypto/skenc.cpp, hash.cpp, crypto_utils.cpp.  OpenSSL is the class [OpenSSL], what is
      assumed of it the class [OpenSSLLaws];
    - Keys: crypto/sig.cpp, sig_private_key.cpp, sig_public_key.cpp, pkenc_private_key.cpp,
      pkenc_public_key.cpp, over the class [OpenSSLKeys];
    - Attestation: crypto/verify_ias_report/verify-report.cpp, over the class [X509];
    - BlockStore: packages/block_store/lmdb_block_store.cpp, the enclave's proxy
      eservice/lib/libpdo_enclave/block_store.cpp, and state/sebio.cpp.  The class [BlockStore] with
      [BlockStoreLaws] is the interface of block_store.h; both implementations are instances when no call
      of LMDB fails ([LMDBNeverFails]), and [lmdb_block_store_correct] says what holds when calls fail;
    - Json, JsonSpec, JsonObject: packages/parson, the parser, the two serializers, the accessors and the
      hash table of an object.  [LibC] is what it takes from the C library, strtod and the printing of a
      number, with [LibCLaws];
    - DataNode, FreeSpace, StateNode: state/block_offset, data_node, free_space_collector, StateBlock,
      StateUtils, block_warehouse;
    - Cache, DataNodeIO: state/cache.cpp, data_node_io.cpp.  [dn_io] is the state of a data_node_io
      object: block warehouse, cache, collector, append node, and the [world] outside (block store,
      random draws, crypto context);
    - Trie, StateKV: state/trie.cpp, state_kv.cpp, interpreter_kv.cpp.

    The contract enclave (eservice/lib/libpdo_enclave/) opens that store to run a request:

    - EnclaveData: enclave_data and signup_enclave, the keys of an enclave, sealed and published.  The SGX
      SDK is the class [SGX] with [SGXLaws], and [Build] the options of the build;
    - Enclave: contract_secrets, contract_code, contract_message, contract_state, contract_request,
      contract_response, contract_enclave.  The contract interpreter is the class [ContractInterpreter],
      of which Interpreter has the instance;
    - Concurrency: contract_worker.cpp and the host's enclave_queue.cpp, as step relations in which a
      critical section is one step and a thread blocked on a condition variable is a state.

    A contract is WASM code that the interpreter runs (common/interpreter/) and that is written on a
    library (contracts/wawaka/common/):

    - Wasm: wawaka_wasm/WasmUtil.cpp, WasmExtensions.cpp, WasmCryptoExtensions.cpp,
      WasmStateExtensions.cpp, the functions a contract imports.  [wasm_env] is what they run on: the
      linear memory of the contract, the pool of open stores and the world.  [native_call] and
      [run_native] are the table of imported functions.  The WASM runtime is the class [WAMR];
    - Interpreter: InvocationHelpers.cpp, WawakaInterpreter.cpp and the schema validation of parson.  The
      rest of the runtime is the class [WasmEngine];
    - ContractLib: Cryptography.cpp, KeyValue.cpp, Attestation.cpp and Util.cpp of the contract library,
      over the imported functions.  The memory allocator of the contract is the class [Guest];
    - Values: Value.cpp with the part of parson it uses, Response.cpp, Environment.cpp,
      StateReference.cpp, and Dispatch.cpp, through which the interpreter enters a contract;
    - ContractBase: Secret.cpp, contract/base.cpp and contract/attestation.cpp, the code contracts are
      built from, over the class [ContractServices] of what they ask of Cryptography.cpp and KeyValue.cpp.

    The provisioning services (pservice/lib/libpdo_enclave/) hold the secrets from which a contract
    enclave derives the key of a contract's state:

    - Provisioning: secret_enclave.cpp, every ecall; enclave_data.cpp of the service is the one of
      EnclaveData without an interpreter.  [ProvisioningBuild] is the configuration of the build.

    The services run their enclaves from a host process (eservice/pdo/eservice/enclave/,
    pservice/pdo/pservice/enclave/), whose interface Python calls:

    - HostEnclave: common/error.cpp, and enclave.cpp and base.cpp of the host: creating enclaves, crossing
      into them with its retries, quotes, and the guard that turns exceptions into status codes.  [host] is
      the state of the process: the enclaves, the memory of each on the platform, the queue of ready ones
      and the last error.  The SGX runtime and the threads are the class [SgxRuntime], the code inside the
      enclaves the class [EnclaveCode];
    - HostContract: the workers, Initialize and Terminate, enclave/contract.cpp and contract.cpp, and
      base_enclave.cpp; [contract_code] is the instance of [EnclaveCode] made of Enclave and EnclaveData;
    - HostSignup: enclave/signup.cpp, signup_info.cpp, enclave_info.cpp;
    - ProvisioningHost: the same of the provisioning service, over Provisioning.

    The ledger (ledgers/ccf/transaction_processor/) registers enclaves and contracts and orders states:

    - Ledger: pdo_tp.cpp, verify_signatures.cpp and the three registries.  A handler runs on a [node]:
      its view of the replicated tables, the globally committed ones, and the state local to the node
      (cached verifiers and signer).  [service] and [step] are the replicated service: requests executed
      on the primary, commits, restarts and changes of primary.  CCF is the class [CCF].

    ** What the theorems show

    - CacheSpec: over an honest block store on which no call fails ([BlockStoreLaws]), the data nodes have
      a logical content that caching, evicting and reloading preserve, as long as hashes do not collide
      (the hypothesis [no_collision] ranges over the blocks actually written).  The theorems on the memory,
      the trie and the key value store make the same assumption; of a store that lies, only the integrity
      of what is fetched is shown ([sebio_fetch_integrity]).
    - MemorySpec: data_node_io refines a flat memory of bytes; reads and writes that span nodes read and
      write it at linear addresses.
    - KVSpec, TrieSpec: a new store satisfies the invariant; the records of the trie; what deleting a
      value writes, with concrete runs that lose a key.  Because of what it writes for an empty value, the
      theorems on the store are about sequences of operations that replace or delete no empty value.
    - TrieHeap, TrieModel, TrieNodes, TrieWalk, TrieRefine: the memory as a heap of records that do not
      overlap each other or the free space; the trie as a tree of such records in which keys are found;
      what each node operation does to the heap; the traversal, from the root down and back.
    - KVRefine: Get, Put and Delete are the operations of a finite map, for any such sequence of requests
      on a new store that fits in 4 GB; such requests of the contract leave the enclave's entries alone.
    - Persist: a finalized store, opened again from its root block, is the same map.
    - JsonSpec, JsonObject: parsing inverts serialization and returns on every input; the hash table is
      the sequence of members.
    - BlockStore, StateNode, DataNode, FreeSpace, Crypto, Codec: round trips of every encoding, integrity
      of what comes back from untrusted storage, the collector as a set of free addresses.
    - LedgerSpec: what holds of every reachable state of the service (enclaves attested against
      measurements that were committed, signed contracts and states), that committed enclaves, contracts
      and keys stay and that no state's key is lost (the record under the key of a state can be
      overwritten), what an accepted update has passed, the update handler characterised by a condition and
      an effect, and its crash after a restart.
    - EnclaveSpec: the state encryption key is the XOR of authentic shares from distinct services, a
      sealed key opens for its contract only, a response is produced only for an authentic request on the
      state it names, whose stored contract id and code hash are the request's, and what the enclave signs is what the ledger verifies.
    - WasmSpec: short of undefined behaviour, the imported functions write only where a call is told to
      (but [strtod] writes four bytes more), let no exception out and give results of their types.
    - ContractSpec, ContractKV: what a contract encrypts it can decrypt, what it stores it gets back,
      through its memory, the imported functions and the blocks of the store; and the signatures that are
      accepted although they cannot be decoded.
    - InterpreterSpec: which requests reach a contract and how its answer is read.
    - Isolation: the code of a contract is any sequence of steps that change its memory or call imported
      functions ([guest_run]); no such run changes the enclave's part of the state.
    - ValuesSpec: a member that was set is read back and the others are kept, a method's answer is
      understood by the interpreter, and a request runs the method it names on the parameters and the
      environment the enclave built.
    - ContractServices, ContractBaseSpec: [ServicesLaws] is what the contract code relies on, and the
      library over the interpreter ([wasm_services]) satisfies it; against these laws, a secret that was
      encrypted for a contract is received, and which peers are admitted: those with the right hashes and
      a signature that verifies, or one that cannot be decoded.
    - KeysSpec, EnclaveDataSpec: signatures and ciphertexts of generated keys, and that the sealed data of
      an enclave gives its keys back.
    - ProvisioningSpec: secrets made by the provisioning enclaves are accepted by the contract enclave and
      give the exclusive or of what was sealed; a secret is made only for an enclave whose signed report attests it; signup,
      provisioning and ledger compute the same report data; what happens to a secret that was tampered
      with.
    - Concurrency: no enclave is lost or given to two threads, no wake-up is lost, every thread that asks for an
      enclave gets one as long as the threads that have one go on, one thread at a time uses an interpreter.
    - HostSpec: how often a call is made and that it ends ([call_sgx_terminates]), that a lost enclave
      blocks its callers, and that a request through the host gives what the enclave answered.
    - HostInitSpec: initialization and termination of the provisioning service, on every branch, on a
      platform that cooperates; the first initialization of the contract service is undefined behaviour.
    - HostSignupSpec, ProvisioningHostSpec: the keys Python gets are those sealed in the data it gets with
      them, a sealed secret is unsealed to the same bytes, and the secrets of a service are those its
      enclave made.
    - Platform, EnclavePlatform, WasmPlatform and the files named Witnesses: instances of the parameters that satisfy
      their laws, and each property applied to a concrete run on them.

    ** Bounds and fuel

    Sizes are those of the source: data nodes of [FIXED_DATA_NODE_BYTE_SIZE] bytes, 15-byte key chunks,
    block numbers and offsets of 4 bytes each, 32-bit and 64-bit counters written with [u32] and [u64].  Loops that are not
    structural take fuel: [IO.transfer_fuel] counts the bytes left, since each turn of
    write_across_data_nodes moves at least one byte or adds a node, and the theorems of MemorySpec show
    the loop returns; [T.trie_fuel] bounds the records the traversal can visit by the bytes of the
    store, and [walks_tree] shows that it is enough;
    the loops of the cache take one turn per entry; the JSON parser's fuel is the length of its input,
    and [json_parse_terminates] shows it never runs out.  [CallSgx] takes a turn per attempt:
    [call_sgx_terminates] shows that one more than the number of retries is enough unless the enclave is
    lost, and [lost_enclave_blocks] that no fuel is enough then.  [native_results] admits [OutOfFuel] of a call
    on an arbitrary pool of stores; no other theorem's conclusion does.  Accesses C++ gives no meaning to are the error [UndefinedBehaviour].

    ** Not modelled

    External code (OpenSSL, LMDB, CCF, the SGX SDK, the WASM runtime and the code it runs), the Python
    clients and services, the code SWIG generates, test programs, logging, timers, memory clearing, and the
    example contracts, which are written on the modelled library.  In the host: the delay between two attempts,
    the ocalls, which only log and keep a message, and the destructors that run when the vector of
    enclaves grows during an initialization that is tried again.  In parson: the parts the program does not use (comparison,
    files, removal, comments).

    ** Possible extensions

    Sending a secret with the random draws it takes, the 32-bit entries of a contract's store, the
    finalization of a store that was opened and whose collection did not change, and the provisioning of a
    contract through both hosts. *)
From Stdlib Require Export ZArith Lia Init.Byte.
From stdpp Require Export base list gmap strings sorting numbers.
From coqutil Require Export Byte Word.LittleEndianList.

(** * Machine integers *)

(** [uint8_t], [unsigned int] (32 bits) and [size_t]/[uint64_t] (64 bits) are [Z] with the
    wrap-around written out at every arithmetic operation that can leave the range. *)
Definition u8 (z : Z) : Z := (z mod 2 ^ 8)%Z.
Definition u32 (z : Z) : Z := (z mod 2 ^ 32)%Z.
Definition u64 (z : Z) : Z := (z mod 2 ^ 64)%Z.

(** Conversion of an [unsigned int] to [int] (two's complement). *)
Definition s32 (z : Z) : Z :=
  if bool_decide (u32 z < 2 ^ 31)%Z then u32 z else (u32 z - 2 ^ 32)%Z.

(** * Bytes *)

(** [ByteArray] is [std::vector<uint8_t>]; [std::string] is a byte sequence too, so both are
    [list byte]; a string literal of the source is written [bytes_of "..."]. *)
Abbreviation bytes := (list Init.Byte.byte).
Definition bytes_of (s : string) : bytes := String.list_byte_of_string s.

#[global] Instance byte_eq_dec : EqDecision Init.Byte.byte := Byte.byte_eq_dec.

#[global] Instance byte_countable : Countable Init.Byte.byte.
Proof.
  refine (inj_countable Byte.to_N Byte.of_N _).
  intros b. apply Byte.of_to_N.
Defined.

(** * Errors *)

(** The exception classes of common/error.h, [NotFoundError] for an [Error] with the code PDO_ERR_NOTFOUND,
    which has no class of its own, [StdException] for an
    exception that is not a [pdo::error::Error], and two outcomes C++
    leaves without a value: [UndefinedBehaviour] (an access the language gives no meaning to) and
    [OutOfFuel] (the model's recursion bound was too small; the theorems show it is not reached). *)
Inductive error :=
  | ValueError (msg : string)
  | RuntimeError (msg : string)
  | CryptoError (msg : string)
  | MemoryError (msg : string)
  | SystemError (msg : string)
  | IOError (msg : string)
  | IndexError (msg : string)
  | DivisionByZero (msg : string)
  | OverflowError (msg : string)
  | SystemBusyError (msg : string)
  | UnknownError (msg : string)
  | NotFoundError (msg : string)
  | StdException (msg : string)
  | UndefinedBehaviour (what : string)
  | OutOfFuel.

#[global] Instance error_eq_dec : EqDecision error.
Proof. solve_decision. Defined.

Inductive result (A : Type) :=
  | Ok (a : A)
  | Err (e : error).
Arguments Ok {A} a.
Arguments Err {A} e.

#[global] Instance result_eq_dec {A} `{EqDecision A} : EqDecision (result A).
Proof. solve_decision. Defined.

Definition result_bind {A B} (r : result A) (f : A -> result B) : result B :=
  match r with Ok a => f a | Err e => Err e end.

(** [ThrowIf<E>(c, msg)]. *)
Definition throw_if (c : bool) (e : error) : result unit := if c then Err e else Ok tt.

Definition of_option {A} (o : option A) (e : error) : result A :=
  match o with Some a => Ok a | None => Err e end.

Definition is_ok {A} (r : result A) : bool := match r with Ok _ => true | Err _ => false end.

(** * The state and exception monad *)

(** A C++ method that mutates its object and may throw: the state reached when an exception
    propagates is kept, since callers catch exceptions and go on using the object. *)
Definition M (S A : Type) : Type := S -> result A * S.

Section Monad.
Context {S : Type}.

Definition retM {A} (a : A) : M S A := fun s => (Ok a, s).
Definition throwM {A} (e : error) : M S A := fun s => (Err e, s).
Definition bindM {A B} (m : M S A) (f : A -> M S B) : M S B := fun s =>
  match m s with
  | (Ok a, s') => f a s'
  | (Err e, s') => (Err e, s')
  end.
Definition getM : M S S := fun s => (Ok s, s).
Definition readM {A} (f : S -> A) : M S A := fun s => (Ok (f s), s).
Definition modifyM (f : S -> S) : M S unit := fun s => (Ok tt, f s).
Definition liftM {A} (r : result A) : M S A := fun s => (r, s).
Definition throw_ifM (c : bool) (e : error) : M S unit := liftM (throw_if c e).
(** Run a method of a member object: [get] reads the member, [set] writes it back. *)
Definition zoomM {T A} (get : S -> T) (set : T -> S -> S) (m : M T A) : M S A := fun s =>
  let '(r, t) := m (get s) in (r, set t s).
(** [try { m } catch (std::exception& e) { h }]; undefined behaviour is not an exception. *)
Definition catchM {A} (m : M S A) (h : error -> M S A) : M S A := fun s =>
  match m s with
  | (Err (UndefinedBehaviour w), s') => (Err (UndefinedBehaviour w), s')
  | (Err OutOfFuel, s') => (Err OutOfFuel, s')
  | (Err e, s') => h e s'
  | (Ok a, s') => (Ok a, s')
  end.
Definition whenM (c : bool) (m : M S unit) : M S unit := if c then m else retM tt.
End Monad.

Declare Scope pdo_scope.
Delimit Scope pdo_scope with pdo.
Open Scope pdo_scope.

Notation "'let?' x := c 'in' k" := (result_bind c (fun x => k))
  (at level 10, x name, c at level 100, k at level 200) : pdo_scope.
Notation "'let?' ' p := c 'in' k" := (result_bind c (fun p => k))
  (at level 10, p pattern, c at level 100, k at level 200) : pdo_scope.
Notation "c ;;? k" := (result_bind c (fun _ => k))
  (at level 199, right associativity) : pdo_scope.
Notation "'let!' x := c 'in' k" := (bindM c (fun x => k))
  (at level 10, x name, c at level 100, k at level 200) : pdo_scope.
Notation "'let!' ' p := c 'in' k" := (bindM c (fun p => k))
  (at level 10, p pattern, c at level 100, k at level 200) : pdo_scope.
Notation "c ;;! k" := (bindM c (fun _ => k))
  (at level 199, right associativity) : pdo_scope.

(** * Sequences indexed by [Z] *)

Section Sequences.
Context {A : Type}.
Implicit Types (l v : list A) (i n : Z).

Definition zlen l : Z := Z.of_nat (length l).

(** [l.begin() + i .. l.begin() + i + n]. *)
Definition subseq l i n : list A := take (Z.to_nat n) (drop (Z.to_nat i) l).

(** [std::copy(v.begin(), v.end(), l.begin() + i)]. *)
Definition overwrite l i v : list A :=
  take (Z.to_nat i) l ++ v ++ drop (Z.to_nat i + length v) l.

(** [l[i]] of a vector; an index outside it has no meaning in C++. *)
Definition vec_get l i : result A :=
  if bool_decide (0 <= i)%Z
  then of_option (l !! Z.to_nat i) (UndefinedBehaviour "vector index out of range")
  else Err (UndefinedBehaviour "vector index out of range").

Definition vec_set l i (a : A) : result (list A) :=
  if bool_decide (0 <= i < zlen l)%Z then Ok (<[Z.to_nat i := a]> l)
  else Err (UndefinedBehaviour "vector index out of range").

(** [l.erase(l.begin() + i)]. *)
Definition vec_erase l i : result (list A) :=
  if bool_decide (0 <= i < zlen l)%Z
  then Ok (take (Z.to_nat i) l ++ drop (S (Z.to_nat i)) l)
  else Err (UndefinedBehaviour "erase out of range").
End Sequences.

(** * Shared lemmas *)

Create HintDb pdo.

Lemma u32_small z : (0 <= z < 2 ^ 32)%Z -> u32 z = z.
Proof. intros. by apply Z.mod_small. Qed.

Lemma u32_range z : (0 <= u32 z < 2 ^ 32)%Z.
Proof. apply Z.mod_pos_bound. lia. Qed.

Lemma u64_small z : (0 <= z < 2 ^ 64)%Z -> u64 z = z.
Proof. intros. by apply Z.mod_small. Qed.

Lemma zlen_nonneg {A} (l : list A) : (0 <= zlen l)%Z.
Proof. unfold zlen. lia. Qed.
#[export] Hint Resolve zlen_nonneg : pdo.

Lemma zlen_nil A : zlen (@nil A) = 0%Z.
Proof. done. Qed.

Lemma zlen_pos_not_nil {A} (l : list A) : (0 < zlen l)%Z -> l <> [].
Proof. destruct l; [intros Hl; by cbn in Hl|done]. Qed.

Lemma zlen_cons {A} (x : A) l : zlen (x :: l) = (1 + zlen l)%Z.
Proof. unfold zlen. cbn [length]. lia. Qed.

Lemma zlen_not_nil_pos {A} (l : list A) : l <> [] -> (0 < zlen l)%Z.
Proof. destruct l as [|x l]; [done|]. intros _. rewrite zlen_cons. pose proof (zlen_nonneg l). lia. Qed.

Lemma zlen_app {A} (l1 l2 : list A) : zlen (l1 ++ l2) = (zlen l1 + zlen l2)%Z.
Proof. unfold zlen. rewrite length_app. lia. Qed.

Lemma zlen_replicate {A} n (x : A) : zlen (replicate n x) = Z.of_nat n.
Proof. unfold zlen. by rewrite length_replicate. Qed.

Lemma zlen_insert {A} (l : list A) i x : zlen (<[i := x]> l) = zlen l.
Proof. unfold zlen. by rewrite length_insert. Qed.

Lemma zlen_le_split n z : zlen (le_split n z) = Z.of_nat n.
Proof. unfold zlen. by rewrite length_le_split. Qed.

Lemma zlen_subseq {A} (l : list A) i n :
  (0 <= i)%Z -> (0 <= n)%Z -> (i + n <= zlen l)%Z -> zlen (subseq l i n) = n.
Proof. unfold zlen, subseq. intros. rewrite length_take, length_drop. lia. Qed.

Lemma zlen_overwrite {A} (l : list A) i v :
  (0 <= i)%Z -> (i + zlen v <= zlen l)%Z -> zlen (overwrite l i v) = zlen l.
Proof.
  unfold zlen, overwrite. intros. rewrite !length_app, length_take, length_drop. lia.
Qed.
Create Rewrite HintDb zlen.
#[export] Hint Rewrite @zlen_nil @zlen_cons @zlen_app @zlen_replicate @zlen_insert zlen_le_split : zlen.

(** Lookup in a subsequence and in an overwritten sequence; the other facts follow from these. *)
Lemma lookup_subseq {A} (l : list A) i n (k : nat) :
  (Z.of_nat k < n)%Z -> subseq l i n !! k = l !! (Z.to_nat i + k).
Proof. intros. unfold subseq. rewrite lookup_take_lt by lia. by rewrite lookup_drop. Qed.

Lemma lookup_subseq_ge {A} (l : list A) i n (k : nat) :
  (n <= Z.of_nat k)%Z -> subseq l i n !! k = None.
Proof. intros. unfold subseq. rewrite lookup_take_ge by lia. done. Qed.

Lemma lookup_overwrite_in {A} (l : list A) i v (k : nat) :
  (0 <= i <= Z.of_nat k)%Z -> (Z.of_nat k < i + zlen v)%Z -> (i <= zlen l)%Z ->
  overwrite l i v !! k = v !! (k - Z.to_nat i).
Proof.
  unfold zlen, overwrite. intros.
  rewrite lookup_app_r by (rewrite length_take; lia).
  rewrite length_take, Nat.min_l by lia. rewrite lookup_app_l by lia. done.
Qed.

Lemma lookup_overwrite_out {A} (l : list A) i v (k : nat) :
  (0 <= i)%Z -> (i + zlen v <= zlen l)%Z -> (Z.of_nat k < i \/ i + zlen v <= Z.of_nat k)%Z ->
  overwrite l i v !! k = l !! k.
Proof.
  unfold zlen, overwrite. intros Hi Hl [Hk|Hk].
  - rewrite lookup_app_l by (rewrite length_take; lia). by rewrite lookup_take_lt by lia.
  - rewrite lookup_app_r, length_take, Nat.min_l by (rewrite ?length_take; lia).
    rewrite lookup_app_r by lia. rewrite lookup_drop. f_equal. lia.
Qed.

Lemma subseq_overwrite_same {A} (l : list A) i v :
  (0 <= i)%Z -> (i + zlen v <= zlen l)%Z -> subseq (overwrite l i v) i (zlen v) = v.
Proof.
  intros. apply list_eq. intros k. destruct (decide (Z.of_nat k < zlen v)%Z).
  - pose proof (zlen_nonneg v). rewrite lookup_subseq, lookup_overwrite_in by lia. f_equal. lia.
  - rewrite lookup_subseq_ge by lia. symmetry. apply lookup_ge_None. unfold zlen in *. lia.
Qed.

Lemma subseq_overwrite_disjoint {A} (l : list A) i v j n :
  (0 <= i)%Z -> (0 <= j)%Z -> (i + zlen v <= zlen l)%Z ->
  (j + n <= i \/ i + zlen v <= j)%Z -> subseq (overwrite l i v) j n = subseq l j n.
Proof.
  intros. apply list_eq. intros k. destruct (decide (Z.of_nat k < n)%Z).
  - rewrite !lookup_subseq by lia. apply lookup_overwrite_out; lia.
  - by rewrite !lookup_subseq_ge by lia.
Qed.

Lemma overwrite_overwrite_app {A} (l : list A) i v1 v2 :
  (0 <= i)%Z -> (i + zlen v1 + zlen v2 <= zlen l)%Z ->
  overwrite (overwrite l i v1) (i + zlen v1) v2 = overwrite l i (v1 ++ v2).
Proof.
  intros Hi Hl. unfold overwrite, zlen in *.
  replace (Z.to_nat (i + Z.of_nat (length v1))) with (Z.to_nat i + length v1) by lia.
  rewrite (app_assoc (take (Z.to_nat i) l)).
  rewrite take_app_length' by (rewrite length_app, length_take; lia).
  rewrite drop_app_ge by (rewrite length_app, length_take; lia).
  rewrite length_app, length_take, Nat.min_l by lia. rewrite drop_drop, !length_app.
  rewrite <-!app_assoc. do 4 f_equal. lia.
Qed.

Lemma overwrite_nil {A} (l : list A) i : overwrite l i [] = l.
Proof. unfold overwrite. cbn. rewrite Nat.add_0_r. apply take_drop. Qed.

Lemma subseq_subseq {A} (l : list A) i n j m :
  (0 <= i)%Z -> (0 <= j)%Z -> (j + m <= n)%Z -> subseq (subseq l i n) j m = subseq l (i + j) m.
Proof.
  intros. apply list_eq. intros k. destruct (decide (Z.of_nat k < m)%Z).
  - rewrite !lookup_subseq by lia. f_equal. lia.
  - by rewrite !lookup_subseq_ge by lia.
Qed.

Lemma subseq_all {A} (l : list A) n : n = zlen l -> subseq l 0 n = l.
Proof. intros ->. unfold subseq, zlen. rewrite Nat2Z.id. apply firstn_all. Qed.

Lemma subseq_app_l {A} (l1 l2 : list A) n :
  n = zlen l1 -> subseq (l1 ++ l2) 0 n = l1.
Proof. intros ->. unfold subseq, zlen. rewrite Nat2Z.id. cbn. apply take_app_length. Qed.

Lemma subseq_app_r {A} (l1 l2 : list A) i n :
  (zlen l1 <= i)%Z -> subseq (l1 ++ l2) i n = subseq l2 (i - zlen l1) n.
Proof.
  unfold subseq, zlen. intros. rewrite drop_app_ge by lia. do 2 f_equal. lia.
Qed.

Lemma le_combine_split_small n z :
  (0 <= z < 2 ^ (8 * Z.of_nat n))%Z -> le_combine (le_split n z) = z.
Proof. intros. rewrite le_combine_split. apply Z.mod_small. by rewrite Z.mul_comm. Qed.

(** Induction two elements at a time. *)
Lemma list_pair_ind {A} (P : list A -> Prop) :
  P [] -> (forall a, P [a]) -> (forall a b l, P l -> P (a :: b :: l)) -> forall l, P l.
Proof.
  intros H0 H1 H2. fix IH 1. intros [|a [|b l]]; [exact H0|apply H1|apply H2, IH].
Qed.

Lemma list_triple_ind {A} (P : list A -> Prop) :
  P [] -> (forall a, P [a]) -> (forall a b, P [a; b]) ->
  (forall a b c l, P l -> P (a :: b :: c :: l)) -> forall l, P l.
Proof.
  intros H0 H1 H2 H3. fix IH 1. intros [|a [|b [|c l]]]; [exact H0|apply H1|apply H2|apply H3, IH].
Qed.

(** ** Tactics *)

(** Case on every [bool_decide] and every [throw_if] guard in the goal or a hypothesis. *)
Ltac split_guard :=
  match goal with
  | |- context [bool_decide ?P] => destruct (bool_decide_reflect P)
  | H : context [bool_decide ?P] |- _ => destruct (bool_decide_reflect P)
  end.

(** Decide a guard whose truth value follows by arithmetic or congruence. *)
Ltac guard_true := rewrite bool_decide_eq_true_2 by (first [done | lia | congruence]).
Ltac guard_false := rewrite bool_decide_eq_false_2 by (first [done | lia | congruence]).
Ltac guards := repeat first [guard_false | guard_true]; cbn [throw_if result_bind orb andb negb].

(** What passed guards say. *)
Ltac guard_facts :=
  repeat match goal with
  | H : negb ?b = false |- _ => apply negb_false_iff in H
  | H : bool_decide _ = false |- _ => apply bool_decide_eq_false in H
  | H : bool_decide _ = true |- _ => apply bool_decide_eq_true in H
  end.

(** Run the monad's combinators, leaving every other definition folded. *)
Ltac run_monad :=
  cbv beta iota zeta delta [bindM getM readM modifyM liftM throw_ifM whenM retM throwM throw_if zoomM].
Ltac run_monad_in H :=
  cbv beta iota zeta delta [bindM getM readM modifyM liftM throw_ifM whenM retM throwM throw_if zoomM] in H.

(** Split an equation [result_bind r f = Ok x] into the success of its parts. *)
Ltac result_inv :=
  repeat match goal with
  | H : result_bind ?r _ = Ok _ |- _ =>
      let E := fresh "E" in destruct r eqn:E; cbn [result_bind] in H; [|discriminate]
  | H : throw_if ?c _ = Ok _ |- _ => destruct c eqn:?; cbn [throw_if] in H; [discriminate|clear H]
  | H : Ok _ = Ok _ |- _ => injection H as H; subst
  end.

(** [::tolower] of the C locale. *)
Definition tolower (b : Init.Byte.byte) : Init.Byte.byte :=
  let z := byte.unsigned b in
  if bool_decide (65 <= z <= 90)%Z then byte.of_Z (z + 32) else b.

(** * What a successful run went through *)

Lemma bind_ok {S A B} (m : M S A) (f : A -> M S B) s b s' :
  bindM m f s = (Ok b, s') -> exists a s1, m s = (Ok a, s1) /\ f a s1 = (Ok b, s').
Proof. unfold bindM. destruct (m s) as [[a|e] s1]; [eauto|done]. Qed.

Lemma zoom_ok {S T A} (get : S -> T) set (m : M T A) s a s' :
  zoomM get set m s = (Ok a, s') -> exists t, m (get s) = (Ok a, t) /\ s' = set t s.
Proof. unfold zoomM. destruct (m (get s)) as [r t]. intros [= -> <-]. eauto. Qed.
