(* ===== verification/Crypto.v ===== *)
(** Symmetric encryption, hashing and randomness: common/crypto/skenc.cpp, hash.cpp and
    crypto_utils.cpp.  OpenSSL itself is the parameter [OpenSSL]; the checks, the framing of the
    ciphertext and the errors around it are the source's. *)
From S2P Require Import Prelude.

(** * OpenSSL *)

(** The calls that can fail, in the order skenc.cpp makes them. *)
Inductive evp_stage :=
  | EvpContext | EvpInitCipher | EvpInitKey | EvpUpdate | EvpFinal | EvpTag.

(** What the code uses of OpenSSL: one-shot digests and HMACs, the AES-128-GCM pipelines (which
    report the first call that fails) and [RAND_bytes], whose [n]-th call is [rand_bytes n]. *)
Class OpenSSL := {
  sha256 : bytes -> bytes;
  sha384 : bytes -> bytes;
  sha512 : bytes -> bytes;
  hmac_sha256 : bytes -> bytes -> bytes;
  hmac_sha384 : bytes -> bytes -> bytes;
  hmac_sha512 : bytes -> bytes -> bytes;
  pbkdf2_sha512 : bytes -> bytes -> Z -> option bytes;
  gcm_encrypt : bytes -> bytes -> bytes -> evp_stage + bytes * bytes;
  gcm_decrypt : bytes -> bytes -> bytes -> bytes -> evp_stage + bytes;
  rand_bytes : nat -> Z -> option bytes;
}.

Definition IV_LEN : Z := 12.
Definition SYM_KEY_LEN : Z := 16.
Definition TAG_LEN : Z := 16.
Definition SHA256_DIGEST_LENGTH : Z := 32.
Definition SHA384_DIGEST_LENGTH : Z := 48.
Definition PBDK_Iterations : Z := 10000.

(** Documented behaviour of OpenSSL: digests have their length, [RAND_bytes] fills the buffer,
    encryption under a key and an IV of the right length succeeds with a 16-byte tag and a ciphertext
    as long as the message, and decrypting what was encrypted under the same key and IV gives the message back. *)
Class OpenSSLLaws `{OpenSSL} : Prop := {
  sha256_length m : zlen (sha256 m) = SHA256_DIGEST_LENGTH;
  rand_bytes_length n len : (1 <= len)%Z -> exists b, rand_bytes n len = Some b /\ zlen b = len;
  gcm_encrypt_ok key iv m :
    zlen key = SYM_KEY_LEN -> zlen iv = IV_LEN -> m <> [] ->
    exists tag ct, gcm_encrypt key iv m = inr (tag, ct) /\ zlen tag = TAG_LEN /\ zlen ct = zlen m;
  gcm_decrypt_encrypt key iv m tag ct :
    gcm_encrypt key iv m = inr (tag, ct) -> gcm_decrypt key iv tag ct = inr m;
}.

Section Crypto.
Context `{OpenSSL}.

(** ** hash.cpp *)

Definition SHA256Hash (message : bytes) : bytes := sha256 message.
Definition SHA384Hash (message : bytes) : bytes := sha384 message.
Definition SHA512Hash (message : bytes) : bytes := sha512 message.

Definition ComputeMessageHash (message : bytes) : bytes := SHA256Hash message.

Definition SHA256HMAC (message key : bytes) : bytes := hmac_sha256 key message.
Definition SHA384HMAC (message key : bytes) : bytes := hmac_sha384 key message.
Definition SHA512HMAC (message key : bytes) : bytes := hmac_sha512 key message.

Definition ComputeMessageHMAC (key message : bytes) : bytes := SHA256HMAC message key.

Definition SHA512PasswordBasedKeyDerivation (password salt : bytes) : result bytes :=
  of_option (pbkdf2_sha512 password salt PBDK_Iterations) (RuntimeError "password derivation failed").

Definition ComputePasswordBasedKeyDerivation (password salt : bytes) : result bytes :=
  SHA512PasswordBasedKeyDerivation password salt.

(** ** crypto_utils.cpp; the state is the number of [RAND_bytes] calls made so far. *)

Definition RandomBitString (length : Z) : M nat bytes :=
  throw_ifM (bool_decide (length < 1)%Z)
    (ValueError "Crypto Error (RandomBitString): length argument must be at least 1") ;;!
  let! n := getM in
  modifyM S ;;!
  liftM (of_option (rand_bytes n length) (RuntimeError "Crypto Error (RandomBitString): ")).

(** ** skenc.cpp *)

Definition GenerateKey : M nat bytes := RandomBitString SYM_KEY_LEN.

Definition GenerateIV (IVstring : bytes) : M nat bytes :=
  if bool_decide (IVstring = []) then RandomBitString IV_LEN
  else retM (take (Z.to_nat IV_LEN) (SHA256Hash IVstring)).

Definition encrypt_failure (s : evp_stage) : error :=
  match s with
  | EvpContext => RuntimeError "Crypto Error (EncryptMessage): OpenSSL could not create new EVP_CIPHER_CTX"
  | EvpInitCipher => RuntimeError "Crypto Error (EncryptMessage): OpenSSL could not initialize EVP_CIPHER_CTX with AES-GCM"
  | EvpInitKey => RuntimeError "Crypto Error (EncryptMessage): OpenSSL could not initialize AES-GCM key and IV"
  | EvpUpdate => RuntimeError "Crypto Error (EncryptMessage): OpenSSL could not update AES-GCM encryption"
  | EvpFinal => RuntimeError "Crypto Error (EncryptMessage): OpenSSL could not finalize AES-GCM encryption"
  | EvpTag => RuntimeError "Crypto Error (EncryptMessage): OpenSSL could not get AES-GCM TAG"
  end.

(** [EncryptMessage(key, iv, message)]: the tag followed by the ciphertext. *)
Definition EncryptMessage_iv (key iv message : bytes) : result bytes :=
  throw_if (bool_decide (zlen key ≠ SYM_KEY_LEN))
    (ValueError "Crypto Error (EncryptMessage): Wrong AES-GCM key length") ;;?
  throw_if (bool_decide (zlen iv ≠ IV_LEN))
    (ValueError "Crypto Error (EncryptMessage): Wrong AES-GCM IV length") ;;?
  throw_if (bool_decide (zlen message = 0%Z))
    (ValueError "Crypto Error (EncryptMessage): Cannot encrypt the empty message") ;;?
  match gcm_encrypt key iv message with
  | inl stage => Err (encrypt_failure stage)
  | inr (tag, ct) => Ok (tag ++ ct)
  end.

(** [EncryptMessage(key, message)]: a random IV, then the tag and the ciphertext. *)
Definition EncryptMessage (key message : bytes) : M nat bytes :=
  throw_ifM (bool_decide (zlen message = 0%Z))
    (ValueError "Crypto Error (EncryptMessage): Cannot encrypt the empty message") ;;!
  throw_ifM (bool_decide (zlen key ≠ SYM_KEY_LEN))
    (ValueError "Crypto Error (EncryptMessage): Wrong AES-GCM key length") ;;!
  let! iv := GenerateIV [] in
  let! ct := liftM (EncryptMessage_iv key iv message) in
  retM (iv ++ ct).

Definition decrypt_failure (s : evp_stage) : error :=
  match s with
  | EvpContext => RuntimeError "Crypto Error (DecryptMessage): OpenSSL could not create new EVP_CIPHER_CTX"
  | EvpInitCipher => RuntimeError "Crypto Error (DecryptMessage): OpenSSL could not initialize EVP_CIPHER_CTX with AES-GCM"
  | EvpInitKey => RuntimeError "Crypto Error (DecryptMessage): OpenSSL could not initialize AES-GCM key and IV"
  | EvpUpdate => RuntimeError "Crypto Error (DecryptMessage): OpenSSL could not decrypt with AES-GCM"
  | EvpTag => RuntimeError "Crypto Error (DecryptMessage): OpenSSL could not get AES-GCM TAG"
  | EvpFinal => CryptoError "Crypto Error (DecryptMessage): AES_GCM authentication failed, plaintext is not trustworthy"
  end.

(** [DecryptMessage(key, iv, message)]: the message starts with the tag. *)
Definition DecryptMessage_iv (key iv message : bytes) : result bytes :=
  throw_if (bool_decide (zlen key ≠ SYM_KEY_LEN))
    (ValueError "Crypto Error (DecryptMessage): Wrong AES-GCM key length") ;;?
  throw_if (bool_decide (zlen iv ≠ IV_LEN))
    (ValueError "Crypto Error (DecryptMessage): Wrong AES-GCM IV length") ;;?
  throw_if (bool_decide (zlen message < TAG_LEN)%Z)
    (ValueError "Crypto Error (DecryptMessage): AES-GCM message smaller than minimum length (TAG length)") ;;?
  match gcm_decrypt key iv (subseq message 0 TAG_LEN) (drop (Z.to_nat TAG_LEN) message) with
  | inl stage => Err (decrypt_failure stage)
  | inr pt => Ok pt
  end.

(** [DecryptMessage(key, message)]: the message starts with the IV and the tag. *)
Definition DecryptMessage (key message : bytes) : result bytes :=
  throw_if (bool_decide (zlen key ≠ SYM_KEY_LEN))
    (ValueError "Crypto Error (DecryptMessage): Wrong AES-GCM key length") ;;?
  throw_if (bool_decide (zlen message < IV_LEN + TAG_LEN)%Z)
    (ValueError "Crypto Error (DecryptMessage): AES-GCM message smaller than minimum length (IV length + TAG length)") ;;?
  match gcm_decrypt key (subseq message 0 IV_LEN) (subseq message IV_LEN TAG_LEN)
          (drop (Z.to_nat (IV_LEN + TAG_LEN)) message) with
  | inl stage => Err (decrypt_failure stage)
  | inr pt => Ok pt
  end.
End Crypto.

(** * Encryption and decryption *)

Section CryptoFacts.
Context `{OL : OpenSSLLaws}.

Lemma RandomBitString_ok len n : (1 <= len)%Z ->
  exists b, RandomBitString len n = (Ok b, S n) /\ zlen b = len.
Proof.
  intros Hlen. destruct (rand_bytes_length n len Hlen) as (b & Hb & Hl). exists b. split; [|done].
  unfold RandomBitString, throw_ifM, bindM, liftM, getM, modifyM. guards. by rewrite Hb.
Qed.

Lemma EncryptMessage_iv_ok key iv m :
  zlen key = SYM_KEY_LEN -> zlen iv = IV_LEN -> m <> [] ->
  exists tag ct, EncryptMessage_iv key iv m = Ok (tag ++ ct) /\ gcm_encrypt key iv m = inr (tag, ct) /\
    zlen tag = TAG_LEN /\ zlen ct = zlen m.
Proof.
  intros Hk Hiv Hm. destruct (gcm_encrypt_ok key iv m Hk Hiv Hm) as (tag & ct & He & Ht & Hc).
  exists tag, ct. split; [|done]. unfold EncryptMessage_iv.
  assert (zlen m <> 0%Z) by (by destruct m). guards. by rewrite He.
Qed.

Lemma drop_app_zlen {A} (l1 l2 : list A) n : n = zlen l1 -> drop (Z.to_nat n) (l1 ++ l2) = l2.
Proof. intros ->. unfold zlen. by rewrite Nat2Z.id, drop_app_length. Qed.

Lemma DecryptMessage_iv_ok key iv m tag ct :
  zlen key = SYM_KEY_LEN -> zlen iv = IV_LEN -> zlen tag = TAG_LEN ->
  gcm_encrypt key iv m = inr (tag, ct) -> DecryptMessage_iv key iv (tag ++ ct) = Ok m.
Proof.
  intros Hk Hiv Ht He. unfold DecryptMessage_iv. rewrite zlen_app.
  pose proof (zlen_nonneg ct). guards.
  by rewrite subseq_app_l, drop_app_zlen, (gcm_decrypt_encrypt _ _ _ _ _ He) by done.
Qed.

Lemma EncryptMessage_ok key m n :
  zlen key = SYM_KEY_LEN -> m <> [] ->
  exists c, EncryptMessage key m n = (Ok c, S n) /\ DecryptMessage key c = Ok m /\
    zlen c = (IV_LEN + TAG_LEN + zlen m)%Z.
Proof.
  intros Hk Hm. destruct (RandomBitString_ok IV_LEN n ltac:(done)) as (iv & Hiv & Hl).
  destruct (EncryptMessage_iv_ok key iv m Hk Hl Hm) as (tag & ct & He & Hg & Ht & Hc).
  exists (iv ++ tag ++ ct). split; [|split].
  - unfold EncryptMessage, throw_ifM, bindM, liftM, retM. assert (zlen m <> 0%Z) by (by destruct m).
    guards. change (GenerateIV [] n) with (RandomBitString IV_LEN n). by rewrite Hiv, He.
  - unfold DecryptMessage. rewrite !zlen_app. pose proof (zlen_nonneg ct). guards.
    rewrite subseq_app_l by done. rewrite subseq_app_r by (rewrite Hl; done).
    rewrite Hl, Z.sub_diag, subseq_app_l by done.
    rewrite app_assoc, drop_app_zlen by (rewrite zlen_app; lia).
    by rewrite (gcm_decrypt_encrypt _ _ _ _ _ Hg).
  - rewrite !zlen_app. lia.
Qed.
End CryptoFacts.

(** * Properties *)

(** Under the documented behaviour of OpenSSL, encrypting a non-empty message under a key of the
    right length succeeds, draws one random IV, and gives IV, tag and ciphertext, which decrypt to the
    message; the form with an explicit IV round trips as well. *)
Theorem encrypt_decrypt_roundtrip `{OpenSSLLaws} key iv m n :
  zlen key = SYM_KEY_LEN -> zlen iv = IV_LEN -> m <> [] ->
  (exists c, EncryptMessage key m n = (Ok c, S n) /\ DecryptMessage key c = Ok m /\
     zlen c = (IV_LEN + TAG_LEN + zlen m)%Z) /\
  (exists c, EncryptMessage_iv key iv m = Ok c /\ DecryptMessage_iv key iv c = Ok m).
Proof.
  intros Hk Hiv Hm. split; [by apply EncryptMessage_ok|].
  destruct (EncryptMessage_iv_ok key iv m) as (tag & ct & He & Hg & Ht & _); [done..|].
  exists (tag ++ ct). split; [done|]. by apply DecryptMessage_iv_ok.
Qed.

(** Whatever OpenSSL answers, encryption and decryption refuse a key or a message of the wrong
    length with a ValueError, encryption without drawing randomness; a plaintext is only returned when
    the tag check passed, and a failed tag check is a CryptoError. *)
Theorem skenc_input_checks `{OpenSSL} key m n :
  ((zlen key <> SYM_KEY_LEN \/ m = []) ->
     exists msg, EncryptMessage key m n = (Err (ValueError msg), n)) /\
  ((zlen key <> SYM_KEY_LEN \/ zlen m < IV_LEN + TAG_LEN)%Z ->
     exists msg, DecryptMessage key m = Err (ValueError msg)) /\
  (forall pt, DecryptMessage key m = Ok pt ->
     gcm_decrypt key (subseq m 0 IV_LEN) (subseq m IV_LEN TAG_LEN)
       (drop (Z.to_nat (IV_LEN + TAG_LEN)) m) = inr pt) /\
  (zlen key = SYM_KEY_LEN -> (IV_LEN + TAG_LEN <= zlen m)%Z ->
   gcm_decrypt key (subseq m 0 IV_LEN) (subseq m IV_LEN TAG_LEN)
       (drop (Z.to_nat (IV_LEN + TAG_LEN)) m) = inl EvpFinal ->
   exists msg, DecryptMessage key m = Err (CryptoError msg)).
Proof.
  split; [|split; [|split]].
  - intros Hbad. unfold EncryptMessage, throw_ifM, bindM, liftM.
    destruct m as [|x m]; [eexists; reflexivity|]. destruct Hbad as [Hbad|]; [|done].
    rewrite bool_decide_eq_false_2 by (rewrite zlen_cons; pose proof (zlen_nonneg m); lia).
    guards. eexists; reflexivity.
  - intros Hbad. unfold DecryptMessage. repeat (case_bool_decide; cbn [throw_if result_bind]; [eauto|]).
    lia.
  - intros pt. unfold DecryptMessage. intros Hd. result_inv.
    destruct (gcm_decrypt _ _ _ _) as [st|p]; [done|]. by injection Hd as ->.
  - intros Hk Hm Hg. unfold DecryptMessage. guards. rewrite Hg. eexists; reflexivity.
Qed.
