(* ===== verification/BlockStore.v ===== *)
(** Block storage: the interface of common/packages/block_store/block_store.h, its LMDB
    implementation (lmdb_block_store.cpp, LMDB is the parameter [LMDB]), the enclave's wrapper over
    ocalls (eservice/lib/libpdo_enclave/block_store.cpp) and the secure block IO of
    common/state/sebio.cpp on top of the interface. *)
From S2P Require Import Prelude Crypto.

(** * Status codes *)

(** pdo_error.h; the numeric codes are kept where the code tests them. *)
Inductive pdo_err_t :=
  | PDO_SUCCESS | PDO_ERR_UNKNOWN | PDO_ERR_MEMORY | PDO_ERR_IO | PDO_ERR_RUNTIME | PDO_ERR_INDEX
  | PDO_ERR_DIVIDE_BY_ZERO | PDO_ERR_OVERFLOW | PDO_ERR_VALUE | PDO_ERR_SYSTEM
  | PDO_ERR_SYSTEM_BUSY | PDO_ERR_CRYPTO | PDO_ERR_NOTFOUND.

#[global] Instance pdo_err_eq_dec : EqDecision pdo_err_t.
Proof. solve_decision. Defined.

(** state_status.h. *)
Inductive state_status_t :=
  | STATE_SUCCESS | STATE_ERR_UNKNOWN | STATE_ERR_MEMORY | STATE_ERR_IO | STATE_ERR_RUNTIME
  | STATE_ERR_INDEX | STATE_ERR_DIVIDE_BY_ZERO | STATE_ERR_OVERFLOW | STATE_ERR_VALUE
  | STATE_ERR_SYSTEM | STATE_ERR_UNIMPLEMENTED | STATE_ERR_NOT_FOUND
  | STATE_ERR_BLOCK_AUTHENTICATION | STATE_EOD.

#[global] Instance state_status_eq_dec : EqDecision state_status_t.
Proof. solve_decision. Defined.

(** * The interface *)

(** [BlockStoreGet(id, value)] and [BlockStorePut(id, value)] of block_store.h, as state passing on
    an abstract store.  Nothing is assumed of a store here: the host that serves it is untrusted. *)
Class BlockStore := {
  store : Type;
  BlockStoreGet : store -> bytes -> result (pdo_err_t * bytes);
  BlockStorePut : store -> bytes -> bytes -> result pdo_err_t * store;
}.

(** An honest store on which no call fails: a put succeeds, is read back, and leaves other blocks alone. *)
Class BlockStoreLaws (B : BlockStore) : Prop := {
  store_put_ok s id v : (zlen v < 2 ^ 64)%Z -> exists s', BlockStorePut s id v = (Ok PDO_SUCCESS, s') /\
    BlockStoreGet s' id = Ok (PDO_SUCCESS, v) /\
    forall id', id' <> id -> BlockStoreGet s' id' = BlockStoreGet s id';
}.

(** * lmdb_block_store.cpp *)

Inductive mdb_status := MDB_SUCCESS | MDB_NOTFOUND | MDB_ERROR.

#[global] Instance mdb_status_eq_dec : EqDecision mdb_status.
Proof. solve_decision. Defined.

(** What the code uses of LMDB: begin a transaction on the environment and open the two databases
    ([None] when one of the three calls fails), read and write in it, and commit it.  [mdb_txn] is the
    transaction's view of both databases; the boolean selects the metadata database.  A put can fail
    (MDB_BAD_VALSIZE, MDB_MAP_FULL, MDB_TXN_FULL, ...) and so can a commit (EIO, ENOSPC, ENOMEM). *)
Class LMDB := {
  mdb_env : Type;
  mdb_txn : Type;
  mdb_begin : mdb_env -> option mdb_txn;
  mdb_get : mdb_txn -> bool -> bytes -> mdb_status * bytes;
  mdb_put : mdb_txn -> bool -> bytes -> bytes -> mdb_status * mdb_txn;
  mdb_commit : mdb_env -> mdb_txn -> mdb_status * mdb_env;
  gettimeofday_sec : mdb_env -> Z;
}.

(** Documented behaviour of LMDB, per outcome: a put that succeeds is seen by the transaction; a commit
    that succeeds makes the transaction's view the one of the transactions begun after it, and one that
    fails leaves the view of those begun before. *)
Class LMDBLaws (L : LMDB) : Prop := {
  mdb_put_done t db k v t' : mdb_put t db k v = (MDB_SUCCESS, t') ->
    mdb_get t' db k = (MDB_SUCCESS, v) /\
    forall db' k', (db', k') <> (db, k) -> mdb_get t' db' k' = mdb_get t db' k';
  mdb_commit_done e t e' t' : mdb_commit e t = (MDB_SUCCESS, e') -> mdb_begin e' = Some t' ->
    forall db k, mdb_get t' db k = mdb_get t db k;
  mdb_commit_failed e t r e' t0 t' : mdb_commit e t = (r, e') -> r <> MDB_SUCCESS ->
    mdb_begin e = Some t0 -> mdb_begin e' = Some t' -> forall db k, mdb_get t' db k = mdb_get t0 db k;
}.

(** An idealisation that LMDB does not promise, under which the store is an honest one: no call fails. *)
Class LMDBNeverFails (L : LMDB) : Prop := {
  mdb_begin_ok e : is_Some (mdb_begin e);
  mdb_put_ok t db k v : (mdb_put t db k v).1 = MDB_SUCCESS;
  mdb_commit_ok e t : (mdb_commit e t).1 = MDB_SUCCESS;
}.

Module lmdb_block_store.
Section Lmdb.
Context {L : LMDB}.

Definition MINIMUM_EXPIRATION_TIME : Z := 60.

(** [BlockMetaData] of block_store.h and its in-memory image, four 64-bit words. *)
Record BlockMetaData := {
  block_size_ : Z;
  create_time_ : Z;
  expiration_time_ : Z;
  tag_ : Z;
}.

Definition BlockMetaData_bytes (m : BlockMetaData) : bytes :=
  le_split 8 m.(block_size_) ++ le_split 8 m.(create_time_) ++
  le_split 8 m.(expiration_time_) ++ le_split 8 m.(tag_).

Definition BlockMetaData_of_bytes (b : bytes) : BlockMetaData := {|
  block_size_ := le_combine (subseq b 0 8);
  create_time_ := le_combine (subseq b 8 8);
  expiration_time_ := le_combine (subseq b 16 8);
  tag_ := le_combine (subseq b 24 8);
|}.

(** The output buffer is [out], of size [zlen out]; the data is copied over its start. *)
Definition get_data (t : mdb_txn) (db : bool) (inId out : bytes) : pdo_err_t * bytes :=
  match mdb_get t db inId with
  | (MDB_NOTFOUND, _) => (PDO_ERR_NOTFOUND, out)
  | (MDB_ERROR, _) => (PDO_ERR_SYSTEM, out)
  | (MDB_SUCCESS, data) =>
      if bool_decide (zlen out < zlen data)%Z then (PDO_ERR_SYSTEM, out)
      else (PDO_SUCCESS, overwrite out 0 data)
  end.

Definition put_data (t : mdb_txn) (db : bool) (inId inValue : bytes) : pdo_err_t * mdb_txn :=
  match mdb_put t db inId inValue with
  | (MDB_SUCCESS, t') => (PDO_SUCCESS, t')
  | (_, t') => (PDO_ERR_SYSTEM, t')
  end.

Definition get_metadata (t : mdb_txn) (inId : bytes) : pdo_err_t * BlockMetaData :=
  let '(r, b) := get_data t true inId (replicate 32 Byte.x00) in (r, BlockMetaData_of_bytes b).

Definition put_metadata (t : mdb_txn) (inId : bytes) (m : BlockMetaData) : pdo_err_t * mdb_txn :=
  put_data t true inId (BlockMetaData_bytes m).

(** [SafeTransaction]'s constructor. *)
Definition SafeTransaction (e : mdb_env) : result mdb_txn :=
  of_option (mdb_begin e) (SystemError "failed to open LMDB transaction").

Definition BlockStoreHead_meta (e : mdb_env) (inId : bytes) :
  result (pdo_err_t * bool * BlockMetaData) :=
  let? t := SafeTransaction e in
  match get_metadata t inId with
  | (PDO_ERR_NOTFOUND, m) => Ok (PDO_SUCCESS, false, m)
  | (PDO_SUCCESS, m) => Ok (PDO_SUCCESS, true, m)
  | (r, m) => Ok (r, false, m)
  end.

Definition BlockStoreHead (e : mdb_env) (inId : bytes) : result (pdo_err_t * bool * Z) :=
  let? '(r, present, m) := BlockStoreHead_meta e inId in
  Ok (r, present, if bool_decide (r = PDO_SUCCESS) then m.(block_size_) else 0%Z).

Definition BlockStoreGet_buf (e : mdb_env) (inId out : bytes) : result (pdo_err_t * bytes) :=
  let? t := SafeTransaction e in
  let '(r, m) := get_metadata t inId in
  if bool_decide (r ≠ PDO_SUCCESS) then Ok (r, out)
  else if bool_decide (zlen out < m.(block_size_))%Z then Ok (PDO_ERR_VALUE, out)
  else Ok (get_data t false inId out).

(** [SafeTransaction::commit] does not look at the status of the commit. *)
Definition commit (e : mdb_env) (t : mdb_txn) : mdb_env := (mdb_commit e t).2.

Definition BlockStorePut (e : mdb_env) (inId inValue : bytes) : result pdo_err_t * mdb_env :=
  match SafeTransaction e with
  | Err x => (Err x, e)
  | Ok t =>
      match put_data t false inId inValue with
      | (PDO_SUCCESS, t1) =>
          let now := gettimeofday_sec e in
          let m := {| block_size_ := zlen inValue; create_time_ := now;
                      expiration_time_ := now + MINIMUM_EXPIRATION_TIME; tag_ := 0 |} in
          match put_metadata t1 inId m with
          | (PDO_SUCCESS, t2) => (Ok PDO_SUCCESS, commit e t2)
          | (r, _) => (Ok r, e)
          end
      | (r, _) => (Ok r, e)
      end
  end.

(** The [ByteArray] overload. *)
Definition BlockStoreGet (e : mdb_env) (inId : bytes) : result (pdo_err_t * bytes) :=
  let? '(r, present, size) := BlockStoreHead e inId in
  if bool_decide (r ≠ PDO_SUCCESS) then Ok (r, [])
  else if negb present then Ok (PDO_ERR_VALUE, [])
  else BlockStoreGet_buf e inId (replicate (Z.to_nat size) Byte.x00).

#[global] Instance lmdb_store : BlockStore := {|
  store := mdb_env;
  BlockStore.BlockStoreGet := BlockStoreGet;
  BlockStore.BlockStorePut := BlockStorePut;
|}.
End Lmdb.
End lmdb_block_store.

(** * eservice/lib/libpdo_enclave/block_store.cpp *)

(** The untrusted host behind the ocalls.  [None] is an SGX failure of the ocall itself; the value
    buffer of [ocall_BlockStoreGet] is [out, size=inValueSize], so whatever the host writes the
    enclave sees exactly the requested number of bytes. *)
Class OcallHost := {
  host : Type;
  ocall_BlockStoreHead : host -> bytes -> option (pdo_err_t * bool * Z);
  ocall_BlockStoreGet : host -> bytes -> Z -> option (pdo_err_t * bytes);
  ocall_BlockStorePut : host -> bytes -> bytes -> option pdo_err_t * host;
}.

Module enclave_block_store.
Section Enclave.
Context {H : OcallHost}.

Definition BlockStoreHead (h : host) (inId : bytes) : result (pdo_err_t * bool * Z) :=
  match ocall_BlockStoreHead h inId with
  | None => Err (RuntimeError "sgx failed during head request on the block store")
  | Some (ret, present, size) =>
      throw_if (bool_decide (ret ≠ PDO_SUCCESS))
        (RuntimeError "head request failed on the block store") ;;?
      Ok (PDO_SUCCESS, present, size)
  end.

Definition BlockStoreGet_buf (h : host) (inId : bytes) (inValueSize : Z) :
  result (pdo_err_t * bytes) :=
  match ocall_BlockStoreGet h inId inValueSize with
  | None => Err (RuntimeError "sgx failed during get request on the block store")
  | Some (ret, value) =>
      throw_if (bool_decide (ret ≠ PDO_SUCCESS))
        (RuntimeError "get request failed on the block store") ;;?
      Ok (PDO_SUCCESS, take (Z.to_nat inValueSize)
                         (value ++ replicate (Z.to_nat inValueSize) Byte.x00))
  end.

Definition BlockStorePut (h : host) (inId inValue : bytes) : result pdo_err_t * host :=
  match ocall_BlockStorePut h inId inValue with
  | (None, h') => (Err (RuntimeError "sgx failed during put to the block store"), h')
  | (Some ret, h') =>
      (throw_if (bool_decide (ret ≠ PDO_SUCCESS))
         (RuntimeError "failed to put to the block store") ;;? Ok PDO_SUCCESS, h')
  end.

(** The [ByteArray] overload. *)
Definition BlockStoreGet (h : host) (inId : bytes) : result (pdo_err_t * bytes) :=
  let? '(r, present, size) := BlockStoreHead h inId in
  if bool_decide (r ≠ PDO_SUCCESS) then Ok (r, [])
  else if negb present then Ok (PDO_ERR_VALUE, [])
  else BlockStoreGet_buf h inId size.

#[global] Instance enclave_store : BlockStore := {|
  store := host;
  BlockStore.BlockStoreGet := BlockStoreGet;
  BlockStore.BlockStorePut := BlockStorePut;
|}.
End Enclave.

(** The host of ocall.cpp, which serves the ocalls from the LMDB store. *)
Definition ocall_host {L : LMDB} : OcallHost := {|
  host := mdb_env;
  ocall_BlockStoreHead e id :=
    match lmdb_block_store.BlockStoreHead e id with Ok r => Some r | Err _ => None end;
  ocall_BlockStoreGet e id size :=
    match lmdb_block_store.BlockStoreGet_buf e id (replicate (Z.to_nat size) Byte.x00) with
    | Ok r => Some r | Err _ => None end;
  ocall_BlockStorePut e id v :=
    let '(r, e') := lmdb_block_store.BlockStorePut e id v in
    (match r with Ok r => Some r | Err _ => None end, e');
|}.
End enclave_block_store.

(** * common/state/sebio.cpp *)

Inductive sebio_crypto_algo_e := SEBIO_NO_CRYPTO | SEBIO_AES_GCM.

#[global] Instance sebio_crypto_algo_eq_dec : EqDecision sebio_crypto_algo_e.
Proof. solve_decision. Defined.

(** The process-wide context; the two function pointers are always the block-store functions below
    (only a test installs others). *)
Record sebio_ctx_t := { ctx_key : bytes; ctx_crypto_algo : sebio_crypto_algo_e }.

Definition sebio_ctx_default : sebio_ctx_t :=
  {| ctx_key := []; ctx_crypto_algo := SEBIO_NO_CRYPTO |}.

(** The world outside a key value store: the block store, the number of [RAND_bytes] calls, the sebio
    context, and a history variable with every block handed to the block store, which no code reads
    and which the theorems use to say that no two of them collide. *)
Record world `{BlockStore} := mk_world {
  w_store : store;
  w_rng : nat;
  w_ctx : sebio_ctx_t;
  w_evicted : list bytes;
}.

Section Sebio.
Context `{OpenSSL, BlockStore}.

Definition sebio_set (ctx : sebio_ctx_t) : M world state_status_t :=
  modifyM (fun w => mk_world _ w.(w_store) w.(w_rng) ctx w.(w_evicted)) ;;!
  retM STATE_SUCCESS.

Definition w_encrypt (key message : bytes) : M world bytes :=
  zoomM w_rng (fun n w => mk_world _ w.(w_store) n w.(w_ctx) w.(w_evicted))
    (EncryptMessage key message).

Definition w_put (id block : bytes) : M world pdo_err_t := fun w =>
  let '(r, s) := BlockStorePut w.(w_store) id block in
  (r, mk_world _ s w.(w_rng) w.(w_ctx) (block :: w.(w_evicted))).

(** [sebio_fetch_from_block_store]: the status and the block. *)
Definition sebio_fetch (block_id : bytes) (crypto_algo : sebio_crypto_algo_e) :
  M world (state_status_t * bytes) :=
  let! w := getM in
  let! '(ret, block) := liftM (BlockStoreGet w.(w_store) block_id) in
  if bool_decide (ret ≠ PDO_SUCCESS) then retM (STATE_ERR_NOT_FOUND, block)
  else if bool_decide (block_id ≠ ComputeMessageHash block)
  then retM (STATE_ERR_BLOCK_AUTHENTICATION, block)
  else match crypto_algo with
       | SEBIO_NO_CRYPTO => retM (STATE_SUCCESS, block)
       | SEBIO_AES_GCM =>
           throw_ifM (bool_decide (w.(w_ctx).(ctx_crypto_algo) ≠ crypto_algo))
             (RuntimeError "sebio_fetch, crypto-algo does not match") ;;!
           let! pt := liftM (DecryptMessage w.(w_ctx).(ctx_key) block) in
           retM (STATE_SUCCESS, pt)
       end.

(** [sebio_evict_to_block_store]: the status and the id of the stored block. *)
Definition sebio_evict (block : bytes) (crypto_algo : sebio_crypto_algo_e) :
  M world (state_status_t * bytes) :=
  let! '(ret, id) :=
    match crypto_algo with
    | SEBIO_NO_CRYPTO =>
        let id := ComputeMessageHash block in
        let! ret := w_put id block in retM (ret, id)
    | SEBIO_AES_GCM =>
        let! w := getM in
        throw_ifM (bool_decide (w.(w_ctx).(ctx_crypto_algo) ≠ crypto_algo))
          (RuntimeError "sebio_evict, crypto-algo does not match") ;;!
        let! encrypted := w_encrypt w.(w_ctx).(ctx_key) block in
        let id := ComputeMessageHash encrypted in
        let! ret := w_put id encrypted in retM (ret, id)
    end in
  if bool_decide (ret ≠ PDO_SUCCESS) then retM (STATE_ERR_UNKNOWN, id)
  else retM (STATE_SUCCESS, id).
End Sebio.

(** * The LMDB store implements the interface *)

Section LmdbFacts.
Context {L : LMDB} {LL : LMDBLaws L}.
Import lmdb_block_store.

Lemma get_data_exact t db id v : mdb_get t db id = (MDB_SUCCESS, v) ->
  get_data t db id (replicate (length v) Byte.x00) = (PDO_SUCCESS, v).
Proof.
  intros Hg. unfold get_data. rewrite Hg, zlen_replicate. fold (zlen v). guards. f_equal.
  unfold overwrite. change (Z.to_nat 0) with 0. rewrite Nat.add_0_l, take_0, app_nil_l.
  rewrite drop_ge by (rewrite length_replicate; lia). apply app_nil_r.
Qed.

Lemma metadata_read_back m : (0 <= m.(block_size_) < 2 ^ 64)%Z ->
  (BlockMetaData_of_bytes (BlockMetaData_bytes m)).(block_size_) = m.(block_size_) /\
  length (BlockMetaData_bytes m) = 32.
Proof.
  intros Hm. unfold BlockMetaData_of_bytes, BlockMetaData_bytes. cbn [block_size_].
  rewrite subseq_app_l by (by rewrite zlen_le_split). rewrite le_combine_split_small by (cbn; lia).
  split; [done|]. by rewrite !length_app, !length_le_split.
Qed.

(** A put either changes nothing and reports an error, or it has written the block and its metadata in a
    transaction, tried to commit it, and reports success. *)
Lemma lmdb_put_outcome e id v r e' : BlockStorePut e id v = (r, e') ->
  (e' = e /\ (r = Ok PDO_ERR_SYSTEM \/ exists msg, r = Err (SystemError msg))) \/
  (r = Ok PDO_SUCCESS /\ exists t t1 t2 m, mdb_begin e = Some t /\ m.(block_size_) = zlen v /\
     mdb_put t false id v = (MDB_SUCCESS, t1) /\ mdb_put t1 true id (BlockMetaData_bytes m) = (MDB_SUCCESS, t2) /\
     e' = commit e t2).
Proof.
  unfold BlockStorePut, SafeTransaction, put_metadata, put_data.
  destruct (mdb_begin e) as [t|]; cbn [of_option]; [|intros [= <- <-]; eauto].
  destruct (mdb_put t false id v) as [[] t1] eqn:H1; [|intros [= <- <-]; eauto..].
  set (m := {| block_size_ := _ |}).
  destruct (mdb_put t1 true id (BlockMetaData_bytes m)) as [[] t2] eqn:H2; [|intros [= <- <-]; eauto..].
  intros [= <- <-]. right. split; [done|]. by exists t, t1, t2, m.
Qed.

(** What the two writes leave in a transaction opened after a commit that succeeded. *)
Lemma lmdb_put_spec e id v t t1 t2 m e' t' :
  mdb_put t false id v = (MDB_SUCCESS, t1) -> mdb_put t1 true id (BlockMetaData_bytes m) = (MDB_SUCCESS, t2) ->
  mdb_commit e t2 = (MDB_SUCCESS, e') -> mdb_begin e' = Some t' ->
  mdb_get t' false id = (MDB_SUCCESS, v) /\ mdb_get t' true id = (MDB_SUCCESS, BlockMetaData_bytes m) /\
  forall db id', id' <> id -> mdb_get t' db id' = mdb_get t db id'.
Proof.
  intros [Hg1 Ho1]%mdb_put_done [Hg2 Ho2]%mdb_put_done Hc Ht'. pose proof (mdb_commit_done _ _ _ _ Hc Ht') as Hr.
  split_and!.
  - rewrite Hr, Ho2; [done|congruence].
  - by rewrite Hr.
  - intros db id' Hne. rewrite Hr, Ho2, Ho1; [done|congruence|congruence].
Qed.

Lemma lmdb_get_stored e t id v m :
  mdb_begin e = Some t -> mdb_get t false id = (MDB_SUCCESS, v) ->
  mdb_get t true id = (MDB_SUCCESS, BlockMetaData_bytes m) -> m.(block_size_) = zlen v ->
  (zlen v < 2 ^ 64)%Z ->
  BlockStoreHead e id = Ok (PDO_SUCCESS, true, zlen v) /\
  BlockStoreGet_buf e id (replicate (length v) Byte.x00) = Ok (PDO_SUCCESS, v).
Proof.
  intros Ht Hv Hm Hs Hl. pose proof (zlen_nonneg v).
  destruct (metadata_read_back m ltac:(lia)) as [Hb H32].
  assert (Hmeta : get_metadata t id = (PDO_SUCCESS, BlockMetaData_of_bytes (BlockMetaData_bytes m))).
  { unfold get_metadata. rewrite <-H32. by rewrite (get_data_exact _ _ _ _ Hm). }
  unfold BlockStoreHead, BlockStoreHead_meta, BlockStoreGet_buf, SafeTransaction. rewrite Ht.
  cbn [of_option result_bind]. rewrite Hmeta. cbn [result_bind]. rewrite Hb, Hs, zlen_replicate. fold (zlen v).
  guards. split; [done|]. by rewrite (get_data_exact _ _ _ _ Hv).
Qed.

(** The head and get requests only depend on what a transaction reads of the block. *)
Lemma lmdb_same_reads e e' t t' id :
  mdb_begin e = Some t -> mdb_begin e' = Some t' ->
  (forall db, mdb_get t' db id = mdb_get t db id) ->
  BlockStoreHead e' id = BlockStoreHead e id /\
  (forall out, BlockStoreGet_buf e' id out = BlockStoreGet_buf e id out).
Proof.
  intros Ht Ht' Hg.
  unfold BlockStoreHead, BlockStoreHead_meta, BlockStoreGet_buf, SafeTransaction, get_metadata, get_data.
  rewrite Ht, Ht'. cbn [of_option result_bind]. by rewrite !Hg.
Qed.

Lemma lmdb_get_same e e' id :
  BlockStoreHead e' id = BlockStoreHead e id /\ (forall out, BlockStoreGet_buf e' id out = BlockStoreGet_buf e id out) ->
  BlockStoreGet e' id = BlockStoreGet e id.
Proof.
  intros [Hh Hb]. unfold BlockStoreGet. rewrite Hh.
  destruct (BlockStoreHead e id) as [[[r p] sz]|]; cbn [result_bind]; [|done]. by rewrite Hb.
Qed.

Lemma lmdb_get_whole e id v : BlockStoreHead e id = Ok (PDO_SUCCESS, true, zlen v) ->
  BlockStoreGet_buf e id (replicate (length v) Byte.x00) = Ok (PDO_SUCCESS, v) ->
  BlockStoreGet e id = Ok (PDO_SUCCESS, v).
Proof. intros Hh Hg. unfold BlockStoreGet. rewrite Hh. cbn [result_bind]. guards. unfold zlen. by rewrite Nat2Z.id. Qed.

(** When no call fails, a put is read back through the head and the get request. *)
Lemma lmdb_put_never_fails {NF : LMDBNeverFails L} e id v : (zlen v < 2 ^ 64)%Z -> exists e',
  BlockStorePut e id v = (Ok PDO_SUCCESS, e') /\
  BlockStoreHead e' id = Ok (PDO_SUCCESS, true, zlen v) /\
  BlockStoreGet_buf e' id (replicate (length v) Byte.x00) = Ok (PDO_SUCCESS, v) /\
  forall id', id' <> id -> BlockStoreHead e' id' = BlockStoreHead e id' /\
    (forall out, BlockStoreGet_buf e' id' out = BlockStoreGet_buf e id' out).
Proof.
  intros Hl. destruct (BlockStorePut e id v) as [r e'] eqn:Hput. exists e'.
  destruct (lmdb_put_outcome _ _ _ _ _ Hput) as [[_ Herr]|(-> & t & t1 & t2 & m & Ht & Hs & H1 & H2 & ->)].
  { exfalso. revert Hput. unfold BlockStorePut, SafeTransaction, put_metadata, put_data.
    destruct (mdb_begin_ok e) as [t ->]. cbn [of_option]. pose proof (mdb_put_ok t false id v) as H1.
    destruct (mdb_put t false id v) as [? t1]. cbn in H1. subst. set (m := {| block_size_ := _ |}).
    pose proof (mdb_put_ok t1 true id (BlockMetaData_bytes m)) as H2.
    destruct (mdb_put t1 true id _) as [? t2]. cbn in H2. subst. intros [= <- _]. by destruct Herr as [|[? ?]]. }
  unfold commit. pose proof (mdb_commit_ok e t2) as Hc. destruct (mdb_commit e t2) as [? e'] eqn:Hce. cbn in Hc. subst.
  cbn [snd]. destruct (mdb_begin_ok e') as [t' Ht'].
  destruct (lmdb_put_spec _ _ _ _ _ _ _ _ _ H1 H2 Hce Ht') as (Hv & Hm & Ho).
  split; [done|]. destruct (lmdb_get_stored e' t' id v m) as [Hh Hg]; [done..|]. split_and!; [done..|].
  intros id' Hne. apply (lmdb_same_reads e e' t t' id'); [done|done|]. intros db. by apply Ho.
Qed.

#[global] Instance lmdb_store_laws {NF : LMDBNeverFails L} : BlockStoreLaws lmdb_store.
Proof.
  split. intros e id v Hl. destruct (lmdb_put_never_fails e id v Hl) as (e' & Hput & Hh & Hg & Ho).
  exists e'. split_and!; [done|by apply lmdb_get_whole|]. intros id' Hne. by apply lmdb_get_same, Ho.
Qed.

(** The enclave's wrapper over the honest host serves the same store. *)
Lemma enclave_get_stored e id r v :
  BlockStoreHead e id = Ok (PDO_SUCCESS, true, zlen v) ->
  BlockStoreGet_buf e id (replicate (length v) Byte.x00) = Ok (r, v) -> r = PDO_SUCCESS ->
  enclave_block_store.BlockStoreGet (H := enclave_block_store.ocall_host) e id = Ok (PDO_SUCCESS, v).
Proof.
  intros Hh Hg ->. unfold enclave_block_store.BlockStoreGet, enclave_block_store.BlockStoreHead,
    enclave_block_store.BlockStoreGet_buf, enclave_block_store.ocall_host.
  cbn [ocall_BlockStoreHead ocall_BlockStoreGet]. rewrite Hh. guards. unfold zlen. rewrite Nat2Z.id, Hg.
  guards. by rewrite take_app_length.
Qed.

#[global] Instance enclave_store_laws {NF : LMDBNeverFails L} :
  BlockStoreLaws (@enclave_block_store.enclave_store enclave_block_store.ocall_host).
Proof.
  split. intros e id v Hl. destruct (lmdb_put_never_fails e id v Hl) as (e' & Hput & Hh & Hg & Ho).
  exists e'. cbn. split; [|split].
  - unfold enclave_block_store.BlockStorePut. cbn. by rewrite Hput.
  - by eapply enclave_get_stored.
  - intros id' Hne. destruct (Ho id' Hne) as [Hh' Hb'].
    unfold enclave_block_store.BlockStoreGet, enclave_block_store.BlockStoreHead,
      enclave_block_store.BlockStoreGet_buf. cbn. rewrite Hh'.
    destruct (BlockStoreHead e id') as [[[r p] sz]|]; cbn; [|done].
    case_bool_decide; cbn; [done|]. by rewrite Hb'.
Qed.
End LmdbFacts.

(** * Secure block IO *)

Section SebioFacts.
Context {OS : OpenSSL} {OL : @OpenSSLLaws OS} {B : BlockStore} {BL : BlockStoreLaws B}.

(** The world after a block has been handed to the store: it is read back under its id. *)
Definition stored_in (w w' : world) (id block : bytes) : Prop :=
  BlockStoreGet w'.(w_store) id = Ok (PDO_SUCCESS, block) /\
  w'.(w_ctx) = w.(w_ctx) /\ w'.(w_evicted) = block :: w.(w_evicted) /\
  forall id', id' <> id -> BlockStoreGet w'.(w_store) id' = BlockStoreGet w.(w_store) id'.

Lemma w_put_ok id block w : (zlen block < 2 ^ 64)%Z ->
  exists w', w_put id block w = (Ok PDO_SUCCESS, w') /\ stored_in w w' id block /\ w'.(w_rng) = w.(w_rng).
Proof.
  intros Hl. destruct (store_put_ok w.(w_store) id block Hl) as (s' & Hp & Hg & Ho).
  unfold w_put. rewrite Hp. by eexists.
Qed.

Lemma w_encrypt_ok key m w : zlen key = SYM_KEY_LEN -> m <> [] ->
  exists c, w_encrypt key m w =
      (Ok c, mk_world _ w.(w_store) (S w.(w_rng)) w.(w_ctx) w.(w_evicted)) /\
    DecryptMessage key c = Ok m /\ zlen c = (IV_LEN + TAG_LEN + zlen m)%Z.
Proof.
  intros Hk Hm. destruct (EncryptMessage_ok key m w.(w_rng) Hk Hm) as (c & He & Hd & Hl).
  exists c. split; [|done]. unfold w_encrypt, zoomM. by rewrite He.
Qed.

Lemma sebio_evict_plain block w : (zlen block < 2 ^ 64)%Z ->
  exists w', sebio_evict block SEBIO_NO_CRYPTO w = (Ok (STATE_SUCCESS, ComputeMessageHash block), w') /\
    stored_in w w' (ComputeMessageHash block) block /\ w'.(w_rng) = w.(w_rng).
Proof.
  intros Hl. destruct (w_put_ok (ComputeMessageHash block) block w Hl) as (w' & Hp & Hs).
  exists w'. split; [|done]. unfold sebio_evict. run_monad. by rewrite Hp.
Qed.

Lemma sebio_fetch_plain id block w :
  BlockStoreGet w.(w_store) id = Ok (PDO_SUCCESS, block) -> id = ComputeMessageHash block ->
  sebio_fetch id SEBIO_NO_CRYPTO w = (Ok (STATE_SUCCESS, block), w).
Proof. intros Hg Hid. unfold sebio_fetch. run_monad. rewrite Hg. by guards. Qed.
End SebioFacts.

(** * Properties *)

(** C30: over an LMDB that behaves as documented, with puts, commits and the opening of transactions that
    may fail, the block store keeps what it is given.  A put that reports an error (a status or an
    exception) changes nothing.  A put that reports success has tried to commit the block with its
    metadata; if the commit succeeded, then whenever a transaction can be opened the head request reports
    the block present with its size, the get request returns exactly the block, and every other block is
    answered as before.  If the commit failed, every block, the one just put included, is answered as
    before, although the put reported success: the status of the commit is not looked at. *)
Theorem lmdb_block_store_correct {L : LMDB} {LL : LMDBLaws L} e id v r e' :
  (zlen v < 2 ^ 64)%Z -> lmdb_block_store.BlockStorePut e id v = (r, e') ->
  (r <> Ok PDO_SUCCESS -> e' = e) /\
  (r = Ok PDO_SUCCESS -> exists t committed, mdb_commit e t = (committed, e') /\
     (is_Some (mdb_begin e') ->
      let same id' := lmdb_block_store.BlockStoreHead e' id' = lmdb_block_store.BlockStoreHead e id' /\
                      lmdb_block_store.BlockStoreGet e' id' = lmdb_block_store.BlockStoreGet e id' in
      (committed = MDB_SUCCESS ->
         lmdb_block_store.BlockStoreHead e' id = Ok (PDO_SUCCESS, true, zlen v) /\
         lmdb_block_store.BlockStoreGet e' id = Ok (PDO_SUCCESS, v) /\ forall id', id' <> id -> same id') /\
      (committed <> MDB_SUCCESS -> forall id', same id'))).
Proof.
  intros Hl Hput.
  destruct (lmdb_put_outcome _ _ _ _ _ Hput) as [[-> Herr]|(-> & t & t1 & t2 & m & Ht & Hs & H1 & H2 & ->)].
  { split; [done|]. intros ->. by destruct Herr as [|[? ?]]. }
  split; [by intros []|]. intros _. unfold lmdb_block_store.commit. destruct (mdb_commit e t2) as [c e'] eqn:Hc. cbn [snd].
  exists t2, c. split; [done|]. intros [t' Ht'].
  assert (Hsame : forall id', (forall db, mdb_get t' db id' = mdb_get t db id') ->
    lmdb_block_store.BlockStoreHead e' id' = lmdb_block_store.BlockStoreHead e id' /\
    lmdb_block_store.BlockStoreGet e' id' = lmdb_block_store.BlockStoreGet e id').
  { intros id' Hr. pose proof (lmdb_same_reads e e' t t' id' Ht Ht' Hr) as Hb. split; [apply Hb|by apply lmdb_get_same]. }
  split; intros Hcs.
  - subst c. destruct (lmdb_put_spec _ _ _ _ _ _ _ _ _ H1 H2 Hc Ht') as (Hv & Hm & Ho).
    destruct (lmdb_get_stored e' t' id v m) as [Hh Hg]; [done..|].
    split_and!; [done|by apply lmdb_get_whole|]. intros id' Hne. apply Hsame. intros db. by apply Ho.
  - intros id'. apply Hsame. intros db. by eapply mdb_commit_failed.
Qed.

(** The enclave's block store, which reaches the host's LMDB store through ocalls, refines it:
    when no call of LMDB fails, a block put by the enclave is read back by the enclave byte for byte, and
    other blocks are untouched. *)
Theorem enclave_block_store_refines {L : LMDB} {LL : LMDBLaws L} {NF : LMDBNeverFails L} e id v :
  (zlen v < 2 ^ 64)%Z ->
  let H := enclave_block_store.ocall_host in
  exists e', enclave_block_store.BlockStorePut (H := H) e id v = (Ok PDO_SUCCESS, e') /\
    lmdb_block_store.BlockStorePut e id v = (Ok PDO_SUCCESS, e') /\
    enclave_block_store.BlockStoreGet (H := H) e' id = Ok (PDO_SUCCESS, v) /\
    forall id', id' <> id ->
      enclave_block_store.BlockStoreGet (H := H) e' id' = enclave_block_store.BlockStoreGet (H := H) e id'.
Proof.
  intros Hl H.
  destruct (store_put_ok (BlockStoreLaws := enclave_store_laws) e id v Hl) as (e' & Hput & Hg & Ho).
  exists e'. split_and!; [done| |done..]. revert Hput. cbn. unfold enclave_block_store.BlockStorePut. cbn.
  destruct (lmdb_block_store.BlockStorePut e id v) as [[r|] e'']; [|done].
  case_bool_decide; cbn; [done|]. intros [= ->]. by subst.
Qed.

(** C29: integrity of fetched blocks against an untrusted store: whatever the store answers, a fetch
    that reports success returns a block whose hash is the requested id (decrypted under the context's
    key in the encrypted mode), and it changes nothing. *)
Theorem sebio_fetch_integrity `{OpenSSL, BlockStore} id algo w b w' :
  sebio_fetch id algo w = (Ok (STATE_SUCCESS, b), w') ->
  w' = w /\ exists stored,
    BlockStoreGet w.(w_store) id = Ok (PDO_SUCCESS, stored) /\ ComputeMessageHash stored = id /\
    match algo with
    | SEBIO_NO_CRYPTO => b = stored
    | SEBIO_AES_GCM => w.(w_ctx).(ctx_crypto_algo) = SEBIO_AES_GCM /\
                       DecryptMessage w.(w_ctx).(ctx_key) stored = Ok b
    end.
Proof.
  unfold sebio_fetch. run_monad. destruct (BlockStoreGet _ _) as [[r stored]|]; [|done].
  destruct (decide (r = PDO_SUCCESS)) as [->|]; [|by guards]. guards.
  destruct (decide (id = ComputeMessageHash stored)) as [Hid|]; [|by guards]. guards.
  destruct algo; [intros [= <- <-]; eauto 10|].
  destruct (decide (w.(w_ctx).(ctx_crypto_algo) = SEBIO_AES_GCM)) as [Ha|]; [|by guards]. guards.
  destruct (DecryptMessage _ _) as [pt|] eqn:Hd; [|done]. intros [= <- <-]. eauto 10.
Qed.

(** Over an honest store, evicting a block and fetching the id it returned gives the block back,
    in the plain and in the encrypted mode, and leaves blocks with other ids as they were. *)
Theorem sebio_evict_fetch {OS : OpenSSL} {OL : @OpenSSLLaws OS} {B : BlockStore} {BL : BlockStoreLaws B}
    block algo w :
  (0 < zlen block < 2 ^ 32)%Z ->
  w.(w_ctx).(ctx_crypto_algo) = algo -> zlen w.(w_ctx).(ctx_key) = SYM_KEY_LEN ->
  exists id w', sebio_evict block algo w = (Ok (STATE_SUCCESS, id), w') /\
    sebio_fetch id algo w' = (Ok (STATE_SUCCESS, block), w') /\
    forall id', id' <> id -> BlockStoreGet w'.(w_store) id' = BlockStoreGet w.(w_store) id'.
Proof.
  intros Hl Ha Hk. destruct algo.
  - destruct (sebio_evict_plain block w) as (w' & He & (Hg & _ & _ & Ho) & _); [lia|].
    eexists _, w'. split; [exact He|]. split; [|done]. by apply sebio_fetch_plain.
  - assert (Hne : block <> []) by (apply zlen_pos_not_nil; lia).
    destruct (w_encrypt_ok _ block w Hk Hne) as (c & Hc & Hd & Hcl).
    destruct (w_put_ok (ComputeMessageHash c) c
      (mk_world _ w.(w_store) (S w.(w_rng)) w.(w_ctx) w.(w_evicted))) as (w' & Hp & (Hg & Hctx & _ & Ho) & _).
    { unfold IV_LEN, TAG_LEN in Hcl. lia. }
    exists (ComputeMessageHash c), w'. cbn in Hctx. unfold sebio_evict, sebio_fetch. run_monad.
    rewrite Ha. guards. rewrite Hc, Hp. guards. split; [done|]. split; [|done].
    rewrite Hg. guards. rewrite Hctx. by rewrite Hd.
Qed.
