(* ===== verification/Codec.v ===== *)
(** Text encodings: common/packages/base64/base64.cpp, common/hex_string.cpp and the conversions of
    common/types.cpp.  Vectors and strings are shorter than 2^31 bytes (base64.cpp counts in [int]). *)
From S2P Require Import Prelude.

(** * base64.cpp *)

Definition base64_chars : bytes :=
  bytes_of "ABCDEFGHIJKLMNOPQRSTUVWXYZabcdefghijklmnopqrstuvwxyz0123456789+/".

(** [base64_chars[i]] and [base64_chars.find(c)] stored in an [unsigned char]. *)
Definition base64_char (i : Z) : byte := nth (Z.to_nat i) base64_chars Byte.x00.

Fixpoint find_index (c : byte) (l : bytes) (i : Z) : Z :=
  match l with
  | [] => 255
  | x :: l => if bool_decide (x = c) then i else find_index c l (i + 1)
  end.

Definition base64_find (c : byte) : Z := find_index c base64_chars 0.

(** [isalnum] in the C locale. *)
Definition isalnum (c : byte) : bool :=
  let v := byte.unsigned c in
  (bool_decide (48 <= v <= 57)%Z || bool_decide (65 <= v <= 90)%Z || bool_decide (97 <= v <= 122)%Z).

Definition is_base64 (c : byte) : bool :=
  isalnum c || bool_decide (c = "+"%byte) || bool_decide (c = "/"%byte).

(** [char_array_4] computed from [char_array_3]. *)
Definition quad (a b c : byte) : list Z :=
  let a := byte.unsigned a in let b := byte.unsigned b in let c := byte.unsigned c in
  [ Z.shiftr (Z.land a 0xfc) 2;
    Z.shiftl (Z.land a 0x03) 4 + Z.shiftr (Z.land b 0xf0) 4;
    Z.shiftl (Z.land b 0x0f) 2 + Z.shiftr (Z.land c 0xc0) 6;
    Z.land c 0x3f ]%Z.

(** The main loop; [pending] is [char_array_3[0..i)]. *)
Fixpoint base64_encode_loop (buf pending ret : bytes) : bytes * bytes :=
  match buf with
  | [] => (pending, ret)
  | x :: buf =>
      match pending ++ [x] with
      | [a; b; c] => base64_encode_loop buf [] (ret ++ map base64_char (quad a b c))
      | pending => base64_encode_loop buf pending ret
      end
  end.

Definition base64_encode (buf : bytes) : bytes :=
  let '(pending, ret) := base64_encode_loop buf [] [] in
  match pending with
  | [] => ret
  | a :: _ =>
      let i := length pending in
      let b := nth 1 pending Byte.x00 in
      ret ++ take (i + 1) (map base64_char (quad a b Byte.x00)) ++ replicate (3 - i) "="%byte
  end.

(** [char_array_3] computed from the indices in [char_array_4]; each is an [unsigned char]. *)
Definition triple (a b c d : Z) : bytes :=
  [ byte.of_Z (Z.shiftl a 2 + Z.shiftr (Z.land b 0x30) 4);
    byte.of_Z (Z.shiftl (Z.land b 0xf) 4 + Z.shiftr (Z.land c 0x3c) 2);
    byte.of_Z (Z.shiftl (Z.land c 0x3) 6 + d) ]%Z.

(** The main loop; [pending] is [char_array_4[0..i)]. *)
Fixpoint base64_decode_loop (s pending ret : bytes) : bytes * bytes :=
  match s with
  | [] => (pending, ret)
  | x :: s =>
      if bool_decide (x = "="%byte) || negb (is_base64 x) then (pending, ret)
      else match pending ++ [x] with
           | [a; b; c; d] =>
               base64_decode_loop s []
                 (ret ++ triple (base64_find a) (base64_find b) (base64_find c) (base64_find d))
           | pending => base64_decode_loop s pending ret
           end
  end.

(** In the final group the entries of [char_array_4] past [i] are left from the previous group;
    only the first [i - 1] output bytes are kept, and they do not depend on them. *)
Definition base64_decode (s : bytes) : bytes :=
  let '(pending, ret) := base64_decode_loop s [] [] in
  match map base64_find pending with
  | [a; b; c] => ret ++ take 2 (triple a b c 0)
  | [a; b] => ret ++ take 1 (triple a b 0 0)
  | _ => ret
  end.

(** * hex_string.cpp *)

(** [toupper] in the C locale. *)
Definition toupper (c : byte) : byte :=
  let v := byte.unsigned c in
  if bool_decide (97 <= v <= 122)%Z then byte.of_Z (v - 32) else c.

Definition HexToNibble (hex : byte) : result Z :=
  let v := byte.unsigned (toupper hex) in
  if bool_decide (65 <= v <= 70)%Z then Ok (10 + (v - 65))%Z
  else if bool_decide (48 <= v <= 57)%Z then Ok (v - 48)%Z
  else Err (ValueError "Hex digit is not valid").

Definition HexToByte (a b : byte) : result byte :=
  let? c1 := HexToNibble a in
  let? c2 := HexToNibble b in
  Ok (byte.of_Z (Z.lor (Z.shiftl c1 4) c2)).

Fixpoint hex_loop (s : bytes) (ret : bytes) : result bytes :=
  match s with
  | a :: b :: s => let? x := HexToByte a b in hex_loop s (ret ++ [x])
  | _ => Ok ret
  end.

Definition HexStringToBinary (inHexString : bytes) : result bytes :=
  throw_if (bool_decide (zlen inHexString mod 2 ≠ 0)%Z)
    (ValueError "Hex encoded string is not an even length") ;;?
  hex_loop inHexString [].

Definition hexDigits : bytes := bytes_of "0123456789ABCDEF".

Definition hex_digit (i : Z) : byte := nth (Z.to_nat i) hexDigits Byte.x00.

Definition BinaryToHexString (inBinaryData : bytes) : bytes :=
  concat (map (fun x => [hex_digit (Z.shiftr (byte.unsigned x) 4);
                         hex_digit (Z.land (byte.unsigned x) 0x0F)]) inBinaryData).

(** * types.cpp *)

(** Bytes and characters have the same representation here. *)
Definition ByteArrayToString (inArray : bytes) : bytes := map (fun c => c) inArray.
Definition ByteArrayToBase64EncodedString (buf : bytes) : bytes := base64_encode buf.
Definition Base64EncodedStringToByteArray (encoded : bytes) : bytes := base64_decode encoded.
Definition ByteArrayToHexEncodedString (buf : bytes) : bytes := BinaryToHexString buf.
Definition HexEncodedStringToByteArray (encoded : bytes) : result bytes := HexStringToBinary encoded.

(** [s.c_str()] passed to a function that takes a C string: cut at the first NUL. *)
Fixpoint c_str (s : bytes) : bytes :=
  match s with
  | [] => []
  | x :: s => if bool_decide (x = Byte.x00) then [] else x :: c_str s
  end.

Lemma c_str_no_nul b : Byte.x00 ∉ b -> c_str (b ++ [Byte.x00]) = b.
Proof.
  induction b as [|x b IH]; [done|]. rewrite not_elem_of_cons. intros [Hx Hb]. cbn [app c_str].
  guards. by rewrite IH.
Qed.

Lemma c_str_id b : Byte.x00 ∉ b -> c_str b = b.
Proof.
  induction b as [|x b IH]; [done|]. rewrite not_elem_of_cons. intros [Hx Hb]. cbn [c_str].
  guards. by rewrite IH.
Qed.

(** * Round trips *)

(** Facts about one byte or one 6-bit index are checked on all of them. *)
Lemma all_bytes (P : byte -> Prop) `{forall b, Decision (P b)} :
  forallb (fun i => bool_decide (P (byte.of_Z (Z.of_nat i)))) (seq 0 256) = true -> forall b, P b.
Proof.
  intros Hall b. rewrite forallb_forall in Hall. pose proof (byte.unsigned_range b) as Hr.
  rewrite <-(byte.of_Z_unsigned b). rewrite <-(Z2Nat.id (byte.unsigned b)) by lia.
  apply (bool_decide_eq_true_1 _), (Hall (Z.to_nat (byte.unsigned b))). apply in_seq. lia.
Qed.

Lemma all_below (n : nat) (P : Z -> Prop) `{forall i, Decision (P i)} :
  forallb (fun i => bool_decide (P (Z.of_nat i))) (seq 0 n) = true ->
  forall i, (0 <= i < Z.of_nat n)%Z -> P i.
Proof.
  intros Hall i Hi. rewrite forallb_forall in Hall. rewrite <-(Z2Nat.id i) by lia.
  apply (bool_decide_eq_true_1 _), (Hall (Z.to_nat i)). apply in_seq. lia.
Qed.

(** The characters of the alphabet are accepted and found at their index. *)
Lemma base64_char_find i : (0 <= i < 64)%Z ->
  base64_find (base64_char i) = i /\ is_base64 (base64_char i) = true /\ base64_char i <> "="%byte.
Proof.
  intros Hi. apply (all_below 64 (fun i => base64_find (base64_char i) = i /\
    is_base64 (base64_char i) = true /\ base64_char i <> "="%byte)); [vm_compute; reflexivity|lia].
Qed.

(** The masks and shifts as division and remainder. *)
Lemma quad_arith a b c :
  quad a b c = [ byte.unsigned a / 4; 16 * (byte.unsigned a mod 4) + byte.unsigned b / 16;
                 4 * (byte.unsigned b mod 16) + byte.unsigned c / 64; byte.unsigned c mod 64 ]%Z.
Proof.
  assert (H : forall b, (
    Z.shiftr (Z.land (byte.unsigned b) 0xfc) 2 = byte.unsigned b / 4 /\
    Z.shiftl (Z.land (byte.unsigned b) 0x03) 4 = 16 * (byte.unsigned b mod 4) /\
    Z.shiftr (Z.land (byte.unsigned b) 0xf0) 4 = byte.unsigned b / 16 /\
    Z.shiftl (Z.land (byte.unsigned b) 0x0f) 2 = 4 * (byte.unsigned b mod 16) /\
    Z.shiftr (Z.land (byte.unsigned b) 0xc0) 6 = byte.unsigned b / 64 /\
    Z.land (byte.unsigned b) 0x3f = byte.unsigned b mod 64)%Z)
    by (apply (all_bytes (fun b => _)); vm_compute; reflexivity).
  unfold quad. cbv zeta.
  destruct (H a) as (-> & -> & _).
  destruct (H b) as (_ & _ & -> & -> & _).
  destruct (H c) as (_ & _ & _ & _ & -> & ->). done.
Qed.

Lemma triple_arith a b c d : (0 <= a < 64)%Z -> (0 <= b < 64)%Z -> (0 <= c < 64)%Z ->
  triple a b c d = [ byte.of_Z (4 * a + b / 16); byte.of_Z (16 * (b mod 16) + c / 4);
                     byte.of_Z (64 * (c mod 4) + d) ]%Z.
Proof.
  assert (H : forall i, (0 <= i < 64)%Z -> (
    Z.shiftl i 2 = 4 * i /\ Z.shiftr (Z.land i 0x30) 4 = i / 16 /\
    Z.shiftl (Z.land i 0xf) 4 = 16 * (i mod 16) /\ Z.shiftr (Z.land i 0x3c) 2 = i / 4 /\
    Z.shiftl (Z.land i 0x3) 6 = 64 * (i mod 4))%Z)
    by (apply (all_below 64 (fun i => _)); vm_compute; reflexivity).
  intros Ha Hb Hc. unfold triple.
  destruct (H a Ha) as (-> & _).
  destruct (H b Hb) as (_ & -> & -> & _).
  destruct (H c Hc) as (_ & _ & _ & -> & ->). done.
Qed.

Ltac byte_ranges :=
  repeat match goal with
  | b : Init.Byte.byte |- _ =>
      let T := type of (byte.unsigned_range b) in
      lazymatch goal with H : T |- _ => fail | _ => pose proof (byte.unsigned_range b) end
  end.

(** The 6-bit indices of a group of three bytes and back. *)
Lemma quad_ranges a b c : Forall (fun i => 0 <= i < 64)%Z (quad a b c).
Proof.
  rewrite quad_arith. byte_ranges. repeat constructor; try apply Z.div_pos; try lia.
  all: Z.to_euclidean_division_equations; lia.
Qed.

Lemma of_Z_eq z b : z = byte.unsigned b -> byte.of_Z z = b.
Proof. intros ->. apply byte.of_Z_unsigned. Qed.

Lemma triple_quad a b c : match quad a b c with [i; j; k; l] => triple i j k l = [a; b; c] | _ => False end.
Proof.
  pose proof (quad_ranges a b c) as Hr. rewrite quad_arith in *. inversion_clear Hr as [|? ? H1 Hr1].
  inversion_clear Hr1 as [|? ? H2 Hr2]. inversion_clear Hr2 as [|? ? H3 _].
  rewrite triple_arith by done. byte_ranges.
  repeat (f_equal; try (apply of_Z_eq; Z.to_euclidean_division_equations; lia)).
Qed.

(** ** base64 *)

Lemma encode_loop_triple a b c buf ret :
  base64_encode_loop (a :: b :: c :: buf) [] ret =
  base64_encode_loop buf [] (ret ++ map base64_char (quad a b c)).
Proof. done. Qed.

Lemma decode_loop_quad a b c s ret :
  base64_decode_loop (map base64_char (quad a b c) ++ s) [] ret =
  base64_decode_loop s [] (ret ++ [a; b; c]).
Proof.
  pose proof (quad_ranges a b c) as Hr. pose proof (triple_quad a b c) as Ht.
  destruct (quad a b c) as [|i [|j [|k [|l [|]]]]]; try done.
  rewrite !Forall_cons_iff in Hr. destruct Hr as (Hi & Hj & Hk & Hl & _).
  destruct (base64_char_find i Hi) as (Ei & Bi & Ni), (base64_char_find j Hj) as (Ej & Bj & Nj),
    (base64_char_find k Hk) as (Ek & Bk & Nk), (base64_char_find l Hl) as (El & Bl & Nl).
  cbn [map app base64_decode_loop]. guards. rewrite Bi, Bj, Bk, Bl, Ei, Ej, Ek, El. cbn. by rewrite Ht.
Qed.

(** Encoding prepends what was encoded before, so a prefix of whole groups can be split off. *)
Lemma base64_encode_loop_acc buf pending ret :
  base64_encode_loop buf pending ret =
  let '(p, r) := base64_encode_loop buf pending [] in (p, ret ++ r).
Proof.
  revert pending ret. induction buf as [|x buf IH]; intros pending ret; cbn [base64_encode_loop].
  - by rewrite app_nil_r.
  - destruct (pending ++ [x]) as [|a [|b [|c [|d l]]]]; try apply IH.
    rewrite IH, (IH _ ([] ++ _)). destruct (base64_encode_loop buf [] []) as [p r].
    by rewrite app_nil_l, app_assoc.
Qed.

Lemma base64_encode_group a b c buf :
  base64_encode (a :: b :: c :: buf) = map base64_char (quad a b c) ++ base64_encode buf.
Proof.
  unfold base64_encode. rewrite encode_loop_triple, base64_encode_loop_acc.
  destruct (base64_encode_loop buf [] []) as [[|x p] r]; [done|].
  by rewrite app_nil_l, <-app_assoc.
Qed.

Lemma base64_decode_loop_acc s pending ret :
  base64_decode_loop s pending ret =
  let '(p, r) := base64_decode_loop s pending [] in (p, ret ++ r).
Proof.
  revert pending ret. induction s as [|x s IH]; intros pending ret; cbn [base64_decode_loop].
  - by rewrite app_nil_r.
  - destruct (_ || _); [by rewrite app_nil_r|].
    destruct (pending ++ [x]) as [|a [|b [|c [|d [|e l]]]]]; try apply IH.
    rewrite IH, (IH _ ([] ++ _)). destruct (base64_decode_loop s [] []) as [p r].
    by rewrite app_nil_l, app_assoc.
Qed.

Lemma base64_decode_group a b c s :
  base64_decode (map base64_char (quad a b c) ++ s) = [a; b; c] ++ base64_decode s.
Proof.
  unfold base64_decode. rewrite decode_loop_quad, base64_decode_loop_acc.
  destruct (base64_decode_loop s [] []) as [p r].
  destruct (map base64_find p) as [|? [|? [|? [|? ?]]]]; rewrite app_nil_l, <-?app_assoc; done.
Qed.

(** A final group of one or two bytes. *)
Lemma base64_roundtrip_1 a : base64_decode (base64_encode [a]) = [a].
Proof.
  apply (all_bytes (fun a => base64_decode (base64_encode [a]) = [a])). vm_compute. reflexivity.
Qed.

Lemma base64_roundtrip_2 a b : base64_decode (base64_encode [a; b]) = [a; b].
Proof.
  pose proof (quad_ranges a b Byte.x00) as Hr. pose proof (triple_quad a b Byte.x00) as Ht.
  unfold base64_encode. cbn [base64_encode_loop app length nth].
  destruct (quad a b Byte.x00) as [|i [|j [|k [|l [|]]]]]; try done.
  rewrite !Forall_cons_iff in Hr. destruct Hr as (Hi & Hj & Hk & Hl & _).
  destruct (base64_char_find i Hi) as (Ei & Bi & Ni), (base64_char_find j Hj) as (Ej & Bj & Nj),
    (base64_char_find k Hk) as (Ek & Bk & Nk).
  unfold base64_decode. cbn [map app take Nat.add Nat.sub replicate base64_decode_loop]. guards.
  rewrite Bi, Bj, Bk. cbn [negb orb map]. rewrite Ei, Ej, Ek. unfold triple in *. by injection Ht as <- <- _.
Qed.

(** ** hex *)

Lemma hex_roundtrip_byte x : HexToByte (hex_digit (Z.shiftr (byte.unsigned x) 4))
  (hex_digit (Z.land (byte.unsigned x) 0x0F)) = Ok x.
Proof.
  apply (all_bytes (fun x => HexToByte (hex_digit (Z.shiftr (byte.unsigned x) 4))
    (hex_digit (Z.land (byte.unsigned x) 0x0F)) = Ok x)). vm_compute. reflexivity.
Qed.

Lemma hex_loop_roundtrip b ret : hex_loop (BinaryToHexString b) ret = Ok (ret ++ b).
Proof.
  revert ret. induction b as [|x b IH]; intros ret; [by rewrite app_nil_r|].
  unfold BinaryToHexString in *. cbn [map concat app hex_loop]. rewrite hex_roundtrip_byte.
  cbn [result_bind]. by rewrite IH, <-app_assoc.
Qed.

Lemma BinaryToHexString_length b : zlen (BinaryToHexString b) = (2 * zlen b)%Z.
Proof.
  induction b as [|x b IH]; [done|]. unfold BinaryToHexString in *. cbn [map concat].
  autorewrite with zlen. rewrite IH. cbn. lia.
Qed.

(** A digit is valid exactly when it is one of [0-9A-Fa-f]. *)
Definition hex_digit_char (c : byte) : bool :=
  let v := byte.unsigned c in
  bool_decide (48 <= v <= 57)%Z || bool_decide (65 <= v <= 70)%Z || bool_decide (97 <= v <= 102)%Z.

Lemma HexToNibble_valid c :
  HexToNibble c = Err (ValueError "Hex digit is not valid") /\ hex_digit_char c = false \/
  is_ok (HexToNibble c) = true /\ hex_digit_char c = true.
Proof.
  revert c. apply (all_bytes (fun c => _)). vm_compute. reflexivity.
Qed.

Lemma hex_loop_ok s ret : Nat.Even (length s) ->
  match hex_loop s ret with
  | Ok b => forallb hex_digit_char s = true
  | Err e => e = ValueError "Hex digit is not valid" /\ forallb hex_digit_char s = false
  end.
Proof.
  revert ret. induction s as [|a|a b s IH] using list_pair_ind; intros ret Hev.
  - done.
  - destruct Hev as [k Hk]. cbn in Hk. lia.
  - cbn [hex_loop forallb]. unfold HexToByte.
    assert (Hs : Nat.Even (length s)) by (destruct Hev as [[|k] Hk]; [done|]; exists k; cbn in Hk; lia).
    destruct (HexToNibble_valid a) as [[-> ->]|[Ha ->]]; [done|].
    destruct (HexToNibble a) as [x|]; [|done].
    destruct (HexToNibble_valid b) as [[-> ->]|[Hb ->]]; [done|].
    destruct (HexToNibble b) as [y|]; [|done]. cbn [result_bind andb]. by apply IH.
Qed.

(** ** Shape of the encoding *)

Definition base64_text (c : byte) : bool := is_base64 c || bool_decide (c = "="%byte).

Lemma base64_char_text i : (0 <= i < 64)%Z -> base64_text (base64_char i) = true.
Proof. intros Hi. unfold base64_text. by destruct (base64_char_find i Hi) as (_ & -> & _). Qed.

Lemma quad_text a b c : Forall (fun x => base64_text x = true) (map base64_char (quad a b c)).
Proof.
  apply Forall_map. pose proof (quad_ranges a b c) as H. induction H; constructor; [|done].
  by apply base64_char_text.
Qed.

Lemma base64_encode_text b : Forall (fun c => base64_text c = true) (base64_encode b).
Proof.
  induction b as [|a|a b|a b c l IH] using list_triple_ind; [constructor|..].
  - unfold base64_encode. cbn [base64_encode_loop app length nth Nat.add Nat.sub replicate].
    rewrite Forall_app. split; [apply Forall_take, quad_text|repeat constructor].
  - unfold base64_encode. cbn [base64_encode_loop app length nth Nat.add Nat.sub replicate].
    rewrite Forall_app. split; [apply Forall_take, quad_text|repeat constructor].
  - rewrite base64_encode_group, Forall_app. split; [apply quad_text|done].
Qed.

Lemma base64_encode_length b : zlen (base64_encode b) = (4 * ((zlen b + 2) / 3))%Z.
Proof.
  induction b as [|a|a b|a b c l IH] using list_triple_ind; [done..|].
  rewrite base64_encode_group, zlen_app, IH. autorewrite with zlen. cbn [quad map].
  autorewrite with zlen. Z.to_euclidean_division_equations. lia.
Qed.

Lemma base64_roundtrip_bytes b : base64_decode (base64_encode b) = b.
Proof.
  induction b as [|a|a b|a b c l IH] using list_triple_ind; [done| | |].
  - apply base64_roundtrip_1.
  - apply base64_roundtrip_2.
  - by rewrite base64_encode_group, base64_decode_group, IH.
Qed.

(** * Properties *)

(** Decoding the base64 encoding of any byte array gives the array back; the encoding has four
    characters for every started group of three bytes, all of them from the alphabet or padding. *)
Theorem base64_roundtrip b :
  Base64EncodedStringToByteArray (ByteArrayToBase64EncodedString b) = b /\
  zlen (ByteArrayToBase64EncodedString b) = (4 * ((zlen b + 2) / 3))%Z /\
  Forall (fun c => base64_text c = true) (ByteArrayToBase64EncodedString b).
Proof.
  exact (conj (base64_roundtrip_bytes b) (conj (base64_encode_length b) (base64_encode_text b))).
Qed.

(** Decoding the hexadecimal encoding of any byte array gives the array back, and decoding an
    arbitrary string succeeds exactly on the strings of even length made of hexadecimal digits; every
    other string is refused with a ValueError. *)
Theorem hex_roundtrip b s :
  HexEncodedStringToByteArray (ByteArrayToHexEncodedString b) = Ok b /\
  match HexEncodedStringToByteArray s with
  | Ok _ => (zlen s mod 2 = 0)%Z /\ forallb hex_digit_char s = true
  | Err e => (exists msg, e = ValueError msg) /\
             ((zlen s mod 2 <> 0)%Z \/ forallb hex_digit_char s = false)
  end.
Proof.
  unfold HexEncodedStringToByteArray, ByteArrayToHexEncodedString, HexStringToBinary. split.
  - rewrite BinaryToHexString_length, (Z.mul_comm 2), Z_mod_mult. cbn.
    by rewrite hex_loop_roundtrip.
  - case_bool_decide as Hodd; cbn [throw_if result_bind]; [eauto|].
    assert (Hev : Nat.Even (length s)).
    { unfold zlen in Hodd. exists (Z.to_nat (Z.of_nat (length s) / 2)).
      Z.to_euclidean_division_equations. lia. }
    pose proof (hex_loop_ok s [] Hev) as Hl. destruct (hex_loop s []) as [x|e]; [|naive_solver].
    split; [lia|done].
Qed.
