(* ===== verification/Json.v ===== *)
(** The JSON library common/packages/parson/parson.cpp: values, the parser and the serializer, and the
    accessors the rest of the code uses.  An object is the sequence of its members, in the order of the
    arrays [names] and [values]; JsonObject.v shows that the hash table beside them implements it.
    What parson takes from the C library for numbers is a parameter. *)
From S2P Require Import Prelude Codec.

(** A number is the bit pattern of its [double]. *)
#[local] Set Warnings "-register-all".
Inductive json :=
  | JNull
  | JBool (b : bool)
  | JNumber (bits : Z)
  | JString (s : bytes)
  | JArray (l : list json)
  | JObject (l : list (bytes * json)).

(** [strtod] gives the number, the characters it consumed and whether it overflowed; [print_number] is
    the output of the format %1.17g; [COMPILE_FOR_SGX] is a setting of the build. *)
Class LibC := {
  strtod : bytes -> Z * nat * bool;
  print_number : Z -> bytes;
  COMPILE_FOR_SGX : bool;
}.

Definition MAX_NESTING : Z := 2048.

(** * Characters *)

(** A C string read through a pointer: past its end there is the terminating NUL. *)
Definition peek (s : bytes) : Init.Byte.byte := hd Byte.x00 s.

Definition char_is (c : Init.Byte.byte) (s : bytes) : bool := bool_decide (peek s = c).

Definition isspace (c : Init.Byte.byte) : bool :=
  bool_decide (byte.unsigned c = 32%Z) || bool_decide (9 <= byte.unsigned c <= 13)%Z.

Fixpoint SKIP_WHITESPACES (s : bytes) : bytes :=
  match s with
  | c :: t => if isspace c then SKIP_WHITESPACES t else s
  | [] => []
  end.

Definition hex_char_to_int (c : Init.Byte.byte) : option Z :=
  let z := byte.unsigned c in
  if bool_decide (48 <= z <= 57)%Z then Some (z - 48)%Z
  else if bool_decide (97 <= z <= 102)%Z then Some (z - 97 + 10)%Z
  else if bool_decide (65 <= z <= 70)%Z then Some (z - 65 + 10)%Z
  else None.

Definition parse_utf16_hex (s : bytes) : option Z :=
  match s with
  | c1 :: c2 :: c3 :: c4 :: _ =>
      x1 ← hex_char_to_int c1; x2 ← hex_char_to_int c2; x3 ← hex_char_to_int c3; x4 ← hex_char_to_int c4;
      Some (Z.lor (Z.lor (Z.shiftl x1 12) (Z.shiftl x2 8)) (Z.lor (Z.shiftl x3 4) x4))
  | _ => None
  end.

(** * UTF-8 *)

Definition IS_CONT (c : Init.Byte.byte) : bool := bool_decide (Z.land (byte.unsigned c) 0xC0 = 0x80)%Z.

Definition num_bytes_in_utf8_sequence (c : Init.Byte.byte) : Z :=
  let z := byte.unsigned c in
  if bool_decide (z = 0xC0 \/ z = 0xC1 \/ z > 0xF4)%Z || IS_CONT c then 0
  else if bool_decide (Z.land z 0x80 = 0)%Z then 1
  else if bool_decide (Z.land z 0xE0 = 0xC0)%Z then 2
  else if bool_decide (Z.land z 0xF0 = 0xE0)%Z then 3
  else if bool_decide (Z.land z 0xF8 = 0xF0)%Z then 4
  else 0.

Definition code_point (lead : Z) (conts : bytes) : Z :=
  fold_left (fun cp c => Z.lor (Z.shiftl cp 6) (Z.land (byte.unsigned c) 0x3F)) conts lead.

(** The length of the sequence at the start of [s]; a missing byte reads as NUL. *)
Definition verify_utf8_sequence (s : bytes) : option nat :=
  let at_ i := nth i s Byte.x00 in
  let c0 := byte.unsigned (at_ 0%nat) in
  let len := num_bytes_in_utf8_sequence (at_ 0%nat) in
  cp ← if bool_decide (len = 1)%Z then Some c0
       else if bool_decide (len = 2)%Z && IS_CONT (at_ 1%nat) then Some (code_point (Z.land c0 0x1F) [at_ 1%nat])
       else if bool_decide (len = 3)%Z && IS_CONT (at_ 1%nat) && IS_CONT (at_ 2%nat)
       then Some (code_point (Z.land c0 0xF) [at_ 1%nat; at_ 2%nat])
       else if bool_decide (len = 4)%Z && IS_CONT (at_ 1%nat) && IS_CONT (at_ 2%nat) && IS_CONT (at_ 3%nat)
       then Some (code_point (Z.land c0 0x7) [at_ 1%nat; at_ 2%nat; at_ 3%nat])
       else None;
  if bool_decide ((cp < 0x80 /\ len > 1) \/ (cp < 0x800 /\ len > 2) \/ (cp < 0x10000 /\ len > 3))%Z then None
  else if bool_decide (cp > 0x10FFFF)%Z then None
  else if bool_decide (0xD800 <= cp <= 0xDFFF)%Z then None
  else Some (Z.to_nat len).

(** Every turn skips at least one byte, so the length of the string is enough fuel. *)
Fixpoint is_valid_utf8_loop (fuel : nat) (s : bytes) : bool :=
  match s, fuel with
  | [], _ => true
  | _, O => false
  | _, S fuel =>
      match verify_utf8_sequence s with
      | None => false
      | Some len => is_valid_utf8_loop fuel (drop len s)
      end
  end.

Definition is_valid_utf8 (s : bytes) : bool := is_valid_utf8_loop (length s) s.

(** What [json_value_init_string] accepts. *)
Definition json_valid_string (s : bytes) : bool := is_valid_utf8 s.

(** * Strings *)

(** The failure of a parser function: a null pointer. *)
Definition NULL {A} : result A := Err (ValueError "NULL").

Definition cons_content (c : Init.Byte.byte) (r : result (bytes * bytes)) : result (bytes * bytes) :=
  let? '(content, rest) := r in Ok (c :: content, rest).

(** The loop of [skip_quotes], after the opening quote: what is between the quotes and what follows. *)
Fixpoint quoted_content (s : bytes) : result (bytes * bytes) :=
  match s with
  | [] => NULL
  | c :: s =>
      if bool_decide (c = Byte.x22) then Ok ([], s)
      else if bool_decide (c = Byte.x00) then NULL
      else if bool_decide (c = Byte.x5c) then
        match s with
        | [] => NULL
        | e :: s =>
            if bool_decide (e = Byte.x00) then NULL
            else cons_content c (cons_content e (quoted_content s))
        end
      else cons_content c (quoted_content s)
  end.

Definition skip_quotes (s : bytes) : result (bytes * bytes) :=
  if char_is Byte.x22 s then quoted_content (tl s) else NULL.

(** The encoding of a code point: a lead byte and continuation bytes. *)
Definition utf8_bytes (cp mask lead : Z) (shift : Z) (shifts : list Z) : bytes :=
  byte.of_Z (Z.lor (Z.land (Z.shiftr cp shift) mask) lead)
  :: map (fun k => byte.of_Z (Z.lor (Z.land (Z.shiftr cp k) 0x3F) 0x80)) shifts.

(** The escape sequence after the letter u: the bytes it stands for and the rest of the input. *)
Definition parse_utf16 (s : bytes) : option (bytes * bytes) :=
  cp ← parse_utf16_hex s;
  let rest := drop 4 s in
  if bool_decide (cp < 0x80)%Z then Some ([byte.of_Z cp], rest)
  else if bool_decide (cp < 0x800)%Z then Some (utf8_bytes cp 0x1F 0xC0 6 [0]%Z, rest)
  else if bool_decide (cp < 0xD800 \/ cp > 0xDFFF)%Z then Some (utf8_bytes cp 0x0F 0xE0 12 [6; 0]%Z, rest)
  else if bool_decide (0xD800 <= cp <= 0xDBFF)%Z then
    match rest with
    | b :: u :: rest =>
        if bool_decide (b = Byte.x5c) && bool_decide (u = "u"%byte) then
          trail ← parse_utf16_hex rest;
          if bool_decide (trail < 0xDC00 \/ trail > 0xDFFF)%Z then None
          else
            let cp := (Z.lor (Z.shiftl (Z.land (cp - 0xD800) 0x3FF) 10) (Z.land (trail - 0xDC00) 0x3FF) + 0x010000)%Z in
            Some (utf8_bytes cp 0x07 0xF0 18 [12; 6; 0]%Z, drop 4 rest)
        else None
    | _ => None
    end
  else None.

Definition simple_escape (e : Init.Byte.byte) : option Init.Byte.byte :=
  if bool_decide (e = Byte.x22) then Some Byte.x22
  else if bool_decide (e = Byte.x5c) then Some Byte.x5c
  else if bool_decide (e = "/"%byte) then Some "/"%byte
  else if bool_decide (e = "b"%byte) then Some Byte.x08
  else if bool_decide (e = "f"%byte) then Some Byte.x0c
  else if bool_decide (e = "n"%byte) then Some Byte.x0a
  else if bool_decide (e = "r"%byte) then Some Byte.x0d
  else if bool_decide (e = "t"%byte) then Some Byte.x09
  else None.

(** Every turn consumes a character, so the length of the content is enough fuel. *)
Fixpoint process_loop (fuel : nat) (s : bytes) : option bytes :=
  match s, fuel with
  | [], _ => Some []
  | _, O => None
  | c :: s, S fuel =>
      if bool_decide (c = Byte.x5c) then
        match s with
        | [] => None
        | e :: s =>
            match simple_escape e with
            | Some b => cons b <$> process_loop fuel s
            | None =>
                if bool_decide (e = "u"%byte) then
                  p ← parse_utf16 s; app p.1 <$> process_loop fuel p.2
                else None
            end
        end
      else if bool_decide (byte.unsigned c < 0x20)%Z then None
      else cons c <$> process_loop fuel s
  end.

Definition process_string (s : bytes) : option bytes := process_loop (length s) s.

Definition get_quoted_string (s : bytes) : result (bytes * bytes) :=
  let? '(content, rest) := skip_quotes s in
  let? str := match process_string content with Some str => Ok str | None => NULL end in
  Ok (str, rest).

(** * Objects *)

Definition member_names (l : list (bytes * json)) : list bytes := map fst l.

(** [json_object_add]: refused when the name is there. *)
Definition json_object_add (l : list (bytes * json)) (name : bytes) (v : json) : option (list (bytes * json)) :=
  if bool_decide (name ∈ member_names l) then None else Some (l ++ [(name, v)]).

(** * Parser *)

Section Parser.
Context `{LibC}.

Definition strip_prefix (token s : bytes) : option bytes :=
  if bool_decide (take (length token) s = token) then Some (drop (length token) s) else None.

Definition parse_boolean_value (s : bytes) : result (json * bytes) :=
  match strip_prefix (bytes_of "true") s with
  | Some s => Ok (JBool true, s)
  | None => match strip_prefix (bytes_of "false") s with
            | Some s => Ok (JBool false, s)
            | None => NULL
            end
  end.

Definition parse_null_value (s : bytes) : result (json * bytes) :=
  match strip_prefix (bytes_of "null") s with Some s => Ok (JNull, s) | None => NULL end.

Definition is_decimal (s : bytes) : bool :=
  let at_ i := nth i s Byte.x00 in
  negb (bool_decide (1 < zlen s)%Z && bool_decide (at_ 0%nat = "0"%byte) && bool_decide (at_ 1%nat <> "."%byte)) &&
  negb (bool_decide (2 < zlen s)%Z && bool_decide (at_ 0%nat = "-"%byte) && bool_decide (at_ 1%nat = "0"%byte) &&
        bool_decide (at_ 2%nat <> "."%byte)) &&
  forallb (fun c => bool_decide (c <> "x"%byte) && bool_decide (c <> "X"%byte) && bool_decide (c <> Byte.x00)) s.

(** The exponent field of the double is not all ones. *)
Definition number_valid (bits : Z) : bool := bool_decide (Z.land (Z.shiftr bits 52) 0x7FF <> 0x7FF)%Z.

Definition json_value_init_number (bits : Z) : result json :=
  if number_valid bits then Ok (JNumber bits) else NULL.

Definition parse_number_value (s : bytes) : result (json * bytes) :=
  let '(number, consumed, overflow) := strtod s in
  if overflow : bool then NULL
  else if negb (is_decimal (take consumed s)) then NULL
  else let? v := json_value_init_number number in Ok (v, drop consumed s).

Definition parse_string_value (s : bytes) : result (json * bytes) :=
  let? '(str, s) := get_quoted_string s in Ok (JString str, s).

Definition is_number_start (c : Init.Byte.byte) : bool :=
  bool_decide (c = "-"%byte) || bool_decide (48 <= byte.unsigned c <= 57)%Z.

(** The closing bracket of a container. *)
Definition close_with (c : Init.Byte.byte) (v : json) (s : bytes) : result (json * bytes) :=
  let s := SKIP_WHITESPACES s in
  if char_is c s then Ok (v, tl s) else NULL.

(** [parse_value], and the loops of [parse_object_value] and [parse_array_value] with the members and
    the items parsed so far. *)
Fixpoint parse_value (fuel : nat) (nesting : Z) (s : bytes) : result (json * bytes) :=
  match fuel with
  | O => Err OutOfFuel
  | S fuel =>
      if bool_decide (nesting > MAX_NESTING)%Z then NULL
      else
        let s := SKIP_WHITESPACES s in
        if char_is "{"%byte s then
          let s := SKIP_WHITESPACES (tl s) in
          if char_is "}"%byte s then Ok (JObject [], tl s) else parse_members fuel (nesting + 1) [] s
        else if char_is "["%byte s then
          let s := SKIP_WHITESPACES (tl s) in
          if char_is "]"%byte s then Ok (JArray [], tl s) else parse_items fuel (nesting + 1) [] s
        else if char_is Byte.x22 s then parse_string_value s
        else if char_is "f"%byte s || char_is "t"%byte s then parse_boolean_value s
        else if is_number_start (peek s) then parse_number_value s
        else if char_is "n"%byte s then parse_null_value s
        else NULL
  end
with parse_members (fuel : nat) (nesting : Z) (members : list (bytes * json)) (s : bytes) : result (json * bytes) :=
  match fuel with
  | O => Err OutOfFuel
  | S fuel =>
      if char_is Byte.x00 s then NULL
      else
        let? '(key, s) := get_quoted_string s in
        throw_if (bool_decide (Byte.x00 ∈ key)) (ValueError "NULL") ;;?
        let s := SKIP_WHITESPACES s in
        throw_if (negb (char_is ":"%byte s)) (ValueError "NULL") ;;?
        let? '(v, s) := parse_value fuel nesting (tl s) in
        let? members := match json_object_add members key v with Some l => Ok l | None => NULL end in
        let s := SKIP_WHITESPACES s in
        if char_is ","%byte s then
          let s := SKIP_WHITESPACES (tl s) in
          if char_is "}"%byte s then close_with "}"%byte (JObject members) s
          else parse_members fuel nesting members s
        else close_with "}"%byte (JObject members) s
  end
with parse_items (fuel : nat) (nesting : Z) (items : list json) (s : bytes) : result (json * bytes) :=
  match fuel with
  | O => Err OutOfFuel
  | S fuel =>
      if char_is Byte.x00 s then NULL
      else
        let? '(v, s) := parse_value fuel nesting s in
        let items := items ++ [v] in
        let s := SKIP_WHITESPACES s in
        if char_is ","%byte s then
          let s := SKIP_WHITESPACES (tl s) in
          if char_is "]"%byte s then close_with "]"%byte (JArray items) s
          else parse_items fuel nesting items s
        else close_with "]"%byte (JArray items) s
  end.

(** Two units of fuel per character: a value is parsed where an item starts, everything else consumes. *)
Definition parse_fuel (s : bytes) : nat := 2 * length s + 2.

Definition BOM : bytes := [Byte.xef; Byte.xbb; Byte.xbf].

Definition json_parse_string (s : bytes) : result (json * bytes) :=
  let s := default s (strip_prefix BOM s) in
  parse_value (parse_fuel s) 0 s.

Definition json_parse (s : bytes) : option json :=
  match json_parse_string s with Ok (j, _) => Some j | Err _ => None end.
End Parser.

(** * Serializer *)

Section Serializer.
Context `{LibC}.

Definition hex_lower (z : Z) : Init.Byte.byte := byte.of_Z (if bool_decide (z < 10)%Z then 48 + z else 87 + z)%Z.

(** The case of one character in [json_serialize_string]. *)
Definition serialize_char (c : Init.Byte.byte) : bytes :=
  let z := byte.unsigned c in
  if bool_decide (c = Byte.x22) then [Byte.x5c; Byte.x22]
  else if bool_decide (c = Byte.x5c) then [Byte.x5c; Byte.x5c]
  else if bool_decide (c = Byte.x08) then [Byte.x5c; "b"%byte]
  else if bool_decide (c = Byte.x0c) then [Byte.x5c; "f"%byte]
  else if bool_decide (c = Byte.x0a) then [Byte.x5c; "n"%byte]
  else if bool_decide (c = Byte.x0d) then [Byte.x5c; "r"%byte]
  else if bool_decide (c = Byte.x09) then [Byte.x5c; "t"%byte]
  else if bool_decide (z < 0x20)%Z then [Byte.x5c; "u"%byte; "0"%byte; "0"%byte; hex_lower (z / 16); hex_lower (z mod 16)]
  else if bool_decide (c = "/"%byte) then (if COMPILE_FOR_SGX then ["/"%byte] else [Byte.x5c; "/"%byte])
  else [c].

Definition json_serialize_string (s : bytes) : bytes :=
  Byte.x22 :: concat (map serialize_char s) ++ [Byte.x22].

Definition INDENT (level : nat) : bytes := concat (replicate level (bytes_of "    ")).

Definition when_b (c : bool) (b : bytes) : bytes := if c then b else [].

Definition newline : bytes := [Byte.x0a].

(** What follows an element: a comma unless it is the last, and a line break in pretty mode. *)
Definition separator (is_pretty : bool) {A} (rest : list A) : bytes :=
  when_b (negb (bool_decide (length rest = 0%nat))) [","%byte] ++ when_b is_pretty newline.

Fixpoint json_serialize_to_buffer_r (is_pretty : bool) (level : nat) (v : json) : bytes :=
  match v with
  | JArray l =>
      ["["%byte] ++ when_b (is_pretty && negb (bool_decide (length l = 0%nat))) newline ++
      (fix items l := match l with
                      | [] => []
                      | x :: l => when_b is_pretty (INDENT (S level)) ++
                                  json_serialize_to_buffer_r is_pretty (S level) x ++ separator is_pretty l ++ items l
                      end) l ++
      when_b (is_pretty && negb (bool_decide (length l = 0%nat))) (INDENT level) ++ ["]"%byte]
  | JObject l =>
      ["{"%byte] ++ when_b (is_pretty && negb (bool_decide (length l = 0%nat))) newline ++
      (fix members l := match l with
                        | [] => []
                        | x :: l => when_b is_pretty (INDENT (S level)) ++
                                    json_serialize_string x.1 ++ [":"%byte] ++ when_b is_pretty [" "%byte] ++
                                    json_serialize_to_buffer_r is_pretty (S level) x.2 ++ separator is_pretty l ++ members l
                        end) l ++
      when_b (is_pretty && negb (bool_decide (length l = 0%nat))) (INDENT level) ++ ["}"%byte]
  | JString s => json_serialize_string s
  | JBool b => if b then bytes_of "true" else bytes_of "false"
  | JNumber n => print_number n
  | JNull => bytes_of "null"
  end.

(** The text, without the NUL that the size counts; no value that can be built fails to serialize. *)
Definition json_serialize (v : json) : option bytes := Some (json_serialize_to_buffer_r false 0 v).
Definition json_serialize_pretty (v : json) : option bytes := Some (json_serialize_to_buffer_r true 0 v).
End Serializer.

(** * Access to members *)

Definition json_object_get (j : json) (name : bytes) : option json :=
  match j with
  | JObject l => match list_find (fun kv => fst kv = name) l with
                 | Some (_, kv) => Some kv.2
                 | None => None
                 end
  | _ => None
  end.

Definition json_object_get_string (j : json) (name : bytes) : option bytes :=
  match json_object_get j name with Some (JString s) => Some s | _ => None end.

Definition json_object_get_array (j : json) (name : bytes) : option (list json) :=
  match json_object_get j name with Some (JArray l) => Some l | _ => None end.

(** The C string that [json_object_get_string] points to. *)
Definition get_cstring (o : json) (name : bytes) : option bytes := c_str <$> json_object_get_string o name.

(** [json_object_dotget_string(o, "a.b")]. *)
Definition dotget_cstring (o : json) (a b : bytes) : option bytes :=
  sub ← json_object_get o a; get_cstring sub b.

(** [json_object_dotget_object]; a null object reads as one without members. *)
Definition json_object_get_object (o : json) (name : bytes) : json :=
  match json_object_get o name with Some (JObject l) => JObject l | _ => JNull end.

Definition json_is_object (j : json) : bool := match j with JObject _ => true | _ => false end.

(** [json_array_get_string]. *)
Definition array_get_cstring (l : list json) (i : nat) : option bytes :=
  match l !! i with Some (JString s) => Some (c_str s) | _ => None end.

(** [json_object_set_value]: the value of a member that is there is replaced in place. *)
Fixpoint json_object_set_value (l : list (bytes * json)) (name : bytes) (v : json) : list (bytes * json) :=
  match l with
  | [] => [(name, v)]
  | kv :: l => if bool_decide (kv.1 = name) then (name, v) :: l else kv :: json_object_set_value l name v
  end.

(** [json_object_dotset_value] with the path of names between the dots: objects on the way are created,
    anything else on the way is a failure. *)
Fixpoint json_object_dotset_value (l : list (bytes * json)) (path : list bytes) (v : json) : option (list (bytes * json)) :=
  match path with
  | [] => None
  | [name] => Some (json_object_set_value l name v)
  | name :: path =>
      match json_object_get (JObject l) name with
      | None => sub ← json_object_dotset_value [] path v; Some (l ++ [(name, JObject sub)])
      | Some (JObject sub) => sub ← json_object_dotset_value sub path v; Some (json_object_set_value l name (JObject sub))
      | Some _ => None
      end
  end.

(** [json_object_dotset_string]. *)
Definition json_object_dotset_string (l : list (bytes * json)) (path : list bytes) (s : bytes) : option (list (bytes * json)) :=
  if json_valid_string s then json_object_dotset_value l path (JString s) else None.
