(* ===== verification/JsonSpec.v ===== *)
(** Correctness of the JSON library: the parser inverts the serializer, in both of its layouts, and
    returns on every input. *)
From S2P Require Import Prelude Codec Json.

(** * Values that can be built *)

(** An object has distinct names without NUL, a number is finite. *)
Fixpoint wf_json (j : json) : bool :=
  match j with
  | JNull | JBool _ | JString _ => true
  | JNumber n => number_valid n
  | JArray l => forallb wf_json l
  | JObject l => bool_decide (NoDup (member_names l)) && forallb (fun kv => bool_decide (Byte.x00 ∉ kv.1) && wf_json kv.2) l
  end.

(** How deep containers are nested. *)
Fixpoint json_depth (j : json) : Z :=
  match j with
  | JArray l => (1 + fold_right Z.max 0 (map json_depth l))%Z
  | JObject l => (1 + fold_right Z.max 0 (map (fun kv => json_depth kv.2) l))%Z
  | _ => 0%Z
  end.

Lemma json_depth_nonneg j : (0 <= json_depth j)%Z.
Proof.
  destruct j as [| | | |l|l]; cbn; try lia.
  - induction l; cbn; lia.
  - induction l; cbn; lia.
Qed.

Section JsonInd.
Context (P : json -> Prop).
Hypothesis (P_null : P JNull) (P_bool : forall b, P (JBool b)) (P_number : forall n, P (JNumber n)).
Hypothesis (P_string : forall s, P (JString s)).
Hypothesis (P_array : forall l, Forall P l -> P (JArray l)).
Hypothesis (P_object : forall l, Forall (fun kv => P kv.2) l -> P (JObject l)).

Lemma json_induction j : P j.
Proof.
  revert j. fix rec 1. intros [|b|n|s|l|l]; [exact P_null|apply P_bool|apply P_number|apply P_string| |].
  - apply P_array. induction l as [|x l IH]; constructor; [apply rec|exact IH].
  - apply P_object. induction l as [|x l IH]; constructor; [apply rec|exact IH].
Qed.
End JsonInd.

(** * White space *)

Definition white (w : bytes) : bool := forallb isspace w.

Lemma skip_white w s : white w = true -> SKIP_WHITESPACES (w ++ s) = SKIP_WHITESPACES s.
Proof. induction w as [|c w IH]; cbn; [done|]. intros [-> Hw]%andb_true_iff. by apply IH. Qed.

Lemma skip_start c s : isspace c = false -> SKIP_WHITESPACES (c :: s) = c :: s.
Proof. intros Hc. cbn. by rewrite Hc. Qed.

Lemma white_indent n : white (INDENT n) = true.
Proof. unfold white, INDENT. induction n as [|n IH]; cbn; done. Qed.

Lemma white_when c w : white w = true -> white (when_b c w) = true.
Proof. by destruct c. Qed.

Lemma white_app v w : white v = true -> white w = true -> white (v ++ w) = true.
Proof. unfold white. rewrite forallb_app. by intros -> ->. Qed.

#[export] Hint Resolve white_indent white_when white_app : pdo.

(** * Strings *)

Section Strings.
Context `{LibC}.

Lemma process_char fuel c t : process_loop (S fuel) (serialize_char c ++ t) = cons c <$> process_loop fuel t.
Proof. unfold serialize_char. destruct COMPILE_FOR_SGX; destruct c; reflexivity. Qed.

(** A character that stands for itself between quotes. *)
Definition unquoted (c : Init.Byte.byte) : bool :=
  bool_decide (c <> Byte.x22) && bool_decide (c <> Byte.x00) && bool_decide (c <> Byte.x5c).

(** The shape of one serialized character: escaped or not, it hides no quote. *)
Definition chunk_ok (l : bytes) : bool :=
  match l with
  | c :: e :: l => bool_decide (c = Byte.x5c) && bool_decide (e <> Byte.x00) && forallb unquoted l
  | l => forallb unquoted l
  end.

Lemma serialize_char_chunk c : chunk_ok (serialize_char c) = true.
Proof. unfold serialize_char. destruct COMPILE_FOR_SGX; destruct c; reflexivity. Qed.

Lemma quoted_unquoted l t : forallb unquoted l = true ->
  quoted_content (l ++ t) = (let? '(x, r) := quoted_content t in Ok (l ++ x, r)).
Proof.
  induction l as [|c l IH]; cbn [forallb app quoted_content].
  - destruct (quoted_content t) as [[x r]|e]; done.
  - intros [Hc Hl]%andb_true_iff. unfold unquoted in Hc. rewrite !andb_true_iff, !bool_decide_eq_true in Hc.
    destruct Hc as [[H1 H2] H3]. guards. rewrite IH by done. by destruct (quoted_content t) as [[x r]|e].
Qed.

Lemma quoted_chunk l t : chunk_ok l = true ->
  quoted_content (l ++ t) = (let? '(x, r) := quoted_content t in Ok (l ++ x, r)).
Proof.
  destruct l as [|c [|e l]]; [by apply quoted_unquoted..|]. cbn [chunk_ok].
  rewrite !andb_true_iff, !bool_decide_eq_true. intros [[-> He] Hl]. cbn [app quoted_content]. guards.
  rewrite quoted_unquoted by done. by destruct (quoted_content t) as [[x r]|w].
Qed.

Lemma process_chars s fuel : length s <= fuel -> process_loop fuel (concat (map serialize_char s)) = Some s.
Proof.
  revert fuel. induction s as [|c s IH]; intros fuel Hf; [by destruct fuel|].
  destruct fuel as [|fuel]; cbn [length] in Hf; [lia|]. cbn [map concat]. rewrite process_char, IH by lia. done.
Qed.

Lemma quoted_chars s rest :
  quoted_content (concat (map serialize_char s) ++ Byte.x22 :: rest) = Ok (concat (map serialize_char s), rest).
Proof.
  induction s as [|c s IH]; [done|]. cbn [map concat]. rewrite <-app_assoc, quoted_chunk, IH by apply serialize_char_chunk. done.
Qed.

Lemma serialize_char_length c : 1 <= length (serialize_char c).
Proof. unfold serialize_char. repeat case_match; cbn; lia. Qed.

Lemma serialize_chars_length s : length s <= length (concat (map serialize_char s)).
Proof. induction s as [|c s IH]; cbn; [lia|]. rewrite length_app. pose proof (serialize_char_length c). lia. Qed.

Lemma get_serialized_string s rest : get_quoted_string (json_serialize_string s ++ rest) = Ok (s, rest).
Proof.
  unfold get_quoted_string, skip_quotes, json_serialize_string, char_is. cbn [peek hd app tl].
  rewrite bool_decide_eq_true_2 by done. rewrite <-app_assoc. cbn [app]. rewrite quoted_chars. cbn [result_bind].
  unfold process_string. rewrite process_chars by apply serialize_chars_length. done.
Qed.

Lemma serialized_string_start s : exists t, json_serialize_string s = Byte.x22 :: t.
Proof. by eexists. Qed.
End Strings.

(** * Values *)

(** Printed numbers are read back when what follows cannot extend them. *)
Definition ends_value (s : bytes) : bool :=
  bool_decide (peek s ∈ [Byte.x00; ","%byte; "]"%byte; "}"%byte; Byte.x0a]).

Class LibCLaws `{LibC} : Prop := {
  print_number_start n : number_valid n = true ->
    exists c t, print_number n = c :: t /\ is_number_start c = true;
  print_number_decimal n : number_valid n = true -> is_decimal (print_number n) = true;
  strtod_print n rest : number_valid n = true -> ends_value rest = true ->
    strtod (print_number n ++ rest) = (n, length (print_number n), false);
  print_number_no_nul n : number_valid n = true -> Byte.x00 ∉ print_number n;
}.

Definition value_start (c : Init.Byte.byte) : bool :=
  bool_decide (c ∈ ["{"%byte; "["%byte; Byte.x22; "f"%byte; "t"%byte; "n"%byte]) || is_number_start c.

Lemma value_start_facts c : value_start c = true ->
  isspace c = false /\ c <> "]"%byte /\ c <> "}"%byte /\ c <> Byte.x00.
Proof. destruct c; vm_compute; intros H; try discriminate; repeat split; discriminate. Qed.

Section Values.
Context `{LibCLaws}.

#[local] Abbreviation serialize := json_serialize_to_buffer_r.

(** The texts of the items of an array and of the members of an object. *)
Definition items_text (p : bool) (level : nat) : list json -> bytes :=
  fix items l := match l with
                 | [] => []
                 | x :: l => when_b p (INDENT (S level)) ++ serialize p (S level) x ++ separator p l ++ items l
                 end.

Definition members_text (p : bool) (level : nat) : list (bytes * json) -> bytes :=
  fix members l := match l with
                   | [] => []
                   | x :: l => when_b p (INDENT (S level)) ++ json_serialize_string x.1 ++ [":"%byte] ++
                               when_b p [" "%byte] ++ serialize p (S level) x.2 ++ separator p l ++ members l
                   end.

Lemma serialize_array p level x l : serialize p level (JArray (x :: l)) =
  "["%byte :: when_b p newline ++ items_text p level (x :: l) ++ when_b p (INDENT level) ++ ["]"%byte].
Proof. by destruct p. Qed.

Lemma serialize_object p level x l : serialize p level (JObject (x :: l)) =
  "{"%byte :: when_b p newline ++ members_text p level (x :: l) ++ when_b p (INDENT level) ++ ["}"%byte].
Proof. by destruct p. Qed.

Lemma value_starts p level v : wf_json v = true -> exists c t, serialize p level v = c :: t /\ value_start c = true.
Proof.
  destruct v as [|[]|n|s|l|l]; cbn [wf_json]; intros Hw; try (by do 2 eexists).
  destruct (print_number_start n Hw) as (c & t & Hp & Hc). exists c, t. split; [done|].
  unfold value_start. by rewrite Hc, orb_true_r.
Qed.

(** The fuel that parsing a serialized value takes. *)
Fixpoint need (j : json) : nat :=
  match j with
  | JArray l => S (fold_right (fun x n => S (Nat.max x n)) 0 (map need l))
  | JObject l => S (fold_right (fun x n => S (Nat.max x n)) 0 (map (fun kv => need kv.2) l))
  | _ => 1
  end.

Definition read_back (p : bool) (v : json) : Prop := forall level nesting fuel rest,
  wf_json v = true -> (nesting + json_depth v <= MAX_NESTING)%Z -> need v <= fuel -> ends_value rest = true ->
  parse_value fuel nesting (serialize p level v ++ rest) = Ok (v, rest).
End Values.

Lemma char_is_cons c d s : char_is c (d :: s) = bool_decide (d = c).
Proof. done. Qed.

Lemma skip_to w c s : white w = true -> isspace c = false -> SKIP_WHITESPACES (w ++ c :: s) = c :: s.
Proof. intros Hw Hc. by rewrite skip_white, skip_start. Qed.

Section Containers.
Context `{LibCLaws}.

#[local] Abbreviation serialize := json_serialize_to_buffer_r.

(** What follows an element of a container that is closed by [c]. *)
Lemma after_last {A} p level c rest : isspace c = false ->
  SKIP_WHITESPACES (separator p (@nil A) ++ when_b p (INDENT level) ++ c :: rest) = c :: rest.
Proof. intros Hc. unfold separator. cbn. rewrite app_assoc. apply skip_to; auto with pdo. Qed.

Lemma ends_last {A} p level c rest : c = "]"%byte \/ c = "}"%byte ->
  ends_value (separator p (@nil A) ++ when_b p (INDENT level) ++ c :: rest) = true.
Proof. destruct p; cbn; [done|]. by intros [-> | ->]. Qed.

Lemma parse_items_serialized p level nesting x l acc fuel rest :
  Forall (read_back p) (x :: l) -> Forall (fun v => wf_json v = true) (x :: l) ->
  Forall (fun v => nesting + json_depth v <= MAX_NESTING)%Z (x :: l) ->
  fold_right (fun x n => S (Nat.max x n)) 0 (map need (x :: l)) <= fuel ->
  parse_items fuel nesting acc
    (serialize p (S level) x ++ separator p l ++ items_text p level l ++ when_b p (INDENT level) ++ "]"%byte :: rest)
  = Ok (JArray (acc ++ x :: l), rest).
Proof.
  revert x acc fuel. induction l as [|y l IH]; intros x acc fuel Hr Hw Hd Hf;
    apply list.Forall_cons in Hr as [Hx Hr], Hw as [Hwx Hw], Hd as [Hdx Hd];
    cbn [map fold_right] in Hf; destruct fuel as [|fuel]; [lia| |lia|]; cbn [parse_items];
    destruct (value_starts p (S level) x Hwx) as (c & t & Hc & (Hs & Hb & _ & Hnul)%value_start_facts);
    rewrite Hc; cbn [app]; rewrite char_is_cons, bool_decide_eq_false_2 by congruence; rewrite app_comm_cons, <-Hc.
  - rewrite Hx; [|done|done|lia|by apply ends_last; left]. cbn [result_bind items_text app].
    rewrite after_last, char_is_cons by done. guards. unfold close_with. rewrite skip_start, char_is_cons by done. by guards.
  - rewrite Hx; [|done|done|lia|done]. cbn [result_bind].
    destruct (value_starts p (S level) y) as (cy & ty & Hcy & (Hsy & Hby & _ & _)%value_start_facts);
      [by apply list.Forall_cons in Hw as [? _]|].
    change (separator p (y :: l)) with (","%byte :: when_b p newline). cbn [app].
    rewrite skip_start, char_is_cons by done. guards. cbn [tl items_text].
    rewrite <-!app_assoc, app_assoc, Hcy. cbn [app]. rewrite skip_to by auto with pdo.
    rewrite char_is_cons, bool_decide_eq_false_2 by congruence. rewrite app_comm_cons, <-Hcy.
    rewrite IH; [by rewrite <-app_assoc|done..|cbn in Hf |- *; lia].
Qed.
End Containers.

Section Objects.
Context `{LibCLaws}.

#[local] Abbreviation serialize := json_serialize_to_buffer_r.

Lemma json_object_add_fresh l name v : name ∉ member_names l -> json_object_add l name v = Some (l ++ [(name, v)]).
Proof. intros Hn. unfold json_object_add. by guards. Qed.

Lemma parse_members_serialized p level nesting x l acc fuel rest :
  Forall (fun kv => read_back p (kv.2)) (x :: l) ->
  Forall (fun kv => (Byte.x00 ∉ kv.1) /\ wf_json kv.2 = true) (x :: l) ->
  Forall (fun kv => nesting + json_depth kv.2 <= MAX_NESTING)%Z (x :: l) ->
  NoDup (member_names (acc ++ x :: l)) ->
  fold_right (fun x n => S (Nat.max x n)) 0 (map (fun kv => need kv.2) (x :: l)) <= fuel ->
  parse_members fuel nesting acc
    (json_serialize_string x.1 ++ [":"%byte] ++ when_b p [" "%byte] ++ serialize p (S level) x.2 ++ separator p l ++
     members_text p level l ++ when_b p (INDENT level) ++ "}"%byte :: rest)
  = Ok (JObject (acc ++ x :: l), rest).
Proof.
  revert x acc fuel. induction l as [|y l IH]; intros [k v] acc fuel Hr Hw Hd Hn Hf;
    apply list.Forall_cons in Hr as [Hx Hr], Hw as [[Hk Hwx] Hw], Hd as [Hdx Hd];
    cbn [map fold_right snd fst] in *; destruct fuel as [|fuel]; [lia| |lia|]; cbn [parse_members].
  all: assert (Hq : forall s, char_is Byte.x00 (json_serialize_string k ++ s) = false) by done; rewrite Hq; clear Hq.
  all: assert (Hfresh : k ∉ member_names acc)
    by (unfold member_names in Hn; rewrite map_app in Hn; apply list.NoDup_app in Hn as (_ & Hn & _); intros Hin; apply (Hn _ Hin); left).
  all: rewrite get_serialized_string; cbn [result_bind]; guards; cbn [app]; rewrite skip_start, char_is_cons by done; guards; cbn [tl].
  all: assert (Hws : forall s, parse_value fuel nesting (when_b p [" "%byte] ++ serialize p (S level) v ++ s)
                     = parse_value fuel nesting (serialize p (S level) v ++ s))
    by (intros s; destruct p; [|done]; destruct fuel; done).
  all: rewrite Hws.
  - rewrite Hx; [|done|done|lia|by apply ends_last; right]. cbn [result_bind members_text app].
    rewrite json_object_add_fresh by done. cbn [result_bind].
    rewrite after_last, char_is_cons by done. guards. unfold close_with. rewrite skip_start, char_is_cons by done. by guards.
  - rewrite Hx; [|done|done|lia|done]. cbn [result_bind]. rewrite json_object_add_fresh by done. cbn [result_bind].
    change (separator p (y :: l)) with (","%byte :: when_b p newline). cbn [app].
    rewrite skip_start, char_is_cons by done. guards. cbn [tl members_text].
    destruct (serialized_string_start y.1) as [ty Hy].
    rewrite <-!app_assoc, app_assoc, Hy. cbn [app]. rewrite skip_to by auto with pdo.
    rewrite char_is_cons, bool_decide_eq_false_2 by done. rewrite app_comm_cons, <-Hy.
    rewrite <-?app_assoc.
    rewrite IH; [by rewrite <-app_assoc|done..|by rewrite <-app_assoc|cbn in Hf |- *; lia].
Qed.
End Objects.

Section RoundTrip.
Context `{LibCLaws}.

#[local] Abbreviation serialize := json_serialize_to_buffer_r.

Lemma parse_value_start fuel nesting c s : (nesting <= MAX_NESTING)%Z -> isspace c = false ->
  parse_value (S fuel) nesting (c :: s) =
    if bool_decide (c = "{"%byte) then
      let t := SKIP_WHITESPACES s in
      if char_is "}"%byte t then Ok (JObject [], tl t) else parse_members fuel (nesting + 1) [] t
    else if bool_decide (c = "["%byte) then
      let t := SKIP_WHITESPACES s in
      if char_is "]"%byte t then Ok (JArray [], tl t) else parse_items fuel (nesting + 1) [] t
    else if bool_decide (c = Byte.x22) then parse_string_value (c :: s)
    else if bool_decide (c = "f"%byte) || bool_decide (c = "t"%byte) then parse_boolean_value (c :: s)
    else if is_number_start c then parse_number_value (c :: s)
    else if bool_decide (c = "n"%byte) then parse_null_value (c :: s)
    else NULL.
Proof. intros Hn Hc. cbn [parse_value]. rewrite bool_decide_eq_false_2 by lia. by rewrite skip_start. Qed.

Lemma number_start_facts c : is_number_start c = true ->
  isspace c = false /\ c <> "{"%byte /\ c <> "["%byte /\ c <> Byte.x22 /\ c <> "f"%byte /\ c <> "t"%byte.
Proof. destruct c; vm_compute; intros Hs; try discriminate; repeat split; discriminate. Qed.

Lemma read_number p n : read_back p (JNumber n).
Proof.
  intros level nesting fuel rest Hw Hd Hf He. cbn [wf_json json_depth need json_serialize_to_buffer_r] in *.
  destruct (print_number_start n Hw) as (c & t & Hp & Hc). pose proof (strtod_print n rest Hw He) as Hs.
  pose proof (print_number_decimal n Hw) as Hdec. destruct fuel as [|fuel]; [lia|].
  destruct (number_start_facts c Hc) as (? & ? & ? & ? & ? & ?).
  rewrite Hp in *. cbn [app]. rewrite parse_value_start by (done || lia). guards. rewrite Hc.
  unfold parse_number_value. rewrite app_comm_cons, Hs, take_app_length, Hdec, drop_app_length. cbn [negb].
  unfold json_value_init_number. by rewrite Hw.
Qed.

Lemma fold_max_le {A} (f : A -> Z) l m : (1 + fold_right Z.max 0 (map f l) <= m)%Z -> Forall (fun v => (1 + f v <= m)%Z) l.
Proof. induction l as [|x l IH]; cbn; constructor; [lia|]. apply IH. lia. Qed.

Lemma read_array p l : Forall (read_back p) l -> read_back p (JArray l).
Proof.
  intros Hl level nesting fuel rest Hw Hd Hf He. destruct fuel as [|fuel]; [cbn in Hf; lia|].
  pose proof (json_depth_nonneg (JArray l)).
  destruct l as [|x l]; [cbn [json_serialize_to_buffer_r]; destruct p; cbn [app when_b andb negb];
    rewrite parse_value_start by (done || lia); done|].
  rewrite serialize_array. cbn [app]. rewrite parse_value_start by (done || lia). guards. cbn zeta.
  assert (Hwf : Forall (fun v => wf_json v = true) (x :: l)) by (by apply List.Forall_forall, forallb_forall).
  destruct (value_starts p (S level) x) as (c & t & Hc & (Hs & Hb & _ & _)%value_start_facts);
    [by apply list.Forall_cons in Hwf as [? _]|].
  cbn [items_text]. rewrite <-!app_assoc, app_assoc, Hc. cbn [app]. rewrite skip_to by auto with pdo.
  rewrite char_is_cons, bool_decide_eq_false_2 by congruence. rewrite app_comm_cons, <-Hc.
  rewrite parse_items_serialized; [done|done|done| |].
  - assert (Hd' : (1 + fold_right Z.max 0 (map json_depth (x :: l)) <= MAX_NESTING - nesting)%Z) by (cbn [json_depth] in Hd; lia).
    apply fold_max_le in Hd'. eapply list.Forall_impl; [exact Hd'|]. cbn. intros; lia.
  - cbn [need] in Hf. cbn in Hf |- *. lia.
Qed.
End RoundTrip.

Section RoundTripObjects.
Context `{LibCLaws}.

#[local] Abbreviation serialize := json_serialize_to_buffer_r.

(** An object ends with its brace, whatever follows. *)
Lemma read_object_any p l level nesting fuel rest : Forall (fun kv => read_back p (kv.2)) l ->
  wf_json (JObject l) = true -> (nesting + json_depth (JObject l) <= MAX_NESTING)%Z -> need (JObject l) <= fuel ->
  parse_value fuel nesting (serialize p level (JObject l) ++ rest) = Ok (JObject l, rest).
Proof.
  intros Hl Hw Hd Hf. destruct fuel as [|fuel]; [cbn in Hf; lia|].
  pose proof (json_depth_nonneg (JObject l)).
  destruct l as [|x l]; [cbn [json_serialize_to_buffer_r]; destruct p; cbn [app when_b andb negb];
    rewrite parse_value_start by (done || lia); done|].
  rewrite serialize_object. cbn [app]. rewrite parse_value_start by (done || lia). guards. cbn zeta.
  cbn [wf_json] in Hw. apply andb_true_iff in Hw as [Hn%bool_decide_eq_true Hw].
  assert (Hwf : Forall (fun kv => (Byte.x00 ∉ kv.1) /\ wf_json kv.2 = true) (x :: l)).
  { apply List.Forall_forall. intros kv Hin. apply (proj1 (forallb_forall _ _) Hw) in Hin.
    by rewrite andb_true_iff, bool_decide_eq_true in Hin. }
  destruct (serialized_string_start x.1) as [t Ht].
  cbn [members_text]. rewrite <-!app_assoc, app_assoc, Ht. cbn [app]. rewrite skip_to by auto with pdo.
  rewrite char_is_cons, bool_decide_eq_false_2 by done. rewrite app_comm_cons, <-Ht.
  rewrite <-?app_assoc. apply (parse_members_serialized p level (nesting + 1) x l [] fuel rest); [done|done| |done|].
  - assert (Hd' : (1 + fold_right Z.max 0 (map (fun kv => json_depth kv.2) (x :: l)) <= MAX_NESTING - nesting)%Z)
      by (cbn [json_depth] in Hd; lia).
    apply fold_max_le in Hd'. eapply list.Forall_impl; [exact Hd'|]. cbn. intros; lia.
  - cbn [need] in Hf. cbn in Hf |- *. lia.
Qed.

Lemma read_object p l : Forall (fun kv => read_back p (kv.2)) l -> read_back p (JObject l).
Proof. intros Hl level nesting fuel rest Hw Hd Hf _. by apply read_object_any. Qed.

Lemma serialized_read_back p v : read_back p v.
Proof.
  induction v as [|b|n|s|l IH|l IH] using json_induction.
  - intros level nesting [|fuel] rest _ Hd Hf _; cbn in Hf, Hd; [lia|]. cbn. rewrite bool_decide_eq_false_2 by lia. done.
  - intros level nesting [|fuel] rest _ Hd Hf _; cbn in Hf, Hd; [lia|].
    destruct b; cbn; rewrite bool_decide_eq_false_2 by lia; done.
  - apply read_number.
  - intros level nesting [|fuel] rest _ Hd Hf _; cbn in Hf, Hd; [lia|]. cbn [json_serialize_to_buffer_r].
    destruct (serialized_string_start s) as [t Ht]. rewrite Ht at 1. cbn [app].
    rewrite parse_value_start by (done || lia). guards. rewrite app_comm_cons, <-Ht.
    unfold parse_string_value. by rewrite get_serialized_string.
  - by apply read_array.
  - by apply read_object.
Qed.

(** The fuel of the parser is enough for every serialized value. *)
Lemma fold_need_length {A} (f : A -> nat) (text : A -> bytes) l (total : bytes) :
  Forall (fun x => S (f x) <= 2 * length (text x)) l ->
  sum_list (map (fun x => length (text x)) l) <= length total ->
  fold_right (fun x n => S (Nat.max x n)) 0 (map f l) <= 2 * length total.
Proof.
  intros Hl. revert total. induction Hl as [|x l Hx Hl IH]; intros total Ht; cbn in *; [lia|].
  specialize (IH (take (sum_list (map (fun x => length (text x)) l)) total)).
  rewrite length_take in IH. specialize (IH ltac:(lia)). lia.
Qed.

Lemma items_text_length p level l :
  sum_list (map (fun x => length (serialize p (S level) x)) l) <= length (items_text p level l).
Proof. induction l as [|x l IH]; cbn; [lia|]. rewrite !length_app. lia. Qed.

Lemma members_text_length p level l :
  sum_list (map (fun kv => length (serialize p (S level) kv.2)) l) <= length (members_text p level l).
Proof. induction l as [|x l IH]; [cbn; lia|]. cbn [members_text map sum_list foldr]. rewrite !length_app. cbn in *. lia. Qed.

Lemma need_length p v : wf_json v = true -> forall level, S (need v) <= 2 * length (serialize p level v).
Proof.
  induction v as [|b|n|s|l IH|l IH] using json_induction; intros Hw level.
  1-4: destruct (value_starts p level _ Hw) as (c & t & Hc & _); rewrite Hc; cbn; lia.
  - destruct l as [|x l]; [cbn; lia|]. rewrite serialize_array. cbn [length]. rewrite !length_app.
    cbn [need]. assert (Hl : fold_right (fun x n => S (Nat.max x n)) 0 (map need (x :: l)) <= 2 * length (items_text p level (x :: l))).
    { apply fold_need_length with (text := serialize p (S level)); [|apply items_text_length].
      apply list.Forall_forall. intros y Hy. assert (Hwy : wf_json y = true) by (by eapply forallb_forall; [exact Hw|apply list_elem_of_In]).
      by eapply list.Forall_forall in IH; [apply IH|]. }
    lia.
  - destruct l as [|x l]; [cbn; lia|]. rewrite serialize_object. cbn [length]. rewrite !length_app.
    cbn [wf_json] in Hw. apply andb_true_iff in Hw as [_ Hw].
    cbn [need]. assert (Hl : fold_right (fun x n => S (Nat.max x n)) 0 (map (fun kv => need kv.2) (x :: l)) <= 2 * length (members_text p level (x :: l))).
    { apply fold_need_length with (text := fun kv => serialize p (S level) kv.2); [|apply members_text_length].
      apply list.Forall_forall. intros y Hy.
      assert (Hwy : wf_json y.2 = true).
      { apply list_elem_of_In in Hy. apply (proj1 (forallb_forall _ _) Hw) in Hy. by apply andb_true_iff in Hy as [_ ?]. }
      by eapply list.Forall_forall in IH; [apply IH|]. }
    lia.
Qed.
End RoundTripObjects.

(** * The parser returns *)

Section Total.
Context `{LibC}.

(** The outcome of a parser on [s]: a failure that is not lack of fuel, or a value and a rest of [s]. *)
Definition returns {A} (s : bytes) (r : result (A * bytes)) : Prop :=
  match r with Ok (_, rest) => length rest <= length s | Err e => e <> OutOfFuel end.

Lemma skip_length s : length (SKIP_WHITESPACES s) <= length s.
Proof. induction s as [|c s IH]; cbn; [lia|]. destruct (isspace c); cbn; lia. Qed.

Lemma char_is_length c s : c <> Byte.x00 -> char_is c s = true -> S (length (tl s)) = length s.
Proof. destruct s; cbn; [|done]. unfold char_is. cbn. rewrite bool_decide_eq_true. congruence. Qed.

Lemma quoted_content_length n : forall s, length s <= n -> returns s (quoted_content s).
Proof.
  induction n as [|n IH]; intros [|c s]; cbn [length]; [done|lia|done|]. intros Hn. cbn [quoted_content].
  repeat case_bool_decide; try done; [cbn; lia| |].
  - destruct s as [|e s]; [done|]. case_bool_decide; [done|]. cbn [length] in Hn. specialize (IH s ltac:(lia)).
    destruct (quoted_content s) as [[x r]|w]; cbn in *; [lia|done].
  - specialize (IH s ltac:(lia)). destruct (quoted_content s) as [[x r]|w]; cbn in *; [lia|done].
Qed.

Lemma get_quoted_string_returns s : returns s (get_quoted_string s).
Proof.
  unfold get_quoted_string, skip_quotes. destruct (char_is Byte.x22 s) eqn:Hc; [|done].
  apply char_is_length in Hc; [|done]. pose proof (quoted_content_length _ (tl s) (le_n _)) as Hq.
  destruct (quoted_content (tl s)) as [[x r]|w]; cbn in *; [|done]. destruct (process_string x); cbn; [lia|done].
Qed.

Lemma strip_prefix_length t s r : strip_prefix t s = Some r -> length r <= length s.
Proof. unfold strip_prefix. case_bool_decide; [|done]. intros [= <-]. rewrite length_drop. lia. Qed.

Lemma scalar_returns s : returns s (parse_string_value s) /\ returns s (parse_boolean_value s) /\
  returns s (parse_number_value s) /\ returns s (parse_null_value s).
Proof.
  split_and!.
  - unfold parse_string_value. pose proof (get_quoted_string_returns s) as Hq.
    by destruct (get_quoted_string s) as [[x r]|w].
  - unfold parse_boolean_value. repeat case_match; cbn; try done; by eapply strip_prefix_length.
  - unfold parse_number_value, json_value_init_number. repeat case_match; cbn; try done. rewrite length_drop. lia.
  - unfold parse_null_value. case_match; cbn; [by eapply strip_prefix_length|done].
Qed.

Lemma close_returns c v s s' : length s' <= length s -> returns s (close_with c v s').
Proof.
  intros Hs. unfold close_with. case_match; [|done]. cbn. pose proof (skip_length s').
  destruct (SKIP_WHITESPACES s'); cbn in *; lia.
Qed.

Lemma returns_le {A} s s' (r : result (A * bytes)) : length s' <= length s -> returns s' r -> returns s r.
Proof. intros Hl. destruct r as [[a t]|e]; cbn; [lia|done]. Qed.

(** A parser that takes less than [2 * length s + k] units of fuel on [s]. *)
Definition fueled (k : nat) (f : nat -> bytes -> result (json * bytes)) (fuel : nat) : Prop :=
  forall s, 2 * length s + k <= fuel -> returns s (f fuel s).

Lemma parse_value_fueled fuel nesting :
  (forall m nst, fueled 2 (fun f => parse_members f nst m) fuel) -> (forall m nst, fueled 2 (fun f => parse_items f nst m) fuel) ->
  fueled 1 (fun f => parse_value f nesting) (S fuel).
Proof.
  intros Hm Hi s0 Hs. cbn [parse_value]. case_bool_decide; [done|].
  pose proof (skip_length s0). set (s := SKIP_WHITESPACES s0) in *. apply (returns_le s0 s); [done|].
  destruct (scalar_returns s) as (R1 & R2 & R3 & R4).
  destruct (char_is "{"%byte s) eqn:Hc; [|destruct (char_is "["%byte s) eqn:Hc'; [|repeat case_match; done]].
  - apply char_is_length in Hc; [|done]. pose proof (skip_length (tl s)). cbn zeta.
    set (t := SKIP_WHITESPACES (tl s)) in *. destruct (char_is "}"%byte t) eqn:Ht.
    + apply char_is_length in Ht; [|done]. cbn. lia.
    + apply (returns_le s t); [lia|]. apply Hm. lia.
  - apply char_is_length in Hc'; [|done]. pose proof (skip_length (tl s)). cbn zeta.
    set (t := SKIP_WHITESPACES (tl s)) in *. destruct (char_is "]"%byte t) eqn:Ht.
    + apply char_is_length in Ht; [|done]. cbn. lia.
    + apply (returns_le s t); [lia|]. apply Hi. lia.
Qed.
End Total.

Section Termination.
Context `{LibC}.

(** What the two loops do after an element that left [s'] of [s]. *)
Lemma next_returns (c : Init.Byte.byte) v s s' (k : bytes -> result (json * bytes)) :
  length s' <= length s -> (forall t, S (length t) <= length s' -> returns t (k t)) ->
  returns s (let s' := SKIP_WHITESPACES s' in
             if char_is ","%byte s' then
               let s' := SKIP_WHITESPACES (tl s') in if char_is c s' then close_with c v s' else k s'
             else close_with c v s').
Proof.
  intros Hl Hk. cbn zeta. pose proof (skip_length s'). set (t := SKIP_WHITESPACES s') in *.
  destruct (char_is ","%byte t) eqn:Hc; [|apply close_returns; lia].
  apply char_is_length in Hc; [|done]. pose proof (skip_length (tl t)). set (u := SKIP_WHITESPACES (tl t)) in *.
  destruct (char_is c u); [apply close_returns; lia|]. apply (returns_le s u); [lia|]. apply Hk. lia.
Qed.

Lemma parse_members_fueled fuel members nesting :
  (forall nst, fueled 1 (fun f => parse_value f nst) fuel) -> (forall m nst, fueled 2 (fun f => parse_members f nst m) fuel) ->
  fueled 2 (fun f => parse_members f nesting members) (S fuel).
Proof.
  intros Hv Hm s Hs. cbn [parse_members]. destruct (char_is Byte.x00 s); [done|].
  pose proof (get_quoted_string_returns s) as Hq. destruct (get_quoted_string s) as [[key s1]|e] eqn:Hg; [|done]. cbn in Hq.
  cbn [result_bind]. unfold throw_if. destruct (bool_decide _); [done|]. cbn [result_bind].
  pose proof (skip_length s1). set (s2 := SKIP_WHITESPACES s1) in *.
  destruct (char_is ":"%byte s2) eqn:Hc; [|done]. apply char_is_length in Hc; [|done]. cbn [result_bind negb].
  pose proof (Hv nesting (tl s2) ltac:(lia)) as Hp. cbn beta in Hp. destruct (parse_value fuel nesting (tl s2)) as [[v s3]|e]; [|done].
  cbn in Hp. cbn [result_bind]. destruct (json_object_add members key v) as [m|]; [|done]. cbn [result_bind].
  apply next_returns; [lia|]. intros t Ht. apply Hm. lia.
Qed.

Lemma parse_items_fueled fuel items nesting :
  (forall nst, fueled 1 (fun f => parse_value f nst) fuel) -> (forall m nst, fueled 2 (fun f => parse_items f nst m) fuel) ->
  fueled 2 (fun f => parse_items f nesting items) (S fuel).
Proof.
  intros Hv Hm s Hs. cbn [parse_items]. destruct (char_is Byte.x00 s); [done|].
  pose proof (Hv nesting s ltac:(lia)) as Hp. cbn beta in Hp. destruct (parse_value fuel nesting s) as [[v s1]|e]; [|done].
  cbn in Hp. cbn [result_bind]. apply next_returns; [lia|]. intros t Ht. apply Hm. lia.
Qed.

Lemma parsers_fueled fuel :
  (forall nst, fueled 1 (fun f => parse_value f nst) fuel) /\ (forall m nst, fueled 2 (fun f => parse_members f nst m) fuel) /\
  (forall m nst, fueled 2 (fun f => parse_items f nst m) fuel).
Proof.
  induction fuel as [|fuel (IHv & IHm & IHi)].
  - split_and!; intros; intros s Hs; lia.
  - split_and!; intros; [by apply parse_value_fueled|by apply parse_members_fueled|by apply parse_items_fueled].
Qed.

(** C36: the JSON parser returns on every input: the recursion of parse_value, parse_object_value and
    parse_array_value ends, with a value and a rest that is no longer than the input, or with a failure. *)
Theorem json_parse_terminates s : match json_parse_string s with
  | Ok (_, rest) => length rest <= length s
  | Err e => e <> OutOfFuel
  end.
Proof.
  unfold json_parse_string. destruct (strip_prefix BOM s) as [r|] eqn:Hb; cbn [default].
  - apply strip_prefix_length in Hb. apply (returns_le s r); [done|]. apply parsers_fueled. unfold parse_fuel. lia.
  - apply parsers_fueled. unfold parse_fuel. lia.
Qed.
End Termination.

Section Theorems.
Context `{LibCLaws}.

Lemma serialize_char_no_nul c : Byte.x00 ∉ serialize_char c.
Proof.
  rewrite list_elem_of_In. unfold serialize_char. destruct COMPILE_FOR_SGX; destruct c; vm_compute; intuition discriminate.
Qed.

Lemma serialize_string_no_nul s : Byte.x00 ∉ json_serialize_string s.
Proof.
  unfold json_serialize_string. rewrite elem_of_cons, elem_of_app, list_elem_of_singleton.
  intros [?|[Hin|?]]; [done| |done]. induction s as [|c s IH]; cbn in Hin; [by apply elem_of_nil in Hin|].
  apply elem_of_app in Hin as [Hin|Hin]; [by apply serialize_char_no_nul in Hin|auto].
Qed.

Lemma white_no_nul w : white w = true -> Byte.x00 ∉ w.
Proof. intros Hw Hin. apply list_elem_of_In in Hin. by apply (proj1 (forallb_forall _ _) Hw) in Hin. Qed.

Lemma separator_no_nul p {A} (l : list A) : Byte.x00 ∉ separator p l.
Proof. rewrite list_elem_of_In. destruct p, l; vm_compute; intuition discriminate. Qed.

Lemma serialize_no_nul p v level : wf_json v = true -> Byte.x00 ∉ json_serialize_to_buffer_r p level v.
Proof.
  revert level. induction v as [|b|n|s|l IH|l IH] using json_induction; intros level Hw.
  - rewrite list_elem_of_In. vm_compute. intuition discriminate.
  - rewrite list_elem_of_In. destruct b; vm_compute; intuition discriminate.
  - by apply print_number_no_nul.
  - apply serialize_string_no_nul.
  - destruct l as [|x l]; [rewrite list_elem_of_In; destruct p; vm_compute; intuition discriminate|].
    rewrite serialize_array, elem_of_cons, !elem_of_app, list_elem_of_singleton.
    intros [?|[Hi|[Hi|[Hi|?]]]]; [done|by apply white_no_nul in Hi; [|destruct p]| |
      by apply white_no_nul in Hi; [|auto with pdo]|done].
    cbn [wf_json] in Hw. revert Hi Hw IH. generalize (x :: l). clear x l. intros l. induction l as [|x l IHl]; cbn [items_text forallb].
    + by intros Hi%elem_of_nil.
    + rewrite !elem_of_app. intros Hi [Hx Hw]%andb_true_iff [IHx IH]%list.Forall_cons.
      destruct Hi as [Hi|[Hi|[Hi|Hi]]]; [by apply white_no_nul in Hi; [|auto with pdo]|by apply IHx in Hi|by apply separator_no_nul in Hi|auto].
  - destruct l as [|x l]; [rewrite list_elem_of_In; destruct p; vm_compute; intuition discriminate|].
    rewrite serialize_object, elem_of_cons, !elem_of_app, list_elem_of_singleton.
    intros [?|[Hi|[Hi|[Hi|?]]]]; [done|by apply white_no_nul in Hi; [|destruct p]| |
      by apply white_no_nul in Hi; [|auto with pdo]|done].
    cbn [wf_json] in Hw. apply andb_true_iff in Hw as [_ Hw]. revert Hi Hw IH. generalize (x :: l). clear x l.
    intros l. induction l as [|x l IHl]; cbn [members_text forallb].
    + by intros Hi%elem_of_nil.
    + rewrite !elem_of_app, list_elem_of_singleton. intros Hi [[_ Hx]%andb_true_iff Hw]%andb_true_iff [IHx IH]%list.Forall_cons.
      destruct Hi as [Hi|[Hi|[?|[Hi|[Hi|[Hi|Hi]]]]]]; [by apply white_no_nul in Hi; [|auto with pdo]|
        by apply serialize_string_no_nul in Hi|done|by apply white_no_nul in Hi; [|auto with pdo]|by apply IHx in Hi|
        by apply separator_no_nul in Hi|auto].
Qed.

Lemma no_BOM p v rest : wf_json v = true -> strip_prefix BOM (json_serialize_to_buffer_r p 0 v ++ rest) = None.
Proof.
  intros Hw. destruct (value_starts p 0 v Hw) as (c & t & Hc & Hs).
  unfold strip_prefix. rewrite Hc. destruct c; try done; cbn; by rewrite bool_decide_eq_false_2.
Qed.

Lemma serialized_parses p v : wf_json v = true -> (json_depth v <= MAX_NESTING)%Z ->
  json_parse (json_serialize_to_buffer_r p 0 v) = Some v.
Proof.
  intros Hw Hd. unfold json_parse, json_parse_string. pose proof (no_BOM p v [] Hw) as Hb. rewrite app_nil_r in Hb.
  rewrite Hb. cbn [default]. pose proof (need_length p v Hw 0) as Hn.
  pose proof (serialized_read_back p v 0 0%Z (parse_fuel (json_serialize_to_buffer_r p 0 v)) []) as Hr.
  rewrite app_nil_r in Hr. rewrite Hr; [done|done|lia| |done]. unfold parse_fuel. lia.
Qed.

(** What follows an object is ignored. *)
Lemma serialized_object_parses p l rest : wf_json (JObject l) = true -> (json_depth (JObject l) <= MAX_NESTING)%Z ->
  json_parse (json_serialize_to_buffer_r p 0 (JObject l) ++ rest) = Some (JObject l).
Proof.
  intros Hw Hd. unfold json_parse, json_parse_string. rewrite no_BOM by done. cbn [default].
  pose proof (need_length p _ Hw 0) as Hn. rewrite read_object_any; [done| |done|lia|].
  - apply List.Forall_forall. intros. apply serialized_read_back.
  - unfold parse_fuel. rewrite length_app. lia.
Qed.

(** C35: parsing inverts serialization, in the compact and in the pretty layout: every value with distinct
    member names without NUL, finite numbers and at most MAX_NESTING nested containers is read back as it
    was, its text has no NUL, and strings are arbitrary bytes. *)
Theorem json_roundtrip v text : wf_json v = true -> (json_depth v <= MAX_NESTING)%Z ->
  json_serialize v = Some text \/ json_serialize_pretty v = Some text ->
  json_parse text = Some v /\ (Byte.x00 ∉ text).
Proof.
  intros Hw Hd [[= <-]|[= <-]]; (split; [by apply serialized_parses|by apply serialize_no_nul]).
Qed.
End Theorems.

(** * Members *)

Lemma json_object_get_head k v l : json_object_get (JObject ((k, v) :: l)) k = Some v.
Proof. unfold json_object_get. cbn [list_find]. by rewrite decide_True. Qed.

Lemma json_object_get_tail k k' v l : k' <> k ->
  json_object_get (JObject ((k', v) :: l)) k = json_object_get (JObject l) k.
Proof.
  intros Hne. unfold json_object_get. cbn [list_find]. rewrite decide_False by done.
  destruct (list_find _ l) as [[i [k1 v1]]|]; done.
Qed.

