(* ===== verification/JsonObject.v ===== *)
(** The hash table inside a JSON object, common/packages/parson/parson.cpp: open addressing with linear
    probing over the arrays of members.  It implements the sequence of members that Json.v uses. *)
From S2P Require Import Prelude Codec Json.

Definition STARTING_CAPACITY : Z := 16.
Definition OBJECT_INVALID_IX : Z := 2 ^ 64 - 1.

(** [struct json_object_t]; [count] is the length of [names], and the arrays of members hold the used
    part only. *)
Record JSON_Object := mk_object {
  cells : list Z;
  hashes : list Z;
  names : list bytes;
  values : list json;
  cell_ixs : list Z;
  item_capacity : Z;
  cell_capacity : Z;
}.

Definition count (o : JSON_Object) : Z := zlen o.(names).

Module HT.
(** [unsigned long] has 64 bits. *)
Definition hash_string (s : bytes) : Z :=
  fold_left (fun hash c => u64 (u64 (Z.shiftl hash 5 + hash) + byte.unsigned c)) (c_str s) 5381%Z.

Definition json_object_init (capacity : Z) : JSON_Object :=
  mk_object (replicate (Z.to_nat capacity) OBJECT_INVALID_IX) [] [] [] [] (u32 (capacity * 7 / 10)) capacity.

(** The loop of [json_object_get_cell_ix], with the turns that are left. *)
Fixpoint probe (o : JSON_Object) (key : bytes) (hash cell_ix i : Z) (todo : nat) : result (Z * bool) :=
  match todo with
  | O => Ok (OBJECT_INVALID_IX, false)
  | S todo =>
      let ix := Z.land (cell_ix + i) (o.(cell_capacity) - 1) in
      let? cell := vec_get o.(cells) ix in
      if bool_decide (cell = OBJECT_INVALID_IX) then Ok (ix, false)
      else
        let? hash_to_check := vec_get o.(hashes) cell in
        if bool_decide (hash <> hash_to_check) then probe o key hash cell_ix (i + 1) todo
        else
          let? key_to_check := vec_get o.(names) cell in
          if bool_decide (key_to_check = key) then Ok (ix, true) else probe o key hash cell_ix (i + 1) todo
  end.

Definition json_object_get_cell_ix (o : JSON_Object) (key : bytes) (hash : Z) : result (Z * bool) :=
  probe o key hash (Z.land hash (o.(cell_capacity) - 1)) 0 (Z.to_nat o.(cell_capacity)).

(** The last part of [json_object_add] and of [json_object_set_value]. *)
Definition append_item (o : JSON_Object) (cell_ix hash : Z) (name : bytes) (v : json) : result JSON_Object :=
  let? cells' := vec_set o.(cells) cell_ix (count o) in
  Ok (mk_object cells' (o.(hashes) ++ [hash]) (o.(names) ++ [name]) (o.(values) ++ [v]) (o.(cell_ixs) ++ [cell_ix])
        o.(item_capacity) o.(cell_capacity)).

(** Make room, with [grow], when the arrays are full, and append. *)
Definition append_growing (grow : JSON_Object -> result JSON_Object) (o : JSON_Object) (cell_ix hash : Z)
    (name : bytes) (v : json) : result JSON_Object :=
  if bool_decide (count o >= o.(item_capacity))%Z then
    let? o := grow o in
    let? '(cell_ix, _) := json_object_get_cell_ix o name hash in
    append_item o cell_ix hash name v
  else append_item o cell_ix hash name v.

(** [None] is [JSONFailure]. *)
Definition add_with (grow : JSON_Object -> result JSON_Object) (o : JSON_Object) (name : bytes) (v : json) :
    result (option JSON_Object) :=
  let hash := hash_string name in
  let? '(cell_ix, found) := json_object_get_cell_ix o name hash in
  if found : bool then Ok None
  else let? o := append_growing grow o cell_ix hash name v in Ok (Some o).

Fixpoint add_all (grow : JSON_Object -> result JSON_Object) (o : JSON_Object) (l : list (bytes * json)) : result JSON_Object :=
  match l with
  | [] => Ok o
  | (name, v) :: l =>
      let? r := add_with grow o name v in
      match r with
      | None => Err (RuntimeError "JSONFailure")
      | Some o => add_all grow o l
      end
  end.

(** Rehashing adds to a table with room for everything, so the inner call does not grow it again. *)
Definition json_object_grow_and_rehash (o : JSON_Object) : result JSON_Object :=
  add_all (fun _ => Err OutOfFuel)
    (json_object_init (Z.max (o.(cell_capacity) * 2) STARTING_CAPACITY)) (zip o.(names) o.(values)).

Definition json_object_add (o : JSON_Object) (name : bytes) (v : json) : result (option JSON_Object) :=
  add_with json_object_grow_and_rehash o name v.

Definition json_object_getn_value (o : JSON_Object) (name : bytes) : result (option json) :=
  let? '(cell_ix, found) := json_object_get_cell_ix o name (hash_string name) in
  if found : bool then
    let? item_ix := vec_get o.(cells) cell_ix in
    let? v := vec_get o.(values) item_ix in
    Ok (Some v)
  else Ok None.

Definition json_object_set_value (o : JSON_Object) (name : bytes) (v : json) : result JSON_Object :=
  let hash := hash_string name in
  let? '(cell_ix, found) := json_object_get_cell_ix o name hash in
  if found : bool then
    let? item_ix := vec_get o.(cells) cell_ix in
    let? values' := vec_set o.(values) item_ix v in
    Ok (mk_object o.(cells) o.(hashes) o.(names) values' o.(cell_ixs) o.(item_capacity) o.(cell_capacity))
  else append_growing json_object_grow_and_rehash o cell_ix hash name v.
End HT.

(** * The table implements the sequence of its members *)

Definition home (o : JSON_Object) (name : bytes) : Z := (HT.hash_string name mod o.(cell_capacity))%Z.

(** The members are [l]; the capacity is a power of two with room to spare; every member is in one cell,
    every other cell is empty, and no empty cell separates a member from its home. *)
Record table_of (o : JSON_Object) (l : list (bytes * json)) : Prop := {
  rep_names : o.(names) = map fst l;
  rep_values : o.(values) = map snd l;
  rep_hashes : o.(hashes) = map HT.hash_string (map fst l);
  rep_nodup : NoDup (map fst l);
  rep_capacity : o.(cell_capacity) = 0%Z \/ exists k, (4 <= k < 31)%Z /\ o.(cell_capacity) = (2 ^ k)%Z;
  rep_room : o.(item_capacity) = (o.(cell_capacity) * 7 / 10)%Z /\ (zlen l <= o.(item_capacity))%Z;
  rep_cells : zlen o.(cells) = o.(cell_capacity);
  rep_ixs : length o.(cell_ixs) = length l;
  rep_item i c : o.(cell_ixs) !! i = Some c ->
    (0 <= c < o.(cell_capacity))%Z /\ o.(cells) !! Z.to_nat c = Some (Z.of_nat i);
  rep_cell c x : o.(cells) !! c = Some x ->
    x = OBJECT_INVALID_IX \/ ((0 <= x)%Z /\ o.(cell_ixs) !! Z.to_nat x = Some (Z.of_nat c));
  rep_probe i c name d : o.(cell_ixs) !! i = Some c -> o.(names) !! i = Some name ->
    (0 <= d < (c - home o name) mod o.(cell_capacity))%Z ->
    o.(cells) !! Z.to_nat ((home o name + d) mod o.(cell_capacity)) <> Some OBJECT_INVALID_IX;
}.

Section Probing.
Context (o : JSON_Object) (l : list (bytes * json)) (R : table_of o l).
#[local] Abbreviation cap := (o.(cell_capacity)).

Lemma land_cap x : (0 < cap)%Z -> Z.land x (cap - 1) = (x mod cap)%Z.
Proof.
  intros Hc. destruct R.(rep_capacity _ _) as [H0|(k & Hk & Hcap)]; [lia|]. rewrite Hcap.
  rewrite <-Z.land_ones by lia. f_equal. rewrite Z.ones_equiv. lia.
Qed.

Lemma cap_nonneg : (0 <= cap)%Z.
Proof. rewrite <-R.(rep_cells _ _). apply zlen_nonneg. Qed.

Lemma full_cell d : (0 < cap)%Z ->
  exists x, o.(cells) !! Z.to_nat (d mod cap) = Some x /\ vec_get o.(cells) (d mod cap) = Ok x.
Proof.
  intros Hc. pose proof (Z.mod_pos_bound d cap Hc). pose proof R.(rep_cells _ _) as Hl. unfold zlen in Hl.
  destruct (lookup_lt_is_Some_2 o.(cells) (Z.to_nat (d mod cap))) as [x Hx]; [lia|].
  exists x. split; [done|]. unfold vec_get. guards. by rewrite Hx.
Qed.

(** A cell that is not empty holds a member. *)
Lemma cell_member c x : o.(cells) !! c = Some x -> x <> OBJECT_INVALID_IX ->
  exists i kv, x = Z.of_nat i /\ o.(cell_ixs) !! i = Some (Z.of_nat c) /\ l !! i = Some kv /\
    vec_get o.(hashes) x = Ok (HT.hash_string kv.1) /\ vec_get o.(names) x = Ok kv.1.
Proof.
  intros Hc Hx. destruct (R.(rep_cell _ _) c x Hc) as [?|[H0 Hi]]; [done|].
  assert (Hlt : Z.to_nat x < length l) by (rewrite <-R.(rep_ixs _ _); by eapply lookup_lt_Some).
  destruct (lookup_lt_is_Some_2 l (Z.to_nat x) Hlt) as [kv Hkv]. exists (Z.to_nat x), kv.
  split_and!; [lia|done|done| |]; unfold vec_get; guards;
    rewrite ?R.(rep_hashes _ _), ?R.(rep_names _ _), !list_lookup_fmap, Hkv; done.
Qed.

Lemma probe_empty key hash h i todo : (0 < cap)%Z ->
  o.(cells) !! Z.to_nat ((h + i) mod cap) = Some OBJECT_INVALID_IX ->
  HT.probe o key hash h i (S todo) = Ok ((h + i) mod cap, false)%Z.
Proof.
  intros Hc He. cbn [HT.probe]. rewrite land_cap by done. destruct (full_cell (h + i) Hc) as (x & Hx & ->).
  cbn [result_bind]. assert (x = OBJECT_INVALID_IX) as -> by congruence. by guards.
Qed.

Lemma probe_found key hash h i todo n v : (0 < cap)%Z ->
  o.(cells) !! Z.to_nat ((h + i) mod cap) = Some (Z.of_nat n) -> l !! n = Some (key, v) -> hash = HT.hash_string key ->
  HT.probe o key hash h i (S todo) = Ok ((h + i) mod cap, true)%Z.
Proof.
  intros Hc He Hl Hh. cbn [HT.probe]. rewrite land_cap by done. destruct (full_cell (h + i) Hc) as (x & Hx & ->).
  cbn [result_bind]. assert (x = Z.of_nat n) as -> by congruence.
  destruct (decide (Z.of_nat n = OBJECT_INVALID_IX)) as [Hn|Hn].
  { apply lookup_lt_Some in Hl. destruct R.(rep_room _ _) as [H1 H2]. unfold zlen in H2. unfold OBJECT_INVALID_IX in Hn.
    destruct R.(rep_capacity _ _) as [H0|(k & Hk & Hk')]; [lia|]. assert (2 ^ k <= 2 ^ 31)%Z by (apply Z.pow_le_mono_r; lia).
    assert (cap * 7 / 10 <= cap)%Z by (apply Z.div_le_upper_bound; lia). lia. }
  destruct (cell_member _ _ He Hn) as (j & kv & Hj & _ & Hkv & Hha & Hna). apply Nat2Z.inj in Hj as <-.
  assert (kv = (key, v)) as -> by congruence. cbn [fst] in *. subst hash.
  guards. rewrite Hha. cbn [result_bind]. guards. rewrite Hna. cbn [result_bind]. by rewrite bool_decide_eq_true_2.
Qed.

Lemma probe_skip key hash h i todo x : (0 < cap)%Z ->
  o.(cells) !! Z.to_nat ((h + i) mod cap) = Some x -> x <> OBJECT_INVALID_IX ->
  (forall n v, o.(cell_ixs) !! n = Some ((h + i) mod cap)%Z -> l !! n <> Some (key, v)) ->
  HT.probe o key hash h i (S todo) = HT.probe o key hash h (i + 1) todo.
Proof.
  intros Hc Hx Hn Hk. cbn [HT.probe]. rewrite land_cap by done. destruct (full_cell (h + i) Hc) as (y & Hy & ->).
  cbn [result_bind]. assert (y = x) as -> by congruence. guards.
  destruct (cell_member _ _ Hx Hn) as (j & kv & -> & Hj & Hkv & Hha & Hna). rewrite Hha. cbn [result_bind].
  case_bool_decide; [done|]. rewrite Hna. cbn [result_bind]. case_bool_decide as Heq; [|done].
  exfalso. destruct kv as [k v]. cbn in Heq. subst k. apply (Hk j v); [|done].
  rewrite Hj. f_equal. apply Z2Nat.id. by apply Z.mod_pos_bound.
Qed.
End Probing.

Section Lookup.
Context (o : JSON_Object) (l : list (bytes * json)) (R : table_of o l).
#[local] Abbreviation cap := (o.(cell_capacity)).

Lemma get_cell_ix_unfold name : (0 < cap)%Z ->
  HT.json_object_get_cell_ix o name (HT.hash_string name) =
  HT.probe o name (HT.hash_string name) (home o name) 0 (Z.to_nat cap).
Proof. intros Hc. unfold HT.json_object_get_cell_ix. by rewrite (land_cap o l R). Qed.

Lemma mod_shift_inj m h d e : (0 <= d < m)%Z -> (0 <= e < m)%Z -> ((h + d) mod m = (h + e) mod m)%Z -> d = e.
Proof.
  intros Hd He Heq. pose proof (Z.div_mod (h + d) m ltac:(lia)). pose proof (Z.div_mod (h + e) m ltac:(lia)).
  assert ((h + d) / m = (h + e) / m)%Z by nia. nia.
Qed.

(** Probing over cells that do not stop it. *)
Lemma probe_over key hash h i d todo : (0 < cap)%Z -> (0 <= i <= d)%Z -> (d <= i + Z.of_nat todo)%Z ->
  (forall e, (i <= e < d)%Z -> o.(cells) !! Z.to_nat ((h + e) mod cap) <> Some OBJECT_INVALID_IX /\
     forall n v, o.(cell_ixs) !! n = Some ((h + e) mod cap)%Z -> l !! n <> Some (key, v)) ->
  HT.probe o key hash h i todo = HT.probe o key hash h d (todo - Z.to_nat (d - i)).
Proof.
  intros Hc. revert i. induction todo as [|todo IH]; intros i Hi Hd Hall.
  { assert (i = d) as -> by lia. by rewrite Z.sub_diag. }
  destruct (decide (i = d)) as [->|Hne]; [by rewrite Z.sub_diag, Nat.sub_0_r|].
  destruct (Hall i ltac:(lia)) as [Hx Hk]. destruct (full_cell o l R (h + i) Hc) as (x & Hcell & _).
  rewrite (probe_skip o l R _ _ _ _ _ x) by (done || congruence).
  rewrite IH; [f_equal; lia|lia|lia|]. intros e He. apply Hall. lia.
Qed.

Lemma ixs_in_range i c : o.(cell_ixs) !! i = Some c -> (0 <= c < cap)%Z.
Proof. intros Hi. by apply R.(rep_item _ _) in Hi as [? _]. Qed.

Lemma get_cell_found i name v : l !! i = Some (name, v) ->
  exists c, o.(cell_ixs) !! i = Some c /\ o.(cells) !! Z.to_nat c = Some (Z.of_nat i) /\
    HT.json_object_get_cell_ix o name (HT.hash_string name) = Ok (c, true).
Proof.
  intros Hl. destruct (lookup_lt_is_Some_2 o.(cell_ixs) i) as [c Hc]; [rewrite R.(rep_ixs _ _); by eapply lookup_lt_Some|].
  destruct (R.(rep_item _ _) i c Hc) as [Hr Hcell]. exists c. split_and!; [done|done|].
  assert (Hcap : (0 < cap)%Z) by lia. rewrite get_cell_ix_unfold by done.
  assert (Hn : o.(names) !! i = Some name) by (rewrite R.(rep_names _ _), list_lookup_fmap, Hl; done).
  set (h := home o name). set (d := ((c - h) mod cap)%Z). pose proof (Z.mod_pos_bound (c - h) cap Hcap) as Hd.
  assert (Hat : ((h + d) mod cap = c)%Z).
  { unfold d. rewrite Zplus_mod_idemp_r. replace (h + (c - h))%Z with c by lia. apply Z.mod_small. lia. }
  assert (Hall : forall e, (0 <= e < d)%Z -> o.(cells) !! Z.to_nat ((h + e) mod cap) <> Some OBJECT_INVALID_IX /\
     forall n w, o.(cell_ixs) !! n = Some ((h + e) mod cap)%Z -> l !! n <> Some (name, w)).
  { intros e He. split; [by apply (R.(rep_probe _ _) i c name e Hc Hn)|]. intros n w Hix Hw.
    assert (n = i) as -> by (eapply NoDup_lookup; [exact R.(rep_nodup _ _)| |]; rewrite list_lookup_fmap; [by rewrite Hw|by rewrite Hl]).
    rewrite Hc in Hix. injection Hix as Hix. rewrite <-Hat in Hix. apply mod_shift_inj in Hix; lia. }
  rewrite (probe_over name (HT.hash_string name) h 0 d) by (done || lia).
  destruct (Z.to_nat cap - Z.to_nat (d - 0)) as [|todo] eqn:Ht; [lia|].
  rewrite (probe_found o l R name _ h d todo i v); rewrite ?Hat; done.
Qed.
End Lookup.

Lemma bounded_search (P : nat -> Prop) `{!forall n, Decision (P n)} n :
  (forall d, d < n -> ~ P d) \/ exists d, d < n /\ P d /\ forall e, e < d -> ~ P e.
Proof.
  induction n as [|n [IH|(d & Hd & HP & Hmin)]]; [by left; lia| |right; exists d; split_and!; [lia|done|done]].
  destruct (decide (P n)) as [Hn|Hn]; [right; exists n; split_and!; [lia|done|done]|].
  left. intros d Hd. destruct (decide (d = n)) as [->|?]; [done|]. apply IH. lia.
Qed.

Section Absent.
Context (o : JSON_Object) (l : list (bytes * json)) (R : table_of o l).
#[local] Abbreviation cap := (o.(cell_capacity)).

(** The table is never full. *)
Lemma some_cell_empty : (0 < cap)%Z -> exists c, (0 <= c < cap)%Z /\ o.(cells) !! Z.to_nat c = Some OBJECT_INVALID_IX.
Proof.
  intros Hc. destruct (bounded_search (fun c => o.(cells) !! c = Some OBJECT_INVALID_IX) (Z.to_nat cap)) as [Hno|(c & Hlt & Hx & _)].
  2:{ exists (Z.of_nat c). rewrite Nat2Z.id. split; [lia|done]. }
  exfalso. assert (Hincl : incl (seqZ 0 cap) o.(cell_ixs)).
  { intros z Hz%list_elem_of_In%elem_of_seqZ. apply list_elem_of_In.
    destruct (full_cell o l R z Hc) as (x & Hx & _). rewrite Z.mod_small in Hx by lia.
    assert (Hne : x <> OBJECT_INVALID_IX) by (intros ->; apply (Hno (Z.to_nat z)); [lia|done]).
    destruct (R.(rep_cell _ _) _ _ Hx) as [?|[_ Hi]]; [done|]. rewrite Z2Nat.id in Hi by lia. by eapply list_elem_of_lookup_2. }
  apply NoDup_incl_length in Hincl; [|apply NoDup_ListNoDup, NoDup_seqZ].
  rewrite length_seqZ, R.(rep_ixs _ _) in Hincl. destruct R.(rep_room _ _) as [Hi Hl]. unfold zlen in Hl.
  assert (cap * 7 / 10 < cap)%Z by (apply Z.div_lt_upper_bound; lia). lia.
Qed.

Lemma get_cell_absent name : (0 < cap)%Z -> name ∉ map fst l ->
  exists d, (0 <= d < cap)%Z /\
    o.(cells) !! Z.to_nat ((home o name + d) mod cap) = Some OBJECT_INVALID_IX /\
    (forall e, (0 <= e < d)%Z -> o.(cells) !! Z.to_nat ((home o name + e) mod cap) <> Some OBJECT_INVALID_IX) /\
    HT.json_object_get_cell_ix o name (HT.hash_string name) = Ok ((home o name + d) mod cap, false)%Z.
Proof.
  intros Hc Hn. set (h := home o name).
  destruct (bounded_search (fun d => o.(cells) !! Z.to_nat ((h + Z.of_nat d) mod cap) = Some OBJECT_INVALID_IX) (Z.to_nat cap))
    as [Hno|(d & Hd & He & Hmin)].
  { exfalso. destruct (some_cell_empty Hc) as (c & Hr & Hx). pose proof (Z.mod_pos_bound (c - h) cap Hc).
    apply (Hno (Z.to_nat ((c - h) mod cap))); [lia|]. rewrite Z2Nat.id by lia.
    rewrite Zplus_mod_idemp_r. replace (h + (c - h))%Z with c by lia. by rewrite Z.mod_small. }
  exists (Z.of_nat d). assert (Hmin' : forall e, (0 <= e < Z.of_nat d)%Z -> o.(cells) !! Z.to_nat ((h + e) mod cap) <> Some OBJECT_INVALID_IX).
  { intros e Hr. specialize (Hmin (Z.to_nat e) ltac:(lia)). by rewrite Z2Nat.id in Hmin by lia. }
  split_and!; [lia|lia|done|done|]. rewrite (get_cell_ix_unfold o l R) by done.
  rewrite (probe_over o l R name (HT.hash_string name) h 0 (Z.of_nat d)); [|done|lia|lia|].
  - destruct (Z.to_nat cap - Z.to_nat (Z.of_nat d - 0)) as [|todo] eqn:Ht; [lia|].
    by rewrite (probe_empty o l R).
  - intros e Hr. split; [by apply Hmin'|]. intros n v _ Hl. apply Hn.
    apply list_elem_of_fmap. exists (name, v). split; [done|]. by eapply list_elem_of_lookup_2.
Qed.

End Absent.

Section Append.
Context (o : JSON_Object) (l : list (bytes * json)) (R : table_of o l).
#[local] Abbreviation cap := (o.(cell_capacity)).

Lemma item_index_valid n : n <= length l -> Z.of_nat n <> OBJECT_INVALID_IX.
Proof.
  intros Hn. destruct R.(rep_room _ _) as [Hi Hr]. unfold zlen in Hr. change OBJECT_INVALID_IX with 18446744073709551615%Z.
  destruct R.(rep_capacity _ _) as [H0|(k & Hk & Hk')]; [rewrite H0 in Hi; change (0 * 7 / 10)%Z with 0%Z in Hi; lia|].
  assert (2 ^ k <= 2147483648)%Z by (change 2147483648%Z with (2 ^ 31)%Z; apply Z.pow_le_mono_r; lia).
  assert (cap * 7 / 10 <= cap)%Z by (apply Z.div_le_upper_bound; lia). lia.
Qed.

(** An empty cell reached from the home of a new name takes the new member. *)
Lemma append_item_table name v d : (0 < cap)%Z -> name ∉ map fst l -> (0 <= d < cap)%Z ->
  o.(cells) !! Z.to_nat ((home o name + d) mod cap) = Some OBJECT_INVALID_IX ->
  (forall e, (0 <= e < d)%Z -> o.(cells) !! Z.to_nat ((home o name + e) mod cap) <> Some OBJECT_INVALID_IX) ->
  (zlen l < o.(item_capacity))%Z ->
  exists o', HT.append_item o ((home o name + d) mod cap) (HT.hash_string name) name v = Ok o' /\
    table_of o' (l ++ [(name, v)]) /\ o'.(cell_capacity) = cap.
Proof.
  intros Hc Hn Hd He Hbefore Hroom. set (c := ((home o name + d) mod cap)%Z) in *.
  pose proof (Z.mod_pos_bound (home o name + d) cap Hc) as Hcr. fold c in Hcr. pose proof R.(rep_cells _ _) as Hlen.
  unfold HT.append_item, vec_set. guards. eexists. split; [done|]. split; [|done].
  assert (Hcount : count o = Z.of_nat (length l)) by (unfold count, zlen; by rewrite R.(rep_names _ _), length_map).
  assert (Hnat : Z.to_nat c < length o.(cells)) by (unfold zlen in Hlen; lia).
  assert (Hfull : forall x, o.(cells) !! x <> Some OBJECT_INVALID_IX \/ x = Z.to_nat c ->
    <[Z.to_nat c := count o]> o.(cells) !! x <> Some OBJECT_INVALID_IX).
  { intros x Hx. destruct (decide (Z.to_nat c = x)) as [<-|Hne].
    - rewrite list_lookup_insert_eq, Hcount by done. intros [= Hb]. by apply item_index_valid in Hb.
    - rewrite list_lookup_insert_ne by done. by destruct Hx as [?| ->]. }
  assert (Hlast : forall i (x : Z), (o.(cell_ixs) ++ [c]) !! i = Some x ->
    (o.(cell_ixs) !! i = Some x /\ i < length l) \/ (i = length l /\ x = c)).
  { intros i x [Hi|[Hlt Hi]]%lookup_app_Some.
    - left. split; [done|]. rewrite <-R.(rep_ixs _ _). by eapply lookup_lt_Some.
    - right. rewrite R.(rep_ixs _ _) in *. apply list_lookup_singleton_Some in Hi as [? <-]. split; [lia|done]. }
  split; cbn [names values hashes cell_capacity item_capacity cells cell_ixs].
  - by rewrite R.(rep_names _ _), map_app.
  - by rewrite R.(rep_values _ _), map_app.
  - by rewrite R.(rep_hashes _ _), !map_app.
  - rewrite map_app. apply list.NoDup_app. split_and!; [exact R.(rep_nodup _ _)| |apply NoDup_singleton].
    intros x Hx ->%list_elem_of_singleton. done.
  - exact R.(rep_capacity _ _).
  - rewrite zlen_app. split; [exact (proj1 R.(rep_room _ _))|]. unfold zlen in *. cbn. lia.
  - unfold zlen in *. by rewrite length_insert.
  - rewrite !length_app, R.(rep_ixs _ _). done.
  - intros i x [[Hi Hlt]|[-> ->]]%Hlast.
    + destruct (R.(rep_item _ _) i x Hi) as [Hr Hx]. split; [done|]. rewrite list_lookup_insert_ne; [done|].
      intros Heq. rewrite <-Heq, He in Hx. injection Hx as Hx. symmetry in Hx. apply item_index_valid in Hx; [done|lia].
    + split; [done|]. by rewrite list_lookup_insert_eq, Hcount.
  - intros x y Hx. destruct (decide (Z.to_nat c = x)) as [<-|Hne].
    + rewrite list_lookup_insert_eq in Hx by done. injection Hx as <-. right. rewrite Hcount. split; [lia|].
      rewrite Nat2Z.id, <-R.(rep_ixs _ _), lookup_app_r, Nat.sub_diag by lia. cbn. f_equal. lia.
    + rewrite list_lookup_insert_ne in Hx by done. destruct (R.(rep_cell _ _) x y Hx) as [?|[? Hi]]; [by left|].
      right. split; [done|]. by apply lookup_app_l_Some.
  - unfold home. cbn [cell_capacity]. fold (home o name). intros i x nm e Hi Hnm Hr. apply Hfull.
    destruct (Hlast i x Hi) as [[Hi' Hlt]|[-> ->]].
    + left. rewrite lookup_app_l in Hnm by (by rewrite R.(rep_names _ _), length_map). by apply (R.(rep_probe _ _) i x nm e).
    + left. assert (nm = name) as ->.
      { rewrite R.(rep_names _ _), lookup_app_r, length_map, Nat.sub_diag in Hnm by (by rewrite length_map). by injection Hnm. }
      apply Hbefore. fold (home o name) in Hr. unfold c in Hr. rewrite Zminus_mod_idemp_l in Hr.
      replace (home o name + d - home o name)%Z with d in Hr by lia. by rewrite Z.mod_small in Hr by lia.
Qed.
End Append.

(** * Adding and growing *)

Lemma init_table k : (4 <= k < 31)%Z -> table_of (HT.json_object_init (2 ^ k)) [].
Proof.
  intros Hk. assert (0 < 2 ^ k <= 2 ^ 30)%Z by (split; [lia|apply Z.pow_le_mono_r; lia]).
  assert (2 ^ k * 7 / 10 < 2 ^ 32)%Z by (apply Z.div_lt_upper_bound; lia).
  assert (0 <= 2 ^ k * 7 / 10)%Z by (apply Z.div_pos; lia).
  split; cbn [HT.json_object_init names values hashes cell_ixs cells cell_capacity item_capacity map]; try done.
  - apply list.NoDup_nil. done.
  - right. eauto.
  - unfold u32. rewrite Z.mod_small by lia. unfold zlen. cbn. lia.
  - unfold zlen. rewrite length_replicate. lia.
  - intros c x Hx. left. by apply lookup_replicate in Hx as [-> _].
Qed.

Lemma empty_table : table_of (HT.json_object_init 0) [].
Proof. split; cbn; try done; [apply list.NoDup_nil; done|by left]. Qed.

Section Adding.
Context (o : JSON_Object) (l : list (bytes * json)) (R : table_of o l).

Lemma room_capacity : (zlen l < o.(item_capacity))%Z -> (0 < o.(cell_capacity))%Z.
Proof.
  intros Hr. destruct R.(rep_room _ _) as [Hi _]. pose proof (zlen_nonneg l). pose proof (cap_nonneg o l R).
  destruct (decide (o.(cell_capacity) = 0%Z)) as [Hz|]; [|lia]. rewrite Hz in Hi. change (0 * 7 / 10)%Z with 0%Z in Hi. lia.
Qed.

Lemma count_table : count o = zlen l.
Proof. unfold count, zlen. by rewrite R.(rep_names _ _), length_map. Qed.

Lemma add_with_room grow name v : name ∉ map fst l -> (zlen l < o.(item_capacity))%Z ->
  exists o', HT.add_with grow o name v = Ok (Some o') /\ table_of o' (l ++ [(name, v)]) /\
    o'.(cell_capacity) = o.(cell_capacity).
Proof.
  intros Hn Hr. pose proof (room_capacity Hr) as Hc.
  destruct (get_cell_absent o l R name Hc Hn) as (d & Hd & He & Hb & Hg).
  destruct (append_item_table o l R name v d Hc Hn Hd He Hb Hr) as (o' & Ha & Ht & Hcap).
  exists o'. split; [|done]. unfold HT.add_with. rewrite Hg. cbn [result_bind]. unfold HT.append_growing.
  rewrite count_table. guards. by rewrite Ha.
Qed.

Lemma add_with_found grow name v w : (name, w) ∈ l -> HT.add_with grow o name v = Ok None.
Proof.
  intros [i Hi]%list_elem_of_lookup. destruct (get_cell_found o l R i name w Hi) as (c & _ & _ & Hg).
  unfold HT.add_with. by rewrite Hg.
Qed.
End Adding.

Lemma item_capacity_table o l : table_of o l -> o.(item_capacity) = (o.(cell_capacity) * 7 / 10)%Z.
Proof. intros R. exact (proj1 R.(rep_room _ _)). Qed.

Lemma add_all_table grow l2 : forall o l, table_of o l -> NoDup (map fst (l ++ l2)) ->
  (zlen (l ++ l2) <= o.(item_capacity))%Z ->
  exists o', HT.add_all grow o l2 = Ok o' /\ table_of o' (l ++ l2) /\ o'.(cell_capacity) = o.(cell_capacity).
Proof.
  induction l2 as [|[k v] l2 IH]; intros o l R Hn Hr; [exists o; by rewrite app_nil_r|].
  assert (Hk : k ∉ map fst l).
  { rewrite map_app in Hn. apply list.NoDup_app in Hn as (_ & Hn & _). intros Hin. apply (Hn _ Hin). left. }
  rewrite zlen_app in Hr. unfold zlen in Hr. cbn in Hr.
  destruct (add_with_room o l R grow k v Hk) as (o1 & Ha & R1 & Hc1); [unfold zlen; lia|].
  destruct (IH o1 _ R1) as (o2 & Hb & R2 & Hc2).
  - by rewrite <-app_assoc.
  - rewrite (item_capacity_table _ _ R1), Hc1, <-(item_capacity_table _ _ R), <-app_assoc, zlen_app. unfold zlen. cbn. lia.
  - exists o2. cbn [HT.add_all]. rewrite Ha. cbn [result_bind]. rewrite <-app_assoc in R2. split_and!; [done|done|congruence].
Qed.

Section Growing.
Context (o : JSON_Object) (l : list (bytes * json)) (R : table_of o l).
Hypothesis Hlimit : (o.(cell_capacity) < 2 ^ 30)%Z.

Lemma grown_capacity : exists k, (4 <= k < 31)%Z /\ Z.max (o.(cell_capacity) * 2) STARTING_CAPACITY = (2 ^ k)%Z.
Proof.
  destruct R.(rep_capacity _ _) as [->|(k & Hk & Hcap)]; [exists 4%Z; done|]. exists (k + 1)%Z.
  assert (2 ^ 4 <= 2 ^ k)%Z by (apply Z.pow_le_mono_r; lia).
  assert (k < 30)%Z by (rewrite Hcap in Hlimit; apply Z.pow_lt_mono_r_iff in Hlimit; lia).
  unfold STARTING_CAPACITY. rewrite Hcap, Z.pow_add_r by lia. lia.
Qed.

Lemma grow_table : exists o', HT.json_object_grow_and_rehash o = Ok o' /\ table_of o' l /\ (zlen l < o'.(item_capacity))%Z.
Proof.
  destruct grown_capacity as (k & Hk & Hcap). pose proof (init_table k Hk) as R0. unfold HT.json_object_grow_and_rehash.
  rewrite Hcap. assert (Hzip : zip o.(names) o.(values) = l).
  { rewrite R.(rep_names _ _), R.(rep_values _ _). clear. induction l as [|[k v] l' IH]; cbn; [done|]. by f_equal. }
  assert (Hroom : (zlen l < 2 ^ k * 7 / 10)%Z).
  { destruct R.(rep_room _ _) as [Hi Hl]. rewrite Hi in Hl. unfold STARTING_CAPACITY in Hcap.
    destruct R.(rep_capacity _ _) as [H0|(j & Hj & Hj')].
    - rewrite H0 in *. rewrite <-Hcap. change (0 * 7 / 10)%Z with 0%Z in Hl. change (Z.max (0 * 2) 16 * 7 / 10)%Z with 11%Z. lia.
    - assert (2 ^ 4 <= 2 ^ j)%Z by (apply Z.pow_le_mono_r; lia). eapply Z.le_lt_trans; [exact Hl|].
      rewrite <-Hcap, Hj'. enough (2 ^ j * 7 / 10 + 1 <= Z.max (2 ^ j * 2) 16 * 7 / 10)%Z by lia.
      rewrite <-Z.div_add by lia. apply Z.div_le_mono; lia. }
  rewrite Hzip. destruct (add_all_table (fun _ => Err OutOfFuel) l _ [] R0) as (o' & Ho' & R' & Hc').
  - exact R.(rep_nodup _ _).
  - rewrite (item_capacity_table _ _ R0). cbn [app HT.json_object_init cell_capacity]. lia.
  - exists o'. split_and!; [done|done|]. by rewrite (item_capacity_table _ _ R'), Hc'.
Qed.

Lemma add_table name v : name ∉ map fst l ->
  exists o', HT.json_object_add o name v = Ok (Some o') /\ table_of o' (l ++ [(name, v)]) /\
    HT.json_object_set_value o name v = Ok o'.
Proof.
  intros Hn. unfold HT.json_object_add, HT.add_with, HT.json_object_set_value.
  assert (Hix : exists c, HT.json_object_get_cell_ix o name (HT.hash_string name) = Ok (c, false) /\
    exists o', HT.append_growing HT.json_object_grow_and_rehash o c (HT.hash_string name) name v = Ok o' /\
      table_of o' (l ++ [(name, v)])).
  { assert (Hgrow : forall c, (zlen l >= o.(item_capacity))%Z -> exists o',
      HT.append_growing HT.json_object_grow_and_rehash o c (HT.hash_string name) name v = Ok o' /\
      table_of o' (l ++ [(name, v)])).
    { intros c Hge. destruct grow_table as (o1 & Hg & R1 & Hr1). unfold HT.append_growing.
      rewrite (count_table o l R). guards. rewrite Hg. cbn [result_bind].
      pose proof (room_capacity o1 l R1 Hr1) as Hc1.
      destruct (get_cell_absent o1 l R1 name Hc1 Hn) as (d & Hd & He & Hb & ->). cbn [result_bind].
      destruct (append_item_table o1 l R1 name v d Hc1 Hn Hd He Hb Hr1) as (o' & Ha & Ht & _). eauto. }
    destruct (decide (o.(cell_capacity) = 0%Z)) as [H0|Hpos].
    - exists OBJECT_INVALID_IX. split; [unfold HT.json_object_get_cell_ix; by rewrite H0|]. apply Hgrow.
      rewrite (item_capacity_table _ _ R), H0. change (0 * 7 / 10)%Z with 0%Z. pose proof (zlen_nonneg l). lia.
    - pose proof (cap_nonneg o l R). destruct (get_cell_absent o l R name ltac:(lia) Hn) as (d & Hd & He & Hb & ->).
      eexists. split; [done|]. destruct (decide (zlen l < o.(item_capacity))%Z) as [Hr|Hr]; [|apply Hgrow; lia].
      destruct (append_item_table o l R name v d ltac:(lia) Hn Hd He Hb Hr) as (o' & Ha & Ht & _).
      exists o'. unfold HT.append_growing. rewrite (count_table o l R). by guards. }
  destruct Hix as (c & -> & o' & Ha & Ht). exists o'. cbn [result_bind]. rewrite Ha. by split_and!.
Qed.
End Growing.

(** * Refinement *)

Section Refinement.
Context (o : JSON_Object) (l : list (bytes * json)) (R : table_of o l).

Lemma get_found i name v : l !! i = Some (name, v) -> HT.json_object_getn_value o name = Ok (Some v).
Proof.
  intros Hl. destruct (get_cell_found o l R i name v Hl) as (c & Hc & Hcell & Hg). unfold HT.json_object_getn_value.
  rewrite Hg. cbn [result_bind]. pose proof (proj1 (R.(rep_item _ _) i c Hc)).
  unfold vec_get. guards. rewrite Hcell. cbn [result_bind of_option]. guards.
  by rewrite Nat2Z.id, R.(rep_values _ _), list_lookup_fmap, Hl.
Qed.

Lemma get_absent name : name ∉ map fst l -> HT.json_object_getn_value o name = Ok None.
Proof.
  intros Hn. unfold HT.json_object_getn_value. destruct (decide (o.(cell_capacity) = 0%Z)) as [Hz|Hpos].
  - unfold HT.json_object_get_cell_ix. by rewrite Hz.
  - pose proof (cap_nonneg o l R). by destruct (get_cell_absent o l R name ltac:(lia) Hn) as (d & _ & _ & _ & ->).
Qed.

(** Replacing a value keeps the table. *)
Lemma set_found i name v w : l !! i = Some (name, w) ->
  exists o', HT.json_object_set_value o name v = Ok o' /\ table_of o' (<[i := (name, v)]> l).
Proof.
  intros Hl. destruct (get_cell_found o l R i name w Hl) as (c & Hc & Hcell & Hg). unfold HT.json_object_set_value.
  rewrite Hg. cbn [result_bind]. pose proof (proj1 (R.(rep_item _ _) i c Hc)). pose proof (lookup_lt_Some _ _ _ Hl).
  assert (Hv : zlen o.(values) = zlen l) by (unfold zlen; by rewrite R.(rep_values _ _), length_map).
  unfold vec_get, vec_set. guards. rewrite Hcell. cbn [result_bind of_option].
  rewrite bool_decide_eq_true_2 by (rewrite Hv; unfold zlen; lia). cbn [result_bind]. eexists. split; [done|].
  assert (Hfst : map fst (<[i := (name, v)]> l) = map fst l).
  { rewrite list_fmap_insert. apply list_insert_id. by rewrite list_lookup_fmap, Hl. }
  destruct R. split; cbn; rewrite ?Hfst; try done.
  - rewrite rep_values0, list_fmap_insert. by rewrite Nat2Z.id.
  - unfold zlen. by rewrite length_insert.
  - by rewrite length_insert.
Qed.

Lemma list_set_spec name v : forall m : list (bytes * json),
  ((name ∉ map fst m) /\ json_object_set_value m name v = m ++ [(name, v)]) \/
  (exists i w, m !! i = Some (name, w) /\ json_object_set_value m name v = <[i := (name, v)]> m).
Proof.
  induction m as [|[k w] m IH]; [left; split; [apply not_elem_of_nil|done]|]. cbn [json_object_set_value fst].
  case_bool_decide as Hk; [subst; right; by exists 0, w|].
  destruct IH as [[Hn ->]|(i & u & Hi & ->)]; [left|right; by exists (S i), u].
  split; [|done]. cbn. apply not_elem_of_cons. split; congruence.
Qed.
End Refinement.

(** The open-addressing hash table of a JSON object implements the ordered sequence of its members: with
    a table of fewer than 2^30 cells, lookup, insertion (refused for a name that is there) and replacement
    give what they give on the sequence and leave a table of the new sequence, through every collision and
    every rehash; a fresh object is a table of no members.  No access is out of the bounds of its array. *)
Theorem hash_table_refines : table_of (HT.json_object_init 0) [] /\
  forall o l name v, table_of o l -> (o.(cell_capacity) < 2 ^ 30)%Z ->
    HT.json_object_getn_value o name = Ok (json_object_get (JObject l) name) /\
    (match json_object_add l name v with
     | None => HT.json_object_add o name v = Ok None
     | Some l' => exists o', HT.json_object_add o name v = Ok (Some o') /\ table_of o' l'
     end) /\
    exists o', HT.json_object_set_value o name v = Ok o' /\ table_of o' (json_object_set_value l name v).
Proof.
  split; [exact empty_table|]. intros o l name v R Hcap. split_and!.
  - cbn [json_object_get]. destruct (list_find _ l) as [[i [k w]]|] eqn:Hf.
    + apply list_find_Some in Hf as (Hl & Hk & _). cbn in Hk. subst k. by apply (get_found o l R i name).
    + apply (get_absent o l R). intros ([k w] & -> & Hin)%list_elem_of_fmap.
      eapply list_find_None in Hf. rewrite Forall_forall in Hf. by apply (Hf _ (proj1 (list_elem_of_In _ _) Hin)).
  - unfold json_object_add. case_bool_decide as Hin.
    + apply list_elem_of_fmap in Hin as ([k w] & -> & Hin). by apply (add_with_found o l R _ _ _ w).
    + destruct (add_table o l R Hcap name v Hin) as (o' & Ha & Ht & _). eauto.
  - destruct (list_set_spec name v l) as [[Hn ->]|(i & w & Hl & ->)].
    + destruct (add_table o l R Hcap name v Hn) as (o' & _ & Ht & Hs). eauto.
    + by apply (set_found o l R i name v w).
Qed.

(** Two members added to a fresh object and looked up. *)
Lemma hash_table_refines_witness : exists o2 : JSON_Object,
  table_of o2 [(bytes_of "status", JBool true); (bytes_of "result", JNull)] /\
  HT.json_object_getn_value o2 (bytes_of "status") = Ok (Some (JBool true)).
Proof.
  destruct (proj2 (proj2 (proj2 hash_table_refines (HT.json_object_init 0) [] (bytes_of "status") (JBool true)
    (proj1 hash_table_refines) eq_refl))) as (o1 & H1 & R1).
  destruct (proj2 (proj2 (proj2 hash_table_refines o1 _ (bytes_of "result") JNull R1
    ltac:(vm_compute in H1; injection H1 as <-; reflexivity)))) as (o2 & H2 & R2).
  exists o2. split; [exact R2|]. vm_compute in H1. injection H1 as <-. vm_compute in H2. injection H2 as <-.
  exact (proj1 (proj2 hash_table_refines _ _ (bytes_of "status") JNull R2 eq_refl)).
Defined.
