(* ===== verification/Keys.v ===== *)
(** Asymmetric keys: common/crypto/{sig,sig_private_key,sig_public_key,pkenc_private_key,
    pkenc_public_key}.cpp.  The arithmetic of OpenSSL is the parameter [OpenSSLKeys]; its objects are data:
    a bignum is an integer, an EC_KEY its curve, private scalar and public point, an RSA key its modulus
    and exponents.  Allocation by OpenSSL is taken to succeed, as allocation by C++ is. *)
From S2P Require Import Prelude Crypto Codec.

(** * OpenSSL *)

(** [None] is the point at infinity. *)
Definition EC_POINT : Type := option (Z * Z).

Record EC_KEY := mk_ec { ec_nid : Z; ec_private : option Z; ec_public : option EC_POINT }.

Record RSA := mk_rsa { rsa_n : Z; rsa_e : Z; rsa_d : option Z }.

(** common/crypto/sig.h *)
Inductive SigCurve := UNDEFINED | SECP256K1 | SECP384R1.

Definition NID_undef : Z := 0.
Definition NID_secp256k1 : Z := 714.
Definition NID_secp384r1 : Z := 715.
Definition RSA_F4 : Z := 65537.

(** What the code uses of OpenSSL, a failing call being [None], and the default curve the build selects.
    A curve that OpenSSL does not know has no order.  Calls that use randomness take the number of such
    calls made so far. *)
Class OpenSSLKeys := {
  PDO_DEFAULT_SIGCURVE : SigCurve;
  EC_GROUP_get_order : Z -> option Z;
  EC_KEY_generate_key : nat -> Z -> option (Z * EC_POINT);
  EC_POINT_mul : Z -> Z -> option EC_POINT;
  EC_KEY_check_key : EC_KEY -> bool;
  EC_POINT_oct2point : Z -> bytes -> option EC_POINT;
  EC_POINT_point2oct : Z -> EC_POINT -> bytes;
  PEM_write_bio_ECPrivateKey : EC_KEY -> option bytes;
  PEM_read_bio_ECPrivateKey : bytes -> option EC_KEY;
  PEM_write_bio_EC_PUBKEY : EC_KEY -> option bytes;
  PEM_read_bio_EC_PUBKEY : bytes -> option EC_KEY;
  ECDSA_do_sign : nat -> bytes -> EC_KEY -> option (Z * Z);
  ECDSA_do_verify : bytes -> Z * Z -> EC_KEY -> Z;
  i2d_ECDSA_SIG : Z * Z -> option bytes;
  d2i_ECDSA_SIG : bytes -> option (Z * Z);
  RSA_generate_key_ex : nat -> Z -> Z -> option RSA;
  PEM_write_bio_RSAPrivateKey : RSA -> option bytes;
  PEM_read_bio_RSAPrivateKey : bytes -> option RSA;
  PEM_write_bio_RSAPublicKey : RSA -> option bytes;
  PEM_read_bio_RSAPublicKey : bytes -> option RSA;
  RSA_public_encrypt : nat -> RSA -> bytes -> option bytes;
  RSA_private_decrypt : RSA -> bytes -> option bytes;
}.

(** The number of bytes of a bignum; big-endian conversions without leading zeros. *)
Definition BN_num_bytes (n : Z) : Z := if bool_decide (n <= 0)%Z then 0%Z else (Z.log2 n / 8 + 1)%Z.
Definition BN_bin2bn (b : bytes) : Z := le_combine (rev b).
Definition BN_bn2bin (n : Z) : bytes := rev (le_split (Z.to_nat (BN_num_bytes n)) n).

Definition RSA_size (k : RSA) : Z := BN_num_bytes k.(rsa_n).
Definition RSAPublicKey_dup (k : RSA) : RSA := mk_rsa k.(rsa_n) k.(rsa_e) None.

(** * common/crypto/sig.cpp *)

Inductive sha_function := SHA256_function | SHA384_function.

Record sig_details_t := mk_details {
  sigCurve : SigCurve;
  sslNID : Z;
  SHAFunc : option sha_function;
  shaDigestLength : Z;
  maxSigSize : Z;
}.

Definition SigDetails (c : SigCurve) : sig_details_t :=
  match c with
  | UNDEFINED => mk_details UNDEFINED 0 None 0 0
  | SECP256K1 => mk_details SECP256K1 NID_secp256k1 (Some SHA256_function) SHA256_DIGEST_LENGTH 72
  | SECP384R1 => mk_details SECP384R1 NID_secp384r1 (Some SHA384_function) SHA384_DIGEST_LENGTH 104
  end.

Definition NidToSigCurveMap (nid : Z) : option SigCurve :=
  if bool_decide (nid = NID_secp256k1) then Some SECP256K1
  else if bool_decide (nid = NID_secp384r1) then Some SECP384R1
  else None.

(** The class [sig::Key] and its two subclasses, which add no fields. *)
Record Key := mk_key { key_ : option EC_KEY; sigDetails_ : sig_details_t }.

Definition MaxSigSize (k : Key) : Z := k.(sigDetails_).(maxSigSize).

(** The message of the second exception is a pointer [nid] bytes past the start of a literal that is
    shorter than any curve's number. *)
Definition SetSigDetailsFromDeserializedKey : M Key unit :=
  let! k := getM in
  let! key := liftM (of_option k.(key_) (UndefinedBehaviour "null key")) in
  throw_ifM (bool_decide (key.(ec_nid) = NID_undef))
    (RuntimeError "Crypto Error (sig::PrivateKey(const std::string& encoded): undefined nid") ;;!
  let! c := liftM (of_option (NidToSigCurveMap key.(ec_nid)) (UndefinedBehaviour "error message out of bounds")) in
  modifyM (fun k => mk_key k.(key_) (SigDetails c)).

Definition ResetKey : M Key unit := modifyM (fun k => mk_key None k.(sigDetails_)).

Section Signatures.
Context `{OpenSSL, OpenSSLKeys}.

(** The constructors of [PrivateKey] and of [PublicKey] from a curve. *)
Definition sig_Key (c : SigCurve) : Key :=
  mk_key None (SigDetails (match c with UNDEFINED => PDO_DEFAULT_SIGCURVE | _ => c end)).

(** [sigDetails_.SHAFunc(message, hash)]; calling a null function is undefined. *)
Definition run_SHAFunc (d : sig_details_t) (message : bytes) : result bytes :=
  match d.(SHAFunc) with
  | Some SHA256_function => Ok (SHA256Hash message)
  | Some SHA384_function => Ok (SHA384Hash message)
  | None => Err (UndefinedBehaviour "null hash function")
  end.

(** What [Serialize] does with the text in the BIO: reading nothing fails, and the string ends at the first
    NUL. *)
Definition read_BIO (text : bytes) (msg : string) : result bytes :=
  throw_if (bool_decide (text = [])) (CryptoError msg) ;;? Ok (c_str text).

End Signatures.

Module sig_private_key.
Section Methods.
Context `{OpenSSL, OpenSSLKeys}.

(** [PrivateKey(sigCurve, numeric_key)]. *)
Definition of_numeric (c : SigCurve) (numeric_key : bytes) : result Key :=
  let d := (sig_Key c).(sigDetails_) in
  let? o := of_option (EC_GROUP_get_order d.(sslNID)) (MemoryError "Crypto Error (sig::PrivateKey): Could not create EC_GROUP") in
  let r := (BN_bin2bn numeric_key mod o)%Z in
  let? p := of_option (EC_POINT_mul d.(sslNID) r) (CryptoError "Crypto Error (sig::PrivateKey): point multiplication failed") in
  let key := mk_ec d.(sslNID) (Some r) (Some p) in
  throw_if (negb (EC_KEY_check_key key)) (CryptoError "Crypto Error (sig::PrivateKey): invalid key") ;;?
  Ok (mk_key (Some key) d).

Definition Deserialize (encoded : bytes) : M Key unit :=
  ResetKey ;;!
  let! key := liftM (of_option (PEM_read_bio_ECPrivateKey (c_str encoded))
    (ValueError "Crypto Error (sig::PrivateKey::Deserialize()): Could not deserialize private ECDSA key")) in
  modifyM (fun k => mk_key (Some key) k.(sigDetails_)) ;;!
  SetSigDetailsFromDeserializedKey.

Definition Generate (n : nat) : M Key unit :=
  ResetKey ;;!
  let! k := getM in
  let nid := k.(sigDetails_).(sslNID) in
  let! _ := liftM (of_option (EC_GROUP_get_order nid) (MemoryError "Crypto Error (sig::PrivateKey::Generate): Could not create EC_GROUP")) in
  let! '(r, p) := liftM (of_option (EC_KEY_generate_key n nid)
                           (CryptoError "Crypto Error (sig::PrivateKey::Generate): Could not generate EC_KEY")) in
  modifyM (fun k => mk_key (Some (mk_ec nid (Some r) (Some p))) k.(sigDetails_)).

(** The constructor of [PublicKey] from a private key, which leaves a key out when there is none. *)
Definition PublicKey_of (k : Key) : result Key :=
  match k.(key_) with
  | None => Ok (mk_key None k.(sigDetails_))
  | Some key =>
      let nid := k.(sigDetails_).(sslNID) in
      let? _ := of_option (EC_GROUP_get_order nid) (MemoryError "Crypto Error (sig::PublicKey()): Could not create EC_GROUP") in
      let? p := of_option key.(ec_public) (CryptoError "Crypto Error (sig::PublicKey): Could not create new EC_POINT") in
      Ok (mk_key (Some (mk_ec nid None (Some p))) k.(sigDetails_))
  end.

Definition GetPublicKey (k : Key) : result Key :=
  let? _ := of_option k.(key_) (ValueError "Crypto Error (sig::PrivateKey::GetPublicKey): Private key is not initialized") in
  PublicKey_of k.

Definition Serialize (k : Key) : result bytes :=
  let? key := of_option k.(key_) (ValueError "Crypto Error (sig::PrivateKey::Serialize): Private key not initialized") in
  let? text := of_option (PEM_write_bio_ECPrivateKey key) (CryptoError "Crypto Error (sig::PrivateKey::Serialize) failed to write PEM key") in
  read_BIO text "Crypto Error (sig::PrivateKey::Serialize): Could not read BIO".

Definition SignMessage (n : nat) (k : Key) (message : bytes) : result bytes :=
  let? key := of_option k.(key_) (ValueError "Crypto Error (sig::PrivateKey::Serialize): Private key not initialized") in
  let? hash := run_SHAFunc k.(sigDetails_) message in
  let? '(r, s) := of_option (ECDSA_do_sign n hash key) (MemoryError "Crypto Error (SignMessage): Could not compute ECDSA signature") in
  let? ord := of_option (EC_GROUP_get_order key.(ec_nid)) (CryptoError "Crypto Error (SignMessage): Could not get order") in
  let ordh := Z.shiftr ord 1 in
  let s := if bool_decide (s >= ordh)%Z then (ord - s)%Z else s in
  of_option (i2d_ECDSA_SIG (r, s)) (CryptoError "Crypto Error (SignMessage): Could not convert signatureto DER").

Definition GetNumericKey (k : Key) : result bytes :=
  let? key := of_option k.(key_) (ValueError "Crypto Error (sig::PrivateKey::GetNumericKey): Key not initialized") in
  let? bn := of_option key.(ec_private) (CryptoError "Crypto Error (sig::PrivateKey::GetNumericKey) failed to retrieve the private key") in
  throw_if (bool_decide (BN_num_bytes bn <= 0)%Z) (CryptoError "Crypto Error (sig::PrivateKey::GetNumericKey) failed to convert bignum") ;;?
  Ok (BN_bn2bin bn).
End Methods.
End sig_private_key.

Module sig_public_key.
Section Methods.
Context `{OpenSSL, OpenSSLKeys}.

(** [PublicKey(sigCurve, numeric_key)]. *)
Definition of_numeric (c : SigCurve) (numeric_key : bytes) : result Key :=
  let d := (sig_Key c).(sigDetails_) in
  let? _ := of_option (EC_GROUP_get_order d.(sslNID)) (MemoryError "Crypto Error (sig::PublicKey): Cound not create group") in
  let? p := of_option (EC_POINT_oct2point d.(sslNID) numeric_key) (CryptoError "Crypto Error (sig::PublicKey): Cound not convert octet to point") in
  Ok (mk_key (Some (mk_ec d.(sslNID) None (Some p))) d).

Definition Deserialize (encoded : bytes) : M Key unit :=
  ResetKey ;;!
  let! key := liftM (of_option (PEM_read_bio_EC_PUBKEY (c_str encoded))
    (ValueError "Crypto Error (sig::Deserialize()): Could not deserialize public ECDSA key")) in
  modifyM (fun k => mk_key (Some key) k.(sigDetails_)) ;;!
  SetSigDetailsFromDeserializedKey.

Definition Serialize (k : Key) : result bytes :=
  let? key := of_option k.(key_) (ValueError "Crypto Error (sig::PublicKey::Serialize): public key not initialized") in
  let? text := of_option (PEM_write_bio_EC_PUBKEY key) (CryptoError "Crypto Error (sig::PublicKey::Serialize): Could not serialize key") in
  read_BIO text "Crypto Error (sig::PublicKey::Serialize): Could not read BIO".

Definition VerifySignature (k : Key) (message signature : bytes) : result Z :=
  let? key := of_option k.(key_) (ValueError "Crypto Error (sig::PublicKey::VerifySignature): public key not initialized") in
  let? hash := run_SHAFunc k.(sigDetails_) message in
  match d2i_ECDSA_SIG signature with
  | None => Ok (-1)%Z
  | Some sig => Ok (ECDSA_do_verify hash sig key)
  end.

Definition GetNumericKey (k : Key) : result bytes :=
  let? key := of_option k.(key_) (ValueError "Crypto Error (sig::PublicKey::GetNumericKey): Key not initialized") in
  let? p := of_option key.(ec_public) (UndefinedBehaviour "null point") in
  Ok (EC_POINT_point2oct key.(ec_nid) p).
End Methods.
End sig_public_key.

Section SigConstructors.
Context `{OpenSSL, OpenSSLKeys}.

(** The constructors from an encoded string; the object does not survive a failure. *)
Definition sig_PrivateKey (encoded : bytes) : result Key :=
  let '(r, k) := sig_private_key.Deserialize encoded (mk_key None (SigDetails UNDEFINED)) in
  let? _ := r in Ok k.
Definition sig_PublicKey (encoded : bytes) : result Key :=
  let '(r, k) := sig_public_key.Deserialize encoded (mk_key None (SigDetails UNDEFINED)) in
  let? _ := r in Ok k.

(** The static [PublicKey::MaxSigSize(encoded)]. *)
Definition sig_MaxSigSize (encoded : bytes) : result Z :=
  let? pu := sig_PublicKey encoded in Ok (MaxSigSize pu).
End SigConstructors.

(** * common/crypto/pkenc.h, pkenc_private_key.cpp, pkenc_public_key.cpp *)

Definition RSA_KEY_SIZE : Z := 3072.
Definition RSA_PADDING_SIZE : Z := 41.
Definition RSA_PLAINTEXT_LEN : Z := Z.shiftr (RSA_KEY_SIZE - RSA_PADDING_SIZE) 3.

(** A key object is its pointer. *)
Module pkenc_private_key.
Section Methods.
Context `{OpenSSLKeys}.

Definition deserializeRSAPrivateKey (encoded : bytes) : result RSA :=
  of_option (PEM_read_bio_RSAPrivateKey (c_str encoded))
    (ValueError "Crypto Error (deserializeRSAPrivateKey): Could not deserialize private RSA key").

(** A failure leaves the key that was there. *)
Definition Deserialize (encoded : bytes) : M (option RSA) unit :=
  let! key := liftM (deserializeRSAPrivateKey encoded) in
  modifyM (fun _ => Some key).

Definition Generate (n : nat) : M (option RSA) unit :=
  modifyM (fun _ => None) ;;!
  let! key := liftM (of_option (RSA_generate_key_ex n RSA_KEY_SIZE RSA_F4)
                       (RuntimeError "Crypto  Error (pkenc::PrivateKey()): Could not generate RSA key")) in
  modifyM (fun _ => Some key).

Definition Serialize (k : option RSA) : result bytes :=
  let? key := of_option k (RuntimeError "Crypto Error (Serialize): PrivateKey is not initialized") in
  let? text := of_option (PEM_write_bio_RSAPrivateKey key) (RuntimeError "Crypto Error (Serialize): Could not write to BIO") in
  Ok (c_str text).

Definition DecryptMessage (k : option RSA) (ciphertext : bytes) : result bytes :=
  throw_if (bool_decide (zlen ciphertext <> Z.shiftr RSA_KEY_SIZE 3))
    (ValueError "Crypto Error (DecryptMessage): RSA ciphertext size is invalid") ;;?
  let? key := of_option k (UndefinedBehaviour "null key") in
  of_option (RSA_private_decrypt key ciphertext) (RuntimeError "Crypto Error (DecryptMessage): RSA decryption internal error").

Definition GetPublicKey (k : option RSA) : result (option RSA) :=
  let? key := of_option k (RuntimeError "Crypto  Error (pkenc::PublicKey()): Could not dup RSA public key") in
  Ok (Some (RSAPublicKey_dup key)).
End Methods.
End pkenc_private_key.

Module pkenc_public_key.
Section Methods.
Context `{OpenSSLKeys}.

Definition deserializeRSAPublicKey (encoded : bytes) : result RSA :=
  of_option (PEM_read_bio_RSAPublicKey (c_str encoded))
    (ValueError "Crypto Error (deserializeRSAPublicKey): Could not deserialize public RSA key").

Definition Deserialize (encoded : bytes) : M (option RSA) unit :=
  let! key := liftM (deserializeRSAPublicKey encoded) in
  modifyM (fun _ => Some key).

Definition Serialize (k : option RSA) : result bytes :=
  let? key := of_option k (RuntimeError "Crypto Error (Serialize): PublicKey is not initialized") in
  let? text := of_option (PEM_write_bio_RSAPublicKey key) (RuntimeError "Crypto Error (Serialize): Could not write to BIO") in
  Ok (c_str text).

(** The result has the size of the modulus, whatever length the call reports.  The text of the last error leaves
    out the reason that OpenSSL gives, which the code appends on a line of its own. *)
Definition EncryptMessage (n : nat) (k : option RSA) (message : bytes) : result bytes :=
  throw_if (bool_decide (zlen message = 0%Z)) (RuntimeError "Crypto Error (EncryptMessage): RSA plaintext cannot be empty") ;;?
  throw_if (bool_decide (zlen message > RSA_PLAINTEXT_LEN)%Z)
    (RuntimeError "Crypto Error (EncryptMessage): RSA plaintext size is too large") ;;?
  let? key := of_option k (UndefinedBehaviour "null key") in
  let? ctext := of_option (RSA_public_encrypt n key message)
                  (RuntimeError "Crypto Error (EncryptMessage): RSA encryption internal error.") in
  Ok (overwrite (replicate (Z.to_nat (RSA_size key)) Byte.x00) 0 ctext).
End Methods.
End pkenc_public_key.

Section EncConstructors.
Context `{OpenSSLKeys}.

(** The constructors from an encoded string. *)
Definition pkenc_PrivateKey (encoded : bytes) : result (option RSA) :=
  let? key := pkenc_private_key.deserializeRSAPrivateKey encoded in Ok (Some key).
Definition pkenc_PublicKey (encoded : bytes) : result (option RSA) :=
  let? key := pkenc_public_key.deserializeRSAPublicKey encoded in Ok (Some key).
End EncConstructors.
