(* ===== verification/KeysSpec.v ===== *)
(** What the asymmetric keys promise: signatures verify under the public key and fit the size the code
    reserves for them, keys survive serialization, and encryption round trips. *)
From S2P Require Import Prelude Crypto Codec Keys.

(** The largest DER encoding of a pair of integers of [len] bytes each: a header of two bytes around two
    integers with a header of two bytes and possibly a leading zero. *)
Definition der_size (len : Z) : Z := (2 + 2 * (2 + 1 + len))%Z.

(** A key pair on its curve. *)
Definition ec_pair `{OpenSSLKeys} (k : EC_KEY) : Prop := exists d p o,
  k.(ec_private) = Some d /\ k.(ec_public) = Some p /\ EC_GROUP_get_order k.(ec_nid) = Some o /\
  (0 < d < o)%Z /\ EC_POINT_mul k.(ec_nid) d = Some p.

Definition ec_public_only (k : EC_KEY) : Prop := k.(ec_private) = None /\ is_Some k.(ec_public).

(** Documented behaviour of OpenSSL: the two curves and the size of their order; what key generation
    gives; ECDSA signatures are in range, verify, and verify with [s] negated; DER decoding inverts
    encoding and ignores what follows; PEM decoding inverts encoding, whose text is not empty and has no
    NUL; OAEP encrypts up to 42 bytes less than the modulus, decryption inverts it and a ciphertext is as
    long as the modulus. *)
Class OpenSSLKeysLaws `{OpenSSLKeys} : Prop := {
  default_curve : PDO_DEFAULT_SIGCURVE <> UNDEFINED;
  curve_order c : c <> UNDEFINED ->
    exists o, EC_GROUP_get_order (SigDetails c).(sslNID) = Some o /\ (2 < o < 2 ^ (8 * (SigDetails c).(shaDigestLength)))%Z;
  generate_pair n nid d p o : EC_KEY_generate_key n nid = Some (d, p) -> EC_GROUP_get_order nid = Some o ->
    (0 < d < o)%Z /\ EC_POINT_mul nid d = Some p;
  check_pair k : ec_pair k -> EC_KEY_check_key k = true;
  sign_range n h k r s o : ECDSA_do_sign n h k = Some (r, s) -> EC_GROUP_get_order k.(ec_nid) = Some o ->
    (0 < r < o)%Z /\ (0 < s < o)%Z;
  sign_verify n h k sg : ec_pair k -> ECDSA_do_sign n h k = Some sg ->
    ECDSA_do_verify h sg (mk_ec k.(ec_nid) None k.(ec_public)) = 1%Z;
  verify_negated h r s k o : EC_GROUP_get_order k.(ec_nid) = Some o -> (0 < s < o)%Z ->
    ECDSA_do_verify h (r, o - s)%Z k = ECDSA_do_verify h (r, s) k;
  der_decode r s der rest : i2d_ECDSA_SIG (r, s) = Some der -> d2i_ECDSA_SIG (der ++ rest) = Some (r, s);
  der_bound r s len der : i2d_ECDSA_SIG (r, s) = Some der -> (0 <= len <= 60)%Z ->
    (0 <= r < 2 ^ (8 * len))%Z -> (0 <= s < 2 ^ (8 * len))%Z -> (zlen der <= der_size len)%Z;
  pem_ec_public k t : ec_public_only k -> PEM_write_bio_EC_PUBKEY k = Some t ->
    PEM_read_bio_EC_PUBKEY t = Some k /\ t <> [] /\ Byte.x00 ∉ t;
  pem_ec_private k t : ec_pair k -> PEM_write_bio_ECPrivateKey k = Some t ->
    PEM_read_bio_ECPrivateKey t = Some k /\ t <> [] /\ Byte.x00 ∉ t;
  rsa_generated n bits e k : (0 < bits)%Z -> RSA_generate_key_ex n bits e = Some k ->
    is_Some k.(rsa_d) /\ (8 * RSA_size k = bits)%Z;
  pem_rsa_public k t : k.(rsa_d) = None -> PEM_write_bio_RSAPublicKey k = Some t ->
    PEM_read_bio_RSAPublicKey t = Some k /\ t <> [] /\ Byte.x00 ∉ t;
  pem_rsa_private k t : is_Some k.(rsa_d) -> PEM_write_bio_RSAPrivateKey k = Some t ->
    PEM_read_bio_RSAPrivateKey t = Some k /\ t <> [] /\ Byte.x00 ∉ t;
  oaep_limit n k m : is_Some (RSA_public_encrypt n k m) -> (zlen m <= RSA_size k - 42)%Z;
  rsa_decrypts n bits e i k m c : RSA_generate_key_ex n bits e = Some k ->
    RSA_public_encrypt i (RSAPublicKey_dup k) m = Some c ->
    zlen c = RSA_size k /\ RSA_private_decrypt k c = Some m;
}.

(** Keys on which the code relies: a pair on a known curve, with the details of that curve. *)
Definition good_private `{OpenSSLKeys} (k : Key) : Prop := exists c key,
  c <> UNDEFINED /\ k = mk_key (Some key) (SigDetails c) /\ key.(ec_nid) = (SigDetails c).(sslNID) /\ ec_pair key.

Definition good_public (k : Key) : Prop := exists c key,
  c <> UNDEFINED /\ k = mk_key (Some key) (SigDetails c) /\ key.(ec_nid) = (SigDetails c).(sslNID) /\ ec_public_only key.

Section Spec.
Context {OS : OpenSSL} {OK : OpenSSLKeys} {L : OpenSSLKeysLaws}.

Lemma details_of_nid c : c <> UNDEFINED -> NidToSigCurveMap (SigDetails c).(sslNID) = Some c.
Proof. destruct c; intros Hc; [by destruct Hc|done..]. Qed.

Lemma generated_key n c k : sig_private_key.Generate n (sig_Key c) = (Ok tt, k) -> good_private k.
Proof.
  unfold sig_private_key.Generate, sig_Key, ResetKey. run_monad. cbn [sigDetails_].
  set (c' := match c with UNDEFINED => PDO_DEFAULT_SIGCURVE | _ => c end).
  assert (Hc : c' <> UNDEFINED) by (unfold c'; pose proof default_curve; by destruct c).
  destruct (curve_order c' Hc) as (o & Ho & _). rewrite Ho. cbn [of_option].
  destruct (EC_KEY_generate_key n _) as [[d p]|] eqn:Hg; [|done]. intros [= <-]. cbn.
  destruct (generate_pair _ _ _ _ _ Hg Ho) as [Hd Hp]. do 2 eexists. split_and!; [exact Hc|done|done|].
  exists d, p, o. cbn. destruct Hd. by split_and!.
Qed.

Lemma public_of_good k : good_private k -> exists p, sig_private_key.GetPublicKey k = Ok p /\ good_public p /\
  p.(sigDetails_) = k.(sigDetails_) /\ p.(key_) = (fun key => mk_ec key.(ec_nid) None key.(ec_public)) <$> k.(key_).
Proof.
  intros (c & key & Hc & -> & Hn & d & p & o & Hd & Hp & Ho & Hr & Hm). unfold sig_private_key.GetPublicKey, sig_private_key.PublicKey_of.
  cbn. rewrite <-Hn, Ho, Hp. cbn. eexists. split; [done|]. split_and!; [|done|done].
  do 2 eexists. split_and!; [exact Hc|by rewrite Hn|done|]. by split.
Qed.

Lemma run_sha_good c m : c <> UNDEFINED -> exists h, run_SHAFunc (SigDetails c) m = Ok h.
Proof. destruct c; [done|eexists; reflexivity..]. Qed.

Lemma signature_ok k i m sg rest : good_private k -> sig_private_key.SignMessage i k m = Ok sg ->
  exists p, sig_private_key.GetPublicKey k = Ok p /\ good_public p /\
    sig_public_key.VerifySignature p m (sg ++ rest) = Ok 1%Z /\
    (zlen sg <= MaxSigSize k)%Z /\ MaxSigSize p = MaxSigSize k.
Proof.
  intros Hk Hs. destruct (public_of_good k Hk) as (p & Hp & Hgp & Hd & Hkey). exists p. split; [done|]. split; [done|].
  destruct Hk as (c & key & Hc & -> & Hn & Hpair). cbn in Hd, Hkey. unfold sig_private_key.SignMessage in Hs. cbn in Hs.
  destruct (run_sha_good c m Hc) as [h Hh]. rewrite Hh in Hs. cbn in Hs.
  destruct (ECDSA_do_sign i h key) as [[r s]|] eqn:Hsign; [|done]. cbn in Hs.
  destruct (curve_order c Hc) as (o & Ho & Hob). rewrite Hn, Ho in Hs. cbn [of_option result_bind] in Hs.
  assert (Ho' : EC_GROUP_get_order key.(ec_nid) = Some o) by (by rewrite Hn).
  destruct (sign_range _ _ _ _ _ _ Hsign Ho') as [Hr Hrs]. pose proof (sign_verify _ _ _ _ Hpair Hsign) as Hv.
  set (s' := if bool_decide (s >= _)%Z then _ else s) in Hs.
  assert (Hs' : (0 < s' < o)%Z) by (unfold s'; case_bool_decide; lia).
  assert (Hv' : ECDSA_do_verify h (r, s') (mk_ec key.(ec_nid) None key.(ec_public)) = 1%Z).
  { unfold s'. case_bool_decide; [|done]. by rewrite (verify_negated h r s (mk_ec key.(ec_nid) None key.(ec_public)) o). }
  destruct (i2d_ECDSA_SIG (r, s')) as [der|] eqn:Hder; [|done]. injection Hs as <-. split_and!.
  - unfold sig_public_key.VerifySignature. rewrite Hkey. cbn [of_option result_bind]. rewrite Hd, Hh.
    cbn [result_bind]. rewrite (der_decode _ _ _ _ Hder). by rewrite Hv'.
  - etransitivity; [apply (der_bound r s' (SigDetails c).(shaDigestLength) der Hder); [by destruct c|lia..]|]. by destruct c.
  - unfold MaxSigSize. cbn. by rewrite Hd.
Qed.

(** A signature made with a generated key, with any bytes appended, verifies under its public key, and
    is no longer than the size the code reserves for signatures of the curve. *)
Theorem signature_roundtrip n c k i m sg rest :
  sig_private_key.Generate n (sig_Key c) = (Ok tt, k) -> sig_private_key.SignMessage i k m = Ok sg ->
  exists p, sig_private_key.GetPublicKey k = Ok p /\
    sig_public_key.VerifySignature p m (sg ++ rest) = Ok 1%Z /\
    (zlen sg <= MaxSigSize k)%Z /\ MaxSigSize p = MaxSigSize k.
Proof.
  intros Hg%generated_key Hs. destruct (signature_ok k i m sg rest Hg Hs) as (p & ? & _ & ? & ? & ?). eauto.
Qed.

(** ** Serialization *)

Lemma sig_public_serialized p t : good_public p -> sig_public_key.Serialize p = Ok t ->
  sig_PublicKey t = Ok p /\ t <> [] /\ Byte.x00 ∉ t.
Proof.
  intros (c & key & Hc & -> & Hn & Hk) Hs. unfold sig_public_key.Serialize, read_BIO in Hs. cbn in Hs. result_inv.
  destruct (PEM_write_bio_EC_PUBKEY key) as [t'|] eqn:Hw; [|done].
  destruct (pem_ec_public _ _ Hk Hw) as (Hr & Hne & Hnul). cbn in *. simplify_eq.
  rewrite c_str_id by done. split; [|done].
  unfold sig_PublicKey, sig_public_key.Deserialize, ResetKey, SetSigDetailsFromDeserializedKey. run_monad. cbn [sigDetails_].
  rewrite c_str_id, Hr by done. cbn [of_option key_]. rewrite Hn, details_of_nid by done. cbn [of_option].
  rewrite bool_decide_eq_false_2; [done|]. by destruct c.
Qed.

Lemma sig_private_serialized k t : good_private k -> sig_private_key.Serialize k = Ok t ->
  sig_PrivateKey t = Ok k /\ t <> [] /\ Byte.x00 ∉ t.
Proof.
  intros (c & key & Hc & -> & Hn & Hk) Hs. unfold sig_private_key.Serialize, read_BIO in Hs. cbn in Hs. result_inv.
  destruct (PEM_write_bio_ECPrivateKey key) as [t'|] eqn:Hw; [|done].
  destruct (pem_ec_private _ _ Hk Hw) as (Hr & Hne & Hnul). cbn in *. simplify_eq.
  rewrite c_str_id by done. split; [|done].
  unfold sig_PrivateKey, sig_private_key.Deserialize, ResetKey, SetSigDetailsFromDeserializedKey. run_monad. cbn [sigDetails_].
  rewrite c_str_id, Hr by done. cbn [of_option key_]. rewrite Hn, details_of_nid by done. cbn [of_option].
  rewrite bool_decide_eq_false_2; [done|]. by destruct c.
Qed.

Lemma pkenc_public_serialized k t : k.(rsa_d) = None -> pkenc_public_key.Serialize (Some k) = Ok t ->
  pkenc_PublicKey t = Ok (Some k) /\ t <> [] /\ Byte.x00 ∉ t.
Proof.
  intros Hk Hs. unfold pkenc_public_key.Serialize in Hs. cbn in Hs.
  destruct (PEM_write_bio_RSAPublicKey k) as [t'|] eqn:Hw; [|done].
  destruct (pem_rsa_public _ _ Hk Hw) as (Hr & Hne & Hnul). injection Hs as <-. rewrite c_str_id by done. split; [|done].
  unfold pkenc_PublicKey, pkenc_public_key.deserializeRSAPublicKey. by rewrite c_str_id, Hr.
Qed.

Lemma pkenc_private_serialized k t : is_Some k.(rsa_d) -> pkenc_private_key.Serialize (Some k) = Ok t ->
  pkenc_PrivateKey t = Ok (Some k) /\ t <> [] /\ Byte.x00 ∉ t.
Proof.
  intros Hk Hs. unfold pkenc_private_key.Serialize in Hs. cbn in Hs.
  destruct (PEM_write_bio_RSAPrivateKey k) as [t'|] eqn:Hw; [|done].
  destruct (pem_rsa_private _ _ Hk Hw) as (Hr & Hne & Hnul). injection Hs as <-. rewrite c_str_id by done. split; [|done].
  unfold pkenc_PrivateKey, pkenc_private_key.deserializeRSAPrivateKey. by rewrite c_str_id, Hr.
Qed.

(** ** Encryption *)

(** A key that [pkenc::PrivateKey::Generate] made. *)
Definition generated_rsa (k : RSA) : Prop := exists n, RSA_generate_key_ex n RSA_KEY_SIZE RSA_F4 = Some k.

Lemma generated_rsa_size k : generated_rsa k -> is_Some k.(rsa_d) /\ RSA_size k = 384%Z.
Proof. intros [n Hg]. apply rsa_generated in Hg as [Hd Hs]; [|done]. split; [done|]. unfold RSA_KEY_SIZE in Hs. lia. Qed.

Lemma rsa_encrypt_ok key i m c : pkenc_public_key.EncryptMessage i (Some key) m = Ok c -> exists ct,
  (1 <= zlen m)%Z /\ RSA_public_encrypt i key m = Some ct /\
  c = overwrite (replicate (Z.to_nat (RSA_size key)) Byte.x00) 0 ct.
Proof.
  intros He. unfold pkenc_public_key.EncryptMessage in He. destruct (decide (zlen m = 0%Z)) as [Hz|Hz].
  { rewrite bool_decide_eq_true_2 in He by done. done. }
  result_inv. cbn in *. simplify_eq. destruct (RSA_public_encrypt _ _ _) as [ct|]; [|done]. simplify_eq/=.
  eexists. split_and!; [|done|done]. pose proof (zlen_nonneg m). lia.
Qed.

Lemma rsa_encrypt_decrypt k i m c : generated_rsa k -> pkenc_public_key.EncryptMessage i (Some (RSAPublicKey_dup k)) m = Ok c ->
  pkenc_private_key.DecryptMessage (Some k) c = Ok m /\ zlen c = 384%Z.
Proof.
  intros Hg (ct & _ & Hc & ->)%rsa_encrypt_ok. destruct (generated_rsa_size k Hg) as [_ Hsize].
  destruct Hg as [n Hg]. destruct (rsa_decrypts _ _ _ _ _ _ _ Hg Hc) as [Hl Hd].
  assert (Ho : overwrite (replicate (Z.to_nat (RSA_size (RSAPublicKey_dup k))) Byte.x00) 0 ct = ct).
  { change (RSA_size (RSAPublicKey_dup k)) with (RSA_size k). unfold overwrite, zlen in *. cbn [take Z.to_nat app].
    rewrite drop_ge, app_nil_r; [done|]. rewrite length_replicate. lia. }
  rewrite Ho. split; [|congruence]. unfold pkenc_private_key.DecryptMessage.
  rewrite bool_decide_eq_false_2 by (rewrite Hl, Hsize; by vm_compute). cbn. by rewrite Hd.
Qed.

(** C27: what is encrypted for a generated key is decrypted by it, and the ciphertext has the size the
    decryption asks for; the check against RSA_PLAINTEXT_LEN lets messages of 343 to 378 bytes through,
    which OAEP cannot encrypt, and these are an internal error. *)
Theorem rsa_roundtrip n s k i m : pkenc_private_key.Generate n s = (Ok tt, k) ->
  exists p, pkenc_private_key.GetPublicKey k = Ok p /\
    (forall c, pkenc_public_key.EncryptMessage i p m = Ok c ->
       pkenc_private_key.DecryptMessage k c = Ok m /\ zlen c = 384%Z /\ (1 <= zlen m <= 342)%Z) /\
    ((342 < zlen m <= RSA_PLAINTEXT_LEN)%Z -> pkenc_public_key.EncryptMessage i p m =
       Err (RuntimeError "Crypto Error (EncryptMessage): RSA encryption internal error.")).
Proof.
  unfold pkenc_private_key.Generate. run_monad. destruct (RSA_generate_key_ex n _ _) as [key|] eqn:Hg; [|done]. intros [= <-].
  assert (Hk : generated_rsa key) by (by exists n). destruct (generated_rsa_size key Hk) as [_ Hsize].
  assert (Hlim : forall c, RSA_public_encrypt i (RSAPublicKey_dup key) m = Some c -> (zlen m <= 342)%Z).
  { intros c Hc. enough (zlen m <= RSA_size (RSAPublicKey_dup key) - 42)%Z by (unfold RSA_size in *; cbn in *; lia).
    eapply oaep_limit. by rewrite Hc. }
  eexists. split; [done|]. split.
  - intros c He. destruct (rsa_encrypt_decrypt _ _ _ _ Hk He) as [Hd Hl].
    destruct (rsa_encrypt_ok _ _ _ _ He) as (ct & Hm & Hc & _). apply Hlim in Hc. by split_and!.
  - intros Hm. unfold pkenc_public_key.EncryptMessage. guards. cbn.
    destruct (RSA_public_encrypt _ _ _) as [ct|]; [|done]. pose proof (Hlim ct eq_refl). lia.
Qed.
End Spec.
