(* ===== verification/DataNode.v ===== *)
(** Data blocks: common/state/block_offset.{h,cpp} and common/state/data_node.{h,cpp}. *)
From S2P Require Import Prelude Crypto BlockStore.

(** * block_offset *)

Record block_offset_t := mk_bo { block_num : Z; bytes_ : Z }.

#[global] Instance block_offset_eq_dec : EqDecision block_offset_t.
Proof. solve_decision. Defined.

Definition empty_block_offset : block_offset_t := mk_bo 0 0.

Module block_offset.
Definition eqb (lhs rhs : block_offset_t) : bool :=
  bool_decide (lhs.(block_num) = rhs.(block_num)) && bool_decide (lhs.(bytes_) = rhs.(bytes_)).

(** [sizeof(block_offset_t)], a packed pair of [unsigned int]. *)
Definition offset_size : Z := 8.

(** The casts read the first eight bytes; a shorter buffer would be read out of bounds. *)
Definition serialized_offset_to_block_num (b : bytes) : result Z :=
  throw_if (bool_decide (zlen b < 4)%Z) (UndefinedBehaviour "read past the buffer") ;;?
  Ok (le_combine (subseq b 0 4)).

Definition serialized_offset_to_bytes (b : bytes) : result Z :=
  throw_if (bool_decide (zlen b < 8)%Z) (UndefinedBehaviour "read past the buffer") ;;?
  Ok (le_combine (subseq b 4 4)).

Definition to_ByteArray (bo : block_offset_t) : bytes :=
  le_split 4 bo.(block_num) ++ le_split 4 bo.(bytes_).

Definition serialize_offset (bo : block_offset_t) (outBuffer : bytes) : result bytes :=
  throw_if (bool_decide (zlen outBuffer < offset_size)%Z) (RuntimeError "serialize, short buf") ;;?
  Ok (overwrite outBuffer 0 (to_ByteArray bo)).

Definition deserialize_offset (inBuffer : bytes) : result block_offset_t :=
  let? n := serialized_offset_to_block_num inBuffer in
  let? b := serialized_offset_to_bytes inBuffer in
  Ok (mk_bo n b).

Definition is_empty (bo : block_offset_t) : bool := eqb bo empty_block_offset.
End block_offset.

(** * data_node *)

Definition FIXED_DATA_NODE_BYTE_SIZE : Z := Z.shiftl 1 13.

Record data_node := mk_dn {
  data_ : bytes;
  originalEncryptedDataNodeId_ : bytes;
  block_num_ : Z;
  free_bytes_ : Z;
}.

(** [sizeof(unsigned int) + sizeof(unsigned int)]: the header holds the block number and the number
    of free bytes at the end of the block. *)
Definition data_begin_index : Z := 8.
Definition data_end_index : Z := FIXED_DATA_NODE_BYTE_SIZE.

Module DN.
Definition make_offset (block_num bytes_off : Z) : bytes :=
  le_split 4 block_num ++ le_split 4 bytes_off.

(** The constructor: zeroed data, everything after the header free. *)
Definition new (block_num : Z) : data_node :=
  mk_dn (replicate (Z.to_nat FIXED_DATA_NODE_BYTE_SIZE) Byte.x00) [] block_num
    (u32 (data_end_index - data_begin_index)).

Definition get_block_num (dn : data_node) : Z := dn.(block_num_).

Definition cursor (dn : data_node) : block_offset_t :=
  mk_bo dn.(block_num_) (u32 (data_end_index - dn.(free_bytes_))).

Definition set_data (dn : data_node) (d : bytes) : data_node :=
  mk_dn d dn.(originalEncryptedDataNodeId_) dn.(block_num_) dn.(free_bytes_).

Definition serialize_data_header (dn : data_node) : data_node :=
  set_data dn (overwrite dn.(data_) 0 (make_offset dn.(block_num_) dn.(free_bytes_))).

Definition deserialize_original_encrypted_data_id (dn : data_node) (id : bytes) : data_node :=
  mk_dn dn.(data_) id dn.(block_num_) dn.(free_bytes_).

Definition free_bytes (dn : data_node) : Z := dn.(free_bytes_).

Definition consume_free_space (dn : data_node) (length : Z) : result data_node :=
  throw_if (bool_decide (length > dn.(free_bytes_))%Z)
    (RuntimeError "cannot consume more bytes than available free space") ;;?
  Ok (mk_dn dn.(data_) dn.(originalEncryptedDataNodeId_) dn.(block_num_)
        (u32 (dn.(free_bytes_) - length))).

Definition advance_block_offset (bo : block_offset_t) (length : Z) : block_offset_t :=
  let block_data_len := u32 (data_end_index - data_begin_index) in
  let blocks_to_add := (length / block_data_len)%Z in
  let block_num := u32 (bo.(block_num) + blocks_to_add) in
  let length := u32 (length - blocks_to_add * block_data_len) in
  let bytes := u32 (bo.(bytes_) + length) in
  if bool_decide (bytes >= data_end_index)%Z
  then mk_bo (u32 (block_num + 1)) (u32 (data_begin_index + (bytes - data_end_index)))
  else mk_bo block_num bytes.

(** Returns the node and the number of bytes written.  A cursor past the end of the data makes
    [data_end_index() - cursor] wrap, and the copy then runs outside the vector. *)
Definition write_at (dn : data_node) (buffer : bytes) (write_from : Z) (bo_at : block_offset_t) :
  result (data_node * Z) :=
  throw_if (bool_decide (dn.(block_num_) ≠ bo_at.(block_num))) (RuntimeError "write, bad block num") ;;?
  let cursor := bo_at.(bytes_) in
  let buffer_size := u32 (zlen buffer - write_from) in
  let writeable_bytes := u32 (data_end_index - cursor) in
  let bytes_to_write := if bool_decide (buffer_size <= writeable_bytes)%Z
                        then buffer_size else writeable_bytes in
  throw_if (bool_decide (write_from + bytes_to_write > zlen buffer)%Z ||
            bool_decide (cursor + bytes_to_write > zlen dn.(data_))%Z)
    (UndefinedBehaviour "copy outside the vector") ;;?
  let data' := overwrite dn.(data_) cursor (subseq buffer write_from bytes_to_write) in
  let cursor := u32 (cursor + bytes_to_write) in
  let old_cursor := u32 (data_end_index - dn.(free_bytes_)) in
  let free' := if bool_decide (old_cursor <= cursor)%Z
               then u32 (data_end_index - cursor) else dn.(free_bytes_) in
  Ok (mk_dn data' dn.(originalEncryptedDataNodeId_) dn.(block_num_) free', bytes_to_write).

(** Appends to [outBuffer]; returns the buffer and the number of bytes read. *)
Definition read_at (dn : data_node) (bo_at : block_offset_t) (nbytes : Z) (outBuffer : bytes) :
  result (bytes * Z) :=
  throw_if (bool_decide (dn.(block_num_) ≠ bo_at.(block_num))) (RuntimeError "read, bad block num") ;;?
  let bytes_to_endof_data := u32 (data_end_index - bo_at.(bytes_)) in
  let bytes_to_read := if bool_decide (nbytes <= bytes_to_endof_data)%Z
                       then nbytes else bytes_to_endof_data in
  throw_if (bool_decide (bo_at.(bytes_) + bytes_to_read > zlen dn.(data_))%Z)
    (UndefinedBehaviour "read outside the vector") ;;?
  Ok (outBuffer ++ subseq dn.(data_) bo_at.(bytes_) bytes_to_read, bytes_to_read).

Section IO.
Context `{OpenSSL, BlockStore}.

Definition decrypt_and_deserialize_data (dn : data_node) (inEncryptedData key : bytes) :
  result data_node :=
  let? d := DecryptMessage key inEncryptedData in
  let? n := block_offset.serialized_offset_to_block_num d in
  let? f := block_offset.serialized_offset_to_bytes d in
  Ok (mk_dn d dn.(originalEncryptedDataNodeId_) n f).

Definition load (dn : data_node) (key : bytes) : M world data_node :=
  let! '(ret, encrypted_buffer) :=
    sebio_fetch dn.(originalEncryptedDataNodeId_) SEBIO_NO_CRYPTO in
  throw_ifM (bool_decide (ret ≠ STATE_SUCCESS))
    (ValueError "data node load, sebio returned an error-") ;;!
  liftM (decrypt_and_deserialize_data dn encrypted_buffer key).

(** Returns the node with its header written and its new id recorded, and the id. *)
Definition unload (dn : data_node) (key : bytes) : M world (data_node * bytes) :=
  let dn := serialize_data_header dn in
  let! encrypted := w_encrypt key dn.(data_) in
  let! '(ret, id) := sebio_evict encrypted SEBIO_NO_CRYPTO in
  throw_ifM (bool_decide (ret ≠ STATE_SUCCESS))
    (ValueError "data node unload, sebio returned an error") ;;!
  retM (deserialize_original_encrypted_data_id dn id, id).
End IO.
End DN.

(** * Linear addresses *)

(** The data bytes of the blocks, one after the other, form a linear address space: a data node
    holds [block_data_len] of them, and an offset at the very end of a node denotes the same address
    as the start of the next one. *)
Definition block_data_len : Z := data_end_index - data_begin_index.

Definition addr (bo : block_offset_t) : Z :=
  bo.(block_num) * block_data_len + (bo.(bytes_) - data_begin_index).

(** Offsets the code works with: inside the data of a node or at its end. *)
Definition valid_bo (bo : block_offset_t) : Prop :=
  (0 <= bo.(block_num))%Z /\ (data_begin_index <= bo.(bytes_) <= data_end_index)%Z.

(** The unique offset of an address: before the end of its node. *)
Definition canonical_bo (bo : block_offset_t) : Prop :=
  valid_bo bo /\ (bo.(bytes_) < data_end_index)%Z.

Definition wf_dn (n : data_node) : Prop :=
  zlen n.(data_) = data_end_index /\ (0 <= n.(block_num_) < 2 ^ 32)%Z /\
  (0 <= n.(free_bytes_) <= block_data_len)%Z.

Ltac dn_consts := unfold block_data_len, data_begin_index, data_end_index, FIXED_DATA_NODE_BYTE_SIZE in *;
  change (Z.shiftl 1 13) with 8192%Z in *; change (8192 - 8)%Z with 8184%Z in *.

Lemma u32_block_data_len : u32 (data_end_index - data_begin_index) = block_data_len.
Proof. reflexivity. Qed.

Lemma addr_canonical_inj a b : canonical_bo a -> canonical_bo b -> addr a = addr b -> a = b.
Proof.
  destruct a as [an ab], b as [bn bb]. unfold canonical_bo, valid_bo, addr; cbn. dn_consts.
  intros [Ha1 Ha2] [Hb1 Hb2] Heq. assert (an = bn) by lia. subst. f_equal. lia.
Qed.

Lemma addr_nonneg bo : valid_bo bo -> (0 <= addr bo)%Z.
Proof. unfold valid_bo, addr. dn_consts. lia. Qed.

Lemma advance_spec bo len :
  valid_bo bo -> (0 <= len < 2 ^ 32)%Z -> (addr bo + len < 2 ^ 32 * block_data_len)%Z ->
  addr (DN.advance_block_offset bo len) = (addr bo + len)%Z /\
  canonical_bo (DN.advance_block_offset bo len).
Proof.
  destruct bo as [n b]. unfold valid_bo, addr, canonical_bo, valid_bo, DN.advance_block_offset; cbn [block_num bytes_].
  rewrite u32_block_data_len. dn_consts. intros [Hn Hb] Hlen Hbound.
  pose proof (Z.div_mod len 8184 ltac:(lia)) as Hdm.
  pose proof (Z.mod_pos_bound len 8184 ltac:(lia)) as Hmod.
  pose proof (Z.div_pos len 8184 ltac:(lia) ltac:(lia)) as Hdiv.
  set (q := (len / 8184)%Z) in *. set (r := (len mod 8184)%Z) in *.
  rewrite (u32_small (n + q)) by lia.
  rewrite (u32_small (len - q * 8184)) by lia.
  rewrite (u32_small (b + (len - q * 8184))) by lia.
  case_bool_decide; cbn [block_num bytes_].
  - rewrite (u32_small (n + q + 1)), (u32_small (8 + _)) by lia. lia.
  - lia.
Qed.

Lemma new_wf k : (0 <= k < 2 ^ 32)%Z -> wf_dn (DN.new k).
Proof.
  intros Hk. split_and!; [|cbn; lia|cbn; lia|by vm_compute|by vm_compute].
  unfold DN.new. cbn [data_]. by rewrite zlen_replicate.
Qed.

(** * Reading and writing inside a node *)

Lemma write_at_spec n buffer from bo :
  wf_dn n -> valid_bo bo -> n.(block_num_) = bo.(block_num) ->
  (0 <= from <= zlen buffer)%Z -> (zlen buffer < 2 ^ 32)%Z ->
  let k := Z.min (zlen buffer - from) (data_end_index - bo.(bytes_)) in
  DN.write_at n buffer from bo = Ok (mk_dn
    (overwrite n.(data_) bo.(bytes_) (subseq buffer from k)) n.(originalEncryptedDataNodeId_)
    n.(block_num_) (Z.min n.(free_bytes_) (data_end_index - (bo.(bytes_) + k))), k).
Proof.
  intros (Hlen & Hnum & Hfree) (Hb1 & Hb2) Heq Hfrom Hbuf k. unfold DN.write_at.
  rewrite Heq. dn_consts. guards.
  rewrite (u32_small (zlen buffer - from)), (u32_small (8192 - bytes_ bo)) by lia.
  assert ((if bool_decide (zlen buffer - from <= 8192 - bytes_ bo)%Z
           then zlen buffer - from else 8192 - bytes_ bo)%Z = k) as ->.
  { subst k. case_bool_decide; lia. }
  guards. rewrite (u32_small (bytes_ bo + k)), (u32_small (8192 - free_bytes_ n)) by lia.
  do 3 f_equal. case_bool_decide; [|lia]. rewrite u32_small; lia.
Qed.

Lemma write_at_wf n buffer from bo n' k :
  wf_dn n -> valid_bo bo -> n.(block_num_) = bo.(block_num) ->
  (0 <= from <= zlen buffer)%Z -> (zlen buffer < 2 ^ 32)%Z ->
  DN.write_at n buffer from bo = Ok (n', k) -> wf_dn n'.
Proof.
  intros Hwf Hbo Heq Hfrom Hbuf. rewrite write_at_spec by done. intros [= <- <-].
  destruct Hwf as (Hlen & Hnum & Hfree), Hbo as (Hb1 & Hb2).
  unfold wf_dn; cbn. dn_consts. split; [|lia].
  rewrite zlen_overwrite; [done|lia|]. rewrite zlen_subseq; lia.
Qed.

Lemma read_at_spec n bo len out :
  wf_dn n -> valid_bo bo -> n.(block_num_) = bo.(block_num) -> (0 <= len < 2 ^ 32)%Z ->
  let k := Z.min len (data_end_index - bo.(bytes_)) in
  DN.read_at n bo len out = Ok (out ++ subseq n.(data_) bo.(bytes_) k, k).
Proof.
  intros (Hlen & Hnum & Hfree) (Hb1 & Hb2) Heq Hr k. unfold DN.read_at.
  rewrite Heq. dn_consts. guards. rewrite (u32_small (8192 - bytes_ bo)) by lia.
  assert ((if bool_decide (len <= 8192 - bytes_ bo)%Z then len else 8192 - bytes_ bo)%Z = k) as ->.
  { subst k. case_bool_decide; lia. }
  guards. done.
Qed.

(** * Headers *)

Lemma make_offset_length a b : zlen (DN.make_offset a b) = 8%Z.
Proof. unfold DN.make_offset. autorewrite with zlen. reflexivity. Qed.

Lemma header_read_back n :
  wf_dn n -> let d := (DN.serialize_data_header n).(data_) in
  zlen d = data_end_index /\
  block_offset.serialized_offset_to_block_num d = Ok n.(block_num_) /\
  block_offset.serialized_offset_to_bytes d = Ok n.(free_bytes_) /\
  subseq d data_begin_index block_data_len = subseq n.(data_) data_begin_index block_data_len.
Proof.
  intros (Hlen & Hnum & Hfree) d. subst d. cbn [DN.serialize_data_header DN.set_data data_].
  set (h := DN.make_offset _ _). pose proof (make_offset_length n.(block_num_) n.(free_bytes_)) as Hh.
  fold h in Hh. dn_consts.
  assert (Hd : zlen (overwrite (data_ n) 0 h) = 8192%Z) by (rewrite zlen_overwrite; lia).
  assert (Hs : subseq (overwrite (data_ n) 0 h) 0 8 = h) by (rewrite <-Hh; apply subseq_overwrite_same; lia).
  assert (H4 : forall i, (0 <= i)%Z -> (i + 4 <= 8)%Z ->
    subseq (overwrite (data_ n) 0 h) i 4 = subseq h i 4).
  { intros i Hi Hi'. rewrite <-Hs. apply list_eq. intros j.
    destruct (decide (Z.of_nat j < 4)%Z); [|by rewrite !lookup_subseq_ge by lia].
    rewrite !lookup_subseq by lia. rewrite Nat.add_0_l. done. }
  unfold block_offset.serialized_offset_to_block_num, block_offset.serialized_offset_to_bytes.
  split; [done|]. rewrite Hd. guards. rewrite !H4 by lia.
  split; [|split].
  - unfold h, DN.make_offset. rewrite subseq_app_l by (rewrite zlen_le_split; done).
    f_equal. apply le_combine_split_small. cbn. lia.
  - unfold h, DN.make_offset. rewrite subseq_app_r by (rewrite zlen_le_split; done).
    rewrite zlen_le_split. rewrite subseq_all by (rewrite zlen_le_split; done).
    f_equal. apply le_combine_split_small. cbn. lia.
  - apply subseq_overwrite_disjoint; lia.
Qed.

(** * Unloading and loading a node *)

(** What a client sees of a node: its number, its free space and its data bytes (the header bytes are
    only meaningful in the stored form). *)
Definition payload (n : data_node) : bytes := subseq n.(data_) data_begin_index block_data_len.

Definition same_node (n1 n2 : data_node) : Prop :=
  n1.(block_num_) = n2.(block_num_) /\ n1.(free_bytes_) = n2.(free_bytes_) /\ payload n1 = payload n2.

(** [block] is an encrypted image of [n] under [key]. *)
Definition encodes_node `{OpenSSL} (key block : bytes) (n : data_node) : Prop :=
  exists d, DecryptMessage key block = Ok d /\ zlen d = data_end_index /\
    block_offset.serialized_offset_to_block_num d = Ok n.(block_num_) /\
    block_offset.serialized_offset_to_bytes d = Ok n.(free_bytes_) /\
    subseq d data_begin_index block_data_len = payload n.

Section NodeIO.
Context {OS : OpenSSL} {OL : @OpenSSLLaws OS} {B : BlockStore} {BL : BlockStoreLaws B}.

Lemma unload_ok n key w : wf_dn n -> zlen key = SYM_KEY_LEN ->
  exists block w', let id := ComputeMessageHash block in
    DN.unload n key w =
      (Ok (DN.deserialize_original_encrypted_data_id (DN.serialize_data_header n) id, id), w') /\
    encodes_node key block n /\ stored_in w w' id block.
Proof.
  intros Hwf Hk. destruct (header_read_back n Hwf) as (Hl & Hnum & Hfree & Hpay).
  set (d := (DN.serialize_data_header n).(data_)) in *.
  assert (Hd : d <> []) by (apply zlen_pos_not_nil; rewrite Hl; done).
  destruct (w_encrypt_ok key d w Hk Hd) as (c & Hc & Hdec & Hcl).
  set (w1 := mk_world _ w.(w_store) (S w.(w_rng)) w.(w_ctx) w.(w_evicted)) in *.
  destruct (sebio_evict_plain c w1) as (w' & He & Hst & _).
  { rewrite Hcl, Hl. reflexivity. }
  exists c, w'. cbn zeta. split; [|split].
  - unfold DN.unload. fold d. run_monad. rewrite Hc. fold w1. by rewrite He.
  - exists d. done.
  - exact Hst.
Qed.

Lemma load_ok n0 n key w block :
  let id := n0.(originalEncryptedDataNodeId_) in
  BlockStoreGet w.(w_store) id = Ok (PDO_SUCCESS, block) -> id = ComputeMessageHash block ->
  encodes_node key block n -> wf_dn n ->
  exists n', DN.load n0 key w = (Ok n', w) /\ same_node n' n /\ wf_dn n' /\
    n'.(originalEncryptedDataNodeId_) = id.
Proof.
  intros id Hg Hid (d & Hdec & Hl & Hnum & Hfree & Hpay) (_ & Hwf).
  exists (mk_dn d id n.(block_num_) n.(free_bytes_)). split; [|split; [|split]].
  - unfold DN.load. run_monad. fold id. rewrite (sebio_fetch_plain id block w Hg Hid). guards.
    unfold DN.decrypt_and_deserialize_data. rewrite Hdec. cbn [result_bind]. by rewrite Hnum, Hfree.
  - done.
  - done.
  - done.
Qed.
End NodeIO.

(** * Properties *)

(** Advancing a block offset is addition on linear addresses: the result is the offset, inside a
    node, of the address [len] bytes further, so advancing in two steps or in one is the same. *)
Theorem advance_block_offset_linear bo len1 len2 :
  valid_bo bo -> (0 <= len1)%Z -> (0 <= len2)%Z -> (len1 + len2 < 2 ^ 32)%Z ->
  (addr bo + len1 + len2 < 2 ^ 32 * block_data_len)%Z ->
  let bo' := DN.advance_block_offset bo (len1 + len2) in
  addr bo' = (addr bo + len1 + len2)%Z /\ canonical_bo bo' /\
  DN.advance_block_offset (DN.advance_block_offset bo len1) len2 = bo'.
Proof.
  intros Hbo H1 H2 Hlen Hb. cbn zeta.
  destruct (advance_spec bo (len1 + len2)) as [Ha Hc]; [done|lia|lia|].
  destruct (advance_spec bo len1) as [Ha1 [Hv1 Hc1]]; [done|lia|lia|].
  destruct (advance_spec (DN.advance_block_offset bo len1) len2) as [Ha2 Hc2]; [done|lia|lia|].
  split; [lia|]. split; [done|]. apply addr_canonical_inj; [done..|]. lia.
Qed.

Lemma advance_block_offset_linear_witness :
  let bo := mk_bo 3 8190 in
  valid_bo bo /\ addr (DN.advance_block_offset bo 20000) = (addr bo + 20000)%Z.
Proof.
  split; [vm_compute; intuition discriminate|].
  apply (advance_block_offset_linear (mk_bo 3 8190) 5 19995);
    [vm_compute; intuition discriminate|lia|lia|lia|vm_compute; reflexivity].
Defined.

(** A write into a data node stores as many bytes of the buffer as fit before the end of the
    node, which are read back from the same offset; every other byte of the node is unchanged, the
    node stays well formed and its free space shrinks to what is left after the write. *)
Theorem write_at_read_at n buffer from bo :
  wf_dn n -> valid_bo bo -> n.(block_num_) = bo.(block_num) ->
  (0 <= from <= zlen buffer)%Z -> (zlen buffer < 2 ^ 32)%Z ->
  let k := Z.min (zlen buffer - from) (data_end_index - bo.(bytes_)) in
  exists n', DN.write_at n buffer from bo = Ok (n', k) /\ wf_dn n' /\
    DN.read_at n' bo k [] = Ok (subseq buffer from k, k) /\
    (forall i len, (0 <= i)%Z -> (i + len <= bo.(bytes_) \/ bo.(bytes_) + k <= i)%Z ->
       subseq n'.(data_) i len = subseq n.(data_) i len) /\
    n'.(free_bytes_) = Z.min n.(free_bytes_) (data_end_index - (bo.(bytes_) + k)).
Proof.
  intros Hwf Hbo Heq Hfrom Hbuf k.
  pose proof (write_at_spec n buffer from bo Hwf Hbo Heq Hfrom Hbuf) as Hw. cbn zeta in Hw. fold k in Hw.
  eexists; split; [exact Hw|].
  pose proof (write_at_wf _ _ _ _ _ _ Hwf Hbo Heq Hfrom Hbuf Hw) as Hwf'. split; [done|].
  destruct Hwf as (Hl & _ & _), Hbo as (Hb1 & Hb2).
  assert (Hk : zlen (subseq buffer from k) = k) by (apply zlen_subseq; dn_consts; lia).
  split; [|split; [|done]].
  - rewrite read_at_spec; [|done..|dn_consts; lia].
    rewrite (Z.min_l k) by lia. cbn [data_ app]. do 2 f_equal.
    rewrite <-Hk at 2. apply subseq_overwrite_same; dn_consts; lia.
  - intros i len Hi Hd. cbn [data_]. apply subseq_overwrite_disjoint; dn_consts; lia.
Qed.

Lemma write_at_read_at_witness :
  wf_dn (DN.new 1) /\
  exists n', DN.write_at (DN.new 1) (bytes_of "hello") 0 (mk_bo 1 8190) = Ok (n', 2%Z) /\
    DN.read_at n' (mk_bo 1 8190) 2 [] = Ok (bytes_of "he", 2%Z).
Proof.
  assert (Hwf : wf_dn (DN.new 1)) by (vm_compute; intuition discriminate).
  split; [done|].
  destruct (write_at_read_at (DN.new 1) (bytes_of "hello") 0 (mk_bo 1 8190)) as (n' & Hw & _ & Hr & _);
    [done|vm_compute; intuition discriminate|done|vm_compute; intuition discriminate|vm_compute; reflexivity|].
  exists n'. exact (conj Hw Hr).
Defined.

(** A data node survives a trip through the untrusted store: unloading a well formed node
    succeeds and returns the hash of the stored block as its id, and loading that id into any node
    object gives a well formed node with the same number, free space and data bytes. *)
Theorem unload_load_roundtrip {OS : OpenSSL} {OL : @OpenSSLLaws OS} {B : BlockStore} {BL : BlockStoreLaws B}
    n n0 key w :
  wf_dn n -> zlen key = SYM_KEY_LEN ->
  exists n1 id w', DN.unload n key w = (Ok (n1, id), w') /\ same_node n1 n /\
    exists n2, DN.load (DN.deserialize_original_encrypted_data_id n0 id) key w' = (Ok n2, w') /\
      same_node n2 n /\ wf_dn n2.
Proof.
  intros Hwf Hk. destruct (unload_ok n key w Hwf Hk) as (block & w' & Hu & Henc & Hst & _).
  eexists _, _, w'. split; [exact Hu|]. split.
  - destruct (header_read_back n Hwf) as (_ & _ & _ & Hpay). by split_and!.
  - destruct (load_ok (DN.deserialize_original_encrypted_data_id n0 (ComputeMessageHash block)) n key w' block)
      as (n2 & Hl & Hs & Hw & _); [done..|]. by exists n2.
Qed.

(** Loading never accepts a substituted block: if a load succeeds, for any answer of the store,
    the block has the requested id as its hash and its plaintext, which passed the tag check under the
    key, holds the data, number and free space of the resulting node. *)
Theorem load_integrity `{OpenSSL, BlockStore} n0 key w n w' :
  DN.load n0 key w = (Ok n, w') ->
  w' = w /\ exists block, BlockStoreGet w.(w_store) n0.(originalEncryptedDataNodeId_) = Ok (PDO_SUCCESS, block) /\
    ComputeMessageHash block = n0.(originalEncryptedDataNodeId_) /\
    DecryptMessage key block = Ok n.(data_) /\
    n.(block_num_) = le_combine (subseq n.(data_) 0 4) /\
    n.(free_bytes_) = le_combine (subseq n.(data_) 4 4).
Proof.
  unfold DN.load. run_monad.
  destruct (sebio_fetch _ _ _) as [[[st b]|] w1] eqn:Hf; [|done].
  case_bool_decide; [done|subst st].
  unfold DN.decrypt_and_deserialize_data. intros [= Hd ->].
  revert Hf. unfold sebio_fetch. run_monad. destruct (BlockStoreGet _ _) as [[r stored]|] eqn:Hg; [|done].
  destruct (decide (r = PDO_SUCCESS)) as [->|]; [|by guards]. guards.
  destruct (decide (n0.(originalEncryptedDataNodeId_) = ComputeMessageHash stored)); [|by guards]. guards.
  intros [= <- <-]. split; [done|]. exists stored. result_inv.
  unfold block_offset.serialized_offset_to_block_num, block_offset.serialized_offset_to_bytes in *.
  result_inv. split_and!; done.
Qed.
