(* ===== verification/FreeSpace.v ===== *)
(** The free space collector: common/state/free_space_collector.{h,cpp}. *)
From S2P Require Import Prelude Crypto BlockStore DataNode.

Record free_space_item_t := mk_fsi { item_bo : block_offset_t; item_length : Z }.

#[global] Instance free_space_item_eq_dec : EqDecision free_space_item_t.
Proof. solve_decision. Defined.

(** [deferred_fsi] is [Some] exactly when [is_fsi_deferred] is set: the code reads the item only under
    the flag and always stores an item when it sets the flag. *)
Record free_space_collector := mk_fsc {
  is_collection_modified : bool;
  deferred_fsi : option free_space_item_t;
  free_space_collection : list free_space_item_t;
  original_block_id_of_collection : bytes;
}.

Module FSC.
Definition empty : free_space_collector := mk_fsc false None [] [].

(** [sizeof(free_space_item_t)]: a packed [block_offset_t] and an [unsigned int]. *)
Definition item_size : Z := 12.

Definition bo_ltb (a b : block_offset_t) : bool :=
  bool_decide (a.(block_num) < b.(block_num))%Z ||
  (bool_decide (a.(block_num) = b.(block_num)) && bool_decide (a.(bytes_) < b.(bytes_))%Z).

Definition are_adjacent (bo1 : block_offset_t) (length1 : Z) (bo2 : block_offset_t) : result bool :=
  throw_if (bool_decide (bo1.(block_num) > bo2.(block_num))%Z ||
            (bool_decide (bo1.(block_num) = bo2.(block_num)) &&
             bool_decide (bo1.(bytes_) > bo2.(bytes_))%Z))
    (RuntimeError "free space collector, adjancency error") ;;?
  Ok (block_offset.eqb (DN.advance_block_offset bo1 length1) bo2).

(** The vector is split at the iterator: [before] (in reverse order, so that [std::prev(it)] is its
    head) and [after], whose head is [*it].  The result is the new vector. *)
Definition insert_free_space_item (before after : list free_space_item_t) (fsi : free_space_item_t) :
  result (list free_space_item_t) :=
  let? '(before, fsi) :=
    match before with
    | [] => Ok (before, fsi)
    | prev :: before' =>
        let? adj := are_adjacent prev.(item_bo) prev.(item_length) fsi.(item_bo) in
        if adj then Ok (before', mk_fsi prev.(item_bo) (u32 (fsi.(item_length) + prev.(item_length))))
        else Ok (before, fsi)
    end in
  let? '(after, fsi) :=
    match after with
    | [] => Ok (after, fsi)
    | it :: after' =>
        let? adj := are_adjacent fsi.(item_bo) fsi.(item_length) it.(item_bo) in
        if adj then Ok (after', mk_fsi fsi.(item_bo) (u32 (fsi.(item_length) + it.(item_length))))
        else Ok (after, fsi)
    end in
  Ok (reverse before ++ fsi :: after).

(** The loop of [do_collect] over the vector, [before] the items already passed.  The flag tells
    whether the loop fell through to the insertion at the end. *)
Fixpoint do_collect_loop (before after : list free_space_item_t) (fsi : free_space_item_t) :
  result (list free_space_item_t * bool) :=
  match after with
  | [] => let? c := insert_free_space_item before [] fsi in Ok (c, true)
  | it :: after' =>
      if bo_ltb fsi.(item_bo) it.(item_bo)
      then let? c := insert_free_space_item before after fsi in Ok (c, false)
      else do_collect_loop (it :: before) after' fsi
  end.

Definition do_collect (f : free_space_collector) (fsi : free_space_item_t) :
  result free_space_collector :=
  let? '(c, at_end) := do_collect_loop [] f.(free_space_collection) fsi in
  Ok (mk_fsc (f.(is_collection_modified) || at_end) f.(deferred_fsi) c
        f.(original_block_id_of_collection)).

Definition set_deferred (f : free_space_collector) (d : option free_space_item_t) :=
  mk_fsc f.(is_collection_modified) d f.(free_space_collection) f.(original_block_id_of_collection).

(** Collect the deferred item, if there is one, and clear the flag. *)
Definition collect_deferred (f : free_space_collector) : result free_space_collector :=
  match f.(deferred_fsi) with
  | Some fsi => let? f := do_collect f fsi in Ok (set_deferred f None)
  | None => Ok f
  end.

Definition collect (f : free_space_collector) (bo : block_offset_t) (length : Z) :
  result free_space_collector :=
  if bool_decide (length = 0%Z) then Ok f
  else let? f := collect_deferred f in
       Ok (set_deferred f (Some (mk_fsi bo length))).

(** First fit over the vector: the new vector and the offset, when an item is long enough. *)
Fixpoint allocate_loop (c : list free_space_item_t) (len : Z) :
  option (list free_space_item_t * block_offset_t) :=
  match c with
  | [] => None
  | it :: c' =>
      if bool_decide (it.(item_length) >= len)%Z then
        if bool_decide (it.(item_length) = len) then Some (c', it.(item_bo))
        else Some (mk_fsi (DN.advance_block_offset it.(item_bo) len) (u32 (it.(item_length) - len)) :: c',
                   it.(item_bo))
      else match allocate_loop c' len with
           | Some (c'', b) => Some (it :: c'', b)
           | None => None
           end
  end.

Definition allocate_from (f : free_space_collector) (len : Z) :
  free_space_collector * option block_offset_t :=
  match allocate_loop f.(free_space_collection) len with
  | Some (c, b) => (mk_fsc true f.(deferred_fsi) c f.(original_block_id_of_collection), Some b)
  | None => (f, None)
  end.

(** [Some] offset when space was found ([true] and [out_bo]), [None] for [false].  The flag that is cleared
    before [do_collect] would stay cleared after an exception, but none is thrown: [allocate_total] below. *)
Definition allocate (f : free_space_collector) (len : Z) :
  result (free_space_collector * option block_offset_t) :=
  match f.(deferred_fsi) with
  | Some fsi =>
      let f := set_deferred f None in
      if bool_decide (fsi.(item_length) = len) then Ok (f, Some fsi.(item_bo))
      else let? f := do_collect f fsi in Ok (allocate_from f len)
  | None => Ok (allocate_from f len)
  end.

Definition collection_modified (f : free_space_collector) : bool := f.(is_collection_modified).

Definition item_bytes (it : free_space_item_t) : bytes :=
  block_offset.to_ByteArray it.(item_bo) ++ le_split 4 it.(item_length).

Definition item_of_bytes (b : bytes) : free_space_item_t :=
  mk_fsi (mk_bo (le_combine (subseq b 0 4)) (le_combine (subseq b 4 4)))
    (le_combine (subseq b 8 4)).

(** The loop of [serialize_in_data_node]: items that do not fit are discarded. *)
Fixpoint serialize_loop (items : list free_space_item_t) (dn : data_node) (bo : block_offset_t) :
  result data_node :=
  match items with
  | [] => Ok dn
  | it :: items =>
      if bool_decide (DN.free_bytes dn < item_size)%Z then Ok dn
      else let? '(dn, _) := DN.write_at dn (item_bytes it) 0 bo in
           serialize_loop items dn (DN.advance_block_offset bo item_size)
  end.

Definition serialize_in_data_node (f : free_space_collector) (out_dn : data_node) :
  result (free_space_collector * data_node) :=
  let? f := collect_deferred f in
  throw_if (bool_decide (DN.free_bytes out_dn ≠ u32 (data_end_index - data_begin_index)))
    (RuntimeError "serialize free space collector, data node not dedicated") ;;?
  let? dn := serialize_loop f.(free_space_collection) out_dn
               (mk_bo (DN.get_block_num out_dn) data_begin_index) in
  Ok (f, dn).

(** The loop of [deserialize_from_data_node], [n] items left to read. *)
Fixpoint deserialize_loop (n : nat) (dn : data_node) (bo : block_offset_t)
    (acc : list free_space_item_t) : result (list free_space_item_t) :=
  match n with
  | O => Ok acc
  | S n =>
      let? '(b, _) := DN.read_at dn bo item_size [] in
      deserialize_loop n dn (DN.advance_block_offset bo item_size) (acc ++ [item_of_bytes b])
  end.

Definition deserialize_from_data_node (f : free_space_collector) (in_dn : data_node) :
  result free_space_collector :=
  let bytes_to_read := u32 (data_end_index - data_begin_index - DN.free_bytes in_dn) in
  throw_if (bool_decide (bytes_to_read mod item_size ≠ 0)%Z)
    (RuntimeError "deserialize free space collector, readable bytes not a multiple of item size") ;;?
  let? c := deserialize_loop (Z.to_nat (bytes_to_read / item_size)) in_dn
              (mk_bo (DN.get_block_num in_dn) data_begin_index) f.(free_space_collection) in
  Ok (mk_fsc f.(is_collection_modified) f.(deferred_fsi) c f.(original_block_id_of_collection)).
End FSC.

(** * No operation of the collector throws *)

Definition bo_le (a b : block_offset_t) : Prop := FSC.bo_ltb b a = false.

Lemma bo_ltb_spec a b : FSC.bo_ltb a b = true <->
  (a.(block_num) < b.(block_num) \/ a.(block_num) = b.(block_num) /\ a.(bytes_) < b.(bytes_))%Z.
Proof. unfold FSC.bo_ltb. by rewrite orb_true_iff, andb_true_iff, !bool_decide_eq_true. Qed.

Lemma are_adjacent_total a n b : bo_le a b -> exists r, FSC.are_adjacent a n b = Ok r.
Proof.
  intros Hle. unfold FSC.are_adjacent. destruct (_ || _) eqn:E; [|by eexists]. exfalso.
  unfold bo_le in Hle. apply not_true_iff_false in Hle. apply Hle, bo_ltb_spec.
  rewrite orb_true_iff, andb_true_iff, !bool_decide_eq_true in E. lia.
Qed.

Lemma bo_lt_le a b : FSC.bo_ltb a b = true -> bo_le a b.
Proof. rewrite bo_ltb_spec. intros H. unfold bo_le. apply not_true_iff_false. rewrite bo_ltb_spec. lia. Qed.

Lemma bo_le_lt a b c : bo_le a b -> FSC.bo_ltb b c = true -> bo_le a c.
Proof.
  unfold bo_le. rewrite !bo_ltb_spec, <-!not_true_iff_false, !bo_ltb_spec. lia.
Qed.

Lemma insert_total before after fsi :
  (forall p, head before = Some p -> bo_le p.(item_bo) fsi.(item_bo)) ->
  (forall p, head after = Some p -> FSC.bo_ltb fsi.(item_bo) p.(item_bo) = true) ->
  exists c, FSC.insert_free_space_item before after fsi = Ok c.
Proof.
  intros Hb Ha. unfold FSC.insert_free_space_item.
  assert (Hs : forall before' fsi', (forall p, head after = Some p -> bo_le fsi'.(item_bo) p.(item_bo)) -> exists c,
    (let? '(a, f) := match after with
      | [] => Ok (after, fsi')
      | it :: after' => let? adj := FSC.are_adjacent fsi'.(item_bo) fsi'.(item_length) it.(item_bo) in
          if adj then Ok (after', mk_fsi fsi'.(item_bo) (u32 (fsi'.(item_length) + it.(item_length)))) else Ok (after, fsi')
      end in Ok (reverse before' ++ f :: a)) = Ok c).
  { intros before' fsi' Hle. destruct after as [|it after']; [by eexists|].
    destruct (are_adjacent_total fsi'.(item_bo) fsi'.(item_length) it.(item_bo) (Hle it eq_refl)) as [[] ->]; by eexists. }
  destruct before as [|prev before'].
  - apply Hs. intros p Hp. by apply bo_lt_le, Ha.
  - destruct (are_adjacent_total prev.(item_bo) prev.(item_length) fsi.(item_bo) (Hb prev eq_refl)) as [[] ->];
      cbn [result_bind]; apply Hs; intros p Hp; [|by apply bo_lt_le, Ha].
    cbn [item_bo]. eapply bo_le_lt; [by apply Hb|by apply Ha].
Qed.

Lemma do_collect_total f fsi : exists f', FSC.do_collect f fsi = Ok f'.
Proof.
  unfold FSC.do_collect.
  assert (Hl : forall after before, (forall p, head before = Some p -> bo_le p.(item_bo) fsi.(item_bo)) ->
    exists r, FSC.do_collect_loop before after fsi = Ok r).
  { induction after as [|it after IH]; intros before Hb; cbn [FSC.do_collect_loop].
    - destruct (insert_total before [] fsi) as [c ->]; [done|done|by eexists].
    - destruct (FSC.bo_ltb fsi.(item_bo) it.(item_bo)) eqn:E.
      + destruct (insert_total before (it :: after) fsi) as [c ->]; [done|by intros p [= <-]|by eexists].
      + apply IH. by intros p [= <-]. }
  destruct (Hl f.(free_space_collection) []) as [[c e] ->]; [done|by eexists].
Qed.

Lemma allocate_total f len : exists r, FSC.allocate f len = Ok r.
Proof.
  unfold FSC.allocate. destruct (deferred_fsi f) as [fsi|]; [|by eexists]. case_bool_decide; [by eexists|].
  destruct (do_collect_total (FSC.set_deferred f None) fsi) as [f' ->]. by eexists.
Qed.

(** * Free addresses *)

(** An item stands for a range of linear addresses. *)
Definition istart (it : free_space_item_t) : Z := addr it.(item_bo).
Definition iend (it : free_space_item_t) : Z := (istart it + it.(item_length))%Z.
Definition in_item (it : free_space_item_t) (z : Z) : Prop := (istart it <= z < iend it)%Z.

(** Lengths are [unsigned int], so the theorems are about stores of less than 4 GB. *)
Definition ADDR_LIMIT : Z := 2 ^ 32.

Definition item_ok (it : free_space_item_t) : Prop :=
  valid_bo it.(item_bo) /\ (0 < it.(item_length))%Z /\ (iend it < ADDR_LIMIT)%Z.

Definition before (a b : free_space_item_t) : Prop := (iend a <= istart b)%Z.
#[global] Instance before_dec a b : Decision (before a b).
Proof. unfold before. apply _. Defined.
Definition disjoint_items (a b : free_space_item_t) : Prop := before a b \/ before b a.

(** The vector holds valid items, in address order, that do not overlap. *)
Definition wf_collection (c : list free_space_item_t) : Prop :=
  Forall item_ok c /\ StronglySorted before c.

Definition covers (c : list free_space_item_t) (z : Z) : Prop := Exists (fun it => in_item it z) c.

Definition wf_fsc (f : free_space_collector) : Prop :=
  wf_collection f.(free_space_collection) /\
  match f.(deferred_fsi) with
  | Some d => item_ok d /\ Forall (disjoint_items d) f.(free_space_collection)
  | None => True
  end.

(** Every address the collector may hand out. *)
Definition free_in (f : free_space_collector) (z : Z) : Prop :=
  covers f.(free_space_collection) z \/
  match f.(deferred_fsi) with Some d => in_item d z | None => False end.

Lemma item_bounds it : item_ok it ->
  (0 <= istart it)%Z /\ (istart it < iend it < 2 ^ 32)%Z /\ (0 < it.(item_length) < 2 ^ 32)%Z.
Proof. intros (Hv & Hl & He). pose proof (addr_nonneg _ Hv). unfold iend, istart, ADDR_LIMIT in *. lia. Qed.

Lemma item_in_space it : item_ok it -> (addr it.(item_bo) + it.(item_length) < 2 ^ 32 * block_data_len)%Z.
Proof. intros Ho. destruct (item_bounds it Ho) as (? & ? & ?). unfold iend, istart in *. dn_consts. lia. Qed.

(** The order of the code on offsets is the order of the addresses. *)
Lemma bo_ltb_addr a b : valid_bo a -> valid_bo b -> (addr a < addr b)%Z -> FSC.bo_ltb a b = true.
Proof.
  destruct a as [an ab], b as [bn bb]. unfold valid_bo, addr, FSC.bo_ltb; cbn. dn_consts. intros.
  destruct (decide (an < bn)%Z); [by guards|]. assert (an = bn) by lia. subst. by guards.
Qed.

Lemma bo_ltb_le a b : valid_bo a -> valid_bo b -> FSC.bo_ltb a b = true -> (addr a <= addr b)%Z.
Proof.
  destruct a as [an ab], b as [bn bb]. unfold valid_bo, addr, FSC.bo_ltb; cbn. dn_consts.
  repeat case_bool_decide; cbn; intros; try done; lia.
Qed.

Lemma are_adjacent_ok a b : item_ok a -> item_ok b -> before a b ->
  exists r, FSC.are_adjacent a.(item_bo) a.(item_length) b.(item_bo) = Ok r /\
    (r = true -> iend a = istart b).
Proof.
  intros Ha Hb Hab. pose proof (item_bounds a Ha) as (Ha1 & Ha2 & Ha3). pose proof (item_in_space a Ha).
  destruct Ha as (Hva & _), Hb as (Hvb & _). unfold FSC.are_adjacent.
  assert (Hlt : FSC.bo_ltb a.(item_bo) b.(item_bo) = true).
  { apply bo_ltb_addr; [done..|]. unfold before, iend, istart in *. lia. }
  unfold FSC.bo_ltb in Hlt.
  assert (bool_decide (block_num (item_bo a) > block_num (item_bo b))%Z
    || bool_decide (block_num (item_bo a) = block_num (item_bo b)) &&
       bool_decide (bytes_ (item_bo a) > bytes_ (item_bo b))%Z = false) as ->.
  { revert Hlt. repeat case_bool_decide; cbn; intros; done || lia. }
  cbn [throw_if result_bind]. eexists; split; [reflexivity|].
  unfold block_offset.eqb. rewrite andb_true_iff, !bool_decide_eq_true. intros [H1 H2].
  destruct (advance_spec a.(item_bo) a.(item_length)) as [Hadv _]; [done|lia|done|].
  unfold iend, istart. rewrite <-Hadv. unfold addr. by rewrite H1, H2.
Qed.

(** Joining two items of the vector that touch. *)
Definition join (a b : free_space_item_t) : free_space_item_t :=
  mk_fsi a.(item_bo) (u32 (b.(item_length) + a.(item_length))).

Lemma join_spec a b : item_ok a -> item_ok b -> iend a = istart b ->
  item_ok (join a b) /\ istart (join a b) = istart a /\ iend (join a b) = iend b.
Proof.
  intros Ha Hb Hab. destruct (item_bounds a Ha) as (? & ? & ?), (item_bounds b Hb) as (? & ? & ?).
  destruct Ha as (Hva & _ & _), Hb as (_ & _ & Hb).
  unfold item_ok, join, iend, istart in *; cbn. rewrite u32_small by lia. split; [split; [done|lia]|lia].
Qed.

Lemma join_comm a b : mk_fsi a.(item_bo) (u32 (a.(item_length) + b.(item_length))) = join a b.
Proof. unfold join. do 2 f_equal. lia. Qed.

Lemma sorted_join l1 a b l2 : iend a = istart b -> item_ok a -> item_ok b ->
  StronglySorted before (l1 ++ a :: b :: l2) -> StronglySorted before (l1 ++ join a b :: l2).
Proof.
  intros Hab Ha Hb. destruct (join_spec a b Ha Hb Hab) as (_ & Hs & He).
  induction l1 as [|x l1 IH]; cbn; intros Hsort; apply StronglySorted_inv in Hsort as [Hsort Hall].
  - apply StronglySorted_inv in Hsort as [Hsort Hall2]. constructor; [done|].
    eapply Forall_impl; [|exact Hall2]. intros y. unfold before. lia.
  - constructor; [by apply IH|]. rewrite Forall_app, !Forall_cons_iff in *.
    destruct Hall as (? & ? & ? & ?). split_and!; [done| |done]. unfold before in *. lia.
Qed.

Lemma covers_app l1 l2 z : covers (l1 ++ l2) z <-> covers l1 z \/ covers l2 z.
Proof. apply Exists_app. Qed.

Lemma covers_cons a l z : covers (a :: l) z <-> in_item a z \/ covers l z.
Proof. apply Exists_cons. Qed.

Lemma in_join a b z : iend a = istart b -> item_ok a -> item_ok b ->
  in_item (join a b) z <-> in_item a z \/ in_item b z.
Proof.
  intros Hab Ha Hb. destruct (join_spec a b Ha Hb Hab) as (_ & Hs & He).
  destruct (item_bounds a Ha) as (? & ? & ?), (item_bounds b Hb) as (? & ? & ?).
  unfold in_item. lia.
Qed.

(** A vector that satisfies the invariant and covers the same addresses as another. *)
Definition represents (c c0 : list free_space_item_t) : Prop :=
  wf_collection c /\ forall z, covers c z <-> covers c0 z.

Lemma try_join l1 a b l2 : wf_collection (l1 ++ a :: b :: l2) ->
  exists r, FSC.are_adjacent a.(item_bo) a.(item_length) b.(item_bo) = Ok r /\
    (r = true -> represents (l1 ++ join a b :: l2) (l1 ++ a :: b :: l2)).
Proof.
  intros [Hok Hsort]. pose proof Hok as Hok2. rewrite Forall_app, !Forall_cons_iff in Hok2.
  destruct Hok2 as (H1 & Ha & Hb & H2).
  assert (Hab : before a b).
  { apply StronglySorted_app in Hsort as (_ & _ & Hs). apply StronglySorted_inv in Hs as [_ Hs].
    by apply Forall_cons_iff in Hs as [? _]. }
  destruct (are_adjacent_ok a b Ha Hb Hab) as (r & Hr & Ht). exists r. split; [done|].
  intros ->. specialize (Ht eq_refl). destruct (join_spec a b Ha Hb Ht) as (Hj & _ & _).
  split; [split|].
  - by rewrite Forall_app, Forall_cons_iff.
  - by apply sorted_join.
  - intros z. rewrite !covers_app, !covers_cons, in_join by done. tauto.
Qed.

(** Inserting an item that lies between [reverse bef] and [aft]. *)
Lemma insert_ok bef aft fsi : wf_collection (reverse bef ++ fsi :: aft) ->
  exists c, FSC.insert_free_space_item bef aft fsi = Ok c /\ represents c (reverse bef ++ fsi :: aft).
Proof.
  intros Hwf. unfold FSC.insert_free_space_item.
  assert (exists bef' fsi',
    match bef with
    | [] => Ok (bef, fsi)
    | prev :: before' =>
        let? adj := FSC.are_adjacent prev.(item_bo) prev.(item_length) fsi.(item_bo) in
        if adj then Ok (before', join prev fsi) else Ok (bef, fsi)
    end = Ok (bef', fsi') /\ represents (reverse bef' ++ fsi' :: aft) (reverse bef ++ fsi :: aft))
    as (bef' & fsi' & E & Hwf' & Hcov').
  { destruct bef as [|p bef']; [by eexists _, _|].
    pose proof Hwf as Hwf0. rewrite reverse_cons, <-app_assoc in Hwf0. cbn [app] in Hwf0.
    destruct (try_join _ p fsi aft Hwf0) as (r & -> & Hr). cbn [result_bind].
    destruct r; [|by eexists _, _]. eexists _, _. split; [done|].
    rewrite reverse_cons, <-app_assoc. by apply Hr. }
  unfold join in E. rewrite E. cbn [result_bind]. clear E Hwf.
  destruct aft as [|it aft']; [by eexists|].
  destruct (try_join _ fsi' it aft' Hwf') as (r & -> & Hr). cbn [result_bind].
  destruct r; [|by eexists]. eexists; split; [done|]. rewrite join_comm.
  destruct (Hr eq_refl) as [Hw Hc]. split; [done|]. intros z. by rewrite Hc.
Qed.

(** [do_collect]'s loop: the items passed end before the new one starts. *)
Lemma do_collect_loop_ok bef aft fsi :
  wf_collection (reverse bef ++ aft) -> item_ok fsi ->
  Forall (fun it => before it fsi) bef -> Forall (disjoint_items fsi) aft ->
  exists c at_end, FSC.do_collect_loop bef aft fsi = Ok (c, at_end) /\
    represents c (reverse bef ++ fsi :: aft) /\
    at_end = forallb (fun it => negb (FSC.bo_ltb fsi.(item_bo) it.(item_bo))) aft.
Proof.
  intros Hwf Hfsi. revert bef Hwf. induction aft as [|it aft IH]; intros bef Hwf Hbef Hdis.
  - destruct (insert_ok bef [] fsi) as (c & Hc & Hr).
    { destruct Hwf as [Hok Hs]. rewrite app_nil_r in *. split; [by apply Forall_app; auto|].
      apply StronglySorted_app. split_and!; [|done|repeat constructor].
      intros x y Hx ->%list_elem_of_singleton. rewrite elem_of_reverse in Hx.
      by eapply Forall_forall in Hbef; [|apply list_elem_of_In]. }
    cbn. rewrite Hc. by eexists _, _.
  - cbn [FSC.do_collect_loop forallb]. apply Forall_cons_iff in Hdis as [Hd Hdis].
    destruct Hwf as [Hok Hs]. pose proof Hok as Hok2. rewrite Forall_app, Forall_cons_iff in Hok2.
    destruct Hok2 as (Hok1 & Hit & Hok2).
    pose proof (item_bounds _ Hit) as (? & ? & ?). pose proof (item_bounds _ Hfsi) as (? & ? & ?).
    destruct (FSC.bo_ltb _ _) eqn:Hlt.
    + apply bo_ltb_le in Hlt; [|apply Hfsi|apply Hit].
      assert (Hb : before fsi it) by (unfold disjoint_items, before, istart, iend in *; lia).
      destruct (insert_ok bef (it :: aft) fsi) as (c & Hc & Hr); [|by rewrite Hc; eexists _, _].
      split; [by rewrite Forall_app, !Forall_cons_iff|].
      apply StronglySorted_app in Hs as (Hs1 & Hs2 & Hs3). apply StronglySorted_app. split_and!.
      * intros x y Hx [->|Hy]%elem_of_cons; [|by apply Hs1].
        rewrite elem_of_reverse in Hx. by eapply Forall_forall in Hbef; [|apply list_elem_of_In].
      * done.
      * constructor; [done|]. apply StronglySorted_inv in Hs3 as [_ Hs3].
        constructor; [done|]. eapply Forall_impl; [|exact Hs3]. intros y. unfold before in *. lia.
    + assert (Hb : before it fsi).
      { destruct Hd as [Hd|]; [|done]. assert (addr fsi.(item_bo) < addr it.(item_bo))%Z
          by (unfold before, istart, iend in *; lia).
        rewrite bo_ltb_addr in Hlt; [done|apply Hfsi|apply Hit|done]. }
      destruct (IH (it :: bef)) as (c & e & Hc & Hr & He);
        [by rewrite reverse_cons, <-app_assoc|by constructor|done|].
      exists c, e. split; [done|]. split; [|done]. destruct Hr as [Hw Hcov]. split; [done|].
      intros z. rewrite Hcov, reverse_cons, <-app_assoc. cbn [app].
      rewrite !covers_app, !covers_cons. tauto.
Qed.

Lemma do_collect_ok f fsi : wf_collection f.(free_space_collection) -> item_ok fsi ->
  Forall (disjoint_items fsi) f.(free_space_collection) ->
  exists c, FSC.do_collect f fsi = Ok (mk_fsc
      (f.(is_collection_modified) ||
       forallb (fun it => negb (FSC.bo_ltb fsi.(item_bo) it.(item_bo))) f.(free_space_collection))
      f.(deferred_fsi) c f.(original_block_id_of_collection)) /\
    represents c (fsi :: f.(free_space_collection)).
Proof.
  intros Hwf Hfsi Hd.
  destruct (do_collect_loop_ok [] f.(free_space_collection) fsi) as (c & e & Hc & Hr & ->);
    [done|done|constructor|done|].
  exists c. unfold FSC.do_collect. by rewrite Hc.
Qed.

Lemma collect_deferred_ok f : wf_fsc f ->
  exists f', FSC.collect_deferred f = Ok f' /\ wf_fsc f' /\ f'.(deferred_fsi) = None /\
    (forall z, free_in f' z <-> free_in f z) /\
    f'.(original_block_id_of_collection) = f.(original_block_id_of_collection).
Proof.
  intros [Hwf Hd]. unfold FSC.collect_deferred, free_in. destruct (deferred_fsi f) as [d|] eqn:Ed.
  - destruct Hd as [Hok Hdis]. destruct (do_collect_ok f d Hwf Hok Hdis) as (c & -> & Hw & Hcov).
    eexists; split; [done|]. cbn. split_and!; [by split|done| |done].
    intros z. rewrite Hcov, covers_cons. tauto.
  - exists f. rewrite Ed. split_and!; [done|split; [done|by rewrite Ed]|done..].
Qed.

Lemma free_in_disjoint f it : wf_fsc f -> item_ok it -> (forall z, in_item it z -> ~ free_in f z) ->
  Forall (disjoint_items it) f.(free_space_collection).
Proof.
  intros [[Hok _] _] Hit Hdis. apply Forall_forall. intros x Hx.
  assert (Hxok : item_ok x) by (eapply Forall_forall in Hok; [exact Hok|done]).
  destruct (item_bounds x Hxok) as (? & ? & ?), (item_bounds it Hit) as (? & ? & ?).
  destruct (decide (before it x)) as [|Hn1]; [by left|]. destruct (decide (before x it)) as [|Hn2]; [by right|].
  exfalso. unfold before in *. apply (Hdis (Z.max (istart it) (istart x))).
  - unfold in_item. lia.
  - left. apply Exists_exists. exists x. split; [done|]. unfold in_item. lia.
Qed.

Lemma covers_bounds c z l : Forall (before l) c -> Forall item_ok c -> covers c z -> (iend l <= z)%Z.
Proof.
  intros Hb Hok Hc. apply Exists_exists in Hc as (x & Hx & Hz).
  eapply Forall_forall in Hb; [|exact Hx]. unfold before, in_item in *. lia.
Qed.

(** First fit takes the start of an item that is long enough and leaves the rest of it. *)
Lemma allocate_loop_ok c len : wf_collection c -> (0 < len)%Z ->
  match FSC.allocate_loop c len with
  | None => Forall (fun it => it.(item_length) < len)%Z c
  | Some (c', b) => wf_collection c' /\ item_ok (mk_fsi b len) /\
      (forall l, Forall (before l) c -> Forall (before l) c') /\
      (forall z, in_item (mk_fsi b len) z -> covers c z) /\
      forall z, covers c' z <-> covers c z /\ ~ in_item (mk_fsi b len) z
  end.
Proof.
  intros [Hok Hs] Hlen. induction c as [|it c IH]; cbn [FSC.allocate_loop]; [constructor|].
  apply Forall_cons_iff in Hok as [Hit Hok]. apply StronglySorted_inv in Hs as [Hs Hall].
  destruct (item_bounds it Hit) as (? & ? & ?). specialize (IH Hok Hs).
  assert (Hc : forall z, covers c z -> (iend it <= z)%Z) by (intros z; by apply covers_bounds).
  case_bool_decide.
  - assert (Hsub : item_ok (mk_fsi (item_bo it) len)).
    { destruct Hit as (? & ? & ?). split; [done|]. unfold iend, istart in *. cbn. lia. }
    case_bool_decide as Heq.
    + subst len. destruct it as [b n]; cbn in *. split_and!; [by split|done|by intros l [??]%Forall_cons_iff| |].
      * intros z. rewrite covers_cons. tauto.
      * intros z. specialize (Hc z). rewrite covers_cons. unfold in_item in *. intuition lia.
    + destruct (advance_spec it.(item_bo) len) as [Ha [Hv _]]; [apply Hit|lia| |].
      { pose proof (item_in_space it Hit). lia. }
      set (r := mk_fsi (DN.advance_block_offset (item_bo it) len) (u32 (item_length it - len))).
      assert (Hr : istart r = (istart it + len)%Z /\ iend r = iend it).
      { unfold r, iend, istart; cbn. rewrite Ha, u32_small; lia. }
      destruct Hr as [Hr1 Hr2]. split_and!; [split|done|..].
      * constructor; [|done]. split; [done|]. unfold r at 1; cbn. rewrite u32_small by lia. destruct Hit. lia.
      * constructor; [done|]. eapply Forall_impl; [|exact Hall]. intros y. unfold before. lia.
      * intros l [Hl ?]%Forall_cons_iff. constructor; [|done]. unfold before in *. lia.
      * intros z. rewrite covers_cons. unfold in_item, iend, istart in *. cbn. lia.
      * intros z. specialize (Hc z). rewrite !covers_cons.
        unfold in_item. rewrite Hr1, Hr2. unfold iend, istart in *. cbn. intuition lia.
  - destruct (FSC.allocate_loop c len) as [[c' b]|]; [|constructor; [lia|done]].
    destruct IH as ([Hok' Hs'] & Hb & Hmon & Hin & Hcov). split_and!; [split|done|..].
    + by constructor.
    + constructor; [done|]. by apply Hmon.
    + intros l [Hl ?]%Forall_cons_iff. constructor; [done|]. by apply Hmon.
    + intros z Hz. rewrite covers_cons. right. by apply Hin.
    + intros z. rewrite !covers_cons, Hcov. split; [|tauto].
      intros [Hz|Hz]; [|tauto]. split; [tauto|]. intros Hz'. apply Hin, Hc in Hz'. unfold in_item in Hz. lia.
Qed.

(** * The stored form of the collection *)

(** A data node has room for this many items, without a remainder. *)
Definition max_items : nat := Z.to_nat (block_data_len / FSC.item_size).

Definition items_image (l : list free_space_item_t) : bytes := concat (map FSC.item_bytes l).

Lemma item_bytes_length it : zlen (FSC.item_bytes it) = FSC.item_size.
Proof. unfold FSC.item_bytes, block_offset.to_ByteArray. autorewrite with zlen. done. Qed.

Lemma items_image_length l : zlen (items_image l) = (FSC.item_size * zlen l)%Z.
Proof.
  unfold items_image. induction l as [|it l IH]; [done|]. cbn [map concat].
  rewrite zlen_app, item_bytes_length, IH, zlen_cons. unfold FSC.item_size. lia.
Qed.

Lemma item_bytes_roundtrip it : item_ok it -> FSC.item_of_bytes (FSC.item_bytes it) = it.
Proof.
  intros Hok. destruct (item_bounds it Hok) as (_ & Hb & Hl). destruct Hok as (Hv & _ & _).
  destruct it as [[n b] len]. unfold iend, istart, valid_bo, addr in *. cbn in *. dn_consts.
  unfold FSC.item_of_bytes, FSC.item_bytes, block_offset.to_ByteArray. cbn [item_bo item_length block_num bytes_].
  rewrite <-app_assoc. rewrite subseq_app_l by (by rewrite zlen_le_split).
  rewrite !subseq_app_r by (rewrite !zlen_le_split; cbn; lia). rewrite !zlen_le_split. cbn [Z.of_nat].
  change (4 - Z.pos (Pos.of_succ_nat 3))%Z with 0%Z. change (8 - Z.pos (Pos.of_succ_nat 3))%Z with 4%Z.
  rewrite subseq_app_l by (by rewrite zlen_le_split).
  rewrite !subseq_app_r by (rewrite !zlen_le_split; cbn; lia). rewrite !zlen_le_split.
  rewrite subseq_all by (by rewrite zlen_le_split).
  rewrite !le_combine_split_small by (cbn; lia). done.
Qed.

(** The offset of the [k]-th item in the node. *)
Definition item_offset (n : data_node) (k : nat) : block_offset_t :=
  mk_bo n.(block_num_) (data_begin_index + FSC.item_size * Z.of_nat k).

Lemma max_items_eq : max_items = 682.
Proof. vm_compute. reflexivity. Qed.

Lemma item_offset_ok n k : wf_dn n -> (k < max_items)%nat ->
  valid_bo (item_offset n k) /\ block_num_ n = (item_offset n k).(block_num) /\
  ((S k < max_items)%nat -> DN.advance_block_offset (item_offset n k) FSC.item_size = item_offset n (S k)).
Proof.
  rewrite max_items_eq. intros (_ & Hnum & _) Hk. unfold item_offset, FSC.item_size in *.
  split; [split; cbn; dn_consts; lia|]. split; [done|]. intros Hk'.
  unfold DN.advance_block_offset. rewrite u32_block_data_len. cbn [block_num bytes_].
  dn_consts. change (12 / 8184)%Z with 0%Z. rewrite Z.add_0_r, Z.mul_0_l, (u32_small (12 - 0)), !u32_small by lia.
  rewrite bool_decide_eq_false_2 by lia. rewrite u32_small by lia. f_equal. lia.
Qed.

Lemma write_item_ok n it k : wf_dn n -> (k < max_items)%nat ->
  n.(free_bytes_) = (block_data_len - FSC.item_size * Z.of_nat k)%Z ->
  exists n1, DN.write_at n (FSC.item_bytes it) 0 (item_offset n k) = Ok (n1, FSC.item_size) /\
    wf_dn n1 /\ n1.(block_num_) = n.(block_num_) /\
    n1.(free_bytes_) = (block_data_len - FSC.item_size * Z.of_nat (S k))%Z /\
    n1.(data_) = overwrite n.(data_) (data_begin_index + FSC.item_size * Z.of_nat k) (FSC.item_bytes it).
Proof.
  intros Hwf Hk Hfree. destruct (item_offset_ok n k Hwf Hk) as (Hv & Hnum & _).
  pose proof (item_bytes_length it) as Hil. rewrite max_items_eq in Hk.
  pose proof (write_at_spec n (FSC.item_bytes it) 0 (item_offset n k) Hwf Hv Hnum
    ltac:(rewrite Hil; done) ltac:(rewrite Hil; done)) as Hw.
  pose proof (write_at_wf _ _ _ _ _ _ Hwf Hv Hnum ltac:(rewrite Hil; done) ltac:(rewrite Hil; done) Hw) as Hwf'.
  revert Hw Hwf'. cbn zeta. rewrite Hil, Z.sub_0_r. unfold item_offset, FSC.item_size in *. cbn [bytes_].
  rewrite (Z.min_l 12), (subseq_all _ 12) by (dn_consts; lia). intros Hw Hwf'.
  eexists; split; [exact Hw|]. split_and!; [done..| |done]. cbn [free_bytes_]. dn_consts. lia.
Qed.

(** After [k] items the node holds their image and the offset is at the next free byte. *)
Lemma serialize_loop_ok items n bo k :
  wf_dn n -> (k <= max_items)%nat -> n.(free_bytes_) = (block_data_len - FSC.item_size * Z.of_nat k)%Z ->
  ((k < max_items)%nat -> bo = item_offset n k) ->
  let kept := take (max_items - k) items in
  exists n', FSC.serialize_loop items n bo = Ok n' /\ wf_dn n' /\ n'.(block_num_) = n.(block_num_) /\
    n'.(free_bytes_) = (n.(free_bytes_) - FSC.item_size * zlen kept)%Z /\
    n'.(data_) = overwrite n.(data_) (data_begin_index + FSC.item_size * Z.of_nat k) (items_image kept).
Proof.
  revert n bo k. induction items as [|it items IH]; intros n bo k Hwf Hk Hfree Hbo kept.
  - exists n. subst kept. rewrite take_nil. unfold items_image. cbn [map concat].
    rewrite overwrite_nil, zlen_nil. split_and!; [done..|lia|done].
  - cbn [FSC.serialize_loop]. unfold DN.free_bytes. pose proof max_items_eq as Hmax.
    destruct (decide (k < max_items)%nat) as [Hlt|Hge].
    2:{ assert (k = max_items) as -> by lia. subst kept. rewrite Nat.sub_diag. cbn [take].
        rewrite Hfree, Hmax, bool_decide_eq_true_2 by done. exists n. unfold items_image. cbn [map concat].
        rewrite overwrite_nil, zlen_nil. split_and!; [done|done|done|lia|done]. }
    rewrite (Hbo Hlt).
    rewrite bool_decide_eq_false_2 by (rewrite Hfree; unfold FSC.item_size; dn_consts; lia).
    destruct (write_item_ok n it k Hwf Hlt Hfree) as (n1 & -> & Hwf1 & Hn1 & Hf1 & Hd1). cbn [result_bind].
    destruct (item_offset_ok n k Hwf Hlt) as (_ & _ & Hadv).
    destruct (IH n1 (DN.advance_block_offset (item_offset n k) FSC.item_size) (S k))
      as (n' & Hs & Hw' & Hn' & Hf' & Hd'); [done|lia|done| |].
    { intros Hlt'. rewrite Hadv by done. unfold item_offset. by rewrite Hn1. }
    exists n'. subst kept. replace (max_items - k) with (S (max_items - S k)) by lia. cbn [take].
    rewrite zlen_cons. split_and!; [done|done|congruence| |].
    * rewrite Hf', Hf1, Hfree. unfold FSC.item_size. lia.
    * rewrite Hd', Hd1. unfold items_image at 2. cbn [map concat].
      fold (items_image (take (max_items - S k) items)).
      rewrite <-overwrite_overwrite_app; rewrite ?item_bytes_length.
      { f_equal. unfold FSC.item_size. lia. }
      { unfold FSC.item_size. dn_consts. lia. }
      { rewrite items_image_length. destruct Hwf as (-> & _). unfold FSC.item_size, zlen.
        rewrite length_take. dn_consts. lia. }
Qed.

Lemma deserialize_loop_ok items n bo k acc :
  wf_dn n -> Forall item_ok items -> (k + length items <= max_items)%nat ->
  ((k < max_items)%nat -> bo = item_offset n k) ->
  subseq n.(data_) (data_begin_index + FSC.item_size * Z.of_nat k) (FSC.item_size * zlen items) =
    items_image items ->
  FSC.deserialize_loop (length items) n bo acc = Ok (acc ++ items).
Proof.
  intros Hwf. revert k bo acc. induction items as [|it items IH]; intros k bo acc Hok Hk Hbo Hd.
  - cbn. by rewrite app_nil_r.
  - cbn [length FSC.deserialize_loop] in *. apply Forall_cons_iff in Hok as [Hit Hok].
    assert (Hlt : (k < max_items)%nat) by lia. rewrite (Hbo Hlt).
    destruct (item_offset_ok n k Hwf Hlt) as (Hv & Hnum & Hadv).
    rewrite read_at_spec by (done || (unfold FSC.item_size; lia)). rewrite max_items_eq in Hlt, Hk.
    unfold items_image in Hd. cbn [map concat] in Hd. fold (items_image items) in Hd.
    rewrite zlen_cons in Hd. set (off := (data_begin_index + FSC.item_size * Z.of_nat k)%Z) in *.
    assert (Hoff : (0 <= off)%Z) by (unfold off, FSC.item_size; dn_consts; lia).
    assert (Hz : (0 <= zlen items)%Z) by auto with pdo.
    assert (H1 : subseq n.(data_) off FSC.item_size = FSC.item_bytes it).
    { rewrite <-(Z.add_0_r off), <-(subseq_subseq _ off (FSC.item_size * (1 + zlen items))) by
        (unfold FSC.item_size; lia).
      rewrite Hd. by rewrite subseq_app_l by (by rewrite item_bytes_length). }
    cbn [item_offset bytes_]. rewrite Z.min_l by (unfold off, FSC.item_size in *; dn_consts; lia).
    cbn [app result_bind]. fold off. rewrite H1, item_bytes_roundtrip by done.
    rewrite (IH (S k)); [by rewrite <-app_assoc|done|rewrite max_items_eq; lia|exact Hadv|].
    replace (data_begin_index + FSC.item_size * Z.of_nat (S k))%Z with (off + FSC.item_size)%Z
      by (unfold off, FSC.item_size; lia).
    rewrite <-(subseq_subseq _ off (FSC.item_size * (1 + zlen items))) by (unfold FSC.item_size; lia).
    rewrite Hd, subseq_app_r by (by rewrite item_bytes_length). rewrite item_bytes_length, Z.sub_diag.
    apply subseq_all. by rewrite items_image_length.
Qed.

(** What an allocation of [len] bytes from [f] promises of its outcome. *)
Definition allocated (f : free_space_collector) (len : Z) (f' : free_space_collector)
    (o : option block_offset_t) : Prop :=
  match o with
  | Some b => item_ok (mk_fsi b len) /\
      (forall z, in_item (mk_fsi b len) z -> free_in f z) /\
      (forall z, free_in f' z <-> free_in f z /\ ~ in_item (mk_fsi b len) z)
  | None => (forall z, free_in f' z <-> free_in f z) /\
      Forall (fun it => it.(item_length) < len)%Z f'.(free_space_collection)
  end.

Lemma allocate_from_ok f f1 len :
  wf_fsc f1 -> (0 < len)%Z -> f1.(deferred_fsi) = None -> (forall z, free_in f1 z <-> free_in f z) ->
  exists f' o, Ok (FSC.allocate_from f1 len) = Ok (f', o) /\ wf_fsc f' /\ allocated f len f' o.
Proof.
  intros [Hw1 _] Hlen Hd1 Hfree. unfold FSC.allocate_from.
  pose proof (allocate_loop_ok f1.(free_space_collection) len Hw1 Hlen) as Hl.
  assert (Hcov1 : forall z, covers f1.(free_space_collection) z <-> free_in f z).
  { intros z. rewrite <-Hfree. unfold free_in. rewrite Hd1. tauto. }
  destruct (FSC.allocate_loop _ len) as [[c b]|]; eexists _, _; (split; [done|]).
  - destruct Hl as (Hwc & Hok & _ & Hin & Hcov). split; [split; [done|by rewrite Hd1]|].
    split_and!; [done|intros z Hz; by apply Hcov1, Hin|].
    intros z. rewrite <-Hcov1. unfold free_in. cbn. rewrite Hd1, Hcov. tauto.
  - split; [split; [done|by rewrite Hd1]|]. split; done.
Qed.

Lemma collect_ok f bo len :
  wf_fsc f -> item_ok (mk_fsi bo len) -> (forall z, in_item (mk_fsi bo len) z -> ~ free_in f z) ->
  exists f', FSC.collect f bo len = Ok f' /\ wf_fsc f' /\
    forall z, free_in f' z <-> free_in f z \/ in_item (mk_fsi bo len) z.
Proof.
  intros Hwf Hit Hdis. unfold FSC.collect. destruct Hit as (Hv & Hlen & Hend). cbn in Hlen. guards.
  destruct (collect_deferred_ok f Hwf) as (f1 & -> & Hwf1 & Hd1 & Hfree & _). cbn [result_bind].
  eexists; split; [done|].
  assert (Hdis1 : Forall (disjoint_items (mk_fsi bo len)) f1.(free_space_collection)).
  { apply free_in_disjoint; [done|done|]. intros z Hz. rewrite Hfree. by apply Hdis. }
  split; [split; [apply Hwf1|done]|]. intros z. rewrite <-Hfree. unfold free_in. cbn. rewrite Hd1. tauto.
Qed.

Lemma allocate_ok f len :
  wf_fsc f -> (0 < len)%Z ->
  exists f' o, FSC.allocate f len = Ok (f', o) /\ wf_fsc f' /\ allocated f len f' o.
Proof.
  intros Hwf Hlen. unfold FSC.allocate.
  pose proof (collect_deferred_ok f Hwf) as Hcd. unfold FSC.collect_deferred in Hcd.
  destruct (deferred_fsi f) as [d|] eqn:Ed; [|by apply allocate_from_ok].
  destruct Hwf as [Hwc Hdef]. rewrite Ed in Hdef. destruct Hdef as [Hdok Hdis].
  case_bool_decide as Heq.
  - subst len. destruct d as [b n]; cbn in *. eexists _, _; split; [done|].
    split; [by split|]. split; [done|]. unfold free_in; cbn. rewrite Ed.
    split; [tauto|]. intros z. split; [|tauto]. intros [Hc|[]]. split; [by left|]. intros Hin.
    apply Exists_exists in Hc as (x & Hx & Hz). eapply Forall_forall in Hdis; [|exact Hx].
    unfold disjoint_items, before, in_item in *. lia.
  - destruct Hcd as (f1 & Hc & Hw1 & Hd1 & Hfree & _).
    unfold FSC.do_collect in *. cbn [free_space_collection FSC.set_deferred] in *.
    destruct (FSC.do_collect_loop [] _ d) as [[c e]|] eqn:El; cbn [result_bind] in *; [|done].
    injection Hc as <-. by apply allocate_from_ok.
Qed.

(** Storing the collection in an empty node; any node with the same content reads back as the part of
    the collection that fitted. *)
Lemma serialize_ok f n :
  wf_fsc f -> wf_dn n -> n.(free_bytes_) = block_data_len ->
  exists f' n', FSC.serialize_in_data_node f n = Ok (f', n') /\ wf_dn n' /\ n'.(block_num_) = n.(block_num_) /\
    (forall z, free_in f' z <-> free_in f z) /\
    wf_collection (take max_items f'.(free_space_collection)) /\
    forall g n2, g.(free_space_collection) = [] -> wf_dn n2 -> same_node n2 n' ->
      FSC.deserialize_from_data_node g n2 = Ok (mk_fsc g.(is_collection_modified) g.(deferred_fsi)
        (take max_items f'.(free_space_collection)) g.(original_block_id_of_collection)).
Proof.
  intros Hwf Hwn Hnf. unfold FSC.serialize_in_data_node.
  destruct (collect_deferred_ok f Hwf) as (f1 & -> & Hwf1 & Hd1 & Hfree & _). cbn [result_bind].
  rewrite u32_block_data_len, bool_decide_eq_false_2 by (unfold DN.free_bytes; congruence). cbn [throw_if result_bind].
  destruct (serialize_loop_ok f1.(free_space_collection) n
    (mk_bo (DN.get_block_num n) data_begin_index) 0 Hwn) as (n' & -> & Hwn' & Hn' & Hf' & Hd');
    [apply Nat.le_0_l|rewrite Hnf; lia|done|]. cbn [result_bind]. rewrite Nat.sub_0_r in *.
  set (kept := take max_items f1.(free_space_collection)) in *.
  assert (Hlk : (length kept <= 682)%nat) by (unfold kept; rewrite length_take, max_items_eq; lia).
  assert (Hzk : (0 <= zlen kept <= 682)%Z) by (unfold zlen; lia).
  destruct Hwf1 as [[Hok Hs] _].
  assert (Hwk : wf_collection kept).
  { split; [by apply Forall_take|]. unfold kept. rewrite <-(take_drop max_items) in Hs.
    by apply StronglySorted_app in Hs as (_ & ? & _). }
  exists f1, n'. split; [done|]. split; [done|]. split; [done|]. split; [done|]. split; [done|].
  intros g n2 Hg Hwn2 (Hsb & Hsf & Hsp). unfold FSC.deserialize_from_data_node, DN.free_bytes.
  rewrite Hg, Hsf, Hf', Hnf. unfold FSC.item_size. change (data_end_index - data_begin_index)%Z with block_data_len.
  rewrite u32_small by (dn_consts; lia).
  replace (block_data_len - (block_data_len - 12 * zlen kept))%Z with (zlen kept * 12)%Z by lia.
  rewrite Z_mod_mult, Z.div_mul by lia. guards. unfold zlen at 1. rewrite Nat2Z.id.
  rewrite (deserialize_loop_ok kept n2 _ 0); [done|done|apply Hwk|by rewrite max_items_eq| |].
  - intros _. unfold item_offset, DN.get_block_num. done.
  - assert (Hp : forall x, wf_dn x -> subseq x.(data_) (data_begin_index + FSC.item_size * Z.of_nat 0)
      (FSC.item_size * zlen kept) = subseq (payload x) 0 (FSC.item_size * zlen kept)).
    { intros x (Hx & _). unfold payload. rewrite subseq_subseq; [f_equal|..]; unfold FSC.item_size; dn_consts; lia. }
    rewrite Hp, Hsp, <-Hp by done. rewrite Hd', <-items_image_length. apply subseq_overwrite_same; [by vm_compute|].
    rewrite items_image_length. destruct Hwn as (-> & _). unfold FSC.item_size. dn_consts. lia.
Qed.

(** * Properties *)

(** Collecting a range of addresses that is not already free never fails, keeps the collector
    well formed (valid items in address order without overlap) and makes exactly that range free in
    addition to what was free, whether it is merged with its neighbours or not. *)
Theorem collect_correct f bo len :
  wf_fsc f -> item_ok (mk_fsi bo len) -> (forall z, in_item (mk_fsi bo len) z -> ~ free_in f z) ->
  exists f', FSC.collect f bo len = Ok f' /\ wf_fsc f' /\
    forall z, free_in f' z <-> free_in f z \/ in_item (mk_fsi bo len) z.
Proof. intros Hwf Hit Hdis. by apply collect_ok. Qed.

Lemma collect_correct_witness :
  let f := mk_fsc false None [mk_fsi (mk_bo 0 8) 32; mk_fsi (mk_bo 0 72) 20] [] in
  exists f', FSC.collect f (mk_bo 0 40) 32 = Ok f' /\ wf_fsc f'.
Proof.
  assert (Hwf : wf_fsc (mk_fsc false None [mk_fsi (mk_bo 0 8) 32; mk_fsi (mk_bo 0 72) 20] [])).
  { split; [split|done].
    - repeat constructor; vm_compute; intuition discriminate.
    - repeat constructor; vm_compute; intuition discriminate. }
  destruct (collect_correct (mk_fsc false None [mk_fsi (mk_bo 0 8) 32; mk_fsi (mk_bo 0 72) 20] [])
    (mk_bo 0 40) 32 Hwf) as (f' & Hc & Hw & _); [vm_compute; intuition discriminate| |by exists f'].
  intros z. unfold free_in, covers, in_item, iend, istart, addr. cbn. dn_consts.
  intros Hz [Hc|[]]. rewrite !Exists_cons in Hc. destruct Hc as [Hc|[Hc|Hc]]; cbn in *; [lia|lia|].
  by apply Exists_nil in Hc.
Defined.

(** Allocation returns a range of exactly the requested length all of which was free, and removes
    exactly that range from the free addresses; when it reports no space, the free addresses are
    unchanged and no collected item is long enough.  It never fails. *)
Theorem allocate_correct f len :
  wf_fsc f -> (0 < len)%Z ->
  exists f' o, FSC.allocate f len = Ok (f', o) /\ wf_fsc f' /\ allocated f len f' o.
Proof. apply allocate_ok. Qed.

Lemma allocate_correct_witness :
  let f := mk_fsc false (Some (mk_fsi (mk_bo 0 72) 20)) [mk_fsi (mk_bo 0 8) 32] [] in
  wf_fsc f /\ exists f' o, FSC.allocate f 10 = Ok (f', o) /\ wf_fsc f'.
Proof.
  assert (Hwf : wf_fsc (mk_fsc false (Some (mk_fsi (mk_bo 0 72) 20)) [mk_fsi (mk_bo 0 8) 32] [])).
  { split; [split|split].
    - repeat constructor; vm_compute; intuition discriminate.
    - repeat constructor.
    - vm_compute; intuition discriminate.
    - constructor; [right; vm_compute; discriminate|constructor]. }
  split; [exact Hwf|].
  destruct (allocate_correct _ 10 Hwf ltac:(lia)) as (f' & o & Ha & Hw & _). exists f', o. exact (conj Ha Hw).
Defined.

(** Storing the collection in a fresh data node and reading it back gives the items back, the
    deferred one included; of a collection with more than 682 items the first 682 are kept, so the
    restored collector never reports an address free that was not. *)
Theorem fsc_serialize_roundtrip f num :
  wf_fsc f -> (0 <= num < 2 ^ 32)%Z ->
  exists f' n' g, FSC.serialize_in_data_node f (DN.new num) = Ok (f', n') /\ wf_dn n' /\
    (forall z, free_in f' z <-> free_in f z) /\
    FSC.deserialize_from_data_node FSC.empty n' = Ok g /\ wf_fsc g /\
    g.(free_space_collection) = take max_items f'.(free_space_collection) /\
    (forall z, free_in g z -> free_in f z).
Proof.
  intros Hwf Hnum. assert (Hwn : wf_dn (DN.new num)) by (by apply new_wf).
  destruct (serialize_ok f (DN.new num) Hwf Hwn eq_refl) as (f' & n' & Hs & Hwn' & _ & Hfree & Hk & Hd).
  exists f', n', (mk_fsc false None (take max_items f'.(free_space_collection)) []).
  split; [done|]. split; [done|]. split; [done|]. split; [by apply (Hd FSC.empty)|]. split; [done|]. split; [done|].
  intros z [Hz|[]]. apply Hfree. left. cbn in Hz. unfold covers in *.
  rewrite <-(take_drop max_items f'.(free_space_collection)). apply Exists_app. by left.
Qed.

Lemma fsc_serialize_roundtrip_witness :
  let f := mk_fsc true (Some (mk_fsi (mk_bo 0 72) 20)) [mk_fsi (mk_bo 0 8) 32] [] in
  exists f' n' g, FSC.serialize_in_data_node f (DN.new 3) = Ok (f', n') /\
    FSC.deserialize_from_data_node FSC.empty n' = Ok g /\
    g.(free_space_collection) = take max_items f'.(free_space_collection).
Proof.
  assert (Hwf : wf_fsc (mk_fsc true (Some (mk_fsi (mk_bo 0 72) 20)) [mk_fsi (mk_bo 0 8) 32] [])).
  { split; [split|split].
    - repeat constructor; vm_compute; intuition discriminate.
    - repeat constructor.
    - vm_compute; intuition discriminate.
    - constructor; [right; vm_compute; discriminate|constructor]. }
  destruct (fsc_serialize_roundtrip _ 3 Hwf ltac:(lia)) as (f' & n' & g & Hs & _ & _ & Hd & _ & Hc & _).
  exists f', n', g. exact (conj Hs (conj Hd Hc)).
Defined.

(** The modified flag does not record every change of the collection: merging or inserting an
    item sets it only when no collected item lies after the new one.  A store opened from its root
    block whose only change is such a collection is finalized with the old collection, and the freed
    space is lost. *)
Theorem do_collect_flag f fsi :
  wf_collection f.(free_space_collection) -> item_ok fsi ->
  Forall (disjoint_items fsi) f.(free_space_collection) ->
  exists f', FSC.do_collect f fsi = Ok f' /\
    (FSC.collection_modified f' = true <-> FSC.collection_modified f = true \/
       Forall (fun it => FSC.bo_ltb fsi.(item_bo) it.(item_bo) = false) f.(free_space_collection)) /\
    (forall z, in_item fsi z -> covers f'.(free_space_collection) z /\ ~ covers f.(free_space_collection) z).
Proof.
  intros Hwf Hok Hdis. destruct (do_collect_ok f fsi Hwf Hok Hdis) as (c & Hc & Hw & Hcov).
  eexists; split; [exact Hc|]. unfold FSC.collection_modified. cbn [is_collection_modified free_space_collection].
  split.
  - rewrite orb_true_iff, forallb_forall, Forall_forall. setoid_rewrite negb_true_iff. done.
  - intros z Hz. split; [apply Hcov, covers_cons; by left|]. intros Hc'.
    apply Exists_exists in Hc' as (x & Hx & Hz'). eapply Forall_forall in Hdis; [|exact Hx].
    unfold disjoint_items, before, in_item in *. lia.
Qed.

Lemma do_collect_flag_witness :
  let f := mk_fsc false None [mk_fsi (mk_bo 0 72) 20] [] in
  exists f', FSC.do_collect f (mk_fsi (mk_bo 0 8) 32) = Ok f' /\
    FSC.collection_modified f' = false /\ covers f'.(free_space_collection) 0.
Proof.
  destruct (do_collect_flag (mk_fsc false None [mk_fsi (mk_bo 0 72) 20] []) (mk_fsi (mk_bo 0 8) 32))
    as (f' & Hc & Hm & Hcov).
  - split; repeat constructor; vm_compute; intuition discriminate.
  - vm_compute; intuition discriminate.
  - constructor; [left; vm_compute; discriminate|constructor].
  - exists f'. split; [exact Hc|]. split.
    + apply not_true_iff_false. rewrite Hm. intros [?|Hf]; [done|]. by apply Forall_cons_iff in Hf as [? _].
    + apply (Hcov 0%Z). vm_compute. intuition discriminate.
Defined.
