(* ===== verification/StateNode.v ===== *)
(** The root block of a key value store: common/state/StateBlock.cpp, StateUtils.{h,cpp} and
    block_warehouse.{h,cpp}. *)
From S2P Require Import Prelude Crypto BlockStore Codec Json JsonSpec.

(** * StateBlock.cpp *)

Definition STATE_BLOCK_ID_LENGTH : Z := SHA256_DIGEST_LENGTH.

Definition StateBlockIdArray_To_ByteArray (array : list bytes) (outB : bytes) : bytes :=
  fold_left (fun out id => out ++ id) array outB.

(** Fuel is the length of the buffer: every step consumes [idSize] bytes.  A last partial id would
    be read out of bounds. *)
Fixpoint ByteArrayToStateBlockIdArray_loop (fuel : nat) (b : bytes) (idSize : Z) (outA : list bytes) :
  result (list bytes) :=
  match b, fuel with
  | [], _ => Ok outA
  | _, O => Err OutOfFuel
  | _, S fuel =>
      throw_if (bool_decide (zlen b < idSize)%Z) (UndefinedBehaviour "read past the buffer") ;;?
      ByteArrayToStateBlockIdArray_loop fuel (drop (Z.to_nat idSize) b) idSize
        (outA ++ [subseq b 0 idSize])
  end.

Definition ByteArrayToStateBlockIdArray (b : bytes) (idSize : Z) (outA : list bytes) :
  result (list bytes) := ByteArrayToStateBlockIdArray_loop (length b) b idSize outA.

(** * StateUtils.cpp *)

Record StateNode := mk_node {
  blockId_ : bytes;
  stateBlock_ : bytes;
  ChildrenArray_ : list bytes;
  hasParent_ : bool;
}.

Module SN.
Definition new : StateNode := mk_node [] [] [] false.

Definition SetHasParent (n : StateNode) : StateNode :=
  mk_node n.(blockId_) n.(stateBlock_) n.(ChildrenArray_) true.

Definition AppendChildId (n : StateNode) (childId : bytes) : StateNode :=
  mk_node n.(blockId_) n.(stateBlock_) (n.(ChildrenArray_) ++ [childId]) n.(hasParent_).

(** The parent and the child, which is marked. *)
Definition AppendChild (n child : StateNode) : StateNode * StateNode :=
  (AppendChildId n child.(blockId_), SetHasParent child).

Definition GetChildrenBlocks (n : StateNode) : list bytes := n.(ChildrenArray_).

Definition ClearChildren (n : StateNode) : StateNode :=
  mk_node n.(blockId_) n.(stateBlock_) [] n.(hasParent_).

Section Blockify.
Context `{OpenSSL, LibC}.

(** The running hash over the ids, in order. *)
Definition cumulative_hash (ids : list bytes) (h : bytes) : bytes :=
  fold_left (fun h id => ComputeMessageHash (h ++ id)) ids h.

Definition root_block_json (ids : list bytes) (auth : bytes) : json :=
  JObject [ (bytes_of "BlockIds", JArray (map (fun id => JString (ByteArrayToBase64EncodedString id)) ids));
            (bytes_of "BlockIdsAuth", JString (ByteArrayToBase64EncodedString auth)) ].

Definition BlockifyChildren (n : StateNode) (state_encryption_key : bytes) : result StateNode :=
  let ids := n.(ChildrenArray_) in
  let auth := ComputeMessageHMAC state_encryption_key (cumulative_hash ids []) in
  let? b := of_option (json_serialize (root_block_json ids auth))
              (RuntimeError "json root block serialization failed") in
  Ok (mk_node n.(blockId_) (b ++ [Byte.x00]) [] n.(hasParent_)).

(** The loop over the ids: [i] indexes the JSON array, and [ChildrenArray_[i]] is hashed. *)
Fixpoint unblockify_loop (l : list json) (i : Z) (children : list bytes) (h : bytes) :
  result (list bytes * bytes) :=
  match l with
  | [] => Ok (children, h)
  | j :: l =>
      let? s := match j with JString s => Ok s
                | _ => Err (UndefinedBehaviour "string from a null pointer") end in
      let children := children ++ [Base64EncodedStringToByteArray s] in
      let? child := vec_get children i in
      unblockify_loop l (i + 1) children (ComputeMessageHash (h ++ child))
  end.

Definition UnBlockifyChildren (n : StateNode) (state_encryption_key : bytes) : result StateNode :=
  throw_if (bool_decide (n.(stateBlock_) = []))
    (ValueError "Can't unblockify state node, block is empty") ;;?
  let? j := of_option (json_parse (c_str (ByteArrayToString n.(stateBlock_))))
              (RuntimeError "Failed to parse json root block value") in
  throw_if (match j with JObject _ => false | _ => true end)
    (ValueError "Failed on retrieval of json root block object value") ;;?
  let? ids := of_option (json_object_get_array j (bytes_of "BlockIds"))
                (ValueError "Failed to parse the block ids, expecting array") in
  let? '(children, h) := unblockify_loop ids 0 n.(ChildrenArray_) [] in
  let? auth := of_option (json_object_get_string j (bytes_of "BlockIdsAuth"))
                 (ValueError "Failed to get BlockIdsAuth") in
  throw_if (bool_decide (Base64EncodedStringToByteArray auth ≠
                         ComputeMessageHMAC state_encryption_key h))
    (RuntimeError "invalid block-ids authenticator") ;;?
  Ok (mk_node n.(blockId_) n.(stateBlock_) children n.(hasParent_)).
End Blockify.
End SN.

(** * block_warehouse.cpp *)

Record block_warehouse := mk_bw { blockIds_ : list bytes; state_encryption_key_ : bytes }.

Module BW.
Definition new (key : bytes) : block_warehouse := mk_bw [] key.

Definition serialize_block_ids `{OpenSSL, LibC} (w : block_warehouse) (node : StateNode) :
  result StateNode :=
  let node := fold_left SN.AppendChildId w.(blockIds_) (SN.ClearChildren node) in
  SN.BlockifyChildren node w.(state_encryption_key_).

Definition deserialize_block_ids `{OpenSSL, LibC} (w : block_warehouse) (node : StateNode) :
  result (block_warehouse * StateNode) :=
  let? node := SN.UnBlockifyChildren node w.(state_encryption_key_) in
  Ok (mk_bw (SN.GetChildrenBlocks node) w.(state_encryption_key_), node).

Definition update_datablock_id (w : block_warehouse) (data_block_num : Z) (newId : bytes) :
  result block_warehouse :=
  throw_if (bool_decide (zlen newId ≠ STATE_BLOCK_ID_LENGTH)) (RuntimeError "bad block id") ;;?
  let? ids := vec_set w.(blockIds_) data_block_num newId in
  Ok (mk_bw ids w.(state_encryption_key_)).

Definition add_block_id (w : block_warehouse) (id : bytes) : result block_warehouse :=
  throw_if (bool_decide (zlen id ≠ STATE_BLOCK_ID_LENGTH)) (RuntimeError "bad block id") ;;?
  Ok (mk_bw (w.(blockIds_) ++ [id]) w.(state_encryption_key_)).

Definition empty_id : bytes := replicate (Z.to_nat STATE_BLOCK_ID_LENGTH) Byte.x00.

(** The loop erases in place; [i] advances past the ids that stay. *)
Fixpoint remove_empty_loop (ids : list bytes) : list bytes :=
  match ids with
  | [] => []
  | id :: ids => if bool_decide (id = empty_id) then remove_empty_loop ids
                 else id :: remove_empty_loop ids
  end.

Definition remove_empty_block_ids (w : block_warehouse) : block_warehouse :=
  mk_bw (remove_empty_loop w.(blockIds_)) w.(state_encryption_key_).

Definition remove_block_id_from_datablock_num (w : block_warehouse) (data_block_num : Z) :
  result block_warehouse :=
  let? ids := vec_erase w.(blockIds_) data_block_num in
  Ok (mk_bw ids w.(state_encryption_key_)).

Definition get_datablock_id_from_datablock_num (w : block_warehouse) (data_block_num : Z) :
  result bytes := vec_get w.(blockIds_) data_block_num.

Definition get_root_block_num : Z := 0.

Definition get_last_block_num (w : block_warehouse) : Z := u32 (zlen w.(blockIds_) - 1).
End BW.

(** * The root block *)

Lemma root_block_wf `{OpenSSL} ids auth : wf_json (SN.root_block_json ids auth) = true.
Proof.
  unfold SN.root_block_json. cbn [wf_json forallb snd]. rewrite !andb_true_iff. split_and!; try (vm_compute; reflexivity).
  apply forallb_forall. intros j Hj. apply in_map_iff in Hj as (id & <- & _). done.
Qed.

Lemma root_block_depth `{OpenSSL} ids auth : json_depth (SN.root_block_json ids auth) = 2%Z.
Proof.
  unfold SN.root_block_json. cbn. rewrite map_map. cbn.
  assert (fold_right Z.max 0%Z (map (fun _ : bytes => 0%Z) ids) = 0%Z) as -> by (induction ids; cbn; lia). done.
Qed.

Lemma root_block_fields `{OpenSSL} ids auth :
  json_object_get_array (SN.root_block_json ids auth) (bytes_of "BlockIds") =
    Some (map (fun id => JString (ByteArrayToBase64EncodedString id)) ids) /\
  json_object_get_string (SN.root_block_json ids auth) (bytes_of "BlockIdsAuth") =
    Some (ByteArrayToBase64EncodedString auth).
Proof.
  unfold SN.root_block_json, json_object_get_array, json_object_get_string.
  rewrite json_object_get_head, json_object_get_tail, json_object_get_head by (vm_compute; discriminate).
  done.
Qed.

(** The loop decodes the ids and hashes each of them, in order. *)
Lemma unblockify_loop_ok `{OpenSSL} ids done h :
  SN.unblockify_loop (map (fun id => JString (ByteArrayToBase64EncodedString id)) ids) (zlen done) done h =
  Ok (done ++ ids, SN.cumulative_hash ids h).
Proof.
  revert done h. induction ids as [|id ids IH]; intros dn h; cbn; [by rewrite app_nil_r|].
  unfold Base64EncodedStringToByteArray, ByteArrayToBase64EncodedString in *.
  rewrite base64_roundtrip_bytes. unfold vec_get. pose proof (zlen_nonneg dn). guards.
  unfold zlen at 1. rewrite Nat2Z.id, lookup_app_r, Nat.sub_diag by lia. cbn [of_option lookup list_lookup result_bind].
  replace (zlen dn + 1)%Z with (zlen (dn ++ [id])) by (rewrite zlen_app; done).
  rewrite IH. by rewrite <-app_assoc.
Qed.

Lemma unblockify_loop_inv `{OpenSSL} l dn h children h' :
  SN.unblockify_loop l (zlen dn) dn h = Ok (children, h') ->
  exists ids, l = map JString ids /\ children = dn ++ map base64_decode ids /\
    h' = SN.cumulative_hash (map base64_decode ids) h.
Proof.
  revert dn h. induction l as [|j l IH]; intros dn h; cbn [SN.unblockify_loop].
  - intros [= <- <-]. exists []. by rewrite app_nil_r.
  - destruct j as [| | |s| |]; cbn [result_bind]; try done.
    unfold vec_get. pose proof (zlen_nonneg dn). guards.
    unfold zlen at 1. rewrite Nat2Z.id, lookup_app_r, Nat.sub_diag by lia.
    cbn [of_option lookup list_lookup result_bind].
    replace (zlen dn + 1)%Z with (zlen (dn ++ [Base64EncodedStringToByteArray s])) by (rewrite zlen_app; done).
    intros Hl. apply IH in Hl as (ids & -> & -> & ->). exists (s :: ids). by rewrite <-app_assoc.
Qed.

Lemma blockify_ok `{OpenSSL, LibCLaws} ids key bid sb hp :
  exists b, SN.BlockifyChildren (mk_node bid sb ids hp) key = Ok (mk_node bid (b ++ [Byte.x00]) [] hp) /\
    forall bid' hp', SN.UnBlockifyChildren (mk_node bid' (b ++ [Byte.x00]) [] hp') key =
      Ok (mk_node bid' (b ++ [Byte.x00]) ids hp').
Proof.
  set (auth := ComputeMessageHMAC key (SN.cumulative_hash ids [])).
  pose proof (root_block_wf ids auth) as Hw. pose proof (root_block_depth ids auth) as Hd.
  pose proof (serialized_parses false _ Hw ltac:(rewrite Hd; done)) as Hp. pose proof (serialize_no_nul false _ 0 Hw) as Hn.
  set (b := json_serialize_to_buffer_r false 0 (SN.root_block_json ids auth)) in *.
  destruct (root_block_fields ids auth) as [Hf1 Hf2].
  exists b. split; [unfold SN.BlockifyChildren; cbn [ChildrenArray_]; fold auth; done|].
  intros bid' hp'. unfold SN.UnBlockifyChildren. cbn [stateBlock_ ChildrenArray_].
  rewrite bool_decide_eq_false_2 by (by destruct b). cbn [throw_if result_bind].
  unfold ByteArrayToString. rewrite map_id, c_str_no_nul by done. rewrite Hp. cbn [of_option result_bind].
  rewrite Hf1, Hf2. cbn [SN.root_block_json throw_if of_option result_bind].
  change 0%Z with (zlen (@nil bytes)). rewrite unblockify_loop_ok. cbn [result_bind app].
  unfold Base64EncodedStringToByteArray, ByteArrayToBase64EncodedString.
  rewrite base64_roundtrip_bytes. subst auth. rewrite bool_decide_eq_false_2 by (intros Hne; by apply Hne). done.
Qed.

Lemma append_ids ids n : fold_left SN.AppendChildId ids n =
  mk_node n.(blockId_) n.(stateBlock_) (n.(ChildrenArray_) ++ ids) n.(hasParent_).
Proof.
  revert n. induction ids as [|id ids IH]; intros n; cbn; [destruct n; cbn; by rewrite app_nil_r|].
  rewrite IH. cbn. by rewrite <-app_assoc.
Qed.

Lemma block_ids_ok `{OpenSSL, LibCLaws} w node :
  exists b, BW.serialize_block_ids w node =
      Ok (mk_node node.(blockId_) (b ++ [Byte.x00]) [] node.(hasParent_)) /\
    forall w0 id hp, w0.(state_encryption_key_) = w.(state_encryption_key_) ->
      BW.deserialize_block_ids w0 (mk_node id (b ++ [Byte.x00]) [] hp) =
      Ok (w, mk_node id (b ++ [Byte.x00]) w.(blockIds_) hp).
Proof.
  destruct (blockify_ok w.(blockIds_) w.(state_encryption_key_) node.(blockId_) node.(stateBlock_) node.(hasParent_))
    as (b & Hb & Hu).
  exists b. split.
  - unfold BW.serialize_block_ids. rewrite append_ids.
    cbn [SN.ClearChildren blockId_ stateBlock_ ChildrenArray_ hasParent_ app]. exact Hb.
  - intros w0 id hp Hk. unfold BW.deserialize_block_ids. rewrite Hk, Hu. by destruct w.
Qed.

(** * Properties *)

(** The root block round trips: the block ids of a warehouse, written to a root block with their
    authenticator, are read back in the same order by any warehouse with the same key. *)
Theorem block_ids_roundtrip `{OpenSSL, LibCLaws} w node w0 id hp :
  w0.(state_encryption_key_) = w.(state_encryption_key_) ->
  exists n', BW.serialize_block_ids w node = Ok n' /\
    BW.deserialize_block_ids w0 (mk_node id n'.(stateBlock_) [] hp) =
      Ok (w, mk_node id n'.(stateBlock_) w.(blockIds_) hp).
Proof.
  intros Hk. destruct (block_ids_ok w node) as (b & Hs & Hd). eexists; split; [exact Hs|]. by apply Hd.
Qed.

(** Block ids are only accepted with their authenticator: if reading a root block succeeds, for
    any content of the block and any JSON library, the ids taken from it are the decoded entries of the
    array BlockIds, and BlockIdsAuth decodes to the HMAC, under the store's key, of the running hash
    over exactly these ids. *)
Theorem block_ids_authenticated `{OpenSSL, LibC} w node w' n' :
  node.(ChildrenArray_) = [] -> BW.deserialize_block_ids w node = Ok (w', n') ->
  w'.(state_encryption_key_) = w.(state_encryption_key_) /\
  exists j ids auth, json_parse (c_str node.(stateBlock_)) = Some j /\
    json_object_get_array j (bytes_of "BlockIds") = Some (map JString ids) /\
    json_object_get_string j (bytes_of "BlockIdsAuth") = Some auth /\
    w'.(blockIds_) = map base64_decode ids /\
    base64_decode auth =
      ComputeMessageHMAC w.(state_encryption_key_) (SN.cumulative_hash w'.(blockIds_) []).
Proof.
  intros Hempty Hd. unfold BW.deserialize_block_ids in Hd.
  destruct (SN.UnBlockifyChildren _ _) as [n1|] eqn:Hu; [|done]. injection Hd as <- <-.
  split; [done|]. unfold SN.UnBlockifyChildren, ByteArrayToString in Hu. rewrite map_id, Hempty in Hu.
  destruct (throw_if _ _); cbn [result_bind] in Hu; [|done].
  destruct (json_parse _) as [j|] eqn:Hp; cbn [of_option result_bind] in Hu; [|done].
  destruct (throw_if _ _); cbn [result_bind] in Hu; [|done].
  destruct (json_object_get_array _ _) as [l|] eqn:Ha; cbn [of_option result_bind] in Hu; [|done].
  destruct (SN.unblockify_loop _ _ _ _) as [[children h]|] eqn:Hl; cbn [result_bind] in Hu; [|done].
  destruct (json_object_get_string _ _) as [auth|] eqn:Hs; cbn [of_option result_bind] in Hu; [|done].
  case_bool_decide as Hauth; cbn [throw_if result_bind] in Hu; [done|]. injection Hu as <-.
  apply (unblockify_loop_inv l [] []) in Hl as (ids & -> & -> & ->).
  exists j, ids, auth. by rewrite app_nil_l in *.
Qed.
