(* ===== verification/Cache.v ===== *)
(** The block cache: common/state/cache.{h,cpp}.  Its methods also use the block warehouse and the
    block store, so they run on the whole state [dn_io] of a data_node_io object. *)
From S2P Require Import Prelude Crypto BlockStore DataNode FreeSpace Json JsonSpec StateNode.

Definition CACHE_SIZE : Z := Z.shiftl 1 22.
Definition BLOCK_CACHE_MAX_ITEMS : Z := (CACHE_SIZE / FIXED_DATA_NODE_BYTE_SIZE)%Z.

(** A [data_node*] is an index into [cache_slots::data_nodes_]. *)
Record block_cache_entry_t := mk_bce {
  pinned : bool;
  references : Z;
  modified : bool;
  clock : Z;
  dn : nat;
}.

Record cache_slots := mk_slots { data_nodes_ : list data_node; dn_queue_ : list nat }.

(** [std::map<unsigned int, block_cache_entry_t>] is a finite map iterated in key order. *)
Record Cache := mk_cache {
  block_cache_ : gmap Z block_cache_entry_t;
  slots_ : cache_slots;
  cache_clock_ : Z;
  synced_entries_ : Z;
}.

(** A [data_node_io] object (data_node_io.h) and the world it runs in. *)
Record dn_io `{BlockStore} := mk_io {
  io_world : world;
  block_warehouse_ : block_warehouse;
  free_space_collector_ : free_space_collector;
  append_dn_ : nat;
  cache_ : Cache;
}.

Module Slots.
Definition new : cache_slots :=
  let n := Z.to_nat BLOCK_CACHE_MAX_ITEMS in
  mk_slots (replicate n (DN.new 0)) (seq 0 n).

Definition allocate (s : cache_slots) : result (nat * cache_slots) :=
  match s.(dn_queue_) with
  | [] => Err (RuntimeError "cache full -- cannot allocate additional cache slots, queue empty")
  | d :: q => Ok (d, mk_slots s.(data_nodes_) q)
  end.

Definition release (s : cache_slots) (d : nat) : result cache_slots :=
  throw_if (bool_decide (zlen s.(dn_queue_) >= zlen s.(data_nodes_))%Z)
    (RuntimeError "cache empty -- nothing to release, nothing to return to queue") ;;?
  Ok (mk_slots s.(data_nodes_) (s.(dn_queue_) ++ [d])).

Definition available_slots (s : cache_slots) : Z := zlen s.(dn_queue_).

(** [*d] and [*d = n]. *)
Definition deref (s : cache_slots) (d : nat) : result data_node :=
  of_option (s.(data_nodes_) !! d) (UndefinedBehaviour "dangling data node pointer").
Definition assign (s : cache_slots) (d : nat) (n : data_node) : cache_slots :=
  mk_slots (<[d := n]> s.(data_nodes_)) s.(dn_queue_).
End Slots.

Module C.
Definition new : Cache := mk_cache ∅ Slots.new 0 0.

Definition keys (c : gmap Z block_cache_entry_t) : list Z := merge_sort Z.le (elements (dom c)).

Section CacheOps.
Context `{OpenSSL, BlockStore}.

Definition set_world (w : world) (s : dn_io) : dn_io :=
  mk_io _ w s.(block_warehouse_) s.(free_space_collector_) s.(append_dn_) s.(cache_).
Definition set_bw (b : block_warehouse) (s : dn_io) : dn_io :=
  mk_io _ s.(io_world) b s.(free_space_collector_) s.(append_dn_) s.(cache_).
Definition set_fsc (f : free_space_collector) (s : dn_io) : dn_io :=
  mk_io _ s.(io_world) s.(block_warehouse_) f s.(append_dn_) s.(cache_).
Definition set_append_dn (d : nat) (s : dn_io) : dn_io :=
  mk_io _ s.(io_world) s.(block_warehouse_) s.(free_space_collector_) d s.(cache_).
Definition set_cache (c : Cache) (s : dn_io) : dn_io :=
  mk_io _ s.(io_world) s.(block_warehouse_) s.(free_space_collector_) s.(append_dn_) c.
Definition set_block_cache (m : gmap Z block_cache_entry_t) (s : dn_io) : dn_io :=
  set_cache (mk_cache m s.(cache_).(slots_) s.(cache_).(cache_clock_)
               s.(cache_).(synced_entries_)) s.
Definition set_slots (l : cache_slots) (s : dn_io) : dn_io :=
  set_cache (mk_cache s.(cache_).(block_cache_) l s.(cache_).(cache_clock_)
               s.(cache_).(synced_entries_)) s.

Definition in_world {A} (m : M world A) : M dn_io A := zoomM io_world set_world m.

(** [block_cache_.find(block_num)]. *)
Definition find (block_num : Z) : M dn_io (option block_cache_entry_t) :=
  readM (fun s => s.(cache_).(block_cache_) !! block_num).
Definition store_entry (block_num : Z) (e : block_cache_entry_t) : M dn_io unit :=
  modifyM (fun s => set_block_cache (<[block_num := e]> s.(cache_).(block_cache_)) s).

(** [*d] and [*d = n] on the slots of the cache. *)
Definition deref (d : nat) : M dn_io data_node :=
  let! s := getM in liftM (Slots.deref s.(cache_).(slots_) d).
Definition assign (d : nat) (n : data_node) : M dn_io unit :=
  modifyM (fun s => set_slots (Slots.assign s.(cache_).(slots_) d n) s).

Definition allocate_slot : M dn_io nat :=
  let! s := getM in
  let! '(d, l) := liftM (Slots.allocate s.(cache_).(slots_)) in
  modifyM (set_slots l) ;;!
  retM d.

Definition drop_entry (block_num : Z) : M dn_io unit :=
  let! o := find block_num in
  match o with
  | None => throwM (UndefinedBehaviour "end iterator dereferenced")
  | Some bce =>
      let! s := getM in
      let! l := liftM (Slots.release s.(cache_).(slots_) bce.(dn)) in
      modifyM (set_slots l) ;;!
      modifyM (fun s => set_block_cache (delete block_num s.(cache_).(block_cache_)) s)
  end.

Definition sync_entry (block_num : Z) : M dn_io unit :=
  let! o := find block_num in
  match o with
  | None => throwM (RuntimeError "cache sync entry, entry not found")
  | Some bce =>
      whenM bce.(modified) (
        let! s := getM in
        let! n := deref bce.(dn) in
        let! '(n', new_data_node_id) :=
          in_world (DN.unload n s.(block_warehouse_).(state_encryption_key_)) in
        assign bce.(dn) n' ;;!
        let! bw := liftM (BW.update_datablock_id s.(block_warehouse_) block_num new_data_node_id) in
        modifyM (set_bw bw) ;;!
        store_entry block_num (mk_bce bce.(pinned) bce.(references) false bce.(clock) bce.(dn)) ;;!
        modifyM (fun s => set_cache (mk_cache s.(cache_).(block_cache_) s.(cache_).(slots_)
                   s.(cache_).(cache_clock_) (u32 (s.(cache_).(synced_entries_) + 1))) s))
  end.

Definition flush_entry (block_num : Z) : M dn_io unit :=
  sync_entry block_num ;;! drop_entry block_num.

(** The loop of [replacement_policy_MRU]: [index_to_remove] is an [int], -1 for none. *)
Definition mru_step (acc : Z * Z) (kv : Z * block_cache_entry_t) : Z * Z :=
  let '(index_to_remove, clk) := acc in
  let '(k, bce) := kv in
  if negb bce.(pinned) && bool_decide (bce.(references) = 0%Z) then
    if bool_decide (index_to_remove = -1)%Z || bool_decide (bce.(clock) > clk)%Z
    then (s32 k, bce.(clock)) else acc
  else acc.

Definition entries (m : gmap Z block_cache_entry_t) : list (Z * block_cache_entry_t) :=
  omap (fun k => e ← m !! k; Some (k, e)) (keys m).

Definition replacement_policy_MRU : M dn_io unit :=
  let! s := getM in
  let '(index_to_remove, _) :=
    fold_left mru_step (entries s.(cache_).(block_cache_)) (-1, 0)%Z in
  throw_ifM (bool_decide (index_to_remove = -1)%Z)
    (RuntimeError "cache replacement MRU, no item to replace") ;;!
  flush_entry (u32 index_to_remove).

(** Every iteration removes an entry, so the size of the cache is enough fuel. *)
Fixpoint replacement_loop (fuel : nat) : M dn_io unit :=
  let! s := getM in
  if bool_decide (Z.of_nat (size s.(cache_).(block_cache_)) >= BLOCK_CACHE_MAX_ITEMS)%Z then
    match fuel with
    | O => throwM OutOfFuel
    | S fuel => replacement_policy_MRU ;;! replacement_loop fuel
    end
  else retM tt.

Definition replacement_policy : M dn_io unit :=
  let! s := getM in
  let c := s.(cache_) in
  throw_ifM (bool_decide (Z.of_nat (size c.(block_cache_)) +
                          Slots.available_slots c.(slots_) ≠ BLOCK_CACHE_MAX_ITEMS)%Z)
    (RuntimeError "cache replacement, invariant not satisfied") ;;!
  replacement_loop (size c.(block_cache_)).

(** [while (!block_cache_.empty()) f(block_cache_.begin()->first)]. *)
Fixpoint while_not_empty (fuel : nat) (f : Z -> M dn_io unit) : M dn_io unit :=
  let! s := getM in
  match keys s.(cache_).(block_cache_) with
  | [] => retM tt
  | k :: _ =>
      match fuel with
      | O => throwM OutOfFuel
      | S fuel => f k ;;! while_not_empty fuel f
      end
  end.

Definition drop : M dn_io unit :=
  let! s := getM in while_not_empty (size s.(cache_).(block_cache_)) drop_entry.

Definition flush : M dn_io unit :=
  let! s := getM in while_not_empty (size s.(cache_).(block_cache_)) flush_entry.

Fixpoint sync_keys (ks : list Z) : M dn_io unit :=
  match ks with
  | [] => retM tt
  | k :: ks => sync_entry k ;;! sync_keys ks
  end.

Definition sync : M dn_io unit :=
  let! s := getM in sync_keys (keys s.(cache_).(block_cache_)).

Definition put (block_num : Z) (d : nat) : M dn_io unit :=
  let! o := find block_num in
  whenM (bool_decide (is_Some o)) (drop_entry block_num) ;;!
  let! s := getM in
  let clk := s.(cache_).(cache_clock_) in
  modifyM (fun s => set_cache (mk_cache s.(cache_).(block_cache_) s.(cache_).(slots_)
             (u64 (clk + 1)) s.(cache_).(synced_entries_)) s) ;;!
  store_entry block_num (mk_bce false 0 false clk d).

(** Apply [f] to an entry that must be there, with the error of the caller otherwise. *)
Definition update_entry (block_num : Z) (f : block_cache_entry_t -> block_cache_entry_t) : M dn_io unit :=
  let! o := find block_num in
  match o with
  | None => throwM (RuntimeError "cache done, item not in cache")
  | Some e => store_entry block_num (f e)
  end.

Definition done (block_num : Z) (m : bool) : M dn_io unit :=
  update_entry block_num (fun e =>
    mk_bce e.(pinned) (u32 (e.(references) - 1)) (if m then m else e.(modified)) e.(clock) e.(dn)).

Definition pin (block_num : Z) : M dn_io unit :=
  update_entry block_num (fun e => mk_bce true e.(references) e.(modified) e.(clock) e.(dn)).

Definition unpin (block_num : Z) : M dn_io unit :=
  update_entry block_num (fun e => mk_bce false e.(references) e.(modified) e.(clock) e.(dn)).

Definition set_modified (block_num : Z) : M dn_io unit :=
  update_entry block_num (fun e => mk_bce e.(pinned) e.(references) true e.(clock) e.(dn)).

(** Returns the pointer to the cached node. *)
Definition retrieve (block_num : Z) (pinned : bool) : M dn_io nat :=
  let! o := find block_num in
  whenM (bool_decide (o = None)) (
    replacement_policy ;;!
    let! s := getM in
    let! data_node_id :=
      liftM (BW.get_datablock_id_from_datablock_num s.(block_warehouse_) block_num) in
    let! d := allocate_slot in
    let! n := deref d in
    let n := DN.deserialize_original_encrypted_data_id n data_node_id in
    assign d n ;;!
    let! n := in_world (DN.load n s.(block_warehouse_).(state_encryption_key_)) in
    assign d n ;;!
    put block_num d ;;!
    whenM pinned (pin block_num)) ;;!
  let! o := find block_num in
  match o with
  | None => throwM (UndefinedBehaviour "null data node pointer")
  | Some e =>
      store_entry block_num
        (mk_bce e.(Cache.pinned) (u32 (e.(references) + 1)) e.(modified) e.(clock) e.(dn)) ;;!
      retM e.(dn)
  end.

Definition synced_entries (s : dn_io) : Z := s.(cache_).(synced_entries_).
End CacheOps.
End C.
