(* ===== verification/CacheSpec.v ===== *)
(** What the cache promises to its clients: the blocks of a store have a logical content, which
    reading, caching, evicting and reloading blocks leave unchanged.  [cache_inv] relates the state of
    the cache, of the block warehouse and of the untrusted store to that content. *)
From S2P Require Import Prelude Crypto BlockStore Codec DataNode FreeSpace Json JsonSpec StateNode Cache.

(** * Weakest preconditions *)

(** Blocks are named by their hash, so everything below holds for runs in which no two blocks handed
    to the store have the same hash; [w_evicted] records these blocks. *)
Definition no_collision `{OpenSSL} (l : list bytes) : Prop :=
  forall b1 b2, b1 ∈ l -> b2 ∈ l -> ComputeMessageHash b1 = ComputeMessageHash b2 -> b1 = b2.

Section Wp.
Context {OS : OpenSSL} {B : BlockStore}.

Definition log (s : dn_io) : list bytes := s.(io_world).(w_evicted).

(** What the code can do to the world: hand blocks to the store under their hash, and draw random numbers. *)
Inductive reaches : world -> world -> Prop :=
  | reaches_refl w : reaches w w
  | reaches_put w b w' : reaches (w_put (ComputeMessageHash b) b w).2 w' -> reaches w w'
  | reaches_rng w n w' : reaches (mk_world _ w.(w_store) n w.(w_ctx) w.(w_evicted)) w' -> reaches w w'.

#[global] Instance reaches_preorder : PreOrder reaches.
Proof.
  split; [intros w; constructor|]. intros w1 w2 w3 H12 H23.
  induction H12; [done|eapply reaches_put|eapply reaches_rng]; eauto.
Qed.

Lemma w_put_log id b w : (w_put id b w).2.(w_evicted) = b :: w.(w_evicted).
Proof. unfold w_put. by destruct (BlockStorePut _ _ _). Qed.

Lemma reaches_log w w' : reaches w w' -> w.(w_evicted) `suffix_of` w'.(w_evicted).
Proof.
  induction 1 as [w|w b w' _ IH|w n w' _ IH]; [by exists []| |done].
  rewrite w_put_log in IH. etransitivity; [by exists [b]|done].
Qed.

(** Whatever the code does, the world only moves on and the store keeps its key. *)
Record evolves (s s' : dn_io) : Prop := {
  ev_world : reaches s.(io_world) s'.(io_world);
  ev_key : s'.(block_warehouse_).(state_encryption_key_) = s.(block_warehouse_).(state_encryption_key_);
}.

#[global] Instance evolves_refl : Reflexive evolves.
Proof. intros s. split; [constructor|done]. Qed.
#[global] Instance evolves_trans : Transitive evolves.
Proof. intros s1 s2 s3 [H1 K1] [H2 K2]. split; [by etransitivity|congruence]. Qed.

(** The log of the blocks that were handed to the store grows. *)
Lemma ev_log s s' : evolves s s' -> log s `suffix_of` log s'.
Proof. intros [Hw _]. by apply reaches_log. Qed.

Definition grows {A} (m : M dn_io A) : Prop := forall s, evolves s (m s).2.

(** In a run without collisions, [m] returns from [s], and [Q] holds of its result and final state. *)
Definition wp {A} (m : M dn_io A) (s : dn_io) (Q : A -> dn_io -> Prop) : Prop :=
  no_collision (log (m s).2) -> exists a, (m s).1 = Ok a /\ Q a (m s).2.

Lemma no_collision_suffix (l1 l2 : list bytes) : l1 `suffix_of` l2 -> no_collision l2 -> no_collision l1.
Proof.
  intros [k ->] Hn b1 b2 H1 H2. apply Hn; apply elem_of_app; by right.
Qed.

Lemma wp_bind {A C} (m : M dn_io A) (f : A -> M dn_io C) s Q :
  (forall a, grows (f a)) -> wp m s (fun a s1 => wp (f a) s1 Q) -> wp (bindM m f) s Q.
Proof.
  unfold wp, bindM. intros Hg Hm. destruct (m s) as [[a|e] s1]; cbn in *; intros Hn.
  - destruct Hm as (a' & [= <-] & Hf); [|by apply Hf].
    eapply no_collision_suffix; [apply (ev_log _ _ (Hg a s1))|done].
  - destruct Hm as (a' & ? & _); done.
Qed.

Lemma wp_conseq {A} (m : M dn_io A) s (Q Q' : A -> dn_io -> Prop) :
  wp m s Q -> (forall a s', Q a s' -> Q' a s') -> wp m s Q'.
Proof. intros Hm HQ Hn. destruct (Hm Hn) as (a & Ha & Hq). eauto. Qed.

Lemma wp_eq {A} (m : M dn_io A) s a s' (Q : A -> dn_io -> Prop) :
  m s = (Ok a, s') -> (no_collision (log s') -> Q a s') -> wp m s Q.
Proof. intros Hm HQ. unfold wp. rewrite Hm. cbn. eauto. Qed.

Lemma wp_get s (Q : dn_io -> dn_io -> Prop) : Q s s -> wp getM s Q.
Proof. intros HQ. by eapply wp_eq. Qed.
Lemma wp_read {A} (f : dn_io -> A) s (Q : A -> dn_io -> Prop) : Q (f s) s -> wp (readM f) s Q.
Proof. intros HQ. by eapply wp_eq. Qed.
Lemma wp_ret {A} (a : A) s (Q : A -> dn_io -> Prop) : Q a s -> wp (retM a) s Q.
Proof. intros HQ. by eapply wp_eq. Qed.
Lemma wp_modify f s (Q : unit -> dn_io -> Prop) : Q tt (f s) -> wp (modifyM f) s Q.
Proof. intros HQ. by eapply wp_eq. Qed.
Lemma wp_lift {A} (r : result A) a s (Q : A -> dn_io -> Prop) : r = Ok a -> Q a s -> wp (liftM r) s Q.
Proof. intros -> HQ. by eapply wp_eq. Qed.
Lemma wp_throw_if c e s (Q : unit -> dn_io -> Prop) : c = false -> Q tt s -> wp (throw_ifM c e) s Q.
Proof. intros -> HQ. by eapply wp_eq. Qed.
Lemma wp_when c (m : M dn_io unit) s Q :
  (c = true -> wp m s Q) -> (c = false -> Q tt s) -> wp (whenM c m) s Q.
Proof. destruct c; cbn; intros H1 H2; [by apply H1|by apply wp_ret, H2]. Qed.

(** ** Growth of the log, by the structure of the code *)

Lemma grows_ret {A} (a : A) : grows (retM a).
Proof. done. Qed.
Lemma grows_throw {A} e : grows (A := A) (throwM e).
Proof. done. Qed.
Lemma grows_get : grows getM.
Proof. done. Qed.
Lemma grows_read {A} (f : dn_io -> A) : grows (readM f).
Proof. done. Qed.
Lemma grows_lift {A} (r : result A) : grows (liftM r).
Proof. done. Qed.
Lemma grows_throw_if c e : grows (throw_ifM c e).
Proof. done. Qed.
Lemma grows_modify f :
  (forall s, (f s).(io_world) = s.(io_world) /\ (f s).(block_warehouse_) = s.(block_warehouse_)) -> grows (modifyM f).
Proof. intros Hf s. destruct (Hf s) as [Hw Hb]. split; cbn; [rewrite Hw; constructor|by rewrite Hb]. Qed.
Lemma grows_bind {A C} (m : M dn_io A) (f : A -> M dn_io C) :
  grows m -> (forall a, grows (f a)) -> grows (bindM m f).
Proof.
  intros Hm Hf s. specialize (Hm s). unfold bindM. destruct (m s) as [[a|e] s1]; cbn in *; [|done].
  etransitivity; [exact Hm|apply Hf].
Qed.
Lemma grows_when c (m : M dn_io unit) : grows m -> grows (whenM c m).
Proof. destruct c; [done|]. intros _. apply grows_ret. Qed.

End Wp.

Create HintDb grows.
#[export] Hint Resolve grows_ret grows_throw grows_get grows_read grows_lift grows_throw_if : grows.

(** Follow the structure of a method, using the lemmas in the database for the methods it calls. *)
Ltac grows :=
  repeat match goal with
  | |- forall _, _ => intros; cbv zeta
  | |- grows (bindM _ _) => apply grows_bind
  | |- grows (whenM _ _) => apply grows_when
  | |- grows (modifyM _) => apply grows_modify; intros; split; reflexivity
  | |- grows (match ?x with _ => _ end) => destruct x
  | |- grows _ => progress eauto 1 with grows
  end.

(** One step of symbolic execution on [bindM]. *)
Ltac wp_bind := apply wp_bind; [solve [grows] | ].

Section Grows.
Context {OS : OpenSSL} {B : BlockStore}.

(** The methods that reach the store. *)
Lemma grows_in_world {A} (m : M world A) :
  (forall w, reaches w (m w).2) -> grows (C.in_world m).
Proof.
  intros Hm s. unfold C.in_world, zoomM. specialize (Hm s.(io_world)).
  by destruct (m s.(io_world)) as [r w].
Qed.

Lemma fetch_same_world id algo w : (sebio_fetch id algo w).2 = w.
Proof.
  unfold sebio_fetch. run_monad. destruct (BlockStoreGet _ _) as [[r b]|]; [|done].
  repeat (case_bool_decide; [done|]). destruct algo; [done|]. case_bool_decide; [done|].
  by destruct (DecryptMessage _ _).
Qed.

Lemma load_same_world n key w : (DN.load n key w).2 = w.
Proof.
  unfold DN.load, bindM. pose proof (fetch_same_world n.(originalEncryptedDataNodeId_) SEBIO_NO_CRYPTO w) as Hf.
  destruct (sebio_fetch _ _ _) as [[[r b]|] w']; cbn in *; [|done]. subst w'. run_monad.
  by case_bool_decide.
Qed.

Lemma reaches_encrypt key m w : reaches w (w_encrypt key m w).2.
Proof. unfold w_encrypt, zoomM. destruct (EncryptMessage _ _ _) as [r n]. eapply reaches_rng, reaches_refl. Qed.

Lemma reaches_evict b w : reaches w (sebio_evict b SEBIO_NO_CRYPTO w).2.
Proof.
  apply (reaches_put w b). unfold sebio_evict. run_monad.
  destruct (w_put _ _ _) as [[r|] w']; [case_bool_decide|]; constructor.
Qed.

Lemma reaches_unload n key w : reaches w (DN.unload n key w).2.
Proof.
  unfold DN.unload, bindM. pose proof (reaches_encrypt key (DN.serialize_data_header n).(data_) w) as He.
  destruct (w_encrypt _ _ _) as [[c|] w1]; [|done]. pose proof (reaches_evict c w1) as Hp.
  destruct (sebio_evict _ _ _) as [[[r id]|] w2]; cbn in *; [|by etransitivity]. run_monad.
  case_bool_decide; by etransitivity.
Qed.

Lemma grows_load n key : grows (C.in_world (DN.load n key)).
Proof. apply grows_in_world. intros w. rewrite load_same_world. constructor. Qed.
Lemma grows_unload n key : grows (C.in_world (DN.unload n key)).
Proof. apply grows_in_world. intros w. apply reaches_unload. Qed.
Lemma grows_fetch id algo : grows (C.in_world (sebio_fetch id algo)).
Proof. apply grows_in_world. intros w. rewrite fetch_same_world. constructor. Qed.
Lemma grows_evict b : grows (C.in_world (sebio_evict b SEBIO_NO_CRYPTO)).
Proof. apply grows_in_world. intros w. apply reaches_evict. Qed.
End Grows.
#[export] Hint Resolve grows_load grows_unload grows_fetch grows_evict : grows.

Section GrowsCache.
Context {OS : OpenSSL} {B : BlockStore}.

Lemma grows_find k : grows (C.find k).
Proof. apply grows_read. Qed.
Lemma grows_store_entry k e : grows (C.store_entry k e).
Proof. by apply grows_modify. Qed.
Lemma grows_deref d : grows (C.deref d).
Proof. unfold C.deref. grows. Qed.
Lemma grows_assign d n : grows (C.assign d n).
Proof. by apply grows_modify. Qed.
Lemma grows_allocate_slot : grows C.allocate_slot.
Proof. unfold C.allocate_slot. grows. Qed.
#[local] Hint Resolve grows_find grows_store_entry grows_deref grows_assign grows_allocate_slot : grows.
Lemma grows_drop_entry k : grows (C.drop_entry k).
Proof. unfold C.drop_entry. grows. Qed.
Lemma grows_sync_entry k : grows (C.sync_entry k).
Proof.
  intros s. unfold C.sync_entry, C.find, C.deref, C.in_world, C.assign, C.store_entry. run_monad.
  destruct (block_cache_ (cache_ s) !! k) as [e|]; [|done]. destruct (modified e); [|done].
  destruct (Slots.deref _ _) as [n|]; [|done].
  pose proof (reaches_unload n s.(block_warehouse_).(state_encryption_key_) s.(io_world)) as Hl.
  destruct (DN.unload _ _ _) as [[[n' id]|] w]; [|by split]. unfold BW.update_datablock_id.
  case_bool_decide; [by split|]. cbn [throw_if result_bind].
  destruct (vec_set _ _ _); by split.
Qed.
#[local] Hint Resolve grows_drop_entry grows_sync_entry : grows.
Lemma grows_flush_entry k : grows (C.flush_entry k).
Proof. unfold C.flush_entry. grows. Qed.
#[local] Hint Resolve grows_flush_entry : grows.
Lemma grows_replacement_MRU : grows C.replacement_policy_MRU.
Proof. unfold C.replacement_policy_MRU. grows. Qed.
#[local] Hint Resolve grows_replacement_MRU : grows.
Lemma grows_replacement_loop fuel : grows (C.replacement_loop fuel).
Proof. induction fuel; cbn [C.replacement_loop]; grows. Qed.
#[local] Hint Resolve grows_replacement_loop : grows.
Lemma grows_replacement_policy : grows C.replacement_policy.
Proof. unfold C.replacement_policy. grows. Qed.
Lemma grows_put k d : grows (C.put k d).
Proof. unfold C.put. grows. Qed.
Lemma grows_update_entry k f : grows (C.update_entry k f).
Proof. unfold C.update_entry. grows. Qed.
#[local] Hint Resolve grows_replacement_policy grows_put grows_update_entry : grows.
Lemma grows_done k m : grows (C.done k m).
Proof. apply grows_update_entry. Qed.
Lemma grows_pin k : grows (C.pin k).
Proof. apply grows_update_entry. Qed.
Lemma grows_unpin k : grows (C.unpin k).
Proof. apply grows_update_entry. Qed.
Lemma grows_set_modified k : grows (C.set_modified k).
Proof. apply grows_update_entry. Qed.
#[local] Hint Resolve grows_pin : grows.
Lemma grows_retrieve k p : grows (C.retrieve k p).
Proof. unfold C.retrieve. grows. Qed.
Lemma grows_while fuel f : (forall k, grows (f k)) -> grows (C.while_not_empty fuel f).
Proof. intros Hf. induction fuel; cbn [C.while_not_empty]; grows; eauto. Qed.
Lemma grows_flush : grows C.flush.
Proof. unfold C.flush. grows. apply grows_while. intros. apply grows_flush_entry. Qed.
End GrowsCache.
#[export] Hint Resolve grows_find grows_store_entry grows_deref grows_assign grows_allocate_slot
  grows_drop_entry grows_sync_entry grows_flush_entry grows_replacement_policy grows_replacement_loop
  grows_replacement_MRU grows_put grows_update_entry grows_done grows_pin grows_unpin grows_set_modified
  grows_retrieve grows_flush : grows.

(** * The invariant *)

Section Inv.
Context {OS : OpenSSL} {B : BlockStore}.

Abbreviation bc s := s.(cache_).(block_cache_).
Abbreviation nodes s := s.(cache_).(slots_).(data_nodes_).
Abbreviation queue s := s.(cache_).(slots_).(dn_queue_).
Abbreviation ids s := s.(block_warehouse_).(blockIds_).
Abbreviation iokey s := s.(block_warehouse_).(state_encryption_key_).

(** Every slot is either free, and then once in the queue, or used by exactly one entry. *)
Record slots_ok (s : dn_io) : Prop := {
  so_nodes : length (nodes s) = 512;
  so_queue : NoDup (queue s);
  so_queue_lt d : d ∈ queue s -> d < 512;
  so_entry k e : bc s !! k = Some e -> e.(dn) < 512 /\ e.(dn) ∉ queue s;
  so_inj k1 k2 e1 e2 : bc s !! k1 = Some e1 -> bc s !! k2 = Some e2 -> e1.(dn) = e2.(dn) -> k1 = k2;
  so_size : size (bc s) + length (queue s) = 512;
}.

(** The logical content of the blocks: the data bytes of every block, and the free space [fr] of the
    blocks for which it is not negative. *)
Definition holds (fr : Z -> Z) (n : data_node) (k : Z) (v : bytes) : Prop :=
  wf_dn n /\ n.(block_num_) = k /\ payload n = v /\ (0 <= fr k -> n.(free_bytes_) = fr k)%Z.

Definition set_free (fr : Z -> Z) (k v : Z) : Z -> Z := fun k' => if bool_decide (k' = k) then v else fr k'.

Lemma set_free_eq fr k v : set_free fr k v k = v.
Proof. unfold set_free. by rewrite bool_decide_eq_true_2. Qed.
Lemma set_free_ne fr k v k' : k' <> k -> set_free fr k v k' = fr k'.
Proof. intros. unfold set_free. by rewrite bool_decide_eq_false_2. Qed.

(** The block is in the untrusted store under its id. *)
Definition stored (s : dn_io) (fr : Z -> Z) (k : Z) (v : bytes) : Prop :=
  exists block n, ids s !! Z.to_nat k = Some (ComputeMessageHash block) /\
    BlockStoreGet s.(io_world).(w_store) (ComputeMessageHash block) = Ok (PDO_SUCCESS, block) /\
    block ∈ log s /\ encodes_node (iokey s) block n /\ holds fr n k v.

(** [busy] is the block whose node a client holds, if any. *)
Record cache_inv (s : dn_io) (V : list bytes) (fr : Z -> Z) (busy : option Z) : Prop := {
  ci_key : zlen (iokey s) = SYM_KEY_LEN;
  ci_ids : length (ids s) = length V;
  ci_size : (0 < zlen V)%Z /\ (zlen V * block_data_len < ADDR_LIMIT)%Z;
  ci_slots : slots_ok s;
  ci_entry k e : bc s !! k = Some e ->
    (0 <= k <= zlen V)%Z /\ (k = zlen V -> e.(modified) = false) /\
    e.(references) = (if bool_decide (busy = Some k) then 1 else 0)%Z /\
    (e.(pinned) = true -> k = 0 \/ k = zlen V - 1)%Z;
  ci_cached k e v : bc s !! k = Some e -> V !! Z.to_nat k = Some v ->
    exists n, nodes s !! e.(dn) = Some n /\ holds fr n k v;
  ci_stored k v : (0 <= k)%Z -> V !! Z.to_nat k = Some v ->
    (forall e, bc s !! k = Some e -> e.(modified) = false) -> stored s fr k v;
}.

(** Forgetting the free space of some blocks. *)
Lemma holds_weaken fr fr' n k v :
  (forall k, 0 <= fr' k -> fr' k = fr k)%Z -> holds fr n k v -> holds fr' n k v.
Proof.
  intros Hfr (? & ? & ? & Hf). split_and!; try done. intros Hp. pose proof (Hfr k Hp) as E. rewrite E in *. auto.
Qed.

Lemma cache_inv_weaken s V fr fr' busy :
  (forall k, 0 <= fr' k -> fr' k = fr k)%Z -> cache_inv s V fr busy -> cache_inv s V fr' busy.
Proof.
  intros Hfr. assert (Hh : forall n k v, holds fr n k v -> holds fr' n k v) by (intros; by eapply holds_weaken).
  intros [Hkey Hids Hsize Hslots Hentry Hcached Hst]. split; try done.
  - intros k e v He Hv. destruct (Hcached k e v He Hv) as (n & ? & ?). eauto.
  - intros k v Hk Hv Hm. destruct (Hst k v Hk Hv Hm) as (b & n & ? & ? & ? & ? & ?).
    exists b, n. split_and!; eauto.
Qed.

(** What the operations of the cache leave alone. *)
Record frame (s s' : dn_io) : Prop := {
  fr_append : s'.(append_dn_) = s.(append_dn_);
  fr_fsc : s'.(free_space_collector_) = s.(free_space_collector_);
  fr_key : iokey s' = iokey s;
  fr_pinned k e : bc s !! k = Some e -> e.(pinned) = true ->
    exists e', bc s' !! k = Some e' /\ e'.(pinned) = true /\ e'.(dn) = e.(dn);
}.

#[global] Instance frame_refl : Reflexive frame.
Proof. intros s. split; eauto. Qed.
#[global] Instance frame_trans : Transitive frame.
Proof.
  intros s1 s2 s3 H1 H2. split.
  - by rewrite (fr_append _ _ H2), (fr_append _ _ H1).
  - by rewrite (fr_fsc _ _ H2), (fr_fsc _ _ H1).
  - by rewrite (fr_key _ _ H2), (fr_key _ _ H1).
  - intros k e Hk Hp. destruct (fr_pinned _ _ H1 k e Hk Hp) as (e1 & Hk1 & Hp1 & Hd1).
    destruct (fr_pinned _ _ H2 k e1 Hk1 Hp1) as (e2 & ? & ? & ?). exists e2. split_and!; [done..|congruence].
Qed.

(** ** Storing a block *)

Lemma stored_mono s s' fr k v :
  ids s' !! Z.to_nat k = ids s !! Z.to_nat k -> iokey s' = iokey s ->
  log s `suffix_of` log s' ->
  (forall block, block ∈ log s ->
     BlockStoreGet s.(io_world).(w_store) (ComputeMessageHash block) = Ok (PDO_SUCCESS, block) ->
     BlockStoreGet s'.(io_world).(w_store) (ComputeMessageHash block) = Ok (PDO_SUCCESS, block)) ->
  stored s fr k v -> stored s' fr k v.
Proof.
  intros Hids Hkey [l Hlog] Hget (block & n & Hid & Hg & Hin & Henc & Hh).
  exists block, n. rewrite Hids, Hkey, Hlog. split_and!; try done; [by apply Hget|].
  apply elem_of_app. by right.
Qed.

(** A put does not change what is read under the ids of earlier blocks. *)
Lemma put_keeps w w' block0 block :
  stored_in w w' (ComputeMessageHash block0) block0 -> no_collision w'.(w_evicted) ->
  block ∈ w.(w_evicted) ->
  BlockStoreGet w.(w_store) (ComputeMessageHash block) = Ok (PDO_SUCCESS, block) ->
  BlockStoreGet w'.(w_store) (ComputeMessageHash block) = Ok (PDO_SUCCESS, block).
Proof.
  intros (Hg & _ & Hlog & Ho) Hn Hin Hget.
  destruct (decide (ComputeMessageHash block = ComputeMessageHash block0)) as [He|Hne].
  - assert (block = block0) as ->; [|done]. apply Hn; [..|done]; rewrite Hlog.
    + apply elem_of_cons. by right.
    + apply elem_of_cons. by left.
  - by rewrite Ho.
Qed.

(** The content determines a node up to the bytes the clients do not see. *)
Lemma holds_same fr n n' k v : holds fr n k v -> same_node n' n -> wf_dn n' -> holds fr n' k v.
Proof.
  intros (_ & Hn & Hp & Hf) (Hn' & Hf' & Hp') Hwf. split_and!; [done|congruence|congruence|].
  intros Hk. rewrite Hf'. by apply Hf.
Qed.

End Inv.
Abbreviation bc s := s.(cache_).(block_cache_).
Abbreviation nodes s := s.(cache_).(slots_).(data_nodes_).
Abbreviation queue s := s.(cache_).(slots_).(dn_queue_).
Abbreviation ids s := s.(block_warehouse_).(blockIds_).
Abbreviation iokey s := s.(block_warehouse_).(state_encryption_key_).

Section CacheOps.
Context {OS : OpenSSL} {OL : @OpenSSLLaws OS} {B : BlockStore} {BL : BlockStoreLaws B}.
Implicit Types (s : dn_io) (V : list bytes).

Definition unmodified (e : block_cache_entry_t) : block_cache_entry_t :=
  mk_bce e.(pinned) e.(references) false e.(clock) e.(dn).

(** ** Changing one entry, its node and its id *)

(** [s'] differs from [s] in the entry of [k], which keeps its slot, in the content of that slot, and
    in the stored blocks. *)
Lemma slots_ok_update s s' k e e' :
  slots_ok s -> bc s !! k = Some e -> e'.(dn) = e.(dn) -> bc s' = <[k := e']> (bc s) ->
  queue s' = queue s -> length (nodes s') = length (nodes s) -> slots_ok s'.
Proof.
  intros [H1 H2 H3 H4 H5 H6] Hk He Hbc Hq Hn.
  assert (Hl : forall k1 e1, bc s' !! k1 = Some e1 -> exists e0, bc s !! k1 = Some e0 /\ e0.(dn) = e1.(dn)).
  { intros k1 e1. rewrite Hbc. destruct (decide (k1 = k)) as [->|].
    - rewrite lookup_insert_eq. intros [= <-]. eauto.
    - rewrite lookup_insert_ne by done. eauto. }
  split; rewrite ?Hq, ?Hn; try done.
  - intros k1 e1 (e0 & Hk0 & <-)%Hl. by eapply H4.
  - intros k1 k2 e1 e2 (e3 & H1' & E1)%Hl (e4 & H2' & E2)%Hl Hd. eapply H5; [done|done|congruence].
  - rewrite Hbc, map_size_insert_Some; [done|]. by exists e.
Qed.

(** The entry of [k] with an unmodified node that is stored under its id. *)
Lemma cache_inv_synced s s' V fr busy k e :
  cache_inv s V fr busy -> bc s !! k = Some e -> (k < zlen V)%Z ->
  bc s' = <[k := unmodified e]> (bc s) -> queue s' = queue s ->
  length (nodes s') = length (nodes s) ->
  (forall d, d <> e.(dn) -> nodes s' !! d = nodes s !! d) ->
  (forall v, V !! Z.to_nat k = Some v -> exists n, nodes s' !! e.(dn) = Some n /\ holds fr n k v) ->
  iokey s' = iokey s -> length (ids s') = length (ids s) ->
  (forall k' v, (0 <= k')%Z -> k' <> k -> stored s fr k' v -> stored s' fr k' v) ->
  (forall v, V !! Z.to_nat k = Some v -> stored s' fr k v) ->
  cache_inv s' V fr busy.
Proof.
  intros [Hkey Hids Hsize Hslots Hentry Hcached Hst] Hk HkV Hbc Hq Hn Hnodes Hnode Hkey' Hids' Hst' Hstk.
  split; [by rewrite Hkey'|by rewrite Hids'|done|by eapply (slots_ok_update s s' k e (unmodified e))|..].
  - intros k1 e1. rewrite Hbc. destruct (decide (k1 = k)) as [->|].
    + rewrite lookup_insert_eq. intros [= <-]. destruct (Hentry k e Hk) as (? & ? & ? & ?). split_and!; done || lia.
    + rewrite lookup_insert_ne by done. apply Hentry.
  - intros k1 e1 v. rewrite Hbc. destruct (decide (k1 = k)) as [->|].
    + rewrite lookup_insert_eq. intros [= <-]. apply Hnode.
    + rewrite lookup_insert_ne by done. intros H1 H2.
      rewrite Hnodes; [by eapply Hcached|]. intros Hd. eapply (so_inj _ Hslots) in Hd; done.
  - intros k1 v Hk1 Hv Hm. destruct (decide (k1 = k)) as [->|]; [by apply Hstk|].
    apply Hst'; [done..|]. apply Hst; [done..|]. intros e1 He1. apply Hm. by rewrite Hbc, lookup_insert_ne.
Qed.

Lemma sync_entry_ok s V fr busy k e :
  cache_inv s V fr busy -> bc s !! k = Some e ->
  wp (C.sync_entry k) s (fun _ s' => cache_inv s' V fr busy /\ bc s' = <[k := unmodified e]> (bc s) /\
    queue s' = queue s /\ s'.(append_dn_) = s.(append_dn_) /\
    s'.(free_space_collector_) = s.(free_space_collector_) /\ iokey s' = iokey s).
Proof.
  intros Hinv Hk. pose proof Hinv as [Hkey Hids Hsize Hslots Hentry Hcached Hst].
  destruct (modified e) eqn:Hmod.
  2:{ eapply wp_eq; [unfold C.sync_entry, C.find; run_monad; rewrite Hk, Hmod; reflexivity|]. intros _. assert (Heq : unmodified e = e) by (destruct e; cbn in *; by subst).
      rewrite Heq, insert_id by done. done. }
  destruct (Hentry k e Hk) as (Hrange & Hstale & Hrefs & Hpin).
  assert (HkV : (k < zlen V)%Z) by (destruct (decide (k = zlen V)) as [E|]; [specialize (Hstale E); congruence|lia]).
  assert (exists v, V !! Z.to_nat k = Some v) as [v Hv].
  { apply lookup_lt_is_Some_2. unfold zlen in *. lia. }
  destruct (Hcached k e v Hk Hv) as (n & Hn & Hh).
  assert (Hwf : wf_dn n) by apply Hh.
  destruct (unload_ok n (iokey s) s.(io_world) Hwf Hkey) as (block & w' & Hu & Henc & Hin).
  assert (Hidlen : zlen (ComputeMessageHash block) = STATE_BLOCK_ID_LENGTH) by apply sha256_length.
  eapply wp_eq.
  { unfold C.sync_entry, C.find, C.deref, Slots.deref, C.in_world, C.assign, C.store_entry. run_monad.
    rewrite Hk, Hmod. cbn [whenM]. rewrite Hn. cbn [of_option]. rewrite Hu. unfold BW.update_datablock_id. guards.
    unfold vec_set. rewrite bool_decide_eq_true_2 by (unfold zlen in *; lia). cbn [result_bind]. reflexivity. }
  set (s' := C.set_cache _ _). intros Hnc.
  set (n' := DN.deserialize_original_encrypted_data_id _ _) in s'.
  assert (Hnodes : nodes s' = <[e.(dn) := n']> (nodes s)) by reflexivity.
  split_and!; try done.
  destruct (so_entry _ Hslots k e Hk) as [Hlt _].
  assert (Hget : forall block', block' ∈ log s ->
    BlockStoreGet s.(io_world).(w_store) (ComputeMessageHash block') = Ok (PDO_SUCCESS, block') ->
    BlockStoreGet w'.(w_store) (ComputeMessageHash block') = Ok (PDO_SUCCESS, block')).
  { intros block' Hb Hg. by eapply put_keeps. }
  destruct Hin as (Hgn & _ & Hlog & _).
  eapply cache_inv_synced; try done.
  - rewrite Hnodes. apply length_insert.
  - intros d Hd. by rewrite Hnodes, list_lookup_insert_ne.
  - intros v' Hv'. assert (v' = v) as -> by congruence. exists n'. split.
    + rewrite Hnodes. apply list_lookup_insert_eq. rewrite (so_nodes _ Hslots). done.
    + destruct (header_read_back n Hwf) as (Hl & _ & _ & Hp). eapply holds_same; [done|by split_and!|].
      destruct Hwf as (_ & Hw2). exact (conj Hl Hw2).
  - apply length_insert.
  - intros k' v' Hk' Hne Hs. eapply stored_mono; [..|exact Hs]; try done.
    + cbn. rewrite list_lookup_insert_ne; [done|]. lia.
    + exists [block]. exact Hlog.
  - intros v' Hv'. assert (v' = v) as -> by congruence. exists block, n. cbn. split_and!; try done.
    + apply list_lookup_insert_eq. rewrite Hids. by eapply lookup_lt_Some.
    + unfold log. cbn. rewrite Hlog. apply elem_of_cons. by left.
Qed.
End CacheOps.

Section Eviction.
Context {OS : OpenSSL} {OL : @OpenSSLLaws OS} {B : BlockStore} {BL : BlockStoreLaws B}.
Implicit Types (s : dn_io) (V : list bytes).

Lemma slots_ok_delete s s' k e :
  slots_ok s -> bc s !! k = Some e -> bc s' = delete k (bc s) ->
  queue s' = queue s ++ [e.(dn)] -> nodes s' = nodes s -> slots_ok s'.
Proof.
  intros [H1 H2 H3 H4 H5 H6] Hk Hbc Hq Hn.
  assert (Hl : forall k1 e1, bc s' !! k1 = Some e1 -> k1 <> k /\ bc s !! k1 = Some e1).
  { intros k1 e1. rewrite Hbc. rewrite lookup_delete_Some. intros [? ?]; done. }
  destruct (H4 k e Hk) as [Hlt Hnin].
  assert (Hsz : size (bc s) = S (size (bc s'))).
  { rewrite Hbc, map_size_delete_Some by (by exists e).
    assert (size (bc s) <> 0); [|lia]. rewrite map_size_empty_iff. intros He. rewrite He in Hk. done. }
  split; rewrite ?Hq, ?Hn; try done.
  - apply list.NoDup_app. split_and!; [done| |apply NoDup_singleton]. intros d Hd ->%list_elem_of_singleton. done.
  - intros d [Hd| ->%list_elem_of_singleton]%elem_of_app; [by apply H3|done].
  - intros k1 e1 [Hne Hk1]%Hl. destruct (H4 k1 e1 Hk1) as [? ?]. split; [done|].
    intros [?|Hd%list_elem_of_singleton]%elem_of_app; [done|]. apply Hne. by eapply H5.
  - intros k1 k2 e1 e2 [_ E1]%Hl [_ E2]%Hl. by eapply H5.
  - rewrite length_app. cbn. lia.
Qed.

Lemma drop_entry_eq s k e :
  slots_ok s -> bc s !! k = Some e ->
  exists s', C.drop_entry k s = (Ok tt, s') /\ bc s' = delete k (bc s) /\
    queue s' = queue s ++ [e.(dn)] /\ nodes s' = nodes s /\ s'.(block_warehouse_) = s.(block_warehouse_) /\
    s'.(io_world) = s.(io_world) /\ s'.(append_dn_) = s.(append_dn_) /\
    s'.(free_space_collector_) = s.(free_space_collector_).
Proof.
  intros Hs Hk. eexists. split.
  - unfold C.drop_entry, C.find. run_monad. rewrite Hk. unfold Slots.release.
    rewrite bool_decide_eq_false_2; [reflexivity|].
    pose proof (so_size _ Hs). pose proof (so_nodes _ Hs).
    assert (size (bc s) <> 0). { rewrite map_size_empty_iff. intros He. by rewrite He in Hk. }
    unfold zlen. lia.
  - done.
Qed.

(** Dropping an entry whose node is stored. *)
Lemma drop_entry_ok s V fr busy k e :
  cache_inv s V fr busy -> bc s !! k = Some e -> e.(modified) = false -> busy <> Some k ->
  wp (C.drop_entry k) s (fun _ s' => cache_inv s' V fr busy /\ bc s' = delete k (bc s) /\
    s'.(append_dn_) = s.(append_dn_) /\
    s'.(free_space_collector_) = s.(free_space_collector_) /\ iokey s' = iokey s).
Proof.
  intros Hinv Hk Hm Hb. pose proof Hinv as [Hkey Hids Hsize Hslots Hentry Hcached Hst].
  destruct (drop_entry_eq s k e Hslots Hk) as (s' & Heq & Hbc & Hq & Hn & Hbw & Hw & Ha & Hf).
  eapply wp_eq; [exact Heq|]. intros _. split_and!; [|done|done|done|by rewrite Hbw].
  assert (Hl : forall k1 e1, bc s' !! k1 = Some e1 -> k1 <> k /\ bc s !! k1 = Some e1).
  { intros k1 e1. rewrite Hbc, lookup_delete_Some. intros [? ?]; done. }
  split; rewrite ?Hbw; try done.
  - by eapply slots_ok_delete.
  - intros k1 e1 [_ Hk1]%Hl. by apply Hentry.
  - intros k1 e1 v [_ Hk1]%Hl Hv. rewrite Hn. by eapply Hcached.
  - intros k1 v Hk1 Hv Hm1. assert (Hs : stored s fr k1 v).
    { apply Hst; [done..|]. intros e1 He1. destruct (decide (k1 = k)) as [->|]; [congruence|].
      apply Hm1. by rewrite Hbc, lookup_delete_ne. }
    eapply stored_mono; [..|exact Hs]; unfold log; rewrite ?Hbw, ?Hw; done.
Qed.

(** Writing back and dropping an entry nobody uses: the logical content is unchanged. *)
Lemma flush_entry_ok s V fr busy k e :
  cache_inv s V fr busy -> bc s !! k = Some e -> busy <> Some k ->
  wp (C.flush_entry k) s (fun _ s' => cache_inv s' V fr busy /\ bc s' = delete k (bc s) /\
    s'.(append_dn_) = s.(append_dn_) /\
    s'.(free_space_collector_) = s.(free_space_collector_) /\ iokey s' = iokey s).
Proof.
  intros Hinv Hk Hb. unfold C.flush_entry. wp_bind.
  eapply wp_conseq; [by apply sync_entry_ok|]. intros _ s1 (Hinv1 & Hbc1 & _ & Ha1 & Hf1 & Hk1).
  eapply wp_conseq.
  { apply (drop_entry_ok s1 V fr busy k (unmodified e)); [done| |done|done]. rewrite Hbc1. apply lookup_insert_eq. }
  intros _ s2 (Hinv2 & Hbc2 & Ha2 & Hf2 & Hk2). split_and!; [done| |congruence..].
  by rewrite Hbc2, Hbc1, delete_insert_eq.
Qed.

(** ** The replacement policy *)

Definition evictable (e : block_cache_entry_t) : bool :=
  negb e.(pinned) && bool_decide (e.(references) = 0%Z).

Definition small_keys (l : list (Z * block_cache_entry_t)) : Prop :=
  Forall (fun kv => 0 <= kv.1 < 2 ^ 31)%Z l.

(** The scan finds an evictable entry with the greatest clock, if there is an evictable entry. *)
Lemma mru_scan l : small_keys l ->
  let '(i, c) := fold_left C.mru_step l (-1, 0)%Z in
  (i = (-1)%Z /\ forall k e, (k, e) ∈ l -> evictable e = false) \/
  (exists e, (i, e) ∈ l /\ evictable e = true /\ c = e.(clock) /\
     forall k e', (k, e') ∈ l -> evictable e' = true -> (e'.(clock) <= c)%Z).
Proof.
  induction l as [|[k e] l IH] using rev_ind; intros Hs.
  - cbn. left. split; [done|]. intros k e Hin. by apply elem_of_nil in Hin.
  - unfold small_keys in Hs. rewrite Forall_app, Forall_cons_iff in Hs. destruct Hs as (Hs & Hk & _).
    specialize (IH Hs). rewrite fold_left_app. cbn [fold_left].
    destruct (fold_left C.mru_step l (-1, 0)%Z) as [i c]. unfold C.mru_step.
    assert (Hk32 : s32 k = k).
    { cbn in Hk. unfold s32. rewrite (u32_small k) by lia. rewrite bool_decide_eq_true_2 by lia. done. }
    fold (evictable e). destruct (evictable e) eqn:He.
    + rewrite Hk32. destruct IH as [[-> Hnone]|(e0 & Hin & He0 & -> & Hmax)].
      * cbn. right. exists e. split_and!; [apply elem_of_app; right; by apply list_elem_of_singleton|done|done|].
        intros k' e' [Hin|[= -> ->]%list_elem_of_singleton]%elem_of_app He'; [|done].
        by rewrite (Hnone k' e' Hin) in He'.
      * assert (Hi : i <> (-1)%Z).
        { rewrite Forall_forall in Hs. apply list_elem_of_In in Hin. specialize (Hs _ Hin). cbn in Hs. lia. }
        rewrite bool_decide_eq_false_2 by done. cbn [orb]. case_bool_decide; right.
        -- exists e. split_and!; [apply elem_of_app; right; by apply list_elem_of_singleton|done|done|].
           intros k' e' [Hin'|[= -> ->]%list_elem_of_singleton]%elem_of_app He'; [|done].
           specialize (Hmax k' e' Hin' He'). lia.
        -- exists e0. split_and!; [by apply elem_of_app; left|done|done|].
           intros k' e' [Hin'|[= -> ->]%list_elem_of_singleton]%elem_of_app He'; [by eapply Hmax|lia].
    + destruct IH as [[-> Hnone]|(e0 & Hin & He0 & -> & Hmax)].
      * left. split; [done|].
        intros k' e' [Hin|[= -> ->]%list_elem_of_singleton]%elem_of_app; [by eapply Hnone|done].
      * right. exists e0. split_and!; [by apply elem_of_app; left|done|done|].
        intros k' e' [Hin'|[= -> ->]%list_elem_of_singleton]%elem_of_app He'; [by eapply Hmax|congruence].
Qed.

Lemma elem_of_keys (m : gmap Z block_cache_entry_t) k : k ∈ C.keys m <-> is_Some (m !! k).
Proof.
  unfold C.keys. rewrite merge_sort_Permutation, elem_of_elements, elem_of_dom. done.
Qed.

Lemma elem_of_entries (m : gmap Z block_cache_entry_t) k e : (k, e) ∈ C.entries m <-> m !! k = Some e.
Proof.
  unfold C.entries. rewrite list_elem_of_omap. split.
  - intros (k' & Hk' & Hm). destruct (m !! k') as [e'|] eqn:E; [|done]. cbn in Hm. congruence.
  - intros Hm. exists k. rewrite elem_of_keys, Hm. split; [by eexists|done].
Qed.
End Eviction.

Section Replacement.
Context {OS : OpenSSL} {OL : @OpenSSLLaws OS} {B : BlockStore} {BL : BlockStoreLaws B}.
Implicit Types (s : dn_io) (V : list bytes).

Lemma entries_small s V fr busy : cache_inv s V fr busy -> small_keys (C.entries (bc s)).
Proof.
  intros Hinv. apply Forall_forall. intros [k e] Hin. apply list_elem_of_In, elem_of_entries in Hin.
  destruct (ci_entry _ _ _ _ Hinv k e Hin) as (Hr & _). destruct (ci_size _ _ _ _ Hinv) as [? Hs].
  unfold ADDR_LIMIT in Hs. dn_consts. cbn. lia.
Qed.

(** At most the root and the last block are pinned, so a full cache has an entry to evict. *)
Lemma exists_evictable s V fr :
  cache_inv s V fr None -> (3 <= size (bc s))%nat -> exists k e, bc s !! k = Some e /\ evictable e = true.
Proof.
  intros Hinv Hsz.
  destruct (set_choose_or_empty (dom (bc s) ∖ {[0%Z; (zlen V - 1)%Z]})) as [[k Hk]|Hempty].
  - apply elem_of_difference in Hk as [Hk Hn].
    apply elem_of_dom in Hk as [e He]. exists k, e. split; [done|].
    destruct (ci_entry _ _ _ _ Hinv k e He) as (_ & _ & Hr & Hp). unfold evictable. rewrite Hr.
    rewrite (bool_decide_eq_false_2 (None = Some k)) by done.
    destruct (pinned e); [|done]. destruct (Hp eq_refl) as [-> | ->]; set_solver.
  - assert (Hsub : dom (bc s) ⊆ {[0%Z; (zlen V - 1)%Z]}).
    { intros k Hk. destruct (decide (k ∈ ({[0%Z; (zlen V - 1)%Z]} : gset Z))); [done|]. set_solver. }
    apply subseteq_size in Hsub. rewrite size_dom, size_union_alt, !size_singleton in Hsub.
    assert (Hd : (size ({[(zlen V - 1)%Z]} ∖ {[0%Z]} : gset Z) <= size ({[(zlen V - 1)%Z]} : gset Z))%nat)
      by (apply subseteq_size, subseteq_difference_l, reflexivity).
    rewrite size_singleton in Hd. lia.
Qed.

(** Evicting one entry: an evictable one of greatest clock is written back and dropped. *)
Lemma replacement_MRU_ok s V fr :
  cache_inv s V fr None -> (3 <= size (bc s))%nat ->
  wp C.replacement_policy_MRU s (fun _ s' => cache_inv s' V fr None /\ frame s s' /\
    exists k e, bc s !! k = Some e /\ evictable e = true /\ bc s' = delete k (bc s) /\
      forall k' e', bc s !! k' = Some e' -> evictable e' = true -> (e'.(clock) <= e.(clock))%Z).
Proof.
  intros Hinv Hsz. destruct (exists_evictable s V fr Hinv Hsz) as (k0 & e0 & Hk0 & He0).
  pose proof (mru_scan _ (entries_small _ _ _ _ Hinv)) as Hscan.
  unfold C.replacement_policy_MRU. wp_bind. apply wp_get.
  destruct (fold_left C.mru_step _ _) as [i c].
  destruct Hscan as [[_ Hnone]|(e & Hin & He & -> & Hmax)].
  { apply elem_of_entries in Hk0. by rewrite (Hnone _ _ Hk0) in He0. }
  apply elem_of_entries in Hin. destruct (ci_entry _ _ _ _ Hinv i e Hin) as (Hr & _ & Hrf & Hp).
  destruct (ci_size _ _ _ _ Hinv) as [? Hs]. unfold ADDR_LIMIT in Hs.
  wp_bind. apply wp_throw_if; [apply bool_decide_eq_false_2; lia|].
  rewrite u32_small by (dn_consts; lia).
  eapply wp_conseq; [by eapply flush_entry_ok|]. intros _ s' (Hinv' & Hbc & Ha & Hf & Hk).
  split; [done|]. split.
  - split; try done. intros k e1 Hk1 Hp1. exists e1. split; [|done]. rewrite Hbc.
    rewrite lookup_delete_ne; [done|]. intros ->. rewrite Hin in Hk1. injection Hk1 as <-.
    unfold evictable in He. by rewrite Hp1 in He.
  - exists i, e. split_and!; [done..|]. intros k' e' Hk' He'. eapply Hmax; [|done]. by apply elem_of_entries.
Qed.

Lemma size_delete_lt (m : gmap Z block_cache_entry_t) k e :
  m !! k = Some e -> size m = S (size (delete k m)).
Proof.
  intros Hk. rewrite map_size_delete_Some by (by exists e).
  assert (size m <> 0); [|lia]. rewrite map_size_empty_iff. intros He. by rewrite He in Hk.
Qed.

Lemma replacement_loop_ok fuel s V fr :
  cache_inv s V fr None -> (size (bc s) <= 512 + fuel)%nat -> (1 <= fuel)%nat ->
  wp (C.replacement_loop fuel) s (fun _ s' => cache_inv s' V fr None /\ frame s s' /\
    (size (bc s') < 512)%nat /\ bc s' ⊆ bc s).
Proof.
  revert s. induction fuel as [|fuel IH]; intros s Hinv Hsz Hf; [lia|]. cbn [C.replacement_loop].
  wp_bind. apply wp_get. change BLOCK_CACHE_MAX_ITEMS with 512%Z. case_bool_decide as Hfull.
  2:{ apply wp_ret. split_and!; [done|reflexivity|lia|done]. }
  pose proof (so_size _ (ci_slots _ _ _ _ Hinv)).
  wp_bind. eapply wp_conseq; [apply replacement_MRU_ok; [done|lia]|].
  intros _ s1 (Hinv1 & Hfr1 & k & e & Hk & _ & Hbc & _). pose proof (size_delete_lt _ _ _ Hk) as Hd.
  rewrite <-Hbc in Hd. assert (Hsub : bc s1 ⊆ bc s) by (rewrite Hbc; apply delete_subseteq).
  destruct fuel as [|fuel].
  - cbn [C.replacement_loop]. wp_bind. apply wp_get. change BLOCK_CACHE_MAX_ITEMS with 512%Z.
    rewrite bool_decide_eq_false_2 by lia. apply wp_ret. split_and!; [done|done|lia|done].
  - eapply wp_conseq; [apply IH; [done|lia|lia]|]. intros _ s2 (Hinv2 & Hfr2 & Hs2 & Hn2).
    split_and!; [done|by transitivity s1|done|by transitivity (bc s1)].
Qed.

(** Making room: afterwards a slot is free. *)
Lemma replacement_policy_ok s V fr :
  cache_inv s V fr None ->
  wp C.replacement_policy s (fun _ s' => cache_inv s' V fr None /\ frame s s' /\
    (size (bc s') < 512)%nat /\ bc s' ⊆ bc s).
Proof.
  intros Hinv. pose proof (so_size _ (ci_slots _ _ _ _ Hinv)) as Hsz.
  unfold C.replacement_policy. wp_bind. apply wp_get. cbv zeta.
  wp_bind. apply wp_throw_if.
  { apply bool_decide_eq_false_2. intros Hne. apply Hne. change BLOCK_CACHE_MAX_ITEMS with 512%Z.
    unfold Slots.available_slots, zlen. lia. }
  destruct (decide (size (bc s) = 0)) as [E|E].
  - rewrite E. cbn [C.replacement_loop]. wp_bind. apply wp_get. rewrite E.
    rewrite bool_decide_eq_false_2 by (by vm_compute). apply wp_ret. split_and!; [done|reflexivity|lia|done].
  - apply replacement_loop_ok; [done|lia|lia].
Qed.
End Replacement.

Section Retrieve.
Context {OS : OpenSSL} {OL : @OpenSSLLaws OS} {B : BlockStore} {BL : BlockStoreLaws B}.
Implicit Types (s : dn_io) (V : list bytes).

(** ** State changes that keep the invariant *)

(** Only the counters and flags of one entry change. *)
Lemma cache_inv_touch s s' V fr busy busy' k e e' :
  cache_inv s V fr busy -> bc s !! k = Some e -> bc s' = <[k := e']> (bc s) ->
  s'.(cache_).(slots_) = s.(cache_).(slots_) -> s'.(block_warehouse_) = s.(block_warehouse_) ->
  s'.(io_world) = s.(io_world) ->
  e'.(dn) = e.(dn) -> e'.(modified) = e.(modified) ->
  e'.(references) = (if bool_decide (busy' = Some k) then 1 else 0)%Z ->
  (e'.(pinned) = true -> k = 0 \/ k = zlen V - 1)%Z ->
  (forall k', k' <> k -> busy = Some k' <-> busy' = Some k') ->
  cache_inv s' V fr busy'.
Proof.
  intros [Hkey Hids Hsize Hslots Hentry Hcached Hst] Hk Hbc Hsl Hbw Hw Hd Hm Hr Hp Hb.
  assert (Hlk : forall k1 e1, bc s' !! k1 = Some e1 ->
    exists e0, bc s !! k1 = Some e0 /\ e0.(dn) = e1.(dn) /\ e0.(modified) = e1.(modified)).
  { intros k1 e1. rewrite Hbc. destruct (decide (k1 = k)) as [->|].
    - rewrite lookup_insert_eq. intros [= <-]. eauto.
    - rewrite lookup_insert_ne by done. eauto. }
  split; rewrite ?Hbw; try done.
  - eapply (slots_ok_update s s' k e e'); rewrite ?Hsl; done.
  - intros k1 e1. rewrite Hbc. destruct (decide (k1 = k)) as [->|].
    + rewrite lookup_insert_eq. intros [= <-]. destruct (Hentry k e Hk) as (? & Hst1 & _ & _).
      split_and!; try (done || lia). intros E. rewrite Hm. by apply Hst1.
    + rewrite lookup_insert_ne by done. intros (? & ? & Hr1 & ?)%Hentry. split_and!; try (done || lia).
      rewrite Hr1. by rewrite (bool_decide_ext _ _ (Hb k1 ltac:(done))).
  - intros k1 e1 v (e0 & Hk0 & Hd0 & _)%Hlk Hv. rewrite Hsl, <-Hd0. by eapply Hcached.
  - intros k1 v Hk1 Hv Hm1. assert (Hs : stored s fr k1 v).
    { apply Hst; [done..|]. intros e1 He1. destruct (decide (k1 = k)) as [->|Hne].
      - rewrite Hk in He1. injection He1 as <-. rewrite <-Hm. apply Hm1. by rewrite Hbc, lookup_insert_eq.
      - apply Hm1. by rewrite Hbc, lookup_insert_ne. }
    eapply stored_mono; [..|exact Hs]; unfold log; rewrite ?Hbw, ?Hw; done.
Qed.

(** A stored block is loaded into a free slot. *)
Lemma cache_inv_insert s s' V fr busy k v d q n e :
  cache_inv s V fr None -> bc s !! k = None -> (0 <= k < zlen V)%Z -> V !! Z.to_nat k = Some v ->
  queue s = d :: q -> queue s' = q -> nodes s' = <[d := n]> (nodes s) -> bc s' = <[k := e]> (bc s) ->
  s'.(block_warehouse_) = s.(block_warehouse_) -> s'.(io_world) = s.(io_world) ->
  e.(dn) = d -> e.(modified) = false -> holds fr n k v ->
  e.(references) = (if bool_decide (busy = Some k) then 1 else 0)%Z ->
  (e.(pinned) = true -> k = 0 \/ k = zlen V - 1)%Z -> (busy = None \/ busy = Some k) ->
  cache_inv s' V fr busy.
Proof.
  intros [Hkey Hids Hsize Hslots Hentry Hcached Hst] Hk Hr Hv Hq Hq' Hn Hbc Hbw Hw Hd Hm Hh Hrf Hp Hb.
  destruct Hslots as [S1 S2 S3 S4 S5 S6]. rewrite Hq in *. apply list.NoDup_cons in S2 as [Hdq S2].
  assert (Hdlt : d < 512) by (apply S3; apply elem_of_cons; by left).
  assert (Hlk : forall k1 e1, bc s' !! k1 = Some e1 ->
    (k1 = k /\ e1 = e) \/ (k1 <> k /\ bc s !! k1 = Some e1 /\ e1.(dn) <> d)).
  { intros k1 e1. rewrite Hbc. destruct (decide (k1 = k)) as [->|].
    - rewrite lookup_insert_eq. intros [= <-]. by left.
    - rewrite lookup_insert_ne by done. intros He1. right. split_and!; [done..|].
      destruct (S4 _ _ He1) as [_ Hni]. apply not_elem_of_cons in Hni. tauto. }
  split; rewrite ?Hbw; try done.
  - split; rewrite ?Hq', ?Hn, ?length_insert; try done.
    + intros d' Hd'. apply S3. apply elem_of_cons. by right.
    + intros k1 e1 [[-> ->]|(_ & He1 & _)]%Hlk; [by rewrite Hd|].
      destruct (S4 _ _ He1) as [? Hni]. apply not_elem_of_cons in Hni. tauto.
    + intros k1 k2 e1 e2 [[-> ->]|(? & E1 & ?)]%Hlk [[-> ->]|(? & E2 & ?)]%Hlk; [done|congruence..|].
      by eapply S5.
    + rewrite Hbc, map_size_insert_None by done. cbn in S6. lia.
  - intros k1 e1 [[-> ->]|(Hne & He1 & _)]%Hlk; [split_and!; try (done || lia); intros; lia|].
    destruct (Hentry _ _ He1) as (? & ? & Hr1 & ?). split_and!; try (done || lia). rewrite Hr1.
    destruct Hb as [->| ->]; [done|]. rewrite (bool_decide_eq_false_2 (Some k = Some k1)); [done|congruence].
  - intros k1 e1 v1 [[-> ->]|(Hne & He1 & Hd1)]%Hlk Hv1.
    + assert (v1 = v) as -> by congruence. exists n. rewrite Hn, Hd. split; [|done].
      apply list_lookup_insert_eq. by rewrite S1.
    + destruct (Hcached _ _ _ He1 Hv1) as (n1 & Hn1 & Hh1). exists n1. split; [|done].
      by rewrite Hn, list_lookup_insert_ne.
  - intros k1 v1 Hk1 Hv1 Hm1. assert (Hs : stored s fr k1 v1).
    { apply Hst; [done..|]. intros e1 He1. apply Hm1. rewrite Hbc, lookup_insert_ne; [done|congruence]. }
    eapply stored_mono; [..|exact Hs]; unfold log; rewrite ?Hbw, ?Hw; done.
Qed.

(** The client that holds the node of [k], or a node that stays in the cache, changes it. *)
Lemma cache_inv_write s s' V fr fr' busy k e n' v' :
  cache_inv s V fr busy -> busy = None \/ busy = Some k -> bc s !! k = Some e -> (k < zlen V)%Z ->
  bc s' = <[k := mk_bce e.(pinned) 0 true e.(clock) e.(dn)]> (bc s) ->
  queue s' = queue s -> nodes s' = <[e.(dn) := n']> (nodes s) ->
  s'.(block_warehouse_) = s.(block_warehouse_) -> s'.(io_world) = s.(io_world) ->
  holds fr' n' k v' -> (forall k', k' <> k -> fr' k' = fr k')%Z ->
  cache_inv s' (<[Z.to_nat k := v']> V) fr' None.
Proof.
  intros [Hkey Hids Hsize Hslots Hentry Hcached Hst] Hbusy Hk HkV Hbc Hq Hn Hbw Hw Hh Hfree.
  destruct (Hentry k e Hk) as (Hr & _ & _ & Hp). destruct (so_entry _ Hslots k e Hk) as [Hlt _].
  assert (Hholds : forall n0 k0 v0, k0 <> k -> holds fr n0 k0 v0 -> holds fr' n0 k0 v0).
  { intros n0 k0 v0 Hne (? & ? & ? & Hf). split_and!; try done. by rewrite Hfree. }
  split; rewrite ?Hbw, ?zlen_insert, ?length_insert; try done.
  - apply (slots_ok_update s s' k e (mk_bce e.(pinned) 0 true e.(clock) e.(dn))); rewrite ?Hn, ?length_insert; done.
  - intros k1 e1. rewrite Hbc. destruct (decide (k1 = k)) as [->|].
    + rewrite lookup_insert_eq. intros [= <-]. split_and!; done || lia || (intros; lia).
    + rewrite lookup_insert_ne by done. intros (? & ? & Hr1 & ?)%Hentry. split_and!; try (done || lia).
      rewrite Hr1. rewrite (bool_decide_eq_false_2 (busy = Some k1)); [done|]. destruct Hbusy; congruence.
  - intros k1 e1 v1. rewrite Hbc. destruct (decide (k1 = k)) as [->|].
    + rewrite lookup_insert_eq. intros [= <-]. rewrite list_lookup_insert_eq.
      2:{ unfold zlen in *. lia. }
      intros [= <-]. exists n'. split; [rewrite Hn; apply list_lookup_insert_eq; by rewrite (so_nodes _ Hslots)|].
      done.
    + rewrite lookup_insert_ne by done. intros He1 Hv1. destruct (Hentry _ _ He1) as (? & _).
      rewrite list_lookup_insert_ne in Hv1 by lia. destruct (Hcached _ _ _ He1 Hv1) as (n1 & Hn1 & Hh1).
      exists n1. split; [|by apply Hholds]. rewrite Hn, list_lookup_insert_ne; [done|].
      intros Hd. pose proof (so_inj _ Hslots k k1 e e1 Hk He1 Hd). congruence.
  - intros k1 v1 Hk1 Hv1 Hm1. destruct (decide (k1 = k)) as [->|Hne].
    + specialize (Hm1 _ ltac:(rewrite Hbc; apply lookup_insert_eq)). done.
    + rewrite list_lookup_insert_ne in Hv1 by lia.
      destruct (Hst k1 v1 Hk1 Hv1) as (b & n & ? & ? & ? & ? & Hh1).
      { intros e1 He1. apply Hm1. by rewrite Hbc, lookup_insert_ne. }
      exists b, n. unfold log. rewrite Hbw, Hw. split_and!; try done. by apply Hholds.
Qed.
End Retrieve.

Section Clients.
Context {OS : OpenSSL} {OL : @OpenSSLLaws OS} {B : BlockStore} {BL : BlockStoreLaws B}.
Implicit Types (s : dn_io) (V : list bytes).

(** The client of [k] has the pointer [d] to a node with the content [v]. *)
Definition has_node s V fr k v d : Prop :=
  exists e n, bc s !! k = Some e /\ e.(dn) = d /\ nodes s !! d = Some n /\ holds fr n k v.

Lemma deref_ok s V fr k v d Q :
  has_node s V fr k v d -> (forall n, nodes s !! d = Some n -> holds fr n k v -> Q n s) ->
  wp (C.deref d) s Q.
Proof.
  intros (e & n1 & _ & _ & Hn & Hh) HQ. eapply wp_eq; [|intros _; by eapply HQ].
  unfold C.deref, Slots.deref. run_monad. by rewrite Hn.
Qed.

Lemma queue_not_empty s : slots_ok s -> (size (bc s) < 512)%nat -> exists d q, queue s = d :: q.
Proof. intros Hs Hsz. pose proof (so_size _ Hs). destruct (queue s) as [|d q]; [cbn in *; lia|eauto]. Qed.

(** The entry of a block that was not in the cache [m]: nothing else was added. *)
Definition loaded (m m' : gmap Z block_cache_entry_t) k p : Prop :=
  exists e, m' !! k = Some e /\ e.(pinned) = p /\ e.(modified) = false /\
    forall k', k' <> k -> is_Some (m' !! k') -> is_Some (m !! k').

Lemma loaded_insert m m1 k e : m1 ⊆ m -> e.(modified) = false -> loaded m (<[k := e]> m1) k e.(pinned).
Proof.
  intros Hs Hm. exists e. rewrite lookup_insert_eq. split_and!; [done..|]. intros k' Hne.
  rewrite lookup_insert_ne by done. intros [e' He']. exists e'. by eapply lookup_weaken.
Qed.

(** A block that is not cached is loaded from the store: the entry of the loaded node. *)
Lemma load_block_ok s V fr k v p :
  cache_inv s V fr None -> bc s !! k = None -> (0 <= k < zlen V)%Z -> V !! Z.to_nat k = Some v ->
  (size (bc s) < 512)%nat -> (p = true -> k = 0 \/ k = zlen V - 1)%Z ->
  wp (let! s := getM in
      let! data_node_id :=
        liftM (BW.get_datablock_id_from_datablock_num s.(block_warehouse_) k) in
      let! d := C.allocate_slot in
      let! n := C.deref d in
      let n := DN.deserialize_original_encrypted_data_id n data_node_id in
      C.assign d n ;;!
      let! n := C.in_world (DN.load n s.(block_warehouse_).(state_encryption_key_)) in
      C.assign d n ;;!
      C.put k d ;;!
      whenM p (C.pin k)) s
    (fun _ s' => cache_inv s' V fr None /\ frame s s' /\
       exists e, bc s' = <[k := e]> (bc s) /\ e.(pinned) = p /\ e.(modified) = false /\ has_node s' V fr k v e.(dn)).
Proof.
  intros Hinv Hk Hr Hv Hsz Hp. pose proof Hinv as [Hkey Hids Hsize Hslots Hentry Hcached Hst].
  destruct (queue_not_empty s Hslots Hsz) as (d & q & Hq).
  assert (Hd : d < 512) by (apply (so_queue_lt _ Hslots); rewrite Hq; apply elem_of_cons; by left).
  destruct (Hst k v) as (block & n & Hid & Hget & Hin & Henc & Hh); [lia|done|by rewrite Hk|].
  assert (exists n0, nodes s !! d = Some n0) as [n0 Hn0].
  { apply lookup_lt_is_Some_2. by rewrite (so_nodes _ Hslots). }
  destruct (load_ok (DN.deserialize_original_encrypted_data_id n0 (ComputeMessageHash block)) n (iokey s)
    s.(io_world) block) as (n' & Hload & Hsame & Hwf' & _); [done|done|done|apply Hh|].
  wp_bind. apply wp_get. wp_bind.
  eapply wp_lift.
  { unfold BW.get_datablock_id_from_datablock_num, vec_get. rewrite bool_decide_eq_true_2 by lia. by rewrite Hid. }
  wp_bind. eapply wp_eq; [unfold C.allocate_slot, Slots.allocate; run_monad; rewrite Hq; reflexivity|]. intros _.
  wp_bind. eapply wp_eq; [unfold C.deref, Slots.deref; run_monad; cbn; rewrite Hn0; reflexivity|]. intros _.
  cbv zeta. wp_bind. apply wp_modify.
  wp_bind. eapply wp_eq; [unfold C.in_world; run_monad; cbn [C.set_slots C.set_cache io_world]; rewrite Hload; reflexivity|].
  intros _. wp_bind. apply wp_modify. wp_bind.
  eapply wp_eq.
  { unfold C.put, C.find, C.store_entry. run_monad. cbn [C.set_slots C.set_cache C.set_world cache_ block_cache_].
    rewrite Hk. rewrite bool_decide_eq_false_2 by (by intros [? ?]). reflexivity. }
  intros _. set (s1 := C.set_block_cache _ _).
  assert (Hn1 : nodes s1 = <[d := n']> (nodes s)) by (cbn; apply list_insert_insert_eq).
  assert (Hh' : holds fr n' k v) by (by eapply holds_same).
  assert (Hnd : nodes s1 !! d = Some n').
  { rewrite Hn1. apply list_lookup_insert_eq. by rewrite (so_nodes _ Hslots). }
  assert (Hinv1 : cache_inv s1 V fr None).
  { eapply (cache_inv_insert s s1 V fr None k v d q n'); try done. by left. }
  assert (Hfr : frame s s1).
  { split; try done. intros k1 e1 Hk1 Hp1. exists e1. split; [|done]. cbn. rewrite lookup_insert_ne; [done|].
    intros ->. congruence. }
  assert (Hbc : bc s1 !! k = Some (mk_bce false 0 false s.(cache_).(cache_clock_) d)) by (cbn; apply lookup_insert_eq).
  apply wp_when; intros ->.
  - eapply wp_eq; [unfold C.pin, C.update_entry, C.find, C.store_entry; run_monad; rewrite Hbc; reflexivity|].
    intros _. set (s2 := C.set_block_cache _ _).
    assert (Hbc2 : bc s2 !! k = Some (mk_bce true 0 false s.(cache_).(cache_clock_) d)) by (cbn; apply lookup_insert_eq).
    split_and!.
    + eapply (cache_inv_touch s1 s2); done.
    + etransitivity; [exact Hfr|]. split; try done. intros k1 e1 Hk1 Hp1. exists e1. split; [|done].
      cbn. rewrite lookup_insert_ne; [done|]. intros <-. rewrite Hbc in Hk1. by injection Hk1 as <-.
    + eexists; split; [cbn; apply insert_insert_eq|]. split; [done|]. split; [done|]. by eexists _, n'.
  - split_and!; [done..|]. eexists; split; [cbn; reflexivity|]. split; [done|]. split; [done|]. by eexists _, n'.
Qed.

(** Getting a block: the client gets a node with its content, and the content of every block is
    unchanged, whatever had to be evicted. *)
Lemma retrieve_ok s V fr k v p :
  cache_inv s V fr None -> (0 <= k < zlen V)%Z -> V !! Z.to_nat k = Some v ->
  (p = true -> k = 0 \/ k = zlen V - 1)%Z ->
  wp (C.retrieve k p) s (fun d s' => cache_inv s' V fr (Some k) /\ frame s s' /\
    has_node s' V fr k v d /\
    (bc s !! k = None -> loaded (bc s) (bc s') k p)).
Proof.
  intros Hinv Hr Hv Hp. unfold C.retrieve. wp_bind. apply wp_read. wp_bind.
  set (Q := fun (_ : unit) s1 => cache_inv s1 V fr None /\ frame s s1 /\
    exists e, bc s1 !! k = Some e /\ (bc s !! k = None -> loaded (bc s) (bc s1) k p) /\ has_node s1 V fr k v e.(dn)).
  assert (Hwp : wp (whenM (bool_decide (bc s !! k = None)) (
        C.replacement_policy ;;!
        let! s := getM in
        let! data_node_id :=
          liftM (BW.get_datablock_id_from_datablock_num s.(block_warehouse_) k) in
        let! d := C.allocate_slot in
        let! n := C.deref d in
        let n := DN.deserialize_original_encrypted_data_id n data_node_id in
        C.assign d n ;;!
        let! n := C.in_world (DN.load n s.(block_warehouse_).(state_encryption_key_)) in
        C.assign d n ;;!
        C.put k d ;;!
        whenM p (C.pin k))) s Q).
  { apply wp_when; intros Hc.
    - apply bool_decide_eq_true in Hc. wp_bind.
      eapply wp_conseq; [by apply replacement_policy_ok|]. intros _ s1 (Hinv1 & Hfr1 & Hsz1 & Hn1).
      eapply wp_conseq; [apply load_block_ok; try done; by eapply lookup_weaken_None|].
      intros u s2 (Hinv2 & Hfr2 & e & He & Hpe & Hme & Hhn). split; [done|]. split; [by transitivity s1|].
      exists e. rewrite He, lookup_insert_eq. split_and!; [done| |done]. intros _. rewrite <-Hpe. by apply loaded_insert.
    - apply bool_decide_eq_false in Hc. destruct (bc s !! k) as [e|] eqn:He; [|done].
      split; [done|]. split; [reflexivity|]. exists e. split_and!; [done..|].
      destruct (ci_cached _ _ _ _ Hinv k e v He Hv) as (n & Hn & Hh). by exists e, n. }
  eapply wp_conseq; [exact Hwp|]. clear Hwp.
  intros u s1 (Hinv1 & Hfr1 & e & He & Hpe & (e' & n & He' & _ & Hn & Hh)).
  wp_bind. apply wp_read. rewrite He. wp_bind. apply wp_modify. apply wp_ret.
  set (s2 := C.set_block_cache _ _). set (e2 := mk_bce e.(pinned) (u32 (e.(references) + 1)) e.(modified) e.(clock) e.(dn)).
  destruct (ci_entry _ _ _ _ Hinv1 k e He) as (_ & _ & Hrf & Hpin).
  assert (Hbc2 : bc s2 !! k = Some e2) by (cbn; apply lookup_insert_eq).
  split_and!.
  - eapply (cache_inv_touch s1 s2 V fr None (Some k) k e e2); try done.
    + cbn [references e2]. rewrite Hrf.
      rewrite (bool_decide_eq_false_2 (None = Some k)), (bool_decide_eq_true_2 (Some k = Some k)) by done. done.
    + intros k' Hne. split; [done|congruence].
  - etransitivity; [exact Hfr1|]. split; try done. intros k1 e1 Hk1 Hp1.
    destruct (decide (k1 = k)) as [->|Hne]; [|exists e1; cbn; by rewrite lookup_insert_ne].
    exists e2. rewrite He in Hk1. by injection Hk1 as <-.
  - by exists e2, n.
  - intros Hnone. destruct (Hpe Hnone) as (e0 & He0 & Hp0 & Hm0 & Ho0). assert (e0 = e) as -> by congruence.
    exists e2. split_and!; [done..|]. intros k' Hne. cbn. rewrite lookup_insert_ne by done. by apply Ho0.
Qed.
End Clients.

Section Done.
Context {OS : OpenSSL} {OL : @OpenSSLLaws OS} {B : BlockStore} {BL : BlockStoreLaws B}.
Implicit Types (s : dn_io) (V : list bytes).

(** Giving the node back unchanged. *)
Lemma done_ok s V fr k v d :
  cache_inv s V fr (Some k) -> has_node s V fr k v d ->
  wp (C.done k false) s (fun _ s' => cache_inv s' V fr None /\ frame s s' /\
    nodes s' = nodes s /\ exists e e', bc s !! k = Some e /\ bc s' = <[k := e']> (bc s) /\
      e'.(pinned) = e.(pinned) /\ e'.(modified) = e.(modified) /\ e'.(dn) = e.(dn)).
Proof.
  intros Hinv (e & n & He & _ & Hn & Hh). destruct (ci_entry _ _ _ _ Hinv k e He) as (_ & _ & Hrf & Hpin).
  rewrite bool_decide_eq_true_2 in Hrf by done.
  eapply wp_eq; [unfold C.done, C.update_entry, C.find, C.store_entry; run_monad; rewrite He; reflexivity|].
  intros _. set (s' := C.set_block_cache _ _). split; [|split; [|split]].
  - eapply (cache_inv_touch s s' V fr (Some k) None k e); try done; [cbn; by rewrite Hrf|].
    intros k' Hne. split; [congruence|done].
  - split; try done. intros k1 e1 Hk1 Hp1. cbn. destruct (decide (k1 = k)) as [->|Hne].
    + rewrite lookup_insert_eq. rewrite He in Hk1. injection Hk1 as <-. eauto.
    + exists e1. by rewrite lookup_insert_ne.
  - done.
  - eexists _, _. by split_and!.
Qed.

(** Assigning to a node that is in the cache a node with the same content. *)
Lemma assign_same_ok s V fr busy k v d n' :
  cache_inv s V fr busy -> has_node s V fr k v d -> V !! Z.to_nat k = Some v -> holds fr n' k v ->
  wp (C.assign d n') s (fun _ s' => cache_inv s' V fr busy /\ frame s s' /\ has_node s' V fr k v d /\
    nodes s' !! d = Some n').
Proof.
  intros Hinv (e & n & He & Hd & Hn & Hh) Hv Hh'. apply wp_modify. set (s' := C.set_slots _ _). subst d.
  pose proof Hinv as [Hkey Hids Hsize Hslots Hentry Hcached Hst].
  destruct (so_entry _ Hslots k e He) as [Hlt _].
  assert (Hnn : nodes s' = <[e.(dn) := n']> (nodes s)) by reflexivity.
  assert (Hl : nodes s' !! e.(dn) = Some n').
  { rewrite Hnn. apply list_lookup_insert_eq. by rewrite (so_nodes _ Hslots). }
  split; [|split_and!; [by split; eauto|by exists e, n'|done]].
  split; try done.
  - destruct Hslots as [S1 S2 S3 S4 S5 S6]. split; try done. by rewrite Hnn, length_insert.
  - intros k1 e1 v1 He1 Hv1. destruct (decide (k1 = k)) as [->|Hne].
    + rewrite (He1 : bc s !! k = Some e1) in He. injection He as ->. exists n'. split; [done|].
      assert (v1 = v) as -> by congruence. done.
    + rewrite Hnn, list_lookup_insert_ne; [by eapply Hcached|].
      intros E. by pose proof (so_inj _ Hslots k k1 e e1 He He1 E).
Qed.

(** Writing a new content through the pointer and giving the node back as modified. *)
Lemma assign_done_ok s V fr fr' k v v' d n' :
  cache_inv s V fr (Some k) -> has_node s V fr k v d -> (k < zlen V)%Z ->
  holds fr' n' k v' -> (forall k', k' <> k -> fr' k' = fr k')%Z ->
  wp (C.assign d n' ;;! C.done k true) s
    (fun _ s' => cache_inv s' (<[Z.to_nat k := v']> V) fr' None /\ frame s s').
Proof.
  intros Hinv (e & n & He & Hd & Hn & Hh) HkV Hh' Hfree. subst d.
  destruct (ci_entry _ _ _ _ Hinv k e He) as (_ & _ & Hrf & Hpin).
  rewrite bool_decide_eq_true_2 in Hrf by done.
  eapply wp_eq.
  { unfold C.assign, C.done, C.update_entry, C.find, C.store_entry. run_monad.
    cbn [C.set_slots C.set_cache cache_ block_cache_]. rewrite He. reflexivity. }
  intros _. set (s' := C.set_block_cache _ _). split.
  - eapply (cache_inv_write s s' V fr fr' (Some k) k e n' v'); try done; [by right|]. cbn. by rewrite Hrf.
  - split; try done. intros k1 e1 Hk1 Hp1. cbn. destruct (decide (k1 = k)) as [->|Hne].
    + rewrite lookup_insert_eq. rewrite He in Hk1. injection Hk1 as <-. eauto.
    + exists e1. by rewrite lookup_insert_ne.
Qed.

(** ** Flushing everything *)

Lemma keys_nil (m : gmap Z block_cache_entry_t) : C.keys m = [] -> m = ∅.
Proof.
  intros Hk. apply map_eq. intros k. rewrite lookup_empty. destruct (m !! k) as [e|] eqn:E; [|done].
  assert (k ∈ C.keys m) as Hin by (apply elem_of_keys; by exists e). rewrite Hk in Hin. by apply elem_of_nil in Hin.
Qed.

Lemma flush_loop_ok fuel s V fr :
  cache_inv s V fr None -> (size (bc s) <= fuel)%nat ->
  wp (C.while_not_empty fuel C.flush_entry) s (fun _ s' => cache_inv s' V fr None /\ bc s' = ∅ /\
    s'.(append_dn_) = s.(append_dn_) /\
    s'.(free_space_collector_) = s.(free_space_collector_) /\ iokey s' = iokey s).
Proof.
  assert (Hg : forall n, grows (C.while_not_empty n C.flush_entry)).
  { intros n. apply grows_while. intros. apply grows_flush_entry. }
  revert s. induction fuel as [|fuel IH]; intros s Hinv Hsz; cbn [C.while_not_empty].
  - wp_bind. apply wp_get. assert (E : bc s = ∅) by (apply map_size_empty_iff; lia).
    rewrite E at 1. apply wp_ret. done.
  - apply wp_bind; [intros s0; destruct (C.keys _); [apply grows_ret|apply grows_bind; eauto with grows]|].
    apply wp_get. destruct (C.keys (bc s)) as [|k ks] eqn:Ek.
    { apply keys_nil in Ek. by apply wp_ret. }
    assert (is_Some (bc s !! k)) as [e He] by (apply elem_of_keys; rewrite Ek; apply elem_of_cons; by left).
    apply wp_bind; [done|]. eapply wp_conseq; [by eapply flush_entry_ok|].
    intros _ s1 (Hinv1 & Hbc & Ha & Hf & Hk). pose proof (size_delete_lt _ _ _ He) as Hs. rewrite <-Hbc in Hs.
    eapply wp_conseq; [apply IH; [done|lia]|].
    intros _ s2 (? & ? & Ha2 & Hf2 & Hk2). split_and!; [done..|congruence|congruence|congruence].
Qed.

Lemma flush_ok s V fr :
  cache_inv s V fr None ->
  wp C.flush s (fun _ s' => cache_inv s' V fr None /\ bc s' = ∅ /\ s'.(append_dn_) = s.(append_dn_) /\
    s'.(free_space_collector_) = s.(free_space_collector_) /\ iokey s' = iokey s).
Proof.
  intros Hinv. unfold C.flush.
  apply wp_bind; [intros; apply grows_while; intros; apply grows_flush_entry|].
  apply wp_get. by apply flush_loop_ok.
Qed.
End Done.

(** * Properties *)

(** Retrieving a block of a well formed store succeeds, in any state of the cache, and gives a
    pointer to a node with the block's logical content; the block is marked as referenced, the content
    of every block is unchanged (also of those evicted to make room), and pinned nodes stay where they
    are. *)
Theorem cache_retrieve_correct {OS : OpenSSL} {OL : @OpenSSLLaws OS} {B : BlockStore}
    {BL : BlockStoreLaws B} s V fr k v :
  cache_inv s V fr None -> (0 <= k < zlen V)%Z -> V !! Z.to_nat k = Some v ->
  wp (C.retrieve k false) s (fun d s' =>
    cache_inv s' V fr (Some k) /\ frame s s' /\
    exists e n, bc s' !! k = Some e /\ e.(dn) = d /\ e.(references) = 1%Z /\
      nodes s' !! d = Some n /\ n.(block_num_) = k /\ payload n = v).
Proof.
  intros Hinv Hr Hv. eapply wp_conseq; [by eapply retrieve_ok|].
  intros d s' (Hinv' & Hfr & (e & n & He & Hd & Hn & (_ & Hnum & Hpay & _)) & _).
  split_and!; [done..|]. exists e, n. split_and!; try done.
  destruct (ci_entry _ _ _ _ Hinv' k e He) as (_ & _ & Hrf & _). by rewrite bool_decide_eq_true_2 in Hrf.
Qed.

(** The replacement policy, on a cache with at least three entries, writes back and drops exactly
    one entry; it is neither pinned nor referenced, no such entry has a greater clock, and the logical
    content of every block is preserved. *)
Theorem replacement_MRU_correct {OS : OpenSSL} {OL : @OpenSSLLaws OS} {B : BlockStore}
    {BL : BlockStoreLaws B} s V fr :
  cache_inv s V fr None -> (3 <= size (bc s))%nat ->
  wp C.replacement_policy_MRU s (fun _ s' => cache_inv s' V fr None /\
    exists k e, bc s !! k = Some e /\ bc s' = delete k (bc s) /\
      e.(pinned) = false /\ e.(references) = 0%Z /\
      forall k' e', bc s !! k' = Some e' -> e'.(pinned) = false -> e'.(references) = 0%Z ->
        (e'.(clock) <= e.(clock))%Z).
Proof.
  intros Hinv Hsz. eapply wp_conseq; [by apply replacement_MRU_ok|].
  intros _ s' (Hinv' & _ & k & e & Hk & He & Hbc & Hmax). split; [done|]. exists k, e.
  unfold evictable in *. apply andb_true_iff in He as [Hp Hrf]. apply bool_decide_eq_true in Hrf.
  apply negb_true_iff in Hp. split_and!; try done.
  intros k' e' Hk' Hp' Hr'. eapply Hmax; [done|]. by rewrite Hp', bool_decide_eq_true_2.
Qed.

(** Flushing leaves the cache empty with all its slots free, and every block of the store in the
    untrusted store, under the id the warehouse records, encrypted under the store's key with its
    logical content. *)
Theorem cache_flush_correct {OS : OpenSSL} {OL : @OpenSSLLaws OS} {B : BlockStore}
    {BL : BlockStoreLaws B} s V fr :
  cache_inv s V fr None ->
  wp C.flush s (fun _ s' => bc s' = ∅ /\ length (queue s') = 512 /\
    forall k v, (0 <= k)%Z -> V !! Z.to_nat k = Some v ->
      exists block n, ids s' !! Z.to_nat k = Some (ComputeMessageHash block) /\
        BlockStoreGet s'.(io_world).(w_store) (ComputeMessageHash block) = Ok (PDO_SUCCESS, block) /\
        encodes_node (iokey s) block n /\ n.(block_num_) = k /\ payload n = v).
Proof.
  intros Hinv. eapply wp_conseq; [by apply flush_ok|]. intros _ s' (Hinv' & Hbc & _ & _ & Hk).
  split; [done|]. split.
  - pose proof (so_size _ (ci_slots _ _ _ _ Hinv')) as Hs. rewrite Hbc, map_size_empty in Hs. lia.
  - intros k v Hk0 Hv. destruct (ci_stored _ _ _ _ Hinv' k v Hk0 Hv) as (b & n & ? & ? & ? & Henc & (? & ? & ? & _)).
    { intros e. by rewrite Hbc, lookup_empty. }
    exists b, n. rewrite Hk in Henc. by split_and!.
Qed.
