(* ===== verification/DataNodeIO.v ===== *)
(** Data node IO: common/state/data_node_io.{h,cpp}, reads and writes that span data nodes. *)
From S2P Require Import Prelude Crypto BlockStore DataNode FreeSpace Json JsonSpec StateNode Cache.

Module IO.
Section DataNodeIO.
Context `{OpenSSL, BlockStore, LibC}.

(** The constructor; [append_dn_] is not initialized by it. *)
Definition new (w : world) (key : bytes) : dn_io :=
  mk_io _ w (BW.new key) FSC.empty 0 C.new.

Definition lift_fsc {A} (f : free_space_collector -> result (free_space_collector * A)) : M dn_io A :=
  let! s := getM in
  let! '(c, a) := liftM (f s.(free_space_collector_)) in
  modifyM (C.set_fsc c) ;;!
  retM a.

Definition lift_bw (f : block_warehouse -> result block_warehouse) : M dn_io unit :=
  let! s := getM in
  let! b := liftM (f s.(block_warehouse_)) in
  modifyM (C.set_bw b).

Definition fsc_collect (bo : block_offset_t) (length : Z) : M dn_io unit :=
  lift_fsc (fun f => let? f := FSC.collect f bo length in Ok (f, tt)).

Definition fsc_allocate (length : Z) : M dn_io (option block_offset_t) :=
  lift_fsc (fun f => FSC.allocate f length).

Definition get_last_block_num : M dn_io Z :=
  readM (fun s => BW.get_last_block_num s.(block_warehouse_)).

Definition append_node : M dn_io data_node :=
  let! s := getM in C.deref s.(append_dn_).

Definition block_offset_for_appending : M dn_io block_offset_t :=
  let! n := append_node in retM (DN.cursor n).

Definition init_append_data_node : M dn_io unit :=
  let! append_data_node_block_num := get_last_block_num in
  let! s := getM in
  let! _ := liftM (BW.get_datablock_id_from_datablock_num s.(block_warehouse_) append_data_node_block_num) in
  let! d := C.retrieve append_data_node_block_num true in
  modifyM (C.set_append_dn d) ;;!
  C.done append_data_node_block_num false.

Definition initialize (node : StateNode) : M dn_io StateNode :=
  let! s := getM in
  let! '(bw, node) := liftM (BW.deserialize_block_ids s.(block_warehouse_) node) in
  modifyM (C.set_bw bw) ;;!
  let! free_space_collection_block_num := get_last_block_num in
  let! d := C.retrieve free_space_collection_block_num false in
  let! s := getM in
  let! id := liftM (BW.get_datablock_id_from_datablock_num s.(block_warehouse_) free_space_collection_block_num) in
  let f := s.(free_space_collector_) in
  modifyM (C.set_fsc (mk_fsc f.(is_collection_modified) f.(deferred_fsi) f.(free_space_collection) id)) ;;!
  let! fsc_dn := C.deref d in
  lift_fsc (fun f => let? f := FSC.deserialize_from_data_node f fsc_dn in Ok (f, tt)) ;;!
  let! last := get_last_block_num in
  C.done last false ;;!
  lift_bw (fun b => BW.remove_block_id_from_datablock_num b free_space_collection_block_num) ;;!
  init_append_data_node ;;!
  retM node.

Definition add_and_init_append_data_node : M dn_io unit :=
  let! n := append_node in
  throw_ifM (bool_decide (DN.free_bytes n = u32 (data_end_index - data_begin_index)))
    (RuntimeError "appending new data node after empty one") ;;!
  let! append_data_node_block_num := get_last_block_num in
  C.unpin append_data_node_block_num ;;!
  C.replacement_policy ;;!
  let append_data_node_block_num := u32 (append_data_node_block_num + 1) in
  let! d := C.allocate_slot in
  modifyM (C.set_append_dn d) ;;!
  C.assign d (DN.new append_data_node_block_num) ;;!
  C.put append_data_node_block_num d ;;!
  C.pin append_data_node_block_num ;;!
  C.set_modified append_data_node_block_num ;;!
  lift_bw (fun b => BW.add_block_id b BW.empty_id).

Definition consume_add_and_init_append_data_node : M dn_io unit :=
  let! bo := block_offset_for_appending in
  let! n := append_node in
  whenM (bool_decide (DN.free_bytes n > 0)%Z) (
    fsc_collect bo (DN.free_bytes n) ;;!
    let! n' := liftM (DN.consume_free_space n (DN.free_bytes n)) in
    let! s := getM in
    C.assign s.(append_dn_) n') ;;!
  add_and_init_append_data_node.

Definition add_and_init_append_data_node_cond (cond : bool) : M dn_io unit :=
  whenM cond add_and_init_append_data_node.

Definition consume_add_and_init_append_data_node_cond (cond : bool) : M dn_io unit :=
  whenM cond consume_add_and_init_append_data_node.

(** Fuel for a transfer of [len] bytes: at most one iteration transfers nothing (the cursor sits at
    the end of a data node), one stops at the end of the first node, and every other one transfers a
    whole node or is the last. *)
Definition transfer_fuel (len : Z) : nat :=
  Z.to_nat (len / (data_end_index - data_begin_index)) + 3.

(** The loop of [write_across_data_nodes]. *)
Fixpoint write_loop (fuel : nat) (buffer : bytes) (total_bytes_written : Z) (bo : block_offset_t) :
  M dn_io unit :=
  if bool_decide (total_bytes_written < zlen buffer)%Z then
    match fuel with
    | O => throwM OutOfFuel
    | S fuel =>
        let! last := get_last_block_num in
        add_and_init_append_data_node_cond (bool_decide (bo.(block_num) > last)%Z) ;;!
        let! d := C.retrieve bo.(block_num) false in
        let! n := C.deref d in
        let! '(n', bytes_written) := liftM (DN.write_at n buffer total_bytes_written bo) in
        C.assign d n' ;;!
        C.done bo.(block_num) (bool_decide (bytes_written > 0)%Z) ;;!
        write_loop fuel buffer (u32 (total_bytes_written + bytes_written))
          (DN.advance_block_offset bo bytes_written)
    end
  else retM tt.

Definition write_across_data_nodes (buffer : bytes) (write_from : Z) (bo_at : block_offset_t) :
  M dn_io unit :=
  write_loop (transfer_fuel (zlen buffer)) buffer 0 bo_at.

(** The loop of [read_across_data_nodes]; the result is the output buffer. *)
Fixpoint read_loop (fuel : nat) (total_bytes_read len : Z) (bo : block_offset_t) (out_buffer : bytes) :
  M dn_io bytes :=
  if bool_decide (total_bytes_read < len)%Z then
    match fuel with
    | O => throwM OutOfFuel
    | S fuel =>
        let! d := C.retrieve bo.(block_num) false in
        let! n := C.deref d in
        let! '(out_buffer, bytes_read) :=
          liftM (DN.read_at n bo (u32 (len - total_bytes_read)) out_buffer) in
        C.done bo.(block_num) false ;;!
        read_loop fuel (u32 (total_bytes_read + bytes_read)) len
          (DN.advance_block_offset bo bytes_read) out_buffer
    end
  else retM out_buffer.

Definition read_across_data_nodes (bo_at : block_offset_t) (len : Z) (out_buffer : bytes) :
  M dn_io bytes :=
  read_loop (transfer_fuel len) 0 len bo_at out_buffer.
End DataNodeIO.
End IO.
