(* ===== verification/MemorySpec.v ===== *)
(** What data_node_io promises to the trie: the data nodes form one flat memory of bytes, read and
    written at linear addresses and extended by whole blocks of zeros when a write runs past its end,
    whatever the cache evicts and reloads on the way. *)
From S2P Require Import Prelude Crypto BlockStore Codec DataNode FreeSpace Json JsonSpec StateNode Cache CacheSpec DataNodeIO.

(** * Blocks and addresses *)

(** Blocks of equal length, one after the other. *)
Definition uniform (V : list bytes) : Prop := Forall (fun v => zlen v = block_data_len) V.

Lemma zlen_concat V : uniform V -> zlen (concat V) = (zlen V * block_data_len)%Z.
Proof.
  induction 1 as [|v V Hv _ IH]; [done|]. cbn [concat]. rewrite zlen_app, zlen_cons, Hv, IH. lia.
Qed.

Lemma uniform_app V1 V2 : uniform (V1 ++ V2) <-> uniform V1 /\ uniform V2.
Proof. apply Forall_app. Qed.

Lemma split_at_block (V : list bytes) k v : V !! k = Some v -> V = take k V ++ v :: drop (S k) V.
Proof. intros Hk. symmetry. by apply take_drop_middle. Qed.

Lemma uniform_take V k : uniform V -> (k <= length V)%nat ->
  zlen (concat (take k V)) = (Z.of_nat k * block_data_len)%Z.
Proof.
  intros Hu Hk. rewrite zlen_concat by (by apply Forall_take). unfold zlen. by rewrite length_take, Nat.min_l.
Qed.

Lemma subseq_app_in {A} (l1 l2 : list A) i n :
  (0 <= i)%Z -> (i + n <= zlen l1)%Z -> subseq (l1 ++ l2) i n = subseq l1 i n.
Proof.
  intros. apply list_eq. intros j. destruct (decide (Z.of_nat j < n)%Z).
  - rewrite !lookup_subseq by lia. rewrite lookup_app_l; [done|]. unfold zlen in *. lia.
  - by rewrite !lookup_subseq_ge by lia.
Qed.

Lemma overwrite_app_l {A} (l1 l2 : list A) i v :
  (0 <= i)%Z -> (i + zlen v <= zlen l1)%Z -> overwrite (l1 ++ l2) i v = overwrite l1 i v ++ l2.
Proof.
  intros Hi Hl. unfold overwrite, zlen in *. rewrite take_app_le, drop_app_le by lia. by rewrite <-!app_assoc.
Qed.

Lemma overwrite_app_r {A} (l1 l2 : list A) i v :
  (zlen l1 <= i)%Z -> overwrite (l1 ++ l2) i v = l1 ++ overwrite l2 (i - zlen l1) v.
Proof.
  intros Hl. unfold overwrite, zlen in *. rewrite take_app_ge, drop_app_ge by lia. rewrite <-!app_assoc.
  repeat f_equal; lia.
Qed.

(** Reading and overwriting inside one block. *)
Lemma read_block V k v o n : uniform V -> V !! Z.to_nat k = Some v -> (0 <= k)%Z ->
  (0 <= o)%Z -> (o + n <= block_data_len)%Z ->
  subseq (concat V) (k * block_data_len + o) n = subseq v o n.
Proof.
  intros Hu Hk Hk0 Ho Hn. pose proof (lookup_lt_Some _ _ _ Hk) as Hlt.
  pose proof (uniform_take V (Z.to_nat k) Hu ltac:(lia)) as Ht. rewrite Z2Nat.id in Ht by done.
  assert (Hv : zlen v = block_data_len).
  { unfold uniform in Hu. rewrite Forall_forall in Hu. apply Hu. apply list_elem_of_In. by eapply list_elem_of_lookup_2. }
  rewrite (split_at_block V _ v Hk) at 1. rewrite concat_app. cbn [concat].
  rewrite subseq_app_r, Ht by lia. replace (k * block_data_len + o - k * block_data_len)%Z with o by lia.
  rewrite subseq_app_in; [done|lia|lia].
Qed.

Lemma write_block V k v o b : uniform V -> V !! Z.to_nat k = Some v -> (0 <= k)%Z ->
  (0 <= o)%Z -> (o + zlen b <= block_data_len)%Z ->
  concat (<[Z.to_nat k := overwrite v o b]> V) = overwrite (concat V) (k * block_data_len + o) b /\
  uniform (<[Z.to_nat k := overwrite v o b]> V).
Proof.
  intros Hu Hk Hk0 Ho Hn. pose proof (lookup_lt_Some _ _ _ Hk) as Hlt.
  pose proof (uniform_take V (Z.to_nat k) Hu ltac:(lia)) as Ht. rewrite Z2Nat.id in Ht by done.
  assert (Hv : zlen v = block_data_len).
  { unfold uniform in Hu. rewrite Forall_forall in Hu. apply Hu. apply list_elem_of_In. by eapply list_elem_of_lookup_2. }
  split.
  - rewrite insert_take_drop by done. rewrite (split_at_block V _ v Hk) at 3.
    rewrite !concat_app. cbn [concat]. rewrite overwrite_app_r, Ht by lia.
    replace (k * block_data_len + o - k * block_data_len)%Z with o by lia.
    rewrite overwrite_app_l by lia. done.
  - apply Forall_insert; [done|]. by rewrite zlen_overwrite by lia.
Qed.

(** * The payload of a node *)

Lemma payload_read n b k :
  wf_dn n -> (data_begin_index <= b)%Z -> (b + k <= data_end_index)%Z ->
  subseq n.(data_) b k = subseq (payload n) (b - data_begin_index) k.
Proof.
  intros (Hl & _) Hb Hk. unfold payload. rewrite subseq_subseq by (dn_consts; lia).
  f_equal. lia.
Qed.

Lemma subseq_overwrite_in {A} (l : list A) i n j v :
  (0 <= i)%Z -> (i <= j)%Z -> (j + zlen v <= i + n)%Z -> (i + n <= zlen l)%Z ->
  subseq (overwrite l j v) i n = overwrite (subseq l i n) (j - i) v.
Proof.
  intros Hi Hj Hv Hl. pose proof (zlen_nonneg v). assert (Hn : (0 <= n)%Z) by lia.
  assert (Hs : zlen (subseq l i n) = n) by (apply zlen_subseq; lia).
  apply list_eq. intros k. destruct (decide (Z.of_nat k < n)%Z) as [Hk|Hk].
  - rewrite lookup_subseq by done.
    destruct (decide (j - i <= Z.of_nat k < j - i + zlen v)%Z) as [Hin|Hout].
    + rewrite !lookup_overwrite_in by (rewrite ?Hs; lia). f_equal. lia.
    + rewrite !lookup_overwrite_out by (rewrite ?Hs; lia). by rewrite lookup_subseq.
  - rewrite lookup_subseq_ge by lia. symmetry. apply lookup_ge_None.
    assert (Ho : zlen (overwrite (subseq l i n) (j - i) v) = n) by (rewrite zlen_overwrite by lia; done).
    unfold zlen in Ho. lia.
Qed.

Lemma payload_new k : payload (DN.new k) = replicate (Z.to_nat block_data_len) Byte.x00.
Proof. vm_compute. reflexivity. Qed.

(** * The invariant of a data_node_io object *)

Section Memory.
Context {OS : OpenSSL} {OL : @OpenSSLLaws OS} {B : BlockStore} {BL : BlockStoreLaws B}.
Implicit Types (s : dn_io) (V : list bytes).

(** The last block is cached and pinned, and [append_dn_] points to it. *)
Definition append_ok s V : Prop :=
  exists e, bc s !! (zlen V - 1)%Z = Some e /\ e.(pinned) = true /\ e.(dn) = s.(append_dn_).

Definition io_inv s V (free : Z) : Prop :=
  (exists fr, cache_inv s V fr None /\ fr (zlen V - 1)%Z = free) /\
  append_ok s V /\ uniform V /\ (0 <= free <= block_data_len)%Z.

(** The first address that was never written: the cursor of the append node. *)
Definition used V (free : Z) : Z := zlen V * block_data_len - free.

Lemma append_ok_frame s s' V : append_ok s V -> frame s s' -> append_ok s' V.
Proof.
  intros (e & He & Hp & Hd) Hfr. destruct (fr_pinned _ _ Hfr _ _ He Hp) as (e' & He' & Hp' & Hd').
  exists e'. rewrite (fr_append _ _ Hfr). split_and!; [done..|congruence].
Qed.

Lemma wp_assoc {A C D} (m : M dn_io A) (f : A -> M dn_io C) (g : C -> M dn_io D) s Q :
  wp (bindM (bindM m f) g) s Q -> wp (bindM m (fun a => bindM (f a) g)) s Q.
Proof.
  unfold wp, bindM. destruct (m s) as [[a|e] s1]; done.
Qed.

Lemma block_of_addr V bo len : valid_bo bo -> (0 < len)%Z -> (addr bo + len <= zlen V * block_data_len)%Z ->
  (0 <= bo.(block_num) < zlen V)%Z /\ exists v, V !! Z.to_nat bo.(block_num) = Some v.
Proof.
  intros (Hb & Hv) Hlen Ha. assert (Hlt : (bo.(block_num) < zlen V)%Z).
  { unfold addr in Ha. dn_consts. destruct (decide (block_num bo < zlen V)%Z); [done|]. lia. }
  split; [lia|]. apply lookup_lt_is_Some_2. unfold zlen in *. lia.
Qed.

Lemma inv_addr_limit s V fr busy : cache_inv s V fr busy -> (zlen V * block_data_len < 2 ^ 32)%Z.
Proof. intros Hinv. by destruct (ci_size _ _ _ _ Hinv). Qed.

Lemma io_size s V free : io_inv s V free ->
  (0 < zlen V)%Z /\ (zlen V * block_data_len < ADDR_LIMIT)%Z /\ length (ids s) = length V.
Proof. intros ((fr & Hinv & _) & _). destruct (ci_size _ _ _ _ Hinv). pose proof (ci_ids _ _ _ _ Hinv). done. Qed.

Lemma io_addr_limit s V free : io_inv s V free -> (zlen V * block_data_len < 2 ^ 32)%Z.
Proof. intros Hio. by destruct (io_size _ _ _ Hio) as (_ & ? & _). Qed.

(** ** Reading *)

Lemma read_step_ok s V free bo len out :
  io_inv s V free -> valid_bo bo -> (0 < len)%Z -> (addr bo + len <= zlen V * block_data_len)%Z ->
  let k := Z.min len (data_end_index - bo.(bytes_)) in
  forall (f : bytes -> Z -> M dn_io bytes) Q, (forall o r, grows (f o r)) ->
  (forall s', io_inv s' V free -> frame s s' ->
     wp (f (out ++ subseq (concat V) (addr bo) k) k) s' Q) ->
  wp (let! d := C.retrieve bo.(block_num) false in
      let! n := C.deref d in
      let! '(o, r) := liftM (DN.read_at n bo len out) in
      C.done bo.(block_num) false ;;! f o r) s Q.
Proof.
  intros ((fr & Hinv & Hlast) & Hap & Hu & Hfr) Hv Hlen Ha k f Q Hg HQ.
  destruct (block_of_addr V bo len Hv Hlen Ha) as (Hr & v & Hl). pose proof (inv_addr_limit _ _ _ _ Hinv) as Hlim.
  assert (Hlen32 : (0 <= len < 2 ^ 32)%Z) by (pose proof (addr_nonneg _ Hv); lia).
  apply wp_bind; [grows; apply Hg|].
  eapply wp_conseq; [by eapply retrieve_ok|]. intros d s1 (Hinv1 & Hfr1 & Hnode & _).
  apply wp_bind; [grows; apply Hg|]. eapply deref_ok; [exact Hnode|]. intros n Hn (Hwf & Hnum & Hpay & _).
  apply wp_bind; [grows; apply Hg|]. eapply wp_lift; [by apply read_at_spec|]. fold k.
  apply wp_bind; [intros; apply Hg|]. eapply wp_conseq; [by eapply done_ok|]. intros _ s2 (Hinv2 & Hfr2 & _).
  assert (Hfr02 : frame s s2) by (by transitivity s1).
  destruct Hv as (Hv1 & Hv2).
  rewrite payload_read, Hpay by (done || (subst k; dn_consts; lia)).
  rewrite <-(read_block V bo.(block_num)) by (done || (subst k; dn_consts; lia)).
  apply HQ; [|done]. split; [by exists fr|]. split_and!; [by eapply append_ok_frame|done|lia|lia].
Qed.

(** The address and the offset in the block after a transfer of [k] bytes. *)
Lemma advance_transfer bo len k :
  valid_bo bo -> k = Z.min len (data_end_index - bo.(bytes_)) -> (0 <= len)%Z -> (addr bo + len < 2 ^ 32)%Z ->
  let bo' := DN.advance_block_offset bo k in
  valid_bo bo' /\ addr bo' = (addr bo + k)%Z /\
  ((k < len)%Z -> bo'.(bytes_) = data_begin_index) /\ (0 <= k <= len)%Z.
Proof.
  intros Hv -> Hlen Hlim bo'. set (k := Z.min len _) in *. pose proof (addr_nonneg _ Hv) as Ha.
  assert (Hk : (0 <= k <= len)%Z) by (destruct Hv; subst k; lia).
  destruct (advance_spec bo k) as [Ha' [Hv' Hc']]; [done|lia|dn_consts; lia|].
  split_and!; try (done || lia). intros Hlt.
  assert (k = data_end_index - bo.(bytes_))%Z as Hkk by (subst k; lia).
  fold bo' in Ha', Hv', Hc'. unfold addr in Ha'. destruct Hv as [_ Hv], Hv' as [Hb' Hv']. dn_consts. lia.
Qed.

Lemma read_loop_ok fuel s V free bo total len out :
  io_inv s V free -> valid_bo bo -> (0 <= total <= len)%Z -> (len < 2 ^ 32)%Z ->
  (addr bo + (len - total) <= zlen V * block_data_len)%Z ->
  (total < len -> bo.(bytes_) - data_begin_index + (len - total) <= block_data_len * Z.of_nat fuel)%Z ->
  wp (IO.read_loop fuel total len bo out) s (fun r s' =>
    r = out ++ subseq (concat V) (addr bo) (len - total) /\ io_inv s' V free /\ frame s s').
Proof.
  revert s bo total out. induction fuel as [|fuel IH]; intros s bo total out Hinv Hv Ht Hlen Ha Hfuel;
    cbn [IO.read_loop]; case_bool_decide as Hlt.
  - destruct Hv. specialize (Hfuel Hlt). lia.
  - apply wp_ret. replace (len - total)%Z with 0%Z by lia. rewrite app_nil_r. by split_and!.
  - pose proof (io_addr_limit _ _ _ Hinv) as Hlim. rewrite u32_small by lia.
    assert (Hg : forall n t b o, grows (IO.read_loop n t len b o)).
    { induction n; intros; cbn [IO.read_loop]; grows; eauto. }
    eapply (read_step_ok s V free bo (len - total) out Hinv Hv ltac:(lia) ltac:(lia)
      (fun out_buffer bytes_read => IO.read_loop fuel (u32 (total + bytes_read)) len
         (DN.advance_block_offset bo bytes_read) out_buffer)); [intros; apply Hg|].
    intros s1 Hinv1 Hfr1. set (k := Z.min _ _).
    destruct (advance_transfer bo (len - total) k Hv eq_refl ltac:(lia) ltac:(lia)) as (Hv' & Ha' & Hnext & Hk).
    rewrite u32_small by lia.
    eapply wp_conseq.
    { apply IH; [done|done|lia|done|rewrite Ha'; lia|].
      intros Hlt'. specialize (Hfuel Hlt). rewrite Hnext by lia. destruct Hv as [? ?]. subst k.
      dn_consts. lia. }
    intros r s2 (-> & Hinv2 & Hfr2). split_and!; [|done|by transitivity s1].
    rewrite Ha', <-app_assoc. f_equal.
    rewrite <-(take_drop (Z.to_nat k) (subseq _ (addr bo) (len - total))).
    unfold subseq. rewrite take_take, skipn_firstn_comm, drop_drop. pose proof (addr_nonneg _ Hv).
    f_equal; [f_equal; lia|]. f_equal; [lia|]. f_equal. lia.
  - apply wp_ret. replace (len - total)%Z with 0%Z by lia. rewrite app_nil_r. by split_and!.
Qed.
End Memory.

(** ** Appending a block *)

Section Append.
Context {OS : OpenSSL} {OL : @OpenSSLLaws OS} {B : BlockStore} {BL : BlockStoreLaws B}.
Implicit Types (s : dn_io) (V : list bytes).

Definition zero_block : bytes := replicate (Z.to_nat block_data_len) Byte.x00.

Lemma grows_lift_bw f : (forall b b', f b = Ok b' -> b'.(state_encryption_key_) = b.(state_encryption_key_)) ->
  grows (IO.lift_bw f).
Proof.
  intros Hf s. unfold IO.lift_bw. run_monad. destruct (f _) as [b|] eqn:E; [|done]. split; [constructor|].
  by apply Hf.
Qed.
Lemma grows_add_id id : grows (IO.lift_bw (fun b => BW.add_block_id b id)).
Proof.
  apply grows_lift_bw. intros b b'. unfold BW.add_block_id. case_bool_decide; [done|].
  cbn [throw_if result_bind]. by intros [= <-].
Qed.
Lemma grows_remove_id k : grows (IO.lift_bw (fun b => BW.remove_block_id_from_datablock_num b k)).
Proof.
  apply grows_lift_bw. intros b b'. unfold BW.remove_block_id_from_datablock_num, vec_erase.
  case_bool_decide; [|done]. cbn [result_bind]. by intros [= <-].
Qed.
Lemma grows_lift_fsc {A} (f : free_space_collector -> result (free_space_collector * A)) : grows (IO.lift_fsc f).
Proof. unfold IO.lift_fsc. grows. Qed.
Lemma grows_append_node : grows IO.append_node.
Proof. unfold IO.append_node. grows. Qed.
Lemma grows_last : grows IO.get_last_block_num.
Proof. apply grows_read. Qed.
#[local] Hint Resolve grows_add_id grows_remove_id grows_lift_fsc grows_append_node grows_last : grows.
Lemma grows_add : grows IO.add_and_init_append_data_node.
Proof. unfold IO.add_and_init_append_data_node. grows. Qed.
#[local] Hint Resolve grows_add : grows.
Lemma grows_write_loop fuel buffer t bo : grows (IO.write_loop fuel buffer t bo).
Proof.
  revert t bo. induction fuel; intros; cbn [IO.write_loop]; unfold IO.add_and_init_append_data_node_cond; grows; eauto.
Qed.

(** A free slot is given to [k]; an entry of [k] that was there gives its slot back. *)
Lemma slots_ok_replace s s' k d q n e' :
  slots_ok s -> queue s = d :: q -> bc s' = <[k := e']> (bc s) -> e'.(dn) = d ->
  nodes s' = <[d := n]> (nodes s) ->
  queue s' = q ++ match bc s !! k with Some e => [e.(dn)] | None => [] end -> slots_ok s'.
Proof.
  intros [S1 S2 S3 S4 S5 S6] Hq Hbc Hd Hn Hq'. rewrite Hq in *. apply list.NoDup_cons in S2 as [Hdq S2].
  assert (Hdlt : d < 512) by (apply S3; apply elem_of_cons; by left).
  assert (Hin : forall d', d' ∈ queue s' <-> d' ∈ q \/ exists e, bc s !! k = Some e /\ d' = e.(dn)).
  { intros d'. rewrite Hq', elem_of_app. destruct (bc s !! k) as [e|]; split.
    - intros [?| ->%list_elem_of_singleton]; eauto.
    - intros [?|(e0 & [= <-] & ->)]; [by left|]. right. by apply list_elem_of_singleton.
    - intros [?|Hx]; [by left|]. by apply elem_of_nil in Hx.
    - intros [?|(e0 & ? & ->)]; [by left|done]. }
  assert (Hne : forall k1 e1, bc s !! k1 = Some e1 -> e1.(dn) <> d /\ e1.(dn) ∉ q).
  { intros k1 e1 He1. destruct (S4 _ _ He1) as [_ Hni]. apply not_elem_of_cons in Hni. tauto. }
  split.
  - by rewrite Hn, length_insert.
  - rewrite Hq'. apply list.NoDup_app. split; [done|]. destruct (bc s !! k) as [e|] eqn:E; split.
    + intros x Hx ->%list_elem_of_singleton. by destruct (Hne k e E).
    + apply NoDup_singleton.
    + intros x _ Hx. by apply elem_of_nil in Hx.
    + apply NoDup_nil_2.
  - intros d' [Hd'|(e & He & ->)]%Hin; [apply S3, elem_of_cons; by right|]. by apply (S4 k e).
  - intros k1 e1. rewrite Hbc, Hin. destruct (decide (k1 = k)) as [->|Hkk].
    + rewrite lookup_insert_eq. intros [= <-]. rewrite Hd. split; [done|].
      intros [?|(e & He & ->)]; [done|]. by destruct (Hne k e He).
    + rewrite lookup_insert_ne by done. intros He1. split; [by apply (S4 k1)|].
      intros [?|(e & He & Hdd)]; [by apply (Hne k1 e1 He1)|]. apply Hkk. by eapply S5.
  - intros k1 k2 e1 e2. rewrite Hbc.
    destruct (decide (k1 = k)) as [->|H1], (decide (k2 = k)) as [->|H2];
      rewrite ?lookup_insert_eq, ?lookup_insert_ne by done; [done|..].
    + intros [= <-] He2 Hdd. destruct (Hne k2 e2 He2). congruence.
    + intros He1 [= <-] Hdd. destruct (Hne k1 e1 He1). congruence.
    + intros He1 He2. by eapply S5.
  - rewrite Hq', Hbc, length_app. cbn in S6. destruct (bc s !! k) as [e|] eqn:E.
    + rewrite map_size_insert_Some by (by exists e). cbn. lia.
    + rewrite map_size_insert_None by done. cbn. lia.
Qed.

(** The new last block. *)
Lemma cache_inv_append s s' V fr d q e' :
  cache_inv s V fr None -> ((zlen V + 1) * block_data_len < ADDR_LIMIT)%Z ->
  (forall e, bc s !! (zlen V - 1)%Z = Some e -> e.(pinned) = true -> zlen V - 1 = 0)%Z ->
  queue s = d :: q -> bc s' = <[zlen V := e']> (bc s) -> e' = mk_bce true 0 true e'.(clock) d ->
  nodes s' = <[d := DN.new (zlen V)]> (nodes s) ->
  queue s' = q ++ match bc s !! zlen V with Some e => [e.(dn)] | None => [] end ->
  ids s' = ids s ++ [BW.empty_id] -> iokey s' = iokey s -> s'.(io_world) = s.(io_world) ->
  cache_inv s' (V ++ [zero_block]) (set_free fr (zlen V) block_data_len) None.
Proof.
  intros [Hkey Hids Hsize Hslots Hentry Hcached Hst] Hlim Hunp Hq Hbc He' Hn Hq' Hids' Hkey' Hw.
  assert (Hdn : e'.(dn) = d) by (by rewrite He').
  assert (Hz : zlen (V ++ [zero_block]) = (zlen V + 1)%Z) by (rewrite zlen_app; done).
  assert (Hd : d < 512) by (apply (so_queue_lt _ Hslots); rewrite Hq; apply elem_of_cons; by left).
  assert (Hholds : forall n k v, (k < zlen V)%Z -> holds fr n k v -> holds (set_free fr (zlen V) block_data_len) n k v).
  { intros n k v Hk (? & ? & ? & ?). split_and!; [done..|]. rewrite set_free_ne by lia. done. }
  assert (Hlk : forall k v, (0 <= k)%Z -> (V ++ [zero_block]) !! Z.to_nat k = Some v ->
    (k < zlen V)%Z /\ V !! Z.to_nat k = Some v \/ k = zlen V /\ v = zero_block).
  { intros k v Hk Hl. apply lookup_app_Some in Hl as [Hl|[Hge Hl]].
    - left. split; [|done]. apply lookup_lt_Some in Hl. unfold zlen. lia.
    - right. pose proof Hl as Hl2. apply lookup_lt_Some in Hl2. cbn in Hl2. unfold zlen.
      assert (Z.to_nat k - length V = 0) as E by lia. rewrite E in Hl. cbn in Hl. split; [lia|congruence]. }
  split; rewrite ?Hkey', ?Hz; try done.
  - rewrite Hids', !length_app. cbn. lia.
  - split; [lia|done].
  - by eapply slots_ok_replace.
  - intros k e. rewrite Hbc. destruct (decide (k = zlen V)) as [->|Hne].
    + rewrite lookup_insert_eq. intros [= <-]. rewrite He'. cbn. split_and!; try (done || lia); intros; lia.
    + rewrite lookup_insert_ne by done. intros He. destruct (Hentry _ _ He) as (Hr & Hm & Hrf & Hp).
      split_and!; try (done || lia). intros Hpin. destruct (Hp Hpin) as [?| ->]; [by left|].
      left. by eapply Hunp.
  - intros k e v. rewrite Hbc. destruct (decide (k = zlen V)) as [->|Hne].
    + rewrite lookup_insert_eq. intros [= <-] Hv. apply Hlk in Hv as [[? _]|[_ ->]]; [lia| |lia].
      exists (DN.new (zlen V)). rewrite Hn, Hdn. split; [apply list_lookup_insert_eq; by rewrite (so_nodes _ Hslots)|].
      split_and!; [|done|apply payload_new|by rewrite set_free_eq].
      unfold ADDR_LIMIT in Hlim. split_and!; [|cbn; dn_consts; lia|cbn; dn_consts; lia|by vm_compute|by vm_compute].
      unfold DN.new. cbn [data_]. by rewrite zlen_replicate.
    + rewrite lookup_insert_ne by done. intros He Hv. destruct (Hentry _ _ He) as (Hr & _).
      apply Hlk in Hv as [[Hk Hv]|[-> _]]; [|done|lia].
      destruct (Hcached _ _ _ He Hv) as (n & Hnn & Hh). exists n. split; [|by apply Hholds].
      rewrite Hn, list_lookup_insert_ne; [done|]. intros Ed.
      destruct (so_entry _ Hslots k e He) as [_ Hni]. apply Hni. rewrite Hq, Ed. apply elem_of_cons. by left.
  - intros k v Hk Hv Hm. apply Hlk in Hv as [[HkV Hv]|[-> ->]]; [| |done].
    + destruct (Hst k v Hk Hv) as (b & n & Hid & Hget & Hin & Henc & Hh).
      { intros e He. apply Hm. rewrite Hbc, lookup_insert_ne; [done|lia]. }
      exists b, n. unfold log. rewrite Hids', Hkey', Hw. split_and!; try done; [|by apply Hholds].
      rewrite lookup_app_l; [done|]. by eapply lookup_lt_Some.
    + specialize (Hm e' ltac:(rewrite Hbc; apply lookup_insert_eq)). by rewrite He' in Hm.
Qed.
End Append.
#[export] Hint Resolve grows_add_id grows_remove_id grows_lift_fsc grows_append_node grows_last grows_add grows_write_loop : grows.

Section AppendOps.
Context {OS : OpenSSL} {OL : @OpenSSLLaws OS} {B : BlockStore} {BL : BlockStoreLaws B}.
Implicit Types (s : dn_io) (V : list bytes).

Lemma last_block s V fr busy : cache_inv s V fr busy ->
  BW.get_last_block_num s.(block_warehouse_) = (zlen V - 1)%Z.
Proof.
  intros Hinv. pose proof (inv_addr_limit _ _ _ _ Hinv) as Hlim. destruct (ci_size _ _ _ _ Hinv) as [H0 _].
  unfold BW.get_last_block_num. unfold zlen at 1. rewrite (ci_ids _ _ _ _ Hinv). fold (zlen V).
  apply u32_small. dn_consts. lia.
Qed.

Lemma last_content V : (0 < zlen V)%Z -> exists v, V !! Z.to_nat (zlen V - 1) = Some v.
Proof. intros H0. apply lookup_lt_is_Some_2. unfold zlen in *. lia. Qed.

Lemma unpin_ok s V fr k e :
  cache_inv s V fr None -> bc s !! k = Some e ->
  wp (C.unpin k) s (fun _ s' => cache_inv s' V fr None /\
    bc s' = <[k := mk_bce false e.(references) e.(modified) e.(clock) e.(dn)]> (bc s) /\
    s'.(free_space_collector_) = s.(free_space_collector_) /\ iokey s' = iokey s).
Proof.
  intros Hinv He. destruct (ci_entry _ _ _ _ Hinv k e He) as (_ & _ & Hrf & _).
  eapply wp_eq; [unfold C.unpin, C.update_entry, C.find, C.store_entry; run_monad; rewrite He; reflexivity|].
  intros _. split; [|done]. by eapply (cache_inv_touch s _ V fr None None k e).
Qed.

(** The code that installs the new block, once there is a free slot. *)
Lemma install_block_ok s V fr :
  cache_inv s V fr None -> (size (bc s) < 512)%nat -> ((zlen V + 1) * block_data_len < ADDR_LIMIT)%Z ->
  (forall e, bc s !! (zlen V - 1)%Z = Some e -> e.(pinned) = true -> zlen V - 1 = 0)%Z ->
  wp (let! d := C.allocate_slot in
      modifyM (C.set_append_dn d) ;;!
      C.assign d (DN.new (zlen V)) ;;!
      C.put (zlen V) d ;;!
      C.pin (zlen V) ;;!
      C.set_modified (zlen V) ;;!
      IO.lift_bw (fun b => BW.add_block_id b BW.empty_id)) s
    (fun _ s' => cache_inv s' (V ++ [zero_block]) (set_free fr (zlen V) block_data_len) None /\ append_ok s' (V ++ [zero_block]) /\
       (exists e, bc s' !! zlen V = Some e /\ e.(modified) = true) /\
       s'.(free_space_collector_) = s.(free_space_collector_) /\ iokey s' = iokey s).
Proof.
  intros Hinv Hsz Hlim Hunp. pose proof (ci_slots _ _ _ _ Hinv) as Hslots.
  destruct (queue_not_empty s Hslots Hsz) as (d & q & Hq).
  wp_bind. eapply wp_eq; [unfold C.allocate_slot, Slots.allocate; run_monad; rewrite Hq; reflexivity|]. intros _.
  wp_bind. apply wp_modify. wp_bind. apply wp_modify. set (s1 := C.set_slots _ _).
  set (e1 := mk_bce false 0 false s.(cache_).(cache_clock_) d).
  assert (exists s2, C.put (zlen V) d s1 = (Ok tt, s2) /\ bc s2 = <[zlen V := e1]> (bc s) /\
    nodes s2 = <[d := DN.new (zlen V)]> (nodes s) /\
    queue s2 = q ++ match bc s !! zlen V with Some e => [e.(dn)] | None => [] end /\
    s2.(io_world) = s.(io_world) /\ s2.(block_warehouse_) = s.(block_warehouse_) /\
    s2.(free_space_collector_) = s.(free_space_collector_) /\ s2.(append_dn_) = d)
    as (s2 & Hput & Hbc2 & Hn2 & Hq2 & Hw2 & Hbw2 & Hf2 & Ha2).
  { unfold C.put, C.find, C.store_entry. run_monad.
    replace (block_cache_ (cache_ s1)) with (bc s) by reflexivity.
    destruct (bc s !! zlen V) as [e|] eqn:E.
    - rewrite bool_decide_eq_true_2 by (by eexists). unfold C.drop_entry, C.find. run_monad.
      replace (block_cache_ (cache_ s1)) with (bc s) by reflexivity. rewrite E. unfold Slots.release. cbn [s1].
      rewrite bool_decide_eq_false_2; [eexists; split; [reflexivity|]|].
      + cbn. rewrite insert_delete_eq. done.
      + cbn. unfold zlen. rewrite length_insert, (so_nodes _ Hslots). pose proof (so_size _ Hslots) as Hss.
        rewrite Hq in Hss. cbn in Hss. lia.
    - rewrite bool_decide_eq_false_2 by (by intros [? ?]). eexists; split; [reflexivity|].
      cbn. rewrite app_nil_r. done. }
  wp_bind. eapply wp_eq; [exact Hput|]. intros _.
  eapply wp_eq.
  { unfold C.pin, C.set_modified, C.update_entry, C.find, C.store_entry, IO.lift_bw. run_monad.
    rewrite Hbc2, lookup_insert_eq. cbn [C.set_block_cache C.set_cache cache_ block_cache_].
    rewrite lookup_insert_eq. cbn [block_warehouse_]. unfold BW.add_block_id.
    rewrite bool_decide_eq_false_2; [reflexivity|]. intros Hne. by apply Hne. }
  intros _. set (s3 := C.set_bw _ _).
  set (e3 := mk_bce true 0 true s.(cache_).(cache_clock_) d).
  assert (Hbc3 : bc s3 = <[zlen V := e3]> (bc s)).
  { cbn [s3 C.set_bw C.set_block_cache C.set_cache cache_ block_cache_]. rewrite ?Hbc2, !insert_insert_eq. done. }
  split_and!.
  - eapply (cache_inv_append s s3 V fr d q e3); try done; cbn; by rewrite ?Hbw2.
  - exists e3. assert (Hz : (zlen (V ++ [zero_block]) - 1 = zlen V)%Z) by (rewrite zlen_app, zlen_cons, zlen_nil; lia).
    rewrite Hz, Hbc3, lookup_insert_eq. split_and!; [done..|]. cbn. congruence.
  - exists e3. by rewrite Hbc3, lookup_insert_eq.
  - done.
  - cbn. by rewrite Hbw2.
Qed.

(** Adding a block: the memory grows by a block of zeros.  Nothing depends on the free space that the
    last block has at that point, as long as it is not all free. *)
Lemma add_weak_ok s V fr n :
  cache_inv s V fr None -> append_ok s V -> uniform V -> nodes s !! s.(append_dn_) = Some n ->
  n.(free_bytes_) <> block_data_len -> ((zlen V + 1) * block_data_len < ADDR_LIMIT)%Z ->
  wp IO.add_and_init_append_data_node s (fun _ s' =>
    cache_inv s' (V ++ [zero_block]) (set_free fr (zlen V) block_data_len) None /\
    append_ok s' (V ++ [zero_block]) /\ uniform (V ++ [zero_block]) /\
    (exists e, bc s' !! zlen V = Some e /\ e.(modified) = true) /\
    s'.(free_space_collector_) = s.(free_space_collector_) /\ iokey s' = iokey s).
Proof.
  intros Hinv (e & He & Hp & Hd) Hu Hn Hnf Hlim.
  unfold IO.add_and_init_append_data_node. wp_bind.
  eapply wp_eq; [unfold IO.append_node, C.deref, Slots.deref; run_monad; rewrite Hn; reflexivity|]. intros _.
  wp_bind. apply wp_throw_if.
  { rewrite u32_block_data_len. apply bool_decide_eq_false_2. unfold DN.free_bytes. congruence. }
  wp_bind. apply wp_read. rewrite (last_block _ _ _ _ Hinv).
  wp_bind. eapply wp_conseq; [by eapply unpin_ok|]. intros _ s1 (Hinv1 & Hbc1 & Hf1 & Hk1).
  wp_bind. eapply wp_conseq; [by eapply replacement_policy_ok|]. intros _ s2 (Hinv2 & Hfr2 & Hsz2 & Hsub2).
  pose proof (inv_addr_limit _ _ _ _ Hinv) as Hlim0.
  cbv zeta. rewrite u32_small by (dn_consts; unfold ADDR_LIMIT in *; pose proof (zlen_nonneg V); lia).
  replace (zlen V - 1 + 1)%Z with (zlen V) by lia.
  eapply wp_conseq; [eapply install_block_ok; [done|done|done|]|].
  - intros e2 He2 Hp2. exfalso. eapply lookup_weaken in He2; [|exact Hsub2].
    rewrite Hbc1, lookup_insert_eq in He2. by injection He2 as <-.
  - intros _ s3 (Hinv3 & Hap3 & He3 & Hf3 & Hk3).
    pose proof (fr_fsc _ _ Hfr2). pose proof (fr_key _ _ Hfr2).
    split; [done|]. split; [done|]. split; [|split; [done|split; congruence]].
    apply uniform_app. split; [done|]. constructor; [|constructor]. unfold zero_block. by rewrite zlen_replicate.
Qed.

Lemma added_inv s V fr :
  cache_inv s (V ++ [zero_block]) (set_free fr (zlen V) block_data_len) None ->
  append_ok s (V ++ [zero_block]) -> uniform (V ++ [zero_block]) -> io_inv s (V ++ [zero_block]) block_data_len.
Proof.
  intros Hinv Hap Hu. split; [|split_and!; done]. eexists. split; [exact Hinv|].
  rewrite zlen_app, zlen_cons, zlen_nil. replace (zlen V + (1 + 0) - 1)%Z with (zlen V) by lia. apply set_free_eq.
Qed.

(** The append node of a store that satisfies the invariant. *)
Lemma append_node_cached s V fr busy : cache_inv s V fr busy -> append_ok s V ->
  exists n v, nodes s !! s.(append_dn_) = Some n /\ V !! Z.to_nat (zlen V - 1) = Some v /\
    has_node s V fr (zlen V - 1) v s.(append_dn_) /\ holds fr n (zlen V - 1) v.
Proof.
  intros Hinv (e & He & Hp & Hd).
  destruct (last_content V) as [v Hv]; [apply (ci_size _ _ _ _ Hinv)|].
  destruct (ci_cached _ _ _ _ Hinv _ e v He Hv) as (n & Hn & Hh). rewrite Hd in Hn.
  exists n, v. split_and!; try done. by exists e, n.
Qed.

Lemma append_node_inv s V free : io_inv s V free ->
  exists n fr v, cache_inv s V fr None /\ fr (zlen V - 1)%Z = free /\
    nodes s !! s.(append_dn_) = Some n /\ V !! Z.to_nat (zlen V - 1) = Some v /\
    has_node s V fr (zlen V - 1) v s.(append_dn_) /\ holds fr n (zlen V - 1) v /\ n.(free_bytes_) = free.
Proof.
  intros ((fr & Hinv & Hlast) & Hap & Hu & Hf).
  destruct (append_node_cached s V fr None Hinv Hap) as (n & v & Hn & Hv & Hnode & Hh).
  exists n, fr, v. split_and!; try done; try apply Hh. rewrite <-Hlast. apply Hh. lia.
Qed.

Lemma add_ok s V free :
  io_inv s V free -> free <> block_data_len -> ((zlen V + 1) * block_data_len < ADDR_LIMIT)%Z ->
  wp IO.add_and_init_append_data_node s (fun _ s' => io_inv s' (V ++ [zero_block]) block_data_len /\
    s'.(free_space_collector_) = s.(free_space_collector_) /\ iokey s' = iokey s).
Proof.
  intros Hio Hfree Hlim. destruct (append_node_inv s V free Hio) as (n & fr & v & Hinv & _ & Hn & _ & _ & _ & Hnf).
  destruct Hio as (_ & Hap & Hu & _).
  eapply wp_conseq; [eapply add_weak_ok; try done; congruence|].
  intros _ s' (Hinv' & Hap' & Hu' & _ & Hfsc & Hk). split; [by eapply added_inv|done].
Qed.
End AppendOps.

(** ** Writing *)

(** The effect of writing [b] at address [a]: the memory is extended with zeros to whole blocks if it
    is too short, the bytes are replaced, and the end of the used part moves when the write passes it. *)
Definition written (V : list bytes) (free a : Z) (b : bytes) (V' : list bytes) (free' : Z) : Prop :=
  zlen V' = Z.max (zlen V) ((a + zlen b + (block_data_len - 1)) / block_data_len) /\
  concat V' = overwrite (concat V ++ replicate (Z.to_nat ((zlen V' - zlen V) * block_data_len)) Byte.x00) a b /\
  used V' free' = Z.max (used V free) (a + zlen b).

Lemma written_nil V free a : (0 <= a <= used V free)%Z -> (0 <= free)%Z -> written V free a [] V free.
Proof.
  intros Ha Hf. unfold written. rewrite zlen_nil, Z.add_0_r, Z.sub_diag. unfold used in *. dn_consts.
  split_and!; [|by rewrite overwrite_nil, app_nil_r|lia].
  symmetry. apply Z.max_l. Z.to_euclidean_division_equations. lia.
Qed.

(** Writing past the end first appends a block. *)
Lemma written_append V b V' free' : b <> [] ->
  written (V ++ [zero_block]) block_data_len (zlen V * block_data_len) b V' free' ->
  written V 0 (zlen V * block_data_len) b V' free'.
Proof.
  intros Hb (Hz & Hc & Hu). pose proof (zlen_not_nil_pos b Hb) as Hlen.
  unfold written, used in *. rewrite !zlen_app, zlen_cons, zlen_nil in *. rewrite concat_app in Hc. cbn [concat] in Hc.
  assert (Hz' : (zlen V + 1 <= zlen V')%Z) by lia. split_and!.
  - dn_consts. Z.to_euclidean_division_equations. lia.
  - rewrite Hc. f_equal. rewrite app_nil_r, <-app_assoc. f_equal. unfold zero_block. rewrite <-replicate_add. f_equal.
    dn_consts. lia.
  - rewrite Hu. dn_consts. lia.
Qed.

(** Writing in two pieces. *)
Lemma written_trans V free a b1 b2 V1 free1 V' free' :
  (0 <= a)%Z -> (a + zlen b1 <= zlen V * block_data_len)%Z -> uniform V -> zlen V1 = zlen V ->
  concat V1 = overwrite (concat V) a b1 -> used V1 free1 = Z.max (used V free) (a + zlen b1) ->
  written V1 free1 (a + zlen b1) b2 V' free' -> written V free a (b1 ++ b2) V' free'.
Proof.
  intros Ha Hb1 Hu Hz1 Hc1 Hu1 (Hz & Hc & Hused). unfold written. rewrite zlen_app.
  pose proof (zlen_nonneg b1). pose proof (zlen_nonneg b2).
  rewrite Hz1 in Hz. split_and!; [rewrite Hz; f_equal; f_equal; lia| |lia].
  rewrite Hc, Hc1, Hz1. rewrite <-overwrite_app_l by (rewrite ?zlen_concat by done; lia).
  rewrite overwrite_overwrite_app; [done|done|]. rewrite zlen_app, zlen_replicate, zlen_concat by done.
  assert (Hzz : (zlen V <= zlen V')%Z) by lia. rewrite Z2Nat.id by (dn_consts; lia).
  assert ((a + (zlen b1 + zlen b2)) <= zlen V' * block_data_len)%Z; [|lia].
  rewrite Hz. dn_consts. Z.to_euclidean_division_equations. lia.
Qed.

Section Write.
Context {OS : OpenSSL} {OL : @OpenSSLLaws OS} {B : BlockStore} {BL : BlockStoreLaws B}.
Implicit Types (s : dn_io) (V : list bytes).

(** One node of a transfer. *)
Lemma write_step_ok s V free buffer total bo :
  io_inv s V free -> valid_bo bo -> (bo.(block_num) < zlen V)%Z -> (addr bo <= used V free)%Z ->
  (0 <= total < zlen buffer)%Z -> (zlen buffer < 2 ^ 32)%Z ->
  let k := Z.min (zlen buffer - total) (data_end_index - bo.(bytes_)) in
  forall (f : Z -> M dn_io unit) Q, (forall x, grows (f x)) ->
  (forall s' V1 free1, io_inv s' V1 free1 -> zlen V1 = zlen V ->
     concat V1 = overwrite (concat V) (addr bo) (subseq buffer total k) ->
     used V1 free1 = Z.max (used V free) (addr bo + k) ->
     s'.(free_space_collector_) = s.(free_space_collector_) -> iokey s' = iokey s -> wp (f k) s' Q) ->
  wp (let! d := C.retrieve bo.(block_num) false in
      let! n := C.deref d in
      let! '(n', bytes_written) := liftM (DN.write_at n buffer total bo) in
      C.assign d n' ;;!
      C.done bo.(block_num) (bool_decide (bytes_written > 0)%Z) ;;!
      f bytes_written) s Q.
Proof.
  intros ((fr & Hinv & Hlast) & Hap & Hu & Hfr) Hv HbV Ha Ht Hlen k f Q Hg HQ. pose proof Hv as [Hb0 Hbb].
  assert (exists v, V !! Z.to_nat bo.(block_num) = Some v) as [v Hl].
  { apply lookup_lt_is_Some_2. unfold zlen in *. lia. }
  assert (Hbd : bo.(block_num) = (zlen V - 1)%Z -> (bo.(bytes_) <= data_end_index - free)%Z).
  { intros E. unfold addr, used in Ha. rewrite E in Ha. dn_consts. lia. }
  apply wp_bind; [grows; apply Hg|].
  eapply wp_conseq; [by eapply retrieve_ok|]. intros d s1 (Hinv1 & Hfr1 & Hnode & _).
  apply wp_bind; [grows; apply Hg|]. eapply deref_ok; [exact Hnode|]. intros n Hn (Hwf & Hnum & Hpay & Hnf0).
  assert (Hnf : bo.(block_num) = (zlen V - 1)%Z -> n.(free_bytes_) = free).
  { intros E. rewrite <-Hlast, <-E. apply Hnf0. rewrite E, Hlast. lia. }
  apply wp_bind; [grows; apply Hg|].
  pose proof (write_at_spec n buffer total bo Hwf Hv Hnum ltac:(lia) ltac:(lia)) as Hw.
  assert (Hwf' := write_at_wf n buffer total bo _ _ Hwf Hv Hnum ltac:(lia) ltac:(lia) Hw).
  eapply wp_lift; [exact Hw|]. fold k in Hwf' |- *. clear Hw. set (n' := mk_dn _ _ _ _) in *.
  assert (Hk : zlen (subseq buffer total k) = k) by (apply zlen_subseq; subst k; dn_consts; lia).
  assert (Hk0 : (0 <= k <= data_end_index - bo.(bytes_))%Z) by (subst k; lia).
  set (free1 := if bool_decide (bo.(block_num) = zlen V - 1)%Z then n'.(free_bytes_) else free).
  set (v' := overwrite v (bo.(bytes_) - data_begin_index) (subseq buffer total k)).
  set (fr1 := set_free fr bo.(block_num) n'.(free_bytes_)).
  assert (Hlast1 : fr1 (zlen V - 1)%Z = free1).
  { unfold fr1, free1, set_free. rewrite (bool_decide_ext (zlen V - 1 = block_num bo)%Z (block_num bo = zlen V - 1)%Z) by lia.
    by case_bool_decide. }
  assert (Hh' : holds fr1 n' bo.(block_num) v').
  { split_and!; [done|done| |].
    - unfold payload, n', v'. cbn [data_]. rewrite <-Hpay. unfold payload.
      destruct Hwf as (Hl0 & _). apply subseq_overwrite_in; rewrite ?Hl0, ?Hk; dn_consts; lia.
    - intros _. unfold fr1. by rewrite set_free_eq. }
  assert (Haddr : (addr bo = bo.(block_num) * block_data_len + (bo.(bytes_) - data_begin_index))%Z) by done.
  assert (Hin : (addr bo + k <= zlen V * block_data_len)%Z) by (rewrite Haddr; dn_consts; lia).
  assert (Hfr1r : (0 <= free1 <= block_data_len)%Z).
  { unfold free1. case_bool_decide; [|done]. by destruct Hwf' as (_ & _ & ?). }
  assert (Hused : (used V free1 = Z.max (used V free) (addr bo + k))%Z).
  { unfold used, free1. case_bool_decide as E; [|rewrite Haddr; dn_consts; lia].
    unfold n'. cbn [free_bytes_]. rewrite (Hnf E). rewrite Haddr, E. dn_consts. lia. }
  destruct (write_block V bo.(block_num) v (bo.(bytes_) - data_begin_index) (subseq buffer total k))
    as [Hc1 Hu1]; [done|done|done|lia|rewrite Hk; dn_consts; lia|]. fold v' in Hc1, Hu1. rewrite <-Haddr in Hc1.
  case_bool_decide as Hpos.
  - apply wp_assoc. apply wp_bind; [intros; apply Hg|].
    eapply wp_conseq; [eapply (assign_done_ok s1 V fr fr1); try done|].
    { intros k' Hne. by apply set_free_ne. }
    intros _ s2 (Hinv2 & Hfr2). assert (Hfr02 : frame s s2) by (by transitivity s1).
    eapply HQ; [|by rewrite zlen_insert|done| |apply (fr_fsc _ _ Hfr02)|apply (fr_key _ _ Hfr02)].
    + split; [exists fr1; by rewrite zlen_insert|]. split_and!; [|done|lia|lia].
      unfold append_ok. rewrite zlen_insert. by eapply append_ok_frame.
    + unfold used in *. by rewrite zlen_insert.
  - assert (Hkz : k = 0%Z) by lia.
    assert (Hsub : subseq buffer total k = []) by (rewrite Hkz; done).
    assert (Hv' : v' = v) by (unfold v'; by rewrite Hsub, overwrite_nil).
    assert (Hff : free1 = free).
    { unfold free1. case_bool_decide as E; [|done]. unfold n'. cbn [free_bytes_]. rewrite (Hnf E).
      rewrite Hkz. specialize (Hbd E). lia. }
    set (fr2 := set_free fr bo.(block_num) (if bool_decide (bo.(block_num) = zlen V - 1)%Z then free else (-1))).
    assert (Hw : forall k, (0 <= fr2 k)%Z -> fr2 k = fr k).
    { intros k' Hk'. unfold fr2, set_free in *. case_bool_decide as E; [|done].
      case_bool_decide as E2; [|lia]. by rewrite E, E2, Hlast. }
    assert (Hlast2 : fr2 (zlen V - 1)%Z = free).
    { unfold fr2, set_free. case_bool_decide as E; [|done]. by rewrite bool_decide_eq_true_2. }
    apply wp_bind; [grows; apply Hg|]. rewrite Hv' in Hh'.
    assert (Hh2 : holds fr2 n' bo.(block_num) v).
    { destruct Hh' as (? & ? & ? & _). split_and!; try done. unfold fr2. rewrite set_free_eq.
      case_bool_decide as E; [|lia]. intros _. unfold free1 in Hff. by rewrite ?bool_decide_eq_true_2 in Hff. }
    assert (Hnode1 : has_node s1 V fr2 bo.(block_num) v d).
    { destruct Hnode as (e & n0 & ? & ? & ? & Hh). exists e, n0. split_and!; try done. by eapply holds_weaken. }
    apply (cache_inv_weaken _ _ _ _ _ Hw) in Hinv1.
    eapply wp_conseq; [by eapply assign_same_ok|]. intros _ s2 (Hinv2 & Hfr2 & Hnode2 & _).
    apply wp_bind; [intros; apply Hg|]. eapply wp_conseq; [by eapply done_ok|]. intros _ s3 (Hinv3 & Hfr3 & _).
    assert (Hfr03 : frame s s3) by (etransitivity; [exact Hfr1|by transitivity s2]).
    eapply (HQ s3 V free); [|done| | |apply (fr_fsc _ _ Hfr03)|apply (fr_key _ _ Hfr03)].
    + split; [by exists fr2|]. split_and!; [by eapply append_ok_frame|done|lia|lia].
    + by rewrite Hsub, overwrite_nil.
    + by rewrite Hff in Hused.
Qed.
End Write.

Section WriteLoop.
Context {OS : OpenSSL} {OL : @OpenSSLLaws OS} {B : BlockStore} {BL : BlockStoreLaws B}.
Implicit Types (s : dn_io) (V : list bytes).

Lemma grows_add_cond c : grows (IO.add_and_init_append_data_node_cond c).
Proof. unfold IO.add_and_init_append_data_node_cond. grows. Qed.
#[local] Hint Resolve grows_add_cond : grows.

(** An offset that is not past the used part lies in a block of the memory, or in the block that would
    be appended next, when the last one is full. *)
Lemma block_of_used V free bo : valid_bo bo -> (0 <= free)%Z -> (addr bo <= used V free)%Z ->
  (bo.(block_num) < zlen V)%Z \/
  (bo.(block_num) = zlen V /\ free = 0%Z /\ addr bo = zlen V * block_data_len)%Z.
Proof. intros [Hb Hv] Hf Ha. unfold addr, used in *. dn_consts. lia. Qed.

(** If the offset is in the block after the last one, that block is appended. *)
Lemma extend_ok s V free bo b :
  io_inv s V free -> valid_bo bo -> (addr bo <= used V free)%Z -> b <> [] ->
  (addr bo + block_data_len < ADDR_LIMIT)%Z ->
  wp (IO.add_and_init_append_data_node_cond (bool_decide (bo.(block_num) > zlen V - 1)%Z)) s
    (fun _ s' => exists V1 free1, io_inv s' V1 free1 /\ (bo.(block_num) < zlen V1)%Z /\
       (addr bo <= used V1 free1)%Z /\
       (forall V' free', written V1 free1 (addr bo) b V' free' -> written V free (addr bo) b V' free') /\
       s'.(free_space_collector_) = s.(free_space_collector_) /\ iokey s' = iokey s).
Proof.
  intros Hio Hv Ha Hb Hlim. pose proof Hio as (_ & _ & _ & Hf). unfold IO.add_and_init_append_data_node_cond.
  destruct (block_of_used V free bo Hv (proj1 Hf) Ha) as [Hlt|(Hbn & -> & Haddr)].
  - rewrite bool_decide_eq_false_2 by lia. apply wp_ret. exists V, free. by split_and!.
  - rewrite bool_decide_eq_true_2 by lia. cbn [whenM].
    eapply wp_conseq; [eapply add_ok; [exact Hio|by vm_compute|rewrite Haddr in Hlim; lia]|].
    intros _ s' (Hio' & Hfsc & Hk). exists (V ++ [zero_block]), block_data_len.
    rewrite Haddr. unfold used in *. rewrite zlen_app, zlen_cons, zlen_nil.
    split_and!; [done|lia|lia| |done|done]. intros V' free' Hw. by apply written_append.
Qed.

Lemma write_loop_ok fuel s V free buffer total bo :
  io_inv s V free -> valid_bo bo -> (addr bo <= used V free)%Z ->
  (0 <= total <= zlen buffer)%Z -> (zlen buffer < 2 ^ 32)%Z ->
  (addr bo + (zlen buffer - total) + block_data_len < ADDR_LIMIT)%Z ->
  (total < zlen buffer ->
     bo.(bytes_) - data_begin_index + (zlen buffer - total) <= block_data_len * Z.of_nat fuel)%Z ->
  wp (IO.write_loop fuel buffer total bo) s (fun _ s' => exists V' free',
    io_inv s' V' free' /\ written V free (addr bo) (drop (Z.to_nat total) buffer) V' free' /\
    s'.(free_space_collector_) = s.(free_space_collector_) /\ iokey s' = iokey s).
Proof.
  revert s V free total bo.
  induction fuel as [|fuel IH]; intros s V free total bo Hio Hv Ha Ht Hlen Hlim Hfuel;
    cbn [IO.write_loop]; pose proof (addr_nonneg _ Hv) as Ha0; pose proof Hio as (_ & _ & _ & Hf);
    case_bool_decide as Hlt.
  1: { destruct Hv. specialize (Hfuel Hlt). lia. }
  1,3: apply wp_ret; exists V, free; rewrite drop_ge by (unfold zlen in *; lia);
    split_and!; [done|apply written_nil; lia|done|done].
  wp_bind. apply wp_read. destruct Hio as ((fr & Hinv & Hlast) & Hio'). rewrite (last_block _ _ _ _ Hinv).
  assert (Hio : io_inv s V free) by (split; [by exists fr|done]). clear Hinv Hlast Hio'.
  set (rest := drop (Z.to_nat total) buffer).
  assert (Hrest : zlen rest = (zlen buffer - total)%Z) by (unfold rest, zlen in *; rewrite length_drop; lia).
  wp_bind. eapply wp_conseq; [eapply (extend_ok s V free bo rest); try done; [apply zlen_pos_not_nil; lia|lia]|].
  intros _ s1 (V1 & free1 & Hio1 & Hbn1 & Ha1 & Hwr1 & Hfsc1 & Hk1).
  eapply (write_step_ok s1 V1 free1 buffer total bo Hio1 Hv Hbn1 Ha1 ltac:(lia) ltac:(lia)
    (fun bytes_written => IO.write_loop fuel buffer (u32 (total + bytes_written))
                            (DN.advance_block_offset bo bytes_written))); [intros; apply grows_write_loop|].
  set (k := Z.min _ _). intros s2 V2 free2 Hio2 Hz2 Hc2 Hu2 Hfsc2 Hk2.
  destruct (advance_transfer bo (zlen buffer - total) k Hv eq_refl ltac:(lia)) as (Hv' & Ha' & Hnext & Hk).
  { unfold ADDR_LIMIT in Hlim. dn_consts. lia. }
  rewrite u32_small by lia.
  assert (Hkl : zlen (subseq buffer total k) = k) by (apply zlen_subseq; lia).
  eapply wp_conseq.
  { apply (IH s2 V2 free2); [done|done|lia|lia|done|lia|].
    intros Hlt'. specialize (Hfuel Hlt). rewrite Hnext by lia. destruct Hv as [? ?]. subst k. dn_consts. lia. }
  intros _ s3 (V' & free' & Hio3 & Hw3 & Hfsc3 & Hk3). exists V', free'.
  split_and!; [done| |congruence|congruence]. apply Hwr1.
  assert (Hsplit : rest = subseq buffer total k ++ drop (Z.to_nat (total + k)) buffer).
  { unfold rest, subseq. rewrite Z2Nat.inj_add by lia.
    rewrite <-(take_drop (Z.to_nat k) (drop (Z.to_nat total) buffer)) at 1. by rewrite drop_drop. }
  rewrite Hsplit. destruct Hio1 as (Hinv1 & _ & Huni1 & _).
  eapply (written_trans V1 free1 (addr bo)); rewrite ?Hkl; try done; [|by rewrite <-Ha'].
  destruct Hv as [Hb Hbb]. unfold addr. subst k. dn_consts. lia.
Qed.

(** Enough fuel for any transfer. *)
Lemma transfer_fuel_ok bo len : valid_bo bo -> (0 <= len)%Z ->
  (bo.(bytes_) - data_begin_index + len <= block_data_len * Z.of_nat (IO.transfer_fuel len))%Z.
Proof.
  intros [_ Hv] Hlen. unfold IO.transfer_fuel. fold block_data_len. dn_consts.
  pose proof (Z.div_pos len 8184 Hlen ltac:(lia)). pose proof (Z.div_mod len 8184 ltac:(lia)).
  pose proof (Z.mod_pos_bound len 8184 ltac:(lia)). lia.
Qed.

Lemma read_across_ok s V free bo len out :
  io_inv s V free -> valid_bo bo -> (0 <= len)%Z -> (addr bo + len <= zlen V * block_data_len)%Z ->
  wp (IO.read_across_data_nodes bo len out) s (fun r s' =>
    r = out ++ subseq (concat V) (addr bo) len /\ io_inv s' V free /\ frame s s').
Proof.
  intros Hio Hv Hlen Ha. pose proof (io_addr_limit _ _ _ Hio) as Hlim.
  pose proof (addr_nonneg _ Hv) as Ha0. unfold IO.read_across_data_nodes.
  eapply wp_conseq; [apply (read_loop_ok _ s V free bo 0 len out); rewrite ?Z.sub_0_r; try done; try lia|].
  - intros _. by apply transfer_fuel_ok.
  - intros r s'. by rewrite Z.sub_0_r.
Qed.

Lemma write_across_ok s V free bo buffer write_from :
  io_inv s V free -> valid_bo bo -> (addr bo <= used V free)%Z ->
  (addr bo + zlen buffer + block_data_len < ADDR_LIMIT)%Z ->
  wp (IO.write_across_data_nodes buffer write_from bo) s (fun _ s' => exists V' free',
    io_inv s' V' free' /\ written V free (addr bo) buffer V' free' /\
    s'.(free_space_collector_) = s.(free_space_collector_) /\ iokey s' = iokey s).
Proof.
  intros Hio Hv Ha Hlim. pose proof (addr_nonneg _ Hv) as Ha0. pose proof (zlen_nonneg buffer) as Hl0.
  unfold IO.write_across_data_nodes.
  eapply wp_conseq; [apply (write_loop_ok _ s V free buffer 0 bo); rewrite ?Z.sub_0_r; try done; try lia|].
  - unfold ADDR_LIMIT in Hlim. dn_consts. lia.
  - intros _. by apply transfer_fuel_ok.
  - done.
Qed.
End WriteLoop.

(** * Properties *)

(** Reading across data nodes is reading the flat memory: from a well formed store, for any range
    inside it, the bytes of the range are appended to the output, in order, and the memory is
    unchanged, whatever blocks are loaded and evicted on the way; the loop terminates. *)
Theorem read_across_data_nodes_correct {OS : OpenSSL} {OL : @OpenSSLLaws OS} {B : BlockStore}
    {BL : BlockStoreLaws B} s V free bo len out :
  io_inv s V free -> valid_bo bo -> (0 <= len)%Z -> (addr bo + len <= zlen V * block_data_len)%Z ->
  wp (IO.read_across_data_nodes bo len out) s (fun r s' =>
    r = out ++ subseq (concat V) (addr bo) len /\ io_inv s' V free /\
    s'.(free_space_collector_) = s.(free_space_collector_)).
Proof.
  intros Hio Hv Hlen Ha. eapply wp_conseq; [by apply read_across_ok|].
  intros r s' (-> & Hio' & Hfr). split_and!; [done..|]. apply (fr_fsc _ _ Hfr).
Qed.

(** Writing across data nodes is writing the flat memory: the bytes at the address are replaced by
    the buffer and no other byte changes; a write that runs past the end extends the memory by just
    enough blocks of zeros; the append cursor moves to the end of the write if that is further.  The
    loop terminates, and the free space collection is untouched. *)
Theorem write_across_data_nodes_correct {OS : OpenSSL} {OL : @OpenSSLLaws OS} {B : BlockStore}
    {BL : BlockStoreLaws B} s V free bo buffer write_from :
  io_inv s V free -> valid_bo bo -> (addr bo <= used V free)%Z ->
  (addr bo + zlen buffer + block_data_len < ADDR_LIMIT)%Z ->
  wp (IO.write_across_data_nodes buffer write_from bo) s (fun _ s' => exists V' free',
    io_inv s' V' free' /\ written V free (addr bo) buffer V' free' /\
    s'.(free_space_collector_) = s.(free_space_collector_)).
Proof.
  intros Hio Hv Ha Hlim. eapply wp_conseq; [by apply write_across_ok|].
  intros _ s' (V' & free' & Hio' & Hw & Hfsc & _). by exists V', free'.
Qed.
