(* ===== verification/Trie.v ===== *)
(** The trie over data nodes: common/state/trie.{h,cpp}. *)
From S2P Require Import Prelude Crypto BlockStore DataNode FreeSpace Json JsonSpec StateNode Cache DataNodeIO.

Inductive kv_operation_e := GET_OP | PUT_OP | DEL_OP.

#[global] Instance kv_operation_eq_dec : EqDecision kv_operation_e.
Proof. solve_decision. Defined.

Definition MAX_KEY_CHUNK_BYTE_SIZE : Z := 15.

(** The bit-field header, one byte: the flags from the least significant bit, then the 4-bit size. *)
Record trie_node_header_t := mk_hdr {
  isDeleted : bool;
  hasNext : bool;
  hasChild : bool;
  isValue : bool;
  keyChunkSize : Z;
}.

#[global] Instance trie_node_header_eq_dec : EqDecision trie_node_header_t.
Proof. solve_decision. Defined.

(** [trie_node_h_with_ncc_t], 32 bytes. *)
Record trie_node_h := mk_th {
  hdr : trie_node_header_t;
  next_offset : block_offset_t;
  child_offset : block_offset_t;
  key_chunk : bytes;
}.

Record trie_node := mk_tn {
  node : trie_node_h;
  modified : bool;
  initialized : bool;
  location : block_offset_t;
}.

Record recursive_item := mk_ri { ri_node : trie_node; go_next : bool }.

Definition empty_trie_header : trie_node_header_t := mk_hdr false false false false 0.

Module T.
Definition header_byte (h : trie_node_header_t) : byte :=
  byte.of_Z (Z.b2z h.(isDeleted) + 2 * Z.b2z h.(hasNext) + 4 * Z.b2z h.(hasChild) +
             8 * Z.b2z h.(isValue) + 16 * h.(keyChunkSize))%Z.

Definition header_of_byte (b : byte) : trie_node_header_t :=
  let v := byte.unsigned b in
  mk_hdr (Z.testbit v 0) (Z.testbit v 1) (Z.testbit v 2) (Z.testbit v 3) (Z.shiftr v 4).

Definition node_bytes (n : trie_node_h) : bytes :=
  header_byte n.(hdr) :: block_offset.to_ByteArray n.(next_offset) ++
  block_offset.to_ByteArray n.(child_offset) ++ n.(key_chunk).

Definition node_of_bytes (b : bytes) : trie_node_h :=
  let bo i := mk_bo (le_combine (subseq b i 4)) (le_combine (subseq b (i + 4) 4)) in
  mk_th (header_of_byte (nth 0 b Byte.x00)) (bo 1%Z) (bo 9%Z) (subseq b 17 15).

Definition header_size : Z := 1.
Definition size_t_size : Z := 8.
Definition sizeof_node : Z := 32.

(** [sizeof(trie_node_h_with_nc_t) + MAX_KEY_CHUNK_BYTE_SIZE]. *)
Definition new_trie_node_size : Z := 17 + MAX_KEY_CHUNK_BYTE_SIZE.

(** A node whose members have not been set.  The source leaves them indeterminate where it declares
    a local [trie_node]; the bits that [create_node] does not set are never read back. *)
Definition new : trie_node :=
  mk_tn (mk_th empty_trie_header empty_block_offset empty_block_offset
           (replicate (Z.to_nat MAX_KEY_CHUNK_BYTE_SIZE) Byte.x00))
    false false empty_block_offset.

Definition set_node (t : trie_node) (n : trie_node_h) : trie_node :=
  mk_tn n t.(modified) t.(initialized) t.(location).
Definition set_modified (t : trie_node) (m : bool) : trie_node :=
  mk_tn t.(node) m t.(initialized) t.(location).
Definition set_location (t : trie_node) (l : block_offset_t) : trie_node :=
  mk_tn t.(node) t.(modified) t.(initialized) l.
Definition set_next (t : trie_node) (b : block_offset_t) : trie_node :=
  set_node t (mk_th t.(node).(hdr) b t.(node).(child_offset) t.(node).(key_chunk)).
Definition set_child (t : trie_node) (b : block_offset_t) : trie_node :=
  set_node t (mk_th t.(node).(hdr) t.(node).(next_offset) b t.(node).(key_chunk)).
Definition set_hdr (t : trie_node) (h : trie_node_header_t) : trie_node :=
  set_node t (mk_th h t.(node).(next_offset) t.(node).(child_offset) t.(node).(key_chunk)).

(** The two chunks are the first [sc_length] and [kc_length] bytes of the pointers. *)
Fixpoint shared_prefix_length (stored_chunk key_chunk : bytes) : Z :=
  match stored_chunk, key_chunk with
  | a :: s, b :: k => if bool_decide (a = b) then 1 + shared_prefix_length s k else 0
  | _, _ => 0
  end%Z.

(** [keyChunkSize] is a 4-bit field, so the assignment keeps the low four bits. *)
Definition create_node (key : bytes) (keyChunkBegin keyChunkEnd : Z) (out : trie_node) : trie_node :=
  let kcl := u64 (u32 (keyChunkEnd - keyChunkBegin)) in
  let size := ((if bool_decide (kcl > MAX_KEY_CHUNK_BYTE_SIZE)%Z then MAX_KEY_CHUNK_BYTE_SIZE else kcl)
               mod 16)%Z in
  let h := out.(node).(hdr) in
  mk_tn (mk_th (mk_hdr h.(isDeleted) true true h.(isValue) size) empty_block_offset empty_block_offset
           (overwrite out.(node).(key_chunk) 0 (subseq key keyChunkBegin size)))
    true true out.(location).

Section TrieOps.
Context `{OpenSSL, BlockStore, LibC}.

Definition read_trie_node (in_block_offset : block_offset_t) (out : trie_node) : M dn_io trie_node :=
  let! ba_node := IO.read_across_data_nodes in_block_offset sizeof_node [] in
  throw_ifM (bool_decide (zlen ba_node ≠ sizeof_node)) (RuntimeError "unable to read trie node") ;;!
  retM (mk_tn (node_of_bytes ba_node) false true in_block_offset).

Definition write_trie_node (t : trie_node) : M dn_io trie_node :=
  let! t :=
    if block_offset.is_empty t.(location) then
      let! o := IO.fsc_allocate new_trie_node_size in
      match o with
      | Some bo => retM (set_location t bo)
      | None => let! bo := IO.block_offset_for_appending in retM (set_location t bo)
      end
    else retM t in
  IO.write_across_data_nodes (node_bytes t.(node)) 0 t.(location) ;;!
  retM (set_modified t false).

Definition delete_trie_node_childless (t : trie_node) : M dn_io trie_node :=
  if block_offset.is_empty t.(node).(child_offset) then
    IO.fsc_collect t.(location) new_trie_node_size ;;!
    let h := t.(node).(hdr) in
    let t := set_modified (set_hdr t (mk_hdr true h.(hasNext) h.(hasChild) h.(isValue) h.(keyChunkSize))) true in
    let! t := write_trie_node t in
    retM (set_location t t.(node).(next_offset))
  else retM t.

(** Reads the header and the size of the value at [bo_at]; also returns the offset after them. *)
Definition do_read_value_info (bo_at : block_offset_t) : M dn_io (block_offset_t * bytes * Z) :=
  let! ba_header := IO.read_across_data_nodes bo_at header_size [] in
  let bo_at := DN.advance_block_offset bo_at header_size in
  throw_ifM (negb (header_of_byte (nth 0 ba_header Byte.x00)).(isValue))
    (RuntimeError "read value, header read is not for value") ;;!
  let! ba_value_size := IO.read_across_data_nodes bo_at size_t_size [] in
  let bo_at := DN.advance_block_offset bo_at size_t_size in
  retM (bo_at, ba_header, le_combine ba_value_size).

Definition do_read_value (t : trie_node) (value : bytes) : M dn_io bytes :=
  throw_ifM (block_offset.is_empty t.(node).(child_offset)) (RuntimeError "read value, value is absent") ;;!
  let! '(bo, _, value_size) := do_read_value_info t.(node).(child_offset) in
  IO.read_across_data_nodes bo (u32 value_size) value.

(** The header with [isDeleted] set is written at the offset [do_read_value_info] left. *)
Definition do_delete_value (t : trie_node) : M dn_io trie_node :=
  let! '(bo, ba_header, value_size) := do_read_value_info t.(node).(child_offset) in
  let h := header_of_byte (nth 0 ba_header Byte.x00) in
  let ba_header := overwrite ba_header 0
    [header_byte (mk_hdr true h.(hasNext) h.(hasChild) h.(isValue) h.(keyChunkSize))] in
  IO.write_across_data_nodes ba_header 0 bo ;;!
  let freed_bytes := u32 (zlen ba_header + size_t_size + value_size) in
  IO.fsc_collect t.(node).(child_offset) freed_bytes ;;!
  retM (set_modified (set_child t empty_block_offset) true).

Definition do_write_value (t : trie_node) (value : bytes) : M dn_io trie_node :=
  let! t := if negb (block_offset.is_empty t.(node).(child_offset))
            then do_delete_value t else retM t in
  let space_required := u32 (header_size + size_t_size + zlen value) in
  let! o := IO.fsc_allocate space_required in
  let! child := match o with
                | Some bo => retM bo
                | None => IO.block_offset_for_appending
                end in
  let t := set_modified (set_child t child) true in
  let bo := child in
  let ba_trie_node := [header_byte (mk_hdr false false false true 0)] in
  IO.write_across_data_nodes ba_trie_node 0 bo ;;!
  let bo := DN.advance_block_offset bo (zlen ba_trie_node) in
  let space_required := u32 (space_required - zlen ba_trie_node) in
  let ba_value_size := le_split 8 (zlen value) in
  IO.write_across_data_nodes ba_value_size 0 bo ;;!
  let bo := DN.advance_block_offset bo (zlen ba_value_size) in
  let space_required := u32 (space_required - zlen ba_value_size) in
  IO.write_across_data_nodes value 0 bo ;;!
  let space_required := u32 (space_required - zlen value) in
  throw_ifM (bool_decide (space_required ≠ 0)%Z)
    (RuntimeError "space estimated does not match space written") ;;!
  retM t.

Definition do_split_trie_node (t : trie_node) (spl : Z) : M dn_io trie_node :=
  let size := t.(node).(hdr).(keyChunkSize) in
  throw_ifM (negb (bool_decide (size > 0)%Z && bool_decide (spl < size)%Z))
    (RuntimeError "split node, wrong key chunk size and/or spl") ;;!
  let! a := IO.append_node in
  IO.consume_add_and_init_append_data_node_cond (bool_decide (new_trie_node_size > DN.free_bytes a)%Z) ;;!
  let second_chunk := subseq t.(node).(key_chunk) spl (size - spl) in
  let second_node := create_node second_chunk 0 (zlen second_chunk) new in
  let second_node := set_next second_node empty_block_offset in
  let second_node := set_modified (set_child second_node t.(node).(child_offset)) true in
  let! second_node := write_trie_node second_node in
  let h := t.(node).(hdr) in
  let t := set_hdr t (mk_hdr h.(isDeleted) h.(hasNext) h.(hasChild) h.(isValue) (spl mod 16)) in
  retM (set_modified (set_child t second_node.(location)) true).

Definition init_trie_root : M dn_io unit :=
  let root := set_location new (mk_bo BW.get_root_block_num data_begin_index) in
  let root := create_node [] 0 0 root in
  let! _ := write_trie_node root in
  retM tt.

(** What one pass through the top-down loop does: return from the function, go on to the
    bottom-up phase with an output value, or go round again. *)
Inductive step_outcome :=
  | Return (out_value : bytes)
  | Finished (stack : list recursive_item) (out_value : bytes)
  | Continue (stack : list recursive_item) (depth : Z).

(** The stack is kept with its back first. *)
Definition push_at (stack : list recursive_item) (loc : block_offset_t) : list recursive_item :=
  mk_ri (set_location new loc) false :: stack.

Definition top_down_step (operation : kv_operation_e) (kvkey in_value : bytes)
    (stack : list recursive_item) (depth : Z) : M dn_io step_outcome :=
  match stack with
  | [] => throwM (UndefinedBehaviour "back of an empty list")
  | ri :: rest =>
      let! o :=
        if ri.(ri_node).(initialized) then retM (Some ri.(ri_node))
        else if block_offset.is_empty ri.(ri_node).(location) then
          if bool_decide (operation = PUT_OP)
          then retM (Some (create_node kvkey depth (u32 (zlen kvkey)) ri.(ri_node)))
          else retM None
        else let! t := read_trie_node ri.(ri_node).(location) ri.(ri_node) in retM (Some t) in
      match o with
      | None => retM (Return [])
      | Some t =>
          let size := t.(node).(hdr).(keyChunkSize) in
          let key_chunk_size := u32 (zlen kvkey - depth) in
          let spl := shared_prefix_length (subseq t.(node).(key_chunk) 0 size)
                       (subseq kvkey depth key_chunk_size) in
          if bool_decide (spl = 0%Z) then
            if bool_decide (depth < zlen kvkey)%Z || bool_decide (size > 0)%Z
            then retM (Continue (push_at (mk_ri t true :: rest) t.(node).(next_offset)) depth)
            else match operation with
                 | PUT_OP => let! t := do_write_value t in_value in
                             retM (Finished (mk_ri t ri.(go_next) :: rest) [])
                 | GET_OP => let! v := do_read_value t [] in
                             retM (Finished (mk_ri t ri.(go_next) :: rest) v)
                 | DEL_OP => let! t := do_delete_value t in
                             retM (Finished (mk_ri t ri.(go_next) :: rest) [])
                 end
          else if bool_decide (spl = size) then
            retM (Continue (push_at (mk_ri t false :: rest) t.(node).(child_offset)) (u32 (depth + spl)))
          else if bool_decide (operation = PUT_OP) then
            let! t := do_split_trie_node t spl in
            retM (Continue (mk_ri t ri.(go_next) :: rest) depth)
          else retM (Return [])
      end
  end.

Fixpoint top_down (fuel : nat) (operation : kv_operation_e) (kvkey in_value : bytes)
    (stack : list recursive_item) (depth : Z) : M dn_io step_outcome :=
  match fuel with
  | O => throwM OutOfFuel
  | S fuel =>
      let! o := top_down_step operation kvkey in_value stack depth in
      match o with
      | Continue stack depth => top_down fuel operation kvkey in_value stack depth
      | o => retM o
      end
  end.

(** The bottom-up phase: pop, delete or write the node, and update the node above it. *)
Fixpoint bottom_up (operation : kv_operation_e) (popped : recursive_item) (stack : list recursive_item) :
  M dn_io unit :=
  let! t := if bool_decide (operation = DEL_OP) && bool_decide (1 < length stack)
            then delete_trie_node_childless popped.(ri_node) else retM popped.(ri_node) in
  let! t := if t.(modified) then write_trie_node t else retM t in
  match stack with
  | [] => retM tt
  | prev :: stack =>
      let p := prev.(ri_node) in
      let p :=
        if prev.(go_next) then
          if negb (block_offset.eqb p.(node).(next_offset) t.(location))
          then set_modified (set_next p t.(location)) true else p
        else
          if negb (block_offset.eqb p.(node).(child_offset) t.(location))
          then set_modified (set_child p t.(location)) true else p in
      bottom_up operation (mk_ri p prev.(go_next)) stack
  end.

(** A pass visits a node of the store, creates one for a chunk of the key, or splits one: the
    number of nodes that fit in the data nodes and the length of the key bound the passes over a
    store without cycles. *)
Definition trie_fuel (s : dn_io) (kvkey : bytes) : nat :=
  Z.to_nat (zlen s.(block_warehouse_).(blockIds_) * (data_end_index - data_begin_index) / sizeof_node) +
  3 * length kvkey + 8.

Definition operate_trie_non_recursive (operation : kv_operation_e) (kvkey in_value : bytes) :
  M dn_io bytes :=
  let root_loc := mk_bo BW.get_root_block_num data_begin_index in
  let! root := read_trie_node root_loc (set_location new root_loc) in
  let stack := push_at [mk_ri root true] root.(node).(next_offset) in
  let! s := getM in
  let! o := top_down (trie_fuel s kvkey) operation kvkey in_value stack 0 in
  match o with
  | Return v => retM v
  | Finished (ri :: rest) v => bottom_up operation ri rest ;;! retM v
  | _ => throwM (UndefinedBehaviour "pop of an empty list")
  end.
End TrieOps.
End T.
