(* ===== verification/StateKV.v ===== *)
(** The encrypted key value store: common/state/state_kv.{h,cpp} and interpreter_kv.{h,cpp}. *)
From S2P Require Import Prelude Crypto BlockStore DataNode FreeSpace Json JsonSpec StateNode Cache DataNodeIO Trie.

Inductive kv_start_mode_e := KV_UNINITIALIZED | KV_CREATE | KV_OPEN.

#[global] Instance kv_start_mode_eq_dec : EqDecision kv_start_mode_e.
Proof. solve_decision. Defined.

Record State_KV `{BlockStore} := mk_kv {
  rootNode_ : StateNode;
  kv_key_ : bytes;
  dn_io_ : dn_io;
  kv_start_mode : kv_start_mode_e;
}.

Module KV.
Section StateKV.
Context `{OpenSSL, BlockStore, LibC}.

Definition set_io (io : dn_io) (kv : State_KV) : State_KV :=
  mk_kv _ kv.(rootNode_) kv.(kv_key_) io kv.(kv_start_mode).
Definition set_root (n : StateNode) (kv : State_KV) : State_KV :=
  mk_kv _ n kv.(kv_key_) kv.(dn_io_) kv.(kv_start_mode).
Definition in_io {A} (m : M dn_io A) : M State_KV A := zoomM dn_io_ set_io m.

(** The members before a constructor body runs. *)
Definition init (w : world) (key : bytes) : State_KV :=
  mk_kv _ SN.new key (IO.new w key) KV_UNINITIALIZED.

(** A constructor is run on the fresh members; an object exists only when it returns. *)
Definition construct (m : M State_KV unit) (mode : kv_start_mode_e) (kv : State_KV) :
  result State_KV * world :=
  match m kv with
  | (Ok _, kv') => (Ok (mk_kv _ kv'.(rootNode_) kv'.(kv_key_) kv'.(dn_io_) mode), kv'.(dn_io_).(io_world))
  | (Err e, kv') => (Err e, kv'.(dn_io_).(io_world))
  end.

(** [State_KV(key)]: a new store. *)
Definition create_body (key : bytes) : M State_KV unit := in_io (
  let! '(_, dn_id) := C.in_world (DN.unload (DN.new BW.get_root_block_num) key) in
  IO.lift_bw (fun b => BW.add_block_id b dn_id) ;;!
  IO.init_append_data_node ;;!
  T.init_trie_root ;;!
  C.pin BW.get_root_block_num).

Definition create (w : world) (key : bytes) : result State_KV * world :=
  construct (create_body key) KV_CREATE (init w key).

(** [State_KV(id, key)]: open the store whose root block is [id]. *)
Definition open_body (id key : bytes) : M State_KV unit :=
  let! kv := getM in
  let! '(ret, block) := in_io (C.in_world (sebio_fetch id SEBIO_NO_CRYPTO)) in
  let root := mk_node id block kv.(rootNode_).(ChildrenArray_) kv.(rootNode_).(hasParent_) in
  modifyM (set_root root) ;;!
  throw_ifM (bool_decide (ret ≠ STATE_SUCCESS)) (ValueError "statekv::init, sebio returned an error") ;;!
  let! root := in_io (IO.initialize root) in
  modifyM (set_root root).

Definition open (w : world) (id key : bytes) : result State_KV * world :=
  construct (open_body id key) KV_OPEN (init w key).

(** The root block id. *)
Definition Finalize : M State_KV bytes :=
  let! kv := getM in
  throw_ifM (bool_decide (kv.(kv_start_mode) = KV_UNINITIALIZED))
    (RuntimeError "attempt to finalize uninitialized state") ;;!
  in_io (
    let! s := getM in
    if bool_decide (kv.(kv_start_mode) = KV_CREATE) || FSC.collection_modified s.(free_space_collector_)
    then
      IO.add_and_init_append_data_node ;;!
      let! n := IO.append_node in
      let! n' := IO.lift_fsc (fun f => FSC.serialize_in_data_node f n) in
      let! s := getM in
      C.assign s.(append_dn_) n'
    else IO.lift_bw (fun b => BW.add_block_id b s.(free_space_collector_).(original_block_id_of_collection))) ;;!
  in_io C.flush ;;!
  let! kv := getM in
  whenM (bool_decide (C.synced_entries kv.(dn_io_) > 0)%Z) (
    let! root := liftM (BW.serialize_block_ids kv.(dn_io_).(block_warehouse_) kv.(rootNode_)) in
    modifyM (set_root root) ;;!
    let! '(ret, id) := in_io (C.in_world (sebio_evict root.(stateBlock_) SEBIO_NO_CRYPTO)) in
    modifyM (set_root (mk_node id root.(stateBlock_) root.(ChildrenArray_) root.(hasParent_))) ;;!
    throw_ifM (bool_decide (ret ≠ STATE_SUCCESS))
      (ValueError "kv root node unload, sebio returned an error")) ;;!
  readM (fun kv => kv.(rootNode_).(blockId_)).

Definition Get (key : bytes) : M State_KV bytes :=
  in_io (T.operate_trie_non_recursive GET_OP key []).

Definition Put (key value : bytes) : M State_KV unit :=
  let! _ := in_io (T.operate_trie_non_recursive PUT_OP key value) in retM tt.

Definition Delete (key : bytes) : M State_KV unit :=
  let! _ := in_io (T.operate_trie_non_recursive DEL_OP key []) in retM tt.
End StateKV.
End KV.

(** * interpreter_kv.cpp *)

Module IKV.
Section InterpreterKV.
Context `{OpenSSL, BlockStore, LibC}.

Definition to_privileged_key (key : bytes) : bytes := "P"%byte :: key.
Definition to_unprivileged_key (key : bytes) : bytes := "p"%byte :: key.

Definition PrivilegedGet (key : bytes) : M State_KV bytes := KV.Get (to_privileged_key key).
Definition PrivilegedPut (key value : bytes) : M State_KV unit := KV.Put (to_privileged_key key) value.
Definition PrivilegedDelete (key : bytes) : M State_KV unit := KV.Delete (to_privileged_key key).
Definition UnprivilegedGet (key : bytes) : M State_KV bytes := KV.Get (to_unprivileged_key key).
Definition UnprivilegedPut (key value : bytes) : M State_KV unit := KV.Put (to_unprivileged_key key) value.
Definition UnprivilegedDelete (key : bytes) : M State_KV unit := KV.Delete (to_unprivileged_key key).
End InterpreterKV.
End IKV.
