(* ===== verification/KVSpec.v ===== *)
(** Creating a key value store: the constructor of State_KV establishes the invariant of the layers
    below it, on which every later operation relies. *)
From S2P Require Import Prelude Crypto BlockStore Codec DataNode FreeSpace Json JsonSpec StateNode Cache CacheSpec.
From S2P Require Import DataNodeIO MemorySpec Trie StateKV.

Section Create.
Context {OS : OpenSSL} {OL : @OpenSSLLaws OS} {B : BlockStore} {BL : BlockStoreLaws B} `{LibC}.
Implicit Types (s : dn_io) (V : list bytes).

(** The memory of a new store before the root node is written: one block of zeros. *)
Lemma fresh_inv w key block w1 :
  zlen key = SYM_KEY_LEN -> encodes_node key block (DN.new 0) ->
  stored_in w w1 (ComputeMessageHash block) block ->
  cache_inv (mk_io _ w1 (mk_bw [ComputeMessageHash block] key) FSC.empty 0 C.new)
    [zero_block] (fun _ => block_data_len) None.
Proof.
  intros Hk Henc (Hget & _ & Hlog & _). split.
  - exact Hk.
  - reflexivity.
  - by vm_compute.
  - split; [reflexivity|apply NoDup_ListNoDup, seq_NoDup| |done|done|reflexivity].
    intros d Hd. apply (elem_of_seq 0 512) in Hd. lia.
  - done.
  - done.
  - intros k v Hk0 Hv _. assert (E : k = 0%Z /\ v = zero_block).
    { pose proof (lookup_lt_Some _ _ _ Hv) as Hlt. cbn in Hlt. assert (k = 0%Z) as -> by lia.
      change (Some zero_block = Some v) in Hv. by injection Hv as <-. }
    destruct E as [-> ->]. exists block, (DN.new 0).
    split; [reflexivity|]. split; [exact Hget|]. split; [|split; [exact Henc|]].
    + unfold log. cbn [io_world]. rewrite Hlog. apply elem_of_cons. by left.
    + split; [by apply new_wf|]. split; [reflexivity|]. split; [apply payload_new|reflexivity].
Qed.

(** ** The constructor's steps *)

Lemma init_append_ok s V fr free v :
  cache_inv s V fr None -> fr (zlen V - 1)%Z = free -> V !! Z.to_nat (zlen V - 1) = Some v -> bc s !! (zlen V - 1)%Z = None ->
  uniform V -> (0 <= free <= block_data_len)%Z ->
  wp IO.init_append_data_node s (fun _ s' => io_inv s' V free /\
    s'.(free_space_collector_) = s.(free_space_collector_) /\ iokey s' = iokey s).
Proof.
  intros Hinv Hlast Hv Hnone Hu Hf. destruct (ci_size _ _ _ _ Hinv) as [Hz _].
  unfold IO.init_append_data_node. wp_bind. apply wp_read. rewrite (last_block _ _ _ _ Hinv).
  wp_bind. apply wp_get. wp_bind.
  assert (exists id, ids s !! Z.to_nat (zlen V - 1) = Some id) as [id Hid].
  { apply lookup_lt_is_Some_2. rewrite (ci_ids _ _ _ _ Hinv). by eapply lookup_lt_Some. }
  eapply wp_lift.
  { unfold BW.get_datablock_id_from_datablock_num, vec_get. rewrite bool_decide_eq_true_2 by lia. by rewrite Hid. }
  wp_bind. eapply wp_conseq; [eapply (retrieve_ok s V fr); [done|lia|done|by right]|].
  intros d s1 (Hinv1 & Hfr1 & Hnode & Hpin). destruct (Hpin Hnone) as (e & He & Hpe & _).
  wp_bind. apply wp_modify. set (s2 := C.set_append_dn d s1).
  assert (Hinv2 : cache_inv s2 V fr (Some (zlen V - 1)%Z)).
  { destruct Hinv1 as [? ? ? [] ? ? ?]. by split. }
  assert (Hnode2 : has_node s2 V fr (zlen V - 1)%Z v d) by exact Hnode.
  eapply wp_conseq; [by eapply done_ok|]. intros _ s3 (Hinv3 & Hfr3 & _).
  split; [split; [by exists fr|split_and!; [|done|lia|lia]]|].
  - destruct (fr_pinned _ _ Hfr3 _ e He Hpe) as (e3 & He3 & Hp3 & Hd3). exists e3.
    rewrite (fr_append _ _ Hfr3). split_and!; [done..|]. rewrite Hd3. destruct Hnode as (e' & n & He' & <- & _).
    cbn. congruence.
  - rewrite (fr_fsc _ _ Hfr3), (fr_key _ _ Hfr3). split; [apply (fr_fsc _ _ Hfr1)|apply (fr_key _ _ Hfr1)].
Qed.

Lemma pin_root_ok s V free e :
  io_inv s V free -> bc s !! 0%Z = Some e ->
  wp (C.pin 0) s (fun _ s' => io_inv s' V free /\ s'.(free_space_collector_) = s.(free_space_collector_)).
Proof.
  intros ((fr & Hinv & Hlast) & Hap & Hu & Hf) He. destruct (ci_entry _ _ _ _ Hinv 0%Z e He) as (_ & _ & Hrf & _).
  eapply wp_eq; [unfold C.pin, C.update_entry, C.find, C.store_entry; run_monad; rewrite He; reflexivity|].
  intros _. split; [|done]. split; [|split_and!; [|done|lia|lia]].
  - exists fr. split; [|done]. eapply (cache_inv_touch s _ V fr None None 0%Z e); try done. by left.
  - destruct Hap as (ea & Hea & Hpa & Hda). unfold append_ok. cbn.
    destruct (decide (zlen V - 1 = 0)%Z) as [E|E].
    + rewrite E in *. rewrite lookup_insert_eq. eexists; split; [done|]. split; [done|]. cbn. congruence.
    + rewrite lookup_insert_ne by done. by exists ea.
Qed.

(** The root node as [init_trie_root] writes it. *)
Definition root_node : trie_node :=
  T.create_node [] 0 0 (T.set_location T.new (mk_bo BW.get_root_block_num data_begin_index)).

(** The state a constructor starts from. *)
Definition created (w : world) (kv : State_KV) : Prop :=
  exists V free, io_inv kv.(dn_io_) V free /\
    concat V = overwrite zero_block 0 (T.node_bytes root_node.(node)) /\ used V free = T.sizeof_node /\
    kv.(dn_io_).(free_space_collector_) = FSC.empty /\ kv.(kv_start_mode) = KV_CREATE.

Lemma grows_init_root : grows T.init_trie_root.
Proof.
  unfold T.init_trie_root, T.write_trie_node, IO.fsc_allocate, IO.block_offset_for_appending,
    IO.write_across_data_nodes. grows.
Qed.
Lemma grows_init_append : grows IO.init_append_data_node.
Proof. unfold IO.init_append_data_node. grows. Qed.
#[local] Hint Resolve grows_init_root grows_init_append : grows.

Lemma create_body_ok w key s0 :
  zlen key = SYM_KEY_LEN -> s0 = IO.new w key ->
  wp (let! '(_, dn_id) := C.in_world (DN.unload (DN.new BW.get_root_block_num) key) in
      IO.lift_bw (fun b => BW.add_block_id b dn_id) ;;!
      IO.init_append_data_node ;;!
      T.init_trie_root ;;!
      C.pin BW.get_root_block_num) s0
    (fun _ s => exists V free, io_inv s V free /\
       concat V = overwrite zero_block 0 (T.node_bytes root_node.(node)) /\
       used V free = T.sizeof_node /\ s.(free_space_collector_) = FSC.empty).
Proof.
  intros Hk ->. assert (Hwf : wf_dn (DN.new 0)) by (by apply new_wf).
  destruct (unload_ok (DN.new 0) key w Hwf Hk) as (block & w1 & Hu & Henc & Hst).
  wp_bind. eapply wp_eq.
  { unfold C.in_world. run_monad. cbn [IO.new io_world]. change BW.get_root_block_num with 0%Z. rewrite Hu. reflexivity. }
  intros _. wp_bind. eapply wp_eq.
  { unfold IO.lift_bw, BW.add_block_id. run_monad.
    rewrite bool_decide_eq_false_2 by (intros Hne; apply Hne, sha256_length). reflexivity. }
  intros _. wp_bind.
  eapply wp_conseq; [eapply init_append_ok; [eapply (fresh_inv w key block w1 Hk Henc Hst)|reflexivity|done|done| |by vm_compute]|].
  { constructor; [|constructor]. unfold zero_block. by rewrite zlen_replicate. }
  intros _ s1 (Hio1 & Hf1 & _). wp_bind.
  unfold T.init_trie_root, T.write_trie_node. fold root_node.
  wp_bind. wp_bind. apply wp_ret. wp_bind.
  eapply wp_conseq; [apply (write_across_ok s1); [exact Hio1|by vm_compute|by vm_compute|by vm_compute]|].
  intros _ s2 (V & free & Hio2 & (Hz & Hc & Hus) & Hf2 & _). apply wp_ret. apply wp_ret.
  change (zlen V = 1%Z) in Hz.
  destruct (Hio2) as (_ & (e & He & _) & _). rewrite Hz in He.
  eapply wp_conseq; [by eapply pin_root_ok|]. intros _ s3 (Hio3 & Hf3). exists V, free.
  split; [done|]. split; [|split; [exact Hus|by rewrite Hf3, Hf2]].
  rewrite Hc, Hz. cbn [Z.sub]. by rewrite app_nil_r.
Qed.

Lemma create_ok w key :
  zlen key = SYM_KEY_LEN ->
  let '(r, w') := KV.create w key in
  no_collision w'.(w_evicted) -> exists kv, r = Ok kv /\ created w kv /\ kv.(dn_io_).(io_world) = w'.
Proof.
  intros Hk. unfold KV.create, KV.construct, KV.create_body, KV.in_io, zoomM, KV.init. cbn [dn_io_].
  pose proof (create_body_ok w key (IO.new w key) Hk eq_refl) as Hwp. unfold wp, log in Hwp.
  set (m := bindM _ _) in *. destruct (m (IO.new w key)) as [[u|e] s]; cbn in *.
  - intros Hn. eexists; split; [done|]. split; [|done]. destruct (Hwp Hn) as (a & _ & V & free & H1 & H2 & H3 & H4).
    exists V, free. by split_and!.
  - intros Hn. destruct (Hwp Hn) as (a & ? & _). done.
Qed.
End Create.

(** * Properties *)

(** Creating a store under a key of the right length succeeds and establishes the invariant: one
    data block whose first 32 bytes are the root node of the trie and whose other bytes are zero, the
    append cursor right after it, the block pinned in the cache, and nothing free. *)
Theorem create_correct {OS : OpenSSL} {OL : @OpenSSLLaws OS} {B : BlockStore} {BL : BlockStoreLaws B}
    `{LibC} w key r w' :
  zlen key = SYM_KEY_LEN -> KV.create w key = (r, w') -> no_collision w'.(w_evicted) ->
  exists kv V free, r = Ok kv /\ kv.(dn_io_).(io_world) = w' /\ kv.(kv_start_mode) = KV_CREATE /\
    io_inv kv.(dn_io_) V free /\ concat V = overwrite zero_block 0 (T.node_bytes root_node.(node)) /\
    used V free = T.sizeof_node /\ forall z, ~ free_in kv.(dn_io_).(free_space_collector_) z.
Proof.
  intros Hk Hc Hn. pose proof (create_ok w key Hk) as Ho. rewrite Hc in Ho.
  destruct (Ho Hn) as (kv & -> & (V & free & Hio & Hm & Hu & Hf & Hmode) & Hw).
  exists kv, V, free. split_and!; try done. intros z. rewrite Hf. unfold free_in, covers. cbn.
  rewrite Exists_nil. tauto.
Qed.
