(* ===== verification/Platform.v ===== *)
(** A concrete platform on which the models run: instances of the parameters [OpenSSL], [BlockStore],
    [LMDB] and [LibC] that satisfy their laws.  They are not the real libraries; they show that the
    laws can hold and let the witnesses evaluate. *)
From S2P Require Import Prelude Crypto BlockStore Codec Json JsonSpec StateNode.

(** * OpenSSL *)

Definition checksum (m : bytes) : Z :=
  fold_left (fun h b => Z.land (h * 257 + byte.unsigned b + 1) (Z.ones 64)) m 7%Z.

(** A keyed checksum in the place of the digests, and an authenticated identity in the place of GCM. *)
#[export] Instance toy_openssl : OpenSSL := {|
  sha256 m := le_split 32 (checksum m);
  sha384 m := le_split 48 (checksum m);
  sha512 m := le_split 64 (checksum m);
  hmac_sha256 k m := le_split 32 (checksum (k ++ m));
  hmac_sha384 k m := le_split 48 (checksum (k ++ m));
  hmac_sha512 k m := le_split 64 (checksum (k ++ m));
  pbkdf2_sha512 p salt n := Some (le_split 64 (checksum (p ++ salt)));
  gcm_encrypt k iv m := inr (le_split 16 (checksum (k ++ iv ++ m)), m);
  gcm_decrypt k iv tag ct :=
    if bool_decide (tag = le_split 16 (checksum (k ++ iv ++ ct))) then inr ct else inl EvpFinal;
  rand_bytes n len := Some (le_split (Z.to_nat len) (Z.of_nat n));
|}.

#[export] Instance toy_openssl_laws : OpenSSLLaws.
Proof.
  split.
  - intros m. cbn. unfold zlen. now rewrite length_le_split.
  - intros n len Hlen. eexists; split; [reflexivity|].
    unfold zlen. rewrite length_le_split. lia.
  - intros key iv m _ _ _. eexists _, _; split; [reflexivity|].
    unfold zlen. now rewrite length_le_split.
  - intros key iv m tag ct [= <- <-]. cbn. now rewrite bool_decide_eq_true_2.
Qed.

(** * Block store *)

#[export] Instance map_store : BlockStore := {|
  store := gmap bytes bytes;
  BlockStoreGet s id :=
    match s !! id with Some b => Ok (PDO_SUCCESS, b) | None => Ok (PDO_ERR_VALUE, []) end;
  BlockStorePut s id v := (Ok PDO_SUCCESS, <[id := v]> s);
|}.

#[export] Instance map_store_laws : BlockStoreLaws map_store.
Proof.
  split. intros s id v _. exists (<[id := v]> s). cbn.
  rewrite lookup_insert_eq. split; [done|split; [done|]].
  intros id' Hne. by rewrite lookup_insert_ne.
Qed.

(** * LMDB *)

Definition map_lmdb : LMDB := {|
  mdb_env := gmap (bool * bytes) bytes;
  mdb_txn := gmap (bool * bytes) bytes;
  mdb_begin e := Some e;
  mdb_get t db k := match t !! (db, k) with Some v => (MDB_SUCCESS, v) | None => (MDB_NOTFOUND, []) end;
  mdb_put t db k v := (MDB_SUCCESS, <[(db, k) := v]> t);
  mdb_commit _ t := (MDB_SUCCESS, t);
  gettimeofday_sec _ := 0%Z;
|}.

(** The same database on a full disk: every commit fails and leaves the environment as it was. *)
Definition full_lmdb : LMDB := {|
  mdb_env := gmap (bool * bytes) bytes;
  mdb_txn := gmap (bool * bytes) bytes;
  mdb_begin e := Some e;
  mdb_get := @mdb_get map_lmdb;
  mdb_put := @mdb_put map_lmdb;
  mdb_commit e _ := (MDB_ERROR, e);
  gettimeofday_sec _ := 0%Z;
|}.

Lemma map_put_done (t : gmap (bool * bytes) bytes) db k v t' : @mdb_put map_lmdb t db k v = (MDB_SUCCESS, t') ->
  @mdb_get map_lmdb t' db k = (MDB_SUCCESS, v) /\
  forall db' k', (db', k') <> (db, k) -> @mdb_get map_lmdb t' db' k' = @mdb_get map_lmdb t db' k'.
Proof.
  cbn. intros [= <-]. rewrite lookup_insert_eq. split; [done|].
  intros db' k' Hne. rewrite lookup_insert_ne; [done|]. congruence.
Qed.

#[export] Instance map_lmdb_laws : LMDBLaws map_lmdb.
Proof. split; [apply map_put_done| |]; cbn; [by intros e t e' t' [= <-] [= <-]|by intros e t r e' t0 t' [= <- _]]. Qed.
#[export] Instance map_lmdb_never_fails : LMDBNeverFails map_lmdb.
Proof. split; cbn; eauto. Qed.
#[export] Instance full_lmdb_laws : LMDBLaws full_lmdb.
Proof. split; [apply map_put_done| |]; cbn; [done|by intros e t r e' t0 t' [= _ <-] _ [= <-] [= <-]]. Qed.

(** * Numbers *)

(** The binary digits of a positive number, lowest first, with the digit 2 after the last one. *)
Fixpoint pos_text (p : positive) : bytes :=
  match p with
  | xH => ["2"%byte]
  | xO p => "0"%byte :: pos_text p
  | xI p => "1"%byte :: pos_text p
  end.

Fixpoint read_pos (b : bytes) : option (positive * nat) :=
  match b with
  | "2"%byte :: _ => Some (xH, 1)
  | "0"%byte :: b => '(p, n) ← read_pos b; Some (xO p, S n)
  | "1"%byte :: b => '(p, n) ← read_pos b; Some (xI p, S n)
  | _ => None
  end.

Lemma read_pos_text p rest : read_pos (pos_text p ++ rest) = Some (p, length (pos_text p)).
Proof. induction p as [p IH|p IH|]; cbn; rewrite ?IH; done. Qed.

Lemma pos_text_digits p : forallb (fun c => bool_decide (c ∈ ["0"%byte; "1"%byte; "2"%byte])) (pos_text p) = true.
Proof. induction p as [p IH|p IH|]; cbn; rewrite ?IH; done. Qed.

#[export] Instance toy_libc : LibC := {|
  strtod s := match s with
              | "1"%byte :: t => match read_pos t with
                                 | Some (p, n) => (default 0%Z (decode p), S n, false)
                                 | None => (0%Z, 0, false)
                                 end
              | _ => (0%Z, 0, false)
              end;
  print_number n := "1"%byte :: pos_text (encode n);
  COMPILE_FOR_SGX := true;
|}.

#[export] Instance toy_libc_laws : LibCLaws.
Proof.
  assert (Hd : forall n c, c ∈ print_number n -> c ∈ ["0"%byte; "1"%byte; "2"%byte]).
  { intros n c. cbn [print_number toy_libc]. rewrite elem_of_cons. intros [->|Hc]; [set_solver|].
    pose proof (pos_text_digits (encode n)) as Hp. apply list_elem_of_In in Hc.
    by apply (proj1 (forallb_forall _ _) Hp), bool_decide_eq_true in Hc. }
  split.
  - intros n _. by do 2 eexists.
  - intros n _. unfold is_decimal. rewrite !andb_true_iff. split_and!.
    + cbn [print_number toy_libc nth]. by rewrite (bool_decide_eq_false_2 ("1"%byte = "0"%byte)), andb_false_r.
    + cbn [print_number toy_libc nth]. by rewrite (bool_decide_eq_false_2 ("1"%byte = "-"%byte)), andb_false_r.
    + apply forallb_forall. intros c Hc%list_elem_of_In%Hd. rewrite !elem_of_cons, elem_of_nil in Hc.
      destruct Hc as [->|[->|[->|[]]]]; done.
  - intros n rest _ _. cbn [strtod print_number toy_libc app]. rewrite read_pos_text, decode_encode. done.
  - intros n _ Hin%Hd. rewrite !elem_of_cons, elem_of_nil in Hin. by destruct Hin as [?|[?|[?|[]]]].
Qed.

(** The initial world of the concrete runs. *)
Definition world0 : world := mk_world _ (∅ : gmap bytes bytes) 0 sebio_ctx_default [].

Definition key0 : bytes := replicate 16 "k"%byte.
