(* ===== verification/TrieSpec.v ===== *)
(** The records of the trie in the flat memory: their stored form, and what deleting a value writes. *)
From S2P Require Import Prelude Crypto BlockStore Codec DataNode FreeSpace Json JsonSpec StateNode Cache CacheSpec.
From S2P Require Import DataNodeIO MemorySpec Trie StateKV Platform.

(** * Stored form of the nodes *)

(** The values a node can hold: a 4-bit size, 32-bit offsets and a whole key chunk. *)
Definition wf_header (h : trie_node_header_t) : Prop := (0 <= h.(keyChunkSize) < 16)%Z.

Definition wf_offset (bo : block_offset_t) : Prop :=
  (0 <= bo.(block_num) < 2 ^ 32)%Z /\ (0 <= bo.(bytes_) < 2 ^ 32)%Z.

Definition wf_node (n : trie_node_h) : Prop :=
  wf_header n.(hdr) /\ wf_offset n.(next_offset) /\ wf_offset n.(child_offset) /\
  zlen n.(key_chunk) = MAX_KEY_CHUNK_BYTE_SIZE.

Lemma header_roundtrip h : wf_header h -> T.header_of_byte (T.header_byte h) = h.
Proof.
  destruct h as [d n c v size]. intros Hs. unfold wf_header in Hs. cbn in Hs.
  revert size Hs. apply (all_below 16 (fun size => T.header_of_byte (T.header_byte (mk_hdr d n c v size)) =
    mk_hdr d n c v size)). destruct d, n, c, v; vm_compute; reflexivity.
Qed.

Lemma offset_length bo : zlen (block_offset.to_ByteArray bo) = 8%Z.
Proof. unfold block_offset.to_ByteArray. by autorewrite with zlen. Qed.

(** Two consecutive 32-bit words of a buffer. *)
Lemma offset_words l1 bo l2 i : wf_offset bo -> zlen l1 = i ->
  le_combine (subseq (l1 ++ block_offset.to_ByteArray bo ++ l2) i 4) = bo.(block_num) /\
  le_combine (subseq (l1 ++ block_offset.to_ByteArray bo ++ l2) (i + 4) 4) = bo.(bytes_).
Proof.
  intros (Hn & Hb) Hi. rewrite !(subseq_app_r l1) by lia. rewrite Hi, Z.sub_diag.
  replace (i + 4 - i)%Z with 4%Z by lia. unfold block_offset.to_ByteArray. rewrite <-(app_assoc (le_split 4 _)). split.
  - rewrite subseq_app_l by (by rewrite zlen_le_split). apply le_combine_split_small. cbn. lia.
  - rewrite subseq_app_r by (by rewrite zlen_le_split). rewrite zlen_le_split.
    rewrite subseq_app_l by (by rewrite zlen_le_split). apply le_combine_split_small. cbn. lia.
Qed.

Lemma node_bytes_length n : zlen n.(key_chunk) = MAX_KEY_CHUNK_BYTE_SIZE ->
  zlen (T.node_bytes n) = T.sizeof_node.
Proof.
  intros Hk. unfold T.node_bytes. rewrite zlen_cons, !zlen_app, !offset_length, Hk. done.
Qed.

Lemma node_roundtrip n : wf_node n -> T.node_of_bytes (T.node_bytes n) = n.
Proof.
  intros (Hh & Hn & Hc & Hk). destruct n as [h nx ch k]. cbn [hdr next_offset child_offset key_chunk] in *.
  unfold T.node_of_bytes, T.node_bytes. cbn [hdr next_offset child_offset key_chunk nth].
  set (hb := T.header_byte h).
  assert (E : hb :: block_offset.to_ByteArray nx ++ block_offset.to_ByteArray ch ++ k =
    [hb] ++ block_offset.to_ByteArray nx ++ (block_offset.to_ByteArray ch ++ k)) by done.
  rewrite E. destruct (offset_words [hb] nx (block_offset.to_ByteArray ch ++ k) 1 Hn eq_refl) as [-> ->].
  rewrite (app_assoc [hb]).
  destruct (offset_words ([hb] ++ block_offset.to_ByteArray nx) ch k 9 Hc) as [-> ->].
  { by rewrite zlen_app, offset_length. }
  rewrite app_assoc, subseq_app_r; rewrite !zlen_app, !offset_length; [|done].
  rewrite subseq_all by (by rewrite Hk). unfold hb. rewrite header_roundtrip by done.
  by destruct nx, ch.
Qed.

(** * Deleting a value *)

Section Delete.
Context {OS : OpenSSL} {OL : @OpenSSLLaws OS} {B : BlockStore} {BL : BlockStoreLaws B} {P : LibC}.
Implicit Types (s : dn_io) (V : list bytes).

Lemma grows_read_loop fuel t len bo out : grows (IO.read_loop fuel t len bo out).
Proof. revert t bo out. induction fuel; intros; cbn [IO.read_loop]; grows; eauto. Qed.
Lemma grows_read_across bo len out : grows (IO.read_across_data_nodes bo len out).
Proof. apply grows_read_loop. Qed.
Lemma grows_write_across b f bo : grows (IO.write_across_data_nodes b f bo).
Proof. apply grows_write_loop. Qed.
Lemma grows_collect bo len : grows (IO.fsc_collect bo len).
Proof. apply grows_lift_fsc. Qed.
#[local] Hint Resolve grows_read_across grows_write_across grows_collect : grows.
Lemma grows_value_info bo : grows (T.do_read_value_info bo).
Proof. unfold T.do_read_value_info. grows. Qed.
#[local] Hint Resolve grows_value_info : grows.

(** The header and the size of a value record at address [a]. *)
Definition value_header V (a : Z) : byte := nth (Z.to_nat a) (concat V) Byte.x00.
Definition value_size V (a : Z) : Z := le_combine (subseq (concat V) (a + 1) 8).

Lemma subseq_one {A} (l : list A) i d : (0 <= i)%Z -> (i < zlen l)%Z -> subseq l i 1 = [nth (Z.to_nat i) l d].
Proof.
  intros Hi Hl. unfold subseq. change (Z.to_nat 1) with 1.
  destruct (drop (Z.to_nat i) l) as [|x l'] eqn:E.
  - apply (f_equal length) in E. rewrite length_drop in E. unfold zlen in Hl. cbn in E. lia.
  - cbn. f_equal. assert (l !! Z.to_nat i = Some x).
    { rewrite <-(Nat.add_0_r (Z.to_nat i)), <-lookup_drop, E. done. }
    symmetry. apply nth_lookup_Some. done.
Qed.

Lemma value_info_ok s V free bo :
  io_inv s V free -> valid_bo bo -> (addr bo + 9 <= zlen V * block_data_len)%Z ->
  (T.header_of_byte (value_header V (addr bo))).(isValue) = true ->
  wp (T.do_read_value_info bo) s (fun r s' =>
    r.1.1 = DN.advance_block_offset (DN.advance_block_offset bo 1) 8 /\
    r.1.2 = [value_header V (addr bo)] /\ r.2 = value_size V (addr bo) /\
    io_inv s' V free /\ frame s s').
Proof.
  intros Hio Hv Ha Hval. pose proof (io_addr_limit _ _ _ Hio) as Hlim.
  pose proof (addr_nonneg _ Hv) as Ha0. pose proof Hio as (_ & _ & Hu & _).
  destruct (advance_spec bo 1) as [Ha1 [Hv1 _]]; [done|lia|dn_consts; lia|].
  unfold T.do_read_value_info. wp_bind. unfold T.header_size.
  eapply wp_conseq; [apply read_across_ok; [done|done|lia|lia]|]. intros h s1 (-> & Hio1 & Hfr1).
  rewrite app_nil_l, (subseq_one _ _ Byte.x00) by (rewrite ?zlen_concat by done; lia).
  fold (value_header V (addr bo)). wp_bind. apply wp_throw_if; [cbn [nth]; by rewrite Hval|].
  wp_bind. unfold T.size_t_size.
  eapply wp_conseq; [apply (read_across_ok s1 V free); [done|done|lia|rewrite Ha1; lia]|].
  intros z s2 (-> & Hio2 & Hfr2). apply wp_ret. cbn [fst snd]. rewrite app_nil_l, Ha1.
  split_and!; try done. by transitivity s1.
Qed.

Lemma fsc_collect_wp s bo len Q :
  wf_fsc s.(free_space_collector_) -> item_ok (mk_fsi bo len) ->
  (forall z, in_item (mk_fsi bo len) z -> ~ free_in s.(free_space_collector_) z) ->
  (forall f', wf_fsc f' ->
     (forall z, free_in f' z <-> free_in s.(free_space_collector_) z \/ in_item (mk_fsi bo len) z) ->
     Q tt (C.set_fsc f' s)) ->
  wp (IO.fsc_collect bo len) s Q.
Proof.
  intros Hwf Hit Hdis HQ. destruct (collect_ok s.(free_space_collector_) bo len Hwf Hit Hdis) as (f' & Hc & Hw & Hf).
  eapply wp_eq; [|intros _; by apply (HQ f')].
  unfold IO.fsc_collect, IO.lift_fsc. run_monad. by rewrite Hc.
Qed.

Lemma cache_inv_fsc s V fr busy f : cache_inv s V fr busy -> cache_inv (C.set_fsc f s) V fr busy.
Proof. intros [Hkey Hids Hsize [] Hentry Hcached Hst]. by split. Qed.

Lemma io_inv_fsc s V free f : io_inv s V free -> io_inv (C.set_fsc f s) V free.
Proof.
  intros ((fr & Hinv & Hlast) & Hap & Hu & Hf).
  split; [exists fr; split; [by apply cache_inv_fsc|done]|]. split_and!; done || lia.
Qed.

(** The header with its deleted bit set, as the code computes it. *)
Definition deleted_header (b : byte) : byte :=
  let h := T.header_of_byte b in
  T.header_byte (mk_hdr true h.(hasNext) h.(hasChild) h.(isValue) h.(keyChunkSize)).

Lemma delete_value_ok s V free t :
  let bo := t.(node).(child_offset) in let size := value_size V (addr bo) in
  io_inv s V free -> valid_bo bo -> (addr bo + 9 <= used V free)%Z ->
  (addr bo + 10 + block_data_len < ADDR_LIMIT)%Z ->
  (T.header_of_byte (value_header V (addr bo))).(isValue) = true ->
  wf_fsc s.(free_space_collector_) -> item_ok (mk_fsi bo (9 + size)) ->
  (forall z, in_item (mk_fsi bo (9 + size)) z -> ~ free_in s.(free_space_collector_) z) ->
  wp (T.do_delete_value t) s (fun t' s' => exists V' free', io_inv s' V' free' /\
    written V free (addr bo + 9) [deleted_header (value_header V (addr bo))] V' free' /\
    wf_fsc s'.(free_space_collector_) /\
    (forall z, free_in s'.(free_space_collector_) z <->
       free_in s.(free_space_collector_) z \/ in_item (mk_fsi bo (9 + size)) z) /\
    t' = T.set_modified (T.set_child t empty_block_offset) true).
Proof.
  intros bo size Hio Hv Ha Hlim Hval Hwf Hit Hdis. pose proof (io_addr_limit _ _ _ Hio) as Hlim32.
  pose proof (addr_nonneg _ Hv) as Ha0. pose proof Hio as (_ & _ & _ & Hf).
  assert (Hin : (addr bo + 9 <= zlen V * block_data_len)%Z) by (unfold used in Ha; lia).
  destruct (advance_spec bo 1) as [Ha1 [Hv1 _]]; [done|lia|dn_consts; lia|].
  destruct (advance_spec (DN.advance_block_offset bo 1) 8) as [Ha2 [Hv2 _]]; [done|lia|dn_consts; lia|].
  unfold T.do_delete_value. fold bo. wp_bind.
  eapply wp_conseq; [by apply value_info_ok|]. intros [[bo' hd] sz] s1 (E1 & E2 & E3 & Hio1 & Hfr1).
  cbn [fst snd] in E1, E2, E3. subst bo' hd sz. fold size. set (hb := value_header V (addr bo)) in *.
  change (nth 0 [hb] Byte.x00) with hb.
  change (overwrite [hb] 0 [T.header_byte _]) with [deleted_header hb]. cbv zeta.
  wp_bind. eapply wp_conseq; [apply (write_across_ok s1 V free); [done|done|lia|]|].
  { rewrite Ha2, Ha1. rewrite zlen_cons, zlen_nil. lia. }
  intros _ s2 (V' & free' & Hio2 & Hw & Hfsc2 & _).
  destruct (item_bounds _ Hit) as (_ & _ & Hlen). cbn [item_length] in Hlen.
  assert (Hu : u32 (zlen [deleted_header hb] + T.size_t_size + size) = (9 + size)%Z).
  { rewrite zlen_cons, zlen_nil. unfold T.size_t_size. rewrite u32_small; lia. }
  rewrite Hu. wp_bind. rewrite <-(fr_fsc _ _ Hfr1) in *. rewrite <-Hfsc2 in *.
  apply fsc_collect_wp; [done..|]. intros f' Hw' Hf'. apply wp_ret. exists V', free'.
  split; [by apply io_inv_fsc|]. split; [|done]. replace (addr bo + 9)%Z with (addr bo + 1 + 8)%Z by lia.
  by rewrite <-Ha1, <-Ha2.
Qed.
End Delete.

(** * Properties *)

(** A trie node written to the memory and read back is the same node: its header flags and 4-bit
    chunk size, both offsets and the whole key chunk, in exactly 32 bytes. *)
Theorem trie_node_roundtrip n :
  wf_node n -> T.node_of_bytes (T.node_bytes n) = n /\ zlen (T.node_bytes n) = T.sizeof_node.
Proof.
  intros Hn. split; [by apply node_roundtrip|]. destruct Hn as (_ & _ & _ & Hk). by apply node_bytes_length.
Qed.

Lemma trie_node_roundtrip_witness :
  let n := mk_th (mk_hdr false true true false 3) (mk_bo 1 8) (mk_bo 0 72) (bytes_of "abc" ++ replicate 12 Byte.x00) in
  T.node_of_bytes (T.node_bytes n) = n /\ zlen (T.node_bytes n) = T.sizeof_node.
Proof. apply trie_node_roundtrip. vm_compute. intuition discriminate. Defined.

(** C28: what do_delete_value does to the memory, for every valid memory, trie node and value record (in
    use, not free yet, within 4 GB; the store honest, no two blocks with the same hash): the value is detached from its node and exactly
    its record (header, size and bytes) becomes free, but the header with the deleted bit is written nine
    bytes after the start of the record, and the header of the record itself is left as it was.  That byte
    belongs to the record exactly when the value is not empty: deleting or replacing an empty value
    overwrites the first byte of whatever is stored after it.  No other byte in use changes. *)
Theorem do_delete_value_effect {OS : OpenSSL} {OL : @OpenSSLLaws OS} {B : BlockStore}
    {BL : BlockStoreLaws B} {P : LibC} s V free t :
  let bo := t.(node).(child_offset) in let size := value_size V (addr bo) in
  io_inv s V free -> valid_bo bo -> (addr bo + 9 <= used V free)%Z ->
  (addr bo + 10 + block_data_len < ADDR_LIMIT)%Z ->
  (T.header_of_byte (value_header V (addr bo))).(isValue) = true ->
  wf_fsc s.(free_space_collector_) -> item_ok (mk_fsi bo (9 + size)) ->
  (forall z, in_item (mk_fsi bo (9 + size)) z -> ~ free_in s.(free_space_collector_) z) ->
  wp (T.do_delete_value t) s (fun t' s' => exists V' free', io_inv s' V' free' /\
    written V free (addr bo + 9) [deleted_header (value_header V (addr bo))] V' free' /\
    subseq (concat V') (addr bo) 9 = subseq (concat V) (addr bo) 9 /\
    (in_item (mk_fsi bo (9 + size)) (addr bo + 9) <-> (0 < size)%Z) /\
    (forall z, free_in s'.(free_space_collector_) z <->
       free_in s.(free_space_collector_) z \/ in_item (mk_fsi bo (9 + size)) z) /\
    t'.(node).(child_offset) = empty_block_offset /\ t'.(modified) = true).
Proof.
  intros bo size Hio Hv Ha Hlim Hval Hwf Hit Hdis.
  eapply wp_conseq; [by apply delete_value_ok|]. fold bo size.
  intros t' s' (V' & free' & Hio' & Hw & _ & Hf & ->). exists V', free'.
  split_and!; try done; [|unfold in_item, iend, istart; cbn; lia].
  destruct Hw as (Hz & -> & _). destruct Hio as (_ & _ & Hu & Hfree). pose proof (addr_nonneg _ Hv) as Ha0.
  assert (Hl : zlen (concat V) = (zlen V * block_data_len)%Z) by (by apply zlen_concat).
  unfold used in Ha. rewrite zlen_cons, zlen_nil in Hz.
  rewrite subseq_overwrite_disjoint; [by rewrite subseq_app_in by lia|lia|lia| |lia].
  rewrite zlen_cons, zlen_nil, zlen_app, zlen_replicate, Hl. rewrite Z2Nat.id by (dn_consts; lia).
  rewrite Hz. dn_consts. Z.to_euclidean_division_equations. lia.
Qed.

(** ** The defect in a run *)

(** Run a sequence of operations on a new store. *)
Definition run_new {A} (m : M State_KV A) : result A :=
  match KV.create world0 key0 with
  | (Ok kv, _) => (m kv).1
  | (Err e, _) => Err e
  end.

Definition ops_before : M State_KV unit :=
  KV.Put (bytes_of "ab") [] ;;!
  KV.Put (bytes_of "ac") (bytes_of "x") ;;!
  KV.Delete (bytes_of "ab") ;;!
  KV.Put (bytes_of "ad") (replicate 23 "z"%byte) ;;!
  KV.Put (bytes_of "b") [].

(** The effect in a run.  Deleting an empty value can destroy other keys: after five operations the key ac still has
    its value; replacing the empty value of the key b overwrites the first byte of a neighbouring trie
    node, and ac is lost although nothing was ever put to it or deleted from it in between. *)
Example delete_empty_value_loses_key :
  run_new (ops_before ;;! KV.Get (bytes_of "ac")) = Ok (bytes_of "x") /\
  run_new (ops_before ;;! KV.Put (bytes_of "b") (bytes_of "y") ;;! KV.Get (bytes_of "ac")) = Ok [].
Proof. split; vm_compute; reflexivity. Qed.

(** The node of the first top-level key is never removed, so deleting the empty key leaves a node
    without a value, and looking the key up raises a RuntimeError, while looking up a key that was
    never put gives the empty value. *)
Theorem get_deleted_empty_key_fails :
  run_new (KV.Put [] (bytes_of "v") ;;! KV.Delete [] ;;! KV.Get []) =
    Err (RuntimeError "read value, value is absent") /\
  run_new (KV.Put [] (bytes_of "v") ;;! KV.Get (bytes_of "k")) = Ok [] /\
  run_new (KV.Get []) = Ok [].
Proof. split_and!; vm_compute; reflexivity. Qed.
