(* ===== verification/TrieHeap.v ===== *)
(** The flat memory of data_node_io as a heap of disjoint records: what reading, overwriting, allocating
    and freeing a record does to it.  The trie is built on these operations. *)
From S2P Require Import Prelude Crypto BlockStore Codec DataNode FreeSpace Json JsonSpec StateNode Cache CacheSpec.
From S2P Require Import DataNodeIO MemorySpec Trie StateKV Platform TrieSpec.

(** * Records *)

(** A record is an address and the bytes stored there; its span the addresses it occupies. *)
Definition record : Type := Z * bytes.
Definition cells (r : record) : list Z := seqZ r.1 (zlen r.2).
Definition span (R : list record) : list Z := R ≫= cells.

Lemma elem_of_cells r z : z ∈ cells r <-> (r.1 <= z < r.1 + zlen r.2)%Z.
Proof. unfold cells. rewrite elem_of_seqZ. lia. Qed.

Lemma elem_of_span R z : z ∈ span R <-> exists r, r ∈ R /\ (r.1 <= z < r.1 + zlen r.2)%Z.
Proof.
  unfold span. rewrite list_elem_of_bind. split; intros (r & H1 & H2); exists r; rewrite elem_of_cells in *; done.
Qed.

Lemma span_cons r R : span (r :: R) = cells r ++ span R.
Proof. done. Qed.

Lemma length_cells r : length (cells r) = length r.2.
Proof. unfold cells. rewrite length_seqZ. unfold zlen. lia. Qed.

#[global] Instance span_perm : Proper (Permutation ==> Permutation) span.
Proof. intros R R' HR. unfold span. by rewrite HR. Qed.

(** A write outside of a record leaves it. *)
Lemma record_untouched (m : bytes) a b (r : record) :
  (0 <= a)%Z -> (a + zlen b <= zlen m)%Z -> (0 <= r.1)%Z -> (forall z, a <= z < a + zlen b -> z ∉ cells r)%Z ->
  subseq m r.1 (zlen r.2) = r.2 -> subseq (overwrite m a b) r.1 (zlen r.2) = r.2.
Proof.
  intros Ha Hm Hr Hd Hs. destruct (decide (r.2 = [])) as [->|Hne]; [done|].
  destruct (decide (b = [])) as [->|Hnb]; [by rewrite overwrite_nil|].
  pose proof (zlen_not_nil_pos _ Hne). pose proof (zlen_not_nil_pos _ Hnb).
  rewrite subseq_overwrite_disjoint; [done|lia|lia|lia|].
  destruct (decide (a + zlen b <= r.1)%Z); [by right|]. destruct (decide (r.1 + zlen r.2 <= a)%Z); [by left|].
  destruct (Hd (Z.max r.1 a)); [lia|]. apply elem_of_cells. lia.
Qed.

Section Heap.
Context {OS : OpenSSL} {OL : @OpenSSLLaws OS} {B : BlockStore} {BL : BlockStoreLaws B} {P : LibC}.
Implicit Types (s : dn_io) (V : list bytes) (R : list record).

(** The heap holds the records [R], which do not overlap, and everything it may still hand out, free
    space or the space after [u], is outside of them. *)
Record heap s R (u : Z) V (free : Z) : Prop := {
  h_inv : io_inv s V free;
  h_used : used V free = u;
  h_fsc : wf_fsc s.(free_space_collector_);
  h_at r : r ∈ R -> (0 <= r.1)%Z /\ (r.1 + zlen r.2 <= u)%Z /\ subseq (concat V) r.1 (zlen r.2) = r.2;
  h_disj : NoDup (span R);
  h_free z : free_in s.(free_space_collector_) z -> (0 <= z < u)%Z /\ z ∉ span R;
}.

Definition has s R u : Prop := exists V free, heap s R u V free.

#[global] Instance has_perm : Proper ((=) ==> Permutation ==> (=) ==> iff) has.
Proof.
  assert (Hm : forall s R R' u, R ≡ₚ R' -> has s R u -> has s R' u).
  { intros s R R' u HR (V & free & [H1 H2 H3 H4 H5 H6]). exists V, free. split; try done.
    - intros r. rewrite <-HR. apply H4.
    - by rewrite <-HR.
    - intros z Hz. rewrite <-HR. by apply H6. }
  intros s ? <- R R' HR u ? <-. split; by apply Hm.
Qed.

Lemma zlen_memory s R u V free : heap s R u V free -> zlen (concat V) = (zlen V * block_data_len)%Z /\ (u <= zlen (concat V))%Z.
Proof.
  intros [(_ & _ & Hu & Hf) <- _ _ _ _]. rewrite zlen_concat by done. unfold used. split; lia.
Qed.

(** ** Reading *)

Lemma read_record s R u bo a b i n out :
  has s R u -> (a, b) ∈ R -> valid_bo bo -> addr bo = (a + i)%Z -> (0 <= i)%Z -> (0 <= n)%Z -> (i + n <= zlen b)%Z ->
  wp (IO.read_across_data_nodes bo n out) s (fun r s' => r = out ++ subseq b i n /\ has s' R u).
Proof.
  intros (V & free & Hh) Hin Hv Ha Hi Hn Hl. destruct (h_at _ _ _ _ _ Hh _ Hin) as (H0 & Hu & Hb). cbn [fst snd] in *.
  destruct (zlen_memory _ _ _ _ _ Hh) as [Hz Hz']. rewrite Hz in Hz'.
  eapply wp_conseq; [apply (read_across_ok s V free); [apply Hh|done|lia|lia]|].
  intros r s' (-> & Hio & Hfr). split.
  - f_equal. rewrite Ha, <-Hb. rewrite subseq_subseq by lia. done.
  - exists V, free. destruct Hh. rewrite <-(fr_fsc _ _ Hfr) in *. by split.
Qed.

(** ** Writing *)

(** Overwriting addresses below [u] that belong to no record other than the first. *)
Lemma heap_write s R u V free bo b :
  heap s R u V free -> valid_bo bo -> (addr bo + zlen b <= u)%Z -> (u + block_data_len < ADDR_LIMIT)%Z ->
  wp (IO.write_across_data_nodes b 0 bo) s (fun _ s' => exists V' free', io_inv s' V' free' /\ used V' free' = u /\
    concat V' = overwrite (concat V) (addr bo) b /\ s'.(free_space_collector_) = s.(free_space_collector_)).
Proof.
  intros Hh Hv Ha Hlim. destruct (zlen_memory _ _ _ _ _ Hh) as [Hz Hz']. rewrite Hz in Hz'.
  pose proof (zlen_nonneg b). pose proof (addr_nonneg _ Hv).
  destruct Hh as [Hio Hus _ _ _ _]. eapply wp_conseq; [apply (write_across_ok s V free); [done|done|lia|lia]|].
  intros _ s' (V' & free' & Hio' & (Hzv & Hc & Hu') & Hfsc & _). exists V', free'.
  assert (Hzz : zlen V' = zlen V).
  { rewrite Hzv. apply Z.max_l. dn_consts. Z.to_euclidean_division_equations. lia. }
  split_and!; [done|lia| |done]. rewrite Hc, Hzz, Z.sub_diag. cbn. by rewrite app_nil_r.
Qed.

(** Changing part of a record. *)
Lemma write_record s R u bo a b i b' :
  has s ((a, b) :: R) u -> valid_bo bo -> addr bo = (a + i)%Z -> (0 <= i)%Z -> (i + zlen b' <= zlen b)%Z ->
  (u + block_data_len < ADDR_LIMIT)%Z ->
  wp (IO.write_across_data_nodes b' 0 bo) s (fun _ s' => has s' ((a, overwrite b i b') :: R) u).
Proof.
  intros (V & free & Hh) Hv Ha Hi Hl Hlim. pose proof (zlen_nonneg b') as Hb'0.
  destruct (h_at _ _ _ _ _ Hh (a, b)) as (H0 & Hu & Hb); [apply elem_of_cons; by left|]. cbn [fst snd] in *.
  destruct (zlen_memory _ _ _ _ _ Hh) as [Hz Hz'].
  eapply wp_conseq; [eapply heap_write; [done|done|lia|done]|].
  intros _ s' (V' & free' & Hio' & Hu' & Hc & Hfsc). exists V', free'.
  assert (Hlen : zlen (overwrite b i b') = zlen b) by (apply zlen_overwrite; lia).
  assert (Hcells : cells (a, overwrite b i b') = cells (a, b)) by (unfold cells; cbn; by rewrite Hlen).
  destruct Hh as [Hio Hus Hf Hat Hdis Hfree]. split; rewrite ?Hfsc; try done.
  - intros r [->|Hr]%elem_of_cons; cbn [fst snd].
    + split_and!; [lia|lia|]. rewrite Hlen, Hc, subseq_overwrite_in by lia. rewrite Hb. f_equal. lia.
    + destruct (Hat r) as (Hr0 & Hr1 & Hr2); [apply elem_of_cons; by right|]. split_and!; [done..|].
      rewrite Hc. apply record_untouched; [lia|lia|done| |done]. intros z Hzr Hcr.
      rewrite span_cons in Hdis. apply list.NoDup_app in Hdis as (_ & Hd & _). apply (Hd z).
      * apply elem_of_cells. cbn. lia.
      * apply elem_of_span. exists r. split; [done|]. by apply elem_of_cells in Hcr.
  - rewrite span_cons, Hcells. done.
  - intros z Hz0. rewrite span_cons, Hcells. by apply Hfree.
Qed.

(** Writing outside of the records. *)
Lemma write_outside s R u bo b :
  has s R u -> valid_bo bo -> (addr bo + zlen b <= u)%Z -> (u + block_data_len < ADDR_LIMIT)%Z ->
  (forall z, addr bo <= z < addr bo + zlen b -> z ∉ span R)%Z ->
  wp (IO.write_across_data_nodes b 0 bo) s (fun _ s' => has s' R u /\
    s'.(free_space_collector_) = s.(free_space_collector_)).
Proof.
  intros (V & free & Hh) Hv Ha Hlim Hout. destruct (zlen_memory _ _ _ _ _ Hh) as [Hz Hz'].
  pose proof (addr_nonneg _ Hv). eapply wp_conseq; [by eapply heap_write|].
  intros _ s' (V' & free' & Hio' & Hu' & Hc & Hfsc). split; [|done]. exists V', free'.
  destruct Hh as [Hio Hus Hf Hat Hdis Hfree]. split; rewrite ?Hfsc; try done.
  intros r Hr. destruct (Hat r Hr) as (Hr0 & Hr1 & Hr2). split_and!; [done..|].
  rewrite Hc. apply record_untouched; [lia|lia|done| |done]. intros z Hzr Hcr. apply (Hout z Hzr).
  apply elem_of_span. exists r. split; [done|]. by apply elem_of_cells in Hcr.
Qed.

(** ** Freeing *)

Lemma free_record s R u bo b :
  has s ((addr bo, b) :: R) u -> valid_bo bo -> b <> [] -> (u < ADDR_LIMIT)%Z ->
  wp (IO.fsc_collect bo (zlen b)) s (fun _ s' => has s' R u /\
    (forall z, addr bo <= z < addr bo + zlen b -> z ∉ span R)%Z).
Proof.
  intros (V & free & Hh) Hv Hb Hlim. pose proof (zlen_not_nil_pos b Hb) as Hb0.
  destruct (h_at _ _ _ _ _ Hh (addr bo, b)) as (H0 & Hu & _); [apply elem_of_cons; by left|]. cbn [fst snd] in *.
  destruct Hh as [Hio Hus Hf Hat Hdis Hfree].
  assert (Hin : forall z, in_item (mk_fsi bo (zlen b)) z <-> z ∈ cells (addr bo, b)).
  { intros z. rewrite elem_of_cells. done. }
  rewrite span_cons in Hdis. apply list.NoDup_app in Hdis as (_ & Hd & Hdis).
  apply fsc_collect_wp; [done| | |].
  - split_and!; cbn; [apply Hv..|lia|]. unfold iend, istart. cbn. lia.
  - intros z Hz%Hin Hz'%Hfree. destruct Hz' as [_ Hn]. apply Hn. rewrite span_cons. apply elem_of_app. by left.
  - intros f' Hwf' Hfree'. split.
    + exists V, free. split; [by apply io_inv_fsc|done|done| |done|].
      * intros r Hr. apply Hat. apply elem_of_cons. by right.
      * cbn. intros z [Hz%Hfree|Hz%Hin]%Hfree'.
        -- rewrite span_cons, not_elem_of_app in Hz. tauto.
        -- split; [|by apply Hd]. apply elem_of_cells in Hz. cbn in Hz. lia.
    + intros z Hz. apply Hd. by apply elem_of_cells.
Qed.

(** ** Allocating *)

(** A region of [n] bytes at [a] whose first bytes [w] are written: it is a record already, or it is at
    the end of the used part. *)
Definition region s R a w (n u : Z) : Prop :=
  (exists b, zlen b = n /\ subseq b 0 (zlen w) = w /\ has s ((a, b) :: R) u) \/ (u = a + zlen w /\ has s ((a, w) :: R) u)%Z.

Lemma allocate_free s R u n :
  has s R u -> (0 < n)%Z ->
  wp (IO.fsc_allocate n) s (fun o s' => match o with
    | Some bo => valid_bo bo /\ exists b, zlen b = n /\ has s' ((addr bo, b) :: R) u
    | None => has s' R u end).
Proof.
  intros (V & free & [Hio Hus Hf Hat Hdis Hfree]) Hn.
  destruct (allocate_ok s.(free_space_collector_) n Hf Hn) as (f' & o & Ha & Hf' & Hal).
  eapply wp_eq; [unfold IO.fsc_allocate, IO.lift_fsc; run_monad; rewrite Ha; reflexivity|]. intros _.
  assert (Hio' := io_inv_fsc s V free f' Hio). destruct o as [bo|].
  - destruct Hal as (Hok & Hin & Hiff). destruct (item_bounds _ Hok) as (H0 & Hend & Hlen).
    unfold in_item, iend, istart in *. cbn [item_bo item_length] in *.
    assert (Hu : (addr bo + n <= u)%Z).
    { destruct (Hfree (addr bo + n - 1)%Z) as [? _]; [apply Hin; lia|lia]. }
    assert (Hmem : (u <= zlen (concat V))%Z).
    { destruct Hio as (_ & _ & Huni & Hfr). rewrite zlen_concat by done. unfold used in Hus. lia. }
    split; [apply Hok|]. exists (subseq (concat V) (addr bo) n).
    assert (Hl : zlen (subseq (concat V) (addr bo) n) = n) by (apply zlen_subseq; lia).
    split; [done|]. exists V, free. split; try done.
    + intros r [->|Hr]%elem_of_cons; [cbn; rewrite Hl; done|by apply Hat].
    + rewrite span_cons. apply list.NoDup_app. split; [apply NoDup_seqZ|]. split; [|done].
      intros z Hz Hz'. apply elem_of_cells in Hz. cbn in Hz. rewrite Hl in Hz. by apply (Hfree z); [apply Hin|].
    + intros z [Hz Hz']%Hiff. destruct (Hfree z Hz) as [? Hns]. split; [done|].
      rewrite span_cons, not_elem_of_app. split; [|done]. intros Hc%elem_of_cells. cbn in Hc. rewrite Hl in Hc. done.
  - destruct Hal as (Hiff & _). exists V, free. split; try done. intros z Hz. by apply Hfree, Hiff.
Qed.

Lemma append_offset s R u : has s R u ->
  wp IO.block_offset_for_appending s (fun bo s' => valid_bo bo /\ addr bo = u /\ s' = s).
Proof.
  intros (V & free & Hh). pose proof Hh as [Hio Hus _ _ _ _].
  destruct (append_node_inv s V free Hio) as (n & fr & v & _ & _ & Hn & _ & _ & (Hwf & Hbn & _) & Hf).
  eapply wp_eq; [unfold IO.block_offset_for_appending, IO.append_node, C.deref, Slots.deref; run_monad; rewrite Hn; reflexivity|].
  intros _. destruct (io_size _ _ _ Hio) as (Hz & _). destruct Hio as (_ & _ & _ & Hfr).
  unfold DN.cursor. rewrite Hf, Hbn, u32_small by (dn_consts; lia). unfold valid_bo, addr. cbn [block_num bytes_].
  unfold used in Hus. dn_consts. split_and!; lia || done.
Qed.

(** The space for a record: found free, or at the end. *)
Lemma grab s R u n (Q : block_offset_t -> dn_io -> Prop) :
  has s R u -> (0 < n)%Z ->
  (forall bo s', valid_bo bo -> region s' R (addr bo) [] n u -> (addr bo <= u)%Z -> Q bo s') ->
  wp (IO.fsc_allocate n) s (fun o s' => match o with Some bo => Q bo s'
                                        | None => wp IO.block_offset_for_appending s' Q end).
Proof.
  intros Hh Hn HQ. eapply wp_conseq; [by apply allocate_free|]. intros [bo|] s' Ho.
  - destruct Ho as (Hv & b & Hb & Hs). apply HQ; [done|left; by exists b|].
    destruct Hs as (V & free & [_ _ _ Hat _ _]). destruct (Hat (addr bo, b)) as (? & ? & _); [apply elem_of_cons; by left|].
    cbn in *. lia.
  - eapply wp_conseq; [by eapply append_offset|]. intros bo s'' (Hv & Ha & ->). apply HQ; [done| |lia]. right.
    rewrite zlen_nil. split; [lia|]. destruct Ho as (V & free & [Hio Hus Hf Hat Hdis Hfree]). exists V, free.
    split; try done. intros r [->|Hr]%elem_of_cons; [|by apply Hat]. cbn. pose proof (addr_nonneg _ Hv). rewrite zlen_nil.
    split_and!; [done|lia|done].
Qed.

(** Writing on at the end of the used part. *)
Lemma append_record s R a w u bo c :
  has s ((a, w) :: R) u -> u = (a + zlen w)%Z -> valid_bo bo -> addr bo = u -> (u + zlen c + block_data_len < ADDR_LIMIT)%Z ->
  wp (IO.write_across_data_nodes c 0 bo) s (fun _ s' => has s' ((a, w ++ c) :: R) (u + zlen c)).
Proof.
  intros (V & free & Hh) Hu Hv Ha Hlim. pose proof (zlen_nonneg c) as Hc0. pose proof (zlen_nonneg w) as Hw0.
  destruct (zlen_memory _ _ _ _ _ Hh) as [Hz Hz']. destruct Hh as [Hio Hus Hf Hat Hdis Hfree].
  destruct (Hat (a, w)) as (Ha0 & _ & Hw); [apply elem_of_cons; by left|]. cbn [fst snd] in *.
  eapply wp_conseq; [apply (write_across_ok s V free); [done|done|lia|lia]|].
  intros _ s' (V' & free' & Hio' & (Hzv & Hc & Hu') & Hfsc & _). rewrite Ha in *. exists V', free'.
  set (m := concat V ++ _) in Hc.
  assert (Hm : (u + zlen c <= zlen m)%Z).
  { unfold m. rewrite zlen_app, zlen_replicate, Hz. pose proof (zlen_nonneg V).
    assert (zlen V <= zlen V')%Z by lia. rewrite Z2Nat.id by (dn_consts; lia).
    rewrite Hzv. dn_consts. Z.to_euclidean_division_equations. lia. }
  assert (Hold : forall i n, (0 <= i)%Z -> (i + n <= u)%Z -> subseq (concat V') i n = subseq (concat V) i n).
  { intros i n Hi Hn. rewrite Hc, subseq_overwrite_disjoint by lia. unfold m. apply subseq_app_in; lia. }
  assert (Hcells : forall z, z ∈ cells (a, w ++ c) -> z ∈ cells (a, w) \/ (u <= z)%Z).
  { intros z. rewrite !elem_of_cells. cbn [fst snd]. rewrite zlen_app. lia. }
  rewrite span_cons in Hdis. apply list.NoDup_app in Hdis as (_ & Hd & Hdis).
  assert (Hlow : forall z, z ∈ span R -> (z < u)%Z).
  { intros z (r & Hr & Hzr)%elem_of_span. destruct (Hat r) as (_ & ? & _); [apply elem_of_cons; by right|]. lia. }
  split; rewrite ?Hfsc; try done.
  - lia.
  - intros r [->|Hr]%elem_of_cons; cbn [fst snd].
    + rewrite zlen_app. split_and!; [done|lia|].
      assert (Hsp : subseq (concat V') a (zlen w + zlen c) = subseq (concat V') a (zlen w) ++ subseq (concat V') u (zlen c)).
      { unfold subseq. rewrite Z2Nat.inj_add, <-take_take_drop by lia. f_equal. rewrite drop_drop. do 2 f_equal. lia. }
      rewrite Hsp, Hold, Hw by lia. f_equal. rewrite Hc. apply subseq_overwrite_same; lia.
    + destruct (Hat r) as (? & ? & Hr2); [apply elem_of_cons; by right|]. rewrite Hold by lia. split_and!; [done|lia|done].
  - rewrite span_cons. apply list.NoDup_app. split; [apply NoDup_seqZ|]. split; [|done].
    intros z [Hz0|Hz0]%Hcells Hzr; [by apply (Hd z)|]. apply Hlow in Hzr. lia.
  - intros z Hzf. destruct (Hfree z Hzf) as [Hr Hn]. split; [lia|]. rewrite span_cons, not_elem_of_app in *.
    split; [|tauto]. intros [?|?]%Hcells; [tauto|lia].
Qed.

Lemma region_write s R a w n u bo c :
  region s R a w n u -> valid_bo bo -> addr bo = (a + zlen w)%Z -> (zlen w + zlen c <= n)%Z ->
  (Z.max u (a + n) + block_data_len < ADDR_LIMIT)%Z ->
  wp (IO.write_across_data_nodes c 0 bo) s (fun _ s' => exists u', region s' R a (w ++ c) n u' /\
    (u <= u' <= Z.max u (a + n))%Z).
Proof.
  intros Hr Hv Ha Hn Hlim. pose proof (zlen_nonneg c) as Hc0. pose proof (zlen_nonneg w) as Hw0.
  destruct Hr as [(b & Hb & Hw & Hh)|[Hu Hh]].
  - eapply wp_conseq; [apply (write_record s R u bo a b (zlen w) c Hh Hv Ha); lia|]. cbn beta. intros _ s' Hh'.
    exists u. split; [|lia]. left. exists (overwrite b (zlen w) c). rewrite zlen_overwrite by lia.
    split_and!; [done| |done]. rewrite zlen_app. unfold subseq, overwrite in *. cbn [drop Z.to_nat] in *.
    rewrite Z2Nat.inj_add by lia. change (drop (Z.to_nat 0) b) with b in Hw. rewrite Hw.
    change (drop (Z.to_nat 0) ?l) with l. rewrite app_assoc.
    rewrite take_app_le by (rewrite length_app; unfold zlen; lia). apply take_ge. rewrite length_app. unfold zlen. lia.
  - eapply wp_conseq; [apply (append_record s R a w u bo c Hh Hu Hv); lia|]. cbn beta. intros _ s' Hh'.
    exists (u + zlen c)%Z. split; [|lia]. right. rewrite zlen_app. split; [lia|done].
Qed.

Lemma region_full s R a w n u : region s R a w n u -> zlen w = n -> has s ((a, w) :: R) u.
Proof.
  intros [(b & Hb & Hw & Hh)|[_ Hh]] Hn; [|done]. rewrite subseq_all in Hw by lia. by subst.
Qed.

(** ** Leaving the rest of a block *)

(** The heap in a memory that has one more block. *)
Lemma has_grown s s' R u V free f' :
  heap s R u V free -> io_inv s' (V ++ [zero_block]) block_data_len -> s'.(free_space_collector_) = f' -> wf_fsc f' ->
  (forall z, free_in f' z -> free_in s.(free_space_collector_) z \/ u <= z < u + free)%Z ->
  has s' R (u + free).
Proof.
  intros Hh Hio' Hfsc Hf' Hfree'. destruct (zlen_memory _ _ _ _ _ Hh) as [Hz Hz'].
  destruct Hh as [Hio Hus Hf Hat Hdis Hfree]. pose proof Hio as (_ & _ & _ & Hfr).
  exists (V ++ [zero_block]), block_data_len. split; rewrite ?Hfsc; try done.
  - unfold used in *. rewrite zlen_app, zlen_cons, zlen_nil. lia.
  - intros r Hr. destruct (Hat r Hr) as (? & ? & Hs). split_and!; [done|lia|].
    rewrite concat_app, subseq_app_in by lia. done.
  - intros z [Hz0|Hz0]%Hfree'.
    + destruct (Hfree z Hz0). split; [lia|done].
    + split.
      * destruct (io_size _ _ _ Hio). unfold used in Hus. dn_consts. lia.
      * intros (r & Hr & Hzr)%elem_of_span. destruct (Hat r Hr). lia.
Qed.

Lemma consume_ok s R u n (Hn : (0 < n <= block_data_len)%Z) :
  has s R u -> (u + n + block_data_len < ADDR_LIMIT)%Z ->
  wp (let! a := IO.append_node in IO.consume_add_and_init_append_data_node_cond (bool_decide (n > DN.free_bytes a)%Z)) s
    (fun _ s' => exists u', has s' R u' /\ (u <= u' <= u + n)%Z).
Proof.
  intros (V & free & Hh) Hlim. pose proof Hh as [Hio Hus Hf _ _ Hfree]. pose proof Hio as (_ & Hap & Hu & Hfr).
  destruct (append_node_inv s V free Hio) as (nd & fr & v & Hinv & Hlast & Hnd & Hv & Hhas & Hholds & Hnf).
  assert (Hgr : grows IO.consume_add_and_init_append_data_node).
  { unfold IO.consume_add_and_init_append_data_node, IO.block_offset_for_appending. grows. }
  apply wp_bind; [intros; by apply grows_when|].
  assert (Happ : forall Q : data_node -> dn_io -> Prop, Q nd s -> wp IO.append_node s Q).
  { intros Q HQ. eapply wp_eq; [|done]. unfold IO.append_node, C.deref, Slots.deref. run_monad. by rewrite Hnd. }
  apply Happ. unfold DN.free_bytes. rewrite Hnf. apply wp_when; intros Hc.
  2: { exists u. split; [by exists V, free|lia]. }
  apply bool_decide_eq_true_1 in Hc. unfold used in Hus. unfold IO.consume_add_and_init_append_data_node.
  assert (Hg : grows IO.add_and_init_append_data_node) by grows.
  assert (Hgc : forall b l, grows (IO.fsc_collect b l)) by (intros; apply grows_lift_fsc).
  apply wp_bind; [grows|]. eapply wp_conseq; [eapply append_offset; by exists V, free|]. intros bo s0 (Hvb & Hab & ->).
  apply wp_bind; [grows|]. apply Happ. unfold DN.free_bytes. rewrite Hnf. apply wp_bind; [grows|].
  pose proof (addr_nonneg _ Hvb) as Hu0. destruct (io_size _ _ _ Hio) as (HV0 & HVl & _).
  apply wp_when; intros Hc'.
  - apply bool_decide_eq_true_1 in Hc'. wp_bind. apply fsc_collect_wp; [done| | |].
    { split_and!; cbn; [apply Hvb..|lia|]. unfold iend, istart. cbn. lia. }
    { intros z Hzi Hzf. apply Hfree in Hzf. unfold in_item, istart in Hzi. cbn in Hzi. lia. }
    intros f' Hf' Hfree'. set (s1 := C.set_fsc f' s). assert (Hio1 : io_inv s1 V free) by (by apply io_inv_fsc).
    assert (Hcon : DN.consume_free_space nd free = Ok (mk_dn nd.(data_) nd.(originalEncryptedDataNodeId_) nd.(block_num_) 0)).
    { unfold DN.consume_free_space. rewrite Hnf, bool_decide_eq_false_2 by lia. cbn [throw_if result_bind]. rewrite Z.sub_diag. done. }
    wp_bind. eapply wp_lift; [exact Hcon|]. wp_bind. apply wp_get.
    assert (Hinv1 : cache_inv s1 V fr None) by (by apply cache_inv_fsc). destruct Hio1 as (_ & Hap1 & _).
    set (fr' := set_free fr (zlen V - 1) (-1)).
    assert (Hw : forall k, (0 <= fr' k)%Z -> fr' k = fr k).
    { intros k. unfold fr', set_free. case_bool_decide; [lia|done]. }
    eapply wp_conseq; [eapply (assign_same_ok s1 V fr' None (zlen V - 1) v s.(append_dn_))|].
    + by eapply cache_inv_weaken.
    + destruct Hhas as (e & n1 & ? & ? & ? & Hh1). exists e, n1. split_and!; try done.
      by eapply holds_weaken.
    + done.
    + destruct Hholds as ((? & ? & ?) & ? & ? & _). split; [done|]. split_and!; try done. unfold fr'. rewrite set_free_eq. lia.
    + intros _ s2 (Hinv2 & Hfr2 & _ & Hn2). rewrite <-(fr_append _ _ Hfr2 : append_dn_ s2 = append_dn_ s) in Hn2.
      eapply wp_conseq; [eapply add_weak_ok; [exact Hinv2|by eapply append_ok_frame|done|exact Hn2|by vm_compute|lia]|].
      intros _ s3 (Hinv3 & Hap3 & Hu3 & _ & Hf3 & _). exists (u + free)%Z. split; [|lia].
      eapply (has_grown s s3); [done|by eapply added_inv| |exact Hf'|].
      * rewrite Hf3, (fr_fsc _ _ Hfr2). done.
      * intros z [?|Hz]%Hfree'; [by left|right]. unfold in_item, iend, istart in Hz. cbn in Hz. lia.
  - apply bool_decide_eq_false_1 in Hc'. assert (free = 0%Z) as -> by lia.
    eapply wp_conseq; [eapply add_ok; [done|by vm_compute|lia]|]. intros _ s1 (Hio1 & Hf1 & _).
    exists (u + 0)%Z. split; [|lia]. eapply (has_grown s s1); [done|done|exact Hf1|done|by left].
Qed.

(** The records fit in the blocks of the store. *)
Lemma span_fits s R u : has s R u ->
  (zlen (span R) <= zlen s.(block_warehouse_).(blockIds_) * block_data_len)%Z.
Proof.
  intros (V & free & Hh). destruct (zlen_memory _ _ _ _ _ Hh) as [Hz Hz']. destruct Hh as [Hio _ _ Hat Hdis _].
  destruct (io_size _ _ _ Hio) as (? & ? & Hids).
  assert (Hsub : span R ⊆+ seqZ 0 u).
  { apply NoDup_submseteq; [done|]. intros z (r & Hr & Hzr)%elem_of_span. destruct (Hat r Hr) as (? & ? & _).
    apply elem_of_seqZ. lia. }
  apply submseteq_length in Hsub. rewrite length_seqZ in Hsub. unfold zlen in *. rewrite Hids.
  dn_consts. lia.
Qed.
End Heap.
