(* ===== verification/TrieModel.v ===== *)
(** The trie as a tree, with the place of its nodes in memory: what a lookup finds in it, and which
    changes of the tree put, replace and remove a key. *)
From S2P Require Import Prelude Crypto BlockStore Codec DataNode FreeSpace Json JsonSpec StateNode Cache CacheSpec.
From S2P Require Import DataNodeIO MemorySpec Trie StateKV Platform TrieSpec TrieHeap.

(** * Trees *)

(** The part of a trie node that does not depend on the rest of the tree. *)
Record cell := mk_cell { c_loc : block_offset_t; c_hdr : trie_node_header_t; c_chunk : bytes }.

(** A chain of siblings: its first node, and the nodes after it.  A node with an empty chunk ends a key
    and has a value record as its child; any other node has a chain of its own. *)
Inductive tree :=
  | Nil
  | Eos (c : cell) (vloc : block_offset_t) (v : bytes) (next : tree)
  | Node (c : cell) (child next : tree).

#[global] Instance tree_is_nil t : Decision (t = Nil).
Proof. destruct t; [by left|by right..]. Defined.

Definition chunk (c : cell) : bytes := subseq c.(c_chunk) 0 c.(c_hdr).(keyChunkSize).

Definition loc (t : tree) : block_offset_t :=
  match t with Nil => empty_block_offset | Eos c _ _ _ => c.(c_loc) | Node c _ _ => c.(c_loc) end.

(** ** Lookup *)

Fixpoint find (t : tree) (k : bytes) : option bytes :=
  match t with
  | Nil => None
  | Eos _ _ v next => if bool_decide (k = []) then Some v else find next k
  | Node c child next =>
      let p := T.shared_prefix_length (chunk c) k in
      if bool_decide (p = 0%Z) then find next k
      else if bool_decide (p = zlen (chunk c)) then find child (drop (Z.to_nat p) k)
      else None
  end.

(** The first byte of a node's chunk, [None] for the end of a key; siblings have different ones. *)
Fixpoint heads (t : tree) : list (option byte) :=
  match t with
  | Nil => []
  | Eos _ _ _ next => None :: heads next
  | Node c _ next => head (chunk c) :: heads next
  end.

(** ** The records of a tree *)

Definition cell_node (c : cell) (child next : block_offset_t) : trie_node_h :=
  mk_th c.(c_hdr) next child c.(c_chunk).

Definition cell_record (c : cell) (child next : block_offset_t) : record :=
  (addr c.(c_loc), T.node_bytes (cell_node c child next)).

Definition value_image (v : bytes) : bytes :=
  T.header_byte (mk_hdr false false false true 0) :: le_split 8 (zlen v) ++ v.

Fixpoint records (t : tree) : list record :=
  match t with
  | Nil => []
  | Eos c vloc v next => cell_record c vloc (loc next) :: (addr vloc, value_image v) :: records next
  | Node c child next => cell_record c (loc child) (loc next) :: records child ++ records next
  end.

Fixpoint nodes (t : tree) : nat :=
  match t with Nil => 0 | Eos _ _ _ next => S (nodes next) | Node _ child next => S (nodes child + nodes next) end.

(** ** Well-formed trees *)

(** An offset at which a record can be. *)
Definition place (bo : block_offset_t) : Prop := valid_bo bo /\ (addr bo < ADDR_LIMIT)%Z.

Definition wf_chunk (c : cell) : Prop :=
  zlen c.(c_chunk) = MAX_KEY_CHUNK_BYTE_SIZE /\ (0 <= c.(c_hdr).(keyChunkSize) <= MAX_KEY_CHUNK_BYTE_SIZE)%Z.

Definition wf_cell (c : cell) : Prop := place c.(c_loc) /\ wf_chunk c.

Fixpoint wf (t : tree) : Prop :=
  match t with
  | Nil => True
  | Eos c vloc v next => wf_cell c /\ chunk c = [] /\ place vloc /\ (None ∉ heads next) /\ wf next
  | Node c child next => wf_cell c /\ chunk c <> [] /\ (head (chunk c) ∉ heads next) /\ wf child /\ wf next
  end.

Lemma chunk_length c : wf_chunk c -> zlen (chunk c) = c.(c_hdr).(keyChunkSize).
Proof. intros (Hl & Hs). unfold chunk. apply zlen_subseq; lia. Qed.

(** * Common prefixes *)

Lemma spl_bounds a b : (0 <= T.shared_prefix_length a b <= zlen a)%Z /\ (T.shared_prefix_length a b <= zlen b)%Z.
Proof.
  revert b. induction a as [|x a IH]; intros b.
  - cbn. rewrite zlen_nil. pose proof (zlen_nonneg b). lia.
  - pose proof (zlen_nonneg a). destruct b as [|y b]; cbn [T.shared_prefix_length]; rewrite ?zlen_nil, !zlen_cons; [lia|].
    pose proof (zlen_nonneg b). specialize (IH b). case_bool_decide; lia.
Qed.

Lemma spl_take a b : take (Z.to_nat (T.shared_prefix_length a b)) a = take (Z.to_nat (T.shared_prefix_length a b)) b.
Proof.
  revert b. induction a as [|x a IH]; intros [|y b]; cbn [T.shared_prefix_length]; try done.
  case_bool_decide as E; [|done]. subst. pose proof (spl_bounds a b).
  rewrite Z2Nat.inj_add by lia. change (Z.to_nat 1) with 1. cbn [Nat.add take]. f_equal. apply IH.
Qed.

(** No common prefix: the first bytes differ, or one is empty. *)
Lemma spl_zero a b : T.shared_prefix_length a b = 0%Z <-> a = [] \/ b = [] \/ head a <> head b.
Proof.
  destruct a as [|x a], b as [|y b]; cbn [T.shared_prefix_length head]; try (split; [auto|done]).
  pose proof (spl_bounds a b). case_bool_decide as E; split.
  - lia.
  - subst. intros [?|[?|?]]; done.
  - intros _. right. right. congruence.
  - done.
Qed.

Lemma spl_full a k : T.shared_prefix_length a (a ++ k) = zlen a.
Proof.
  induction a as [|x a IH]; [done|]. cbn [T.shared_prefix_length app]. rewrite bool_decide_eq_true_2, IH, zlen_cons by done. done.
Qed.

Lemma spl_full_inv a k : T.shared_prefix_length a k = zlen a -> k = a ++ drop (length a) k.
Proof.
  intros E. pose proof (spl_take a k) as Ht. rewrite E in Ht. unfold zlen in Ht. rewrite Nat2Z.id, firstn_all in Ht.
  rewrite Ht at 1. by rewrite take_drop.
Qed.

(** Reading the first chunk as two. *)
Lemma spl_app a1 a2 k : T.shared_prefix_length (a1 ++ a2) k =
  if bool_decide (T.shared_prefix_length a1 k = zlen a1)
  then (zlen a1 + T.shared_prefix_length a2 (drop (length a1) k))%Z else T.shared_prefix_length a1 k.
Proof.
  revert k. induction a1 as [|x a1 IH]; intros k.
  - cbn [app T.shared_prefix_length]. rewrite zlen_nil. destruct k; cbn; by rewrite bool_decide_eq_true_2.
  - destruct k as [|y k]; cbn [app T.shared_prefix_length].
    { rewrite zlen_cons. pose proof (zlen_nonneg a1). by rewrite bool_decide_eq_false_2 by lia. }
    case_bool_decide as E; [|rewrite zlen_cons; pose proof (zlen_nonneg a1); by rewrite bool_decide_eq_false_2 by lia].
    rewrite IH, zlen_cons. case_bool_decide as E1; case_bool_decide as E2; try lia. cbn [length drop]. lia.
Qed.

(** * Changing a key *)

(** [t'] is [t] with [k] bound to [o], or unbound. *)
Definition updates (k : bytes) (o : option bytes) (t t' : tree) : Prop :=
  forall k', find t' k' = if bool_decide (k' = k) then o else find t k'.

(** The first byte of [k] is the only one that a chain can get. *)
Definition extends (k : bytes) (t t' : tree) : Prop := forall x, x ∈ heads t' -> x ∈ heads t \/ x = head k.

Lemma find_not_head t k : wf t -> head k ∉ heads t -> find t k = None.
Proof.
  induction t as [|c vl v next IH|c child _ next IH]; cbn [find heads wf]; [done|..].
  - intros (_ & _ & _ & _ & Hn) Hk. rewrite not_elem_of_cons in Hk. destruct Hk as [Hk Hkn].
    rewrite bool_decide_eq_false_2; [by apply IH|]. by intros ->.
  - intros (_ & _ & _ & _ & Hn) Hk. rewrite not_elem_of_cons in Hk. destruct Hk as [Hk Hkn].
    rewrite bool_decide_eq_true_2; [by apply IH|]. apply spl_zero. auto.
Qed.

Lemma updates_refl t k : updates k (find t k) t t.
Proof. intros k'. case_bool_decide; congruence. Qed.

Lemma updates_next k o c child next next' :
  T.shared_prefix_length (chunk c) k = 0%Z -> updates k o next next' ->
  updates k o (Node c child next) (Node c child next').
Proof.
  intros Hp Hn k'. cbn [find]. case_bool_decide as Hp'.
  - apply Hn.
  - rewrite (bool_decide_eq_false_2 (k' = k)) by (by intros ->). done.
Qed.

Lemma updates_next_eos k o c vl v next next' :
  k <> [] -> updates k o next next' -> updates k o (Eos c vl v next) (Eos c vl v next').
Proof.
  intros Hk Hn k'. cbn [find]. case_bool_decide as E; [|apply Hn].
  rewrite bool_decide_eq_false_2; [done|]. by intros ->.
Qed.

Lemma updates_child rest o c child child' next :
  chunk c <> [] -> updates rest o child child' ->
  updates (chunk c ++ rest) o (Node c child next) (Node c child' next).
Proof.
  intros Hc Hn k'. cbn [find]. pose proof (zlen_not_nil_pos _ Hc) as Hl. case_bool_decide as Hp.
  { rewrite bool_decide_eq_false_2; [done|]. intros ->. rewrite spl_full in Hp. lia. }
  case_bool_decide as Hf.
  - rewrite (Hn (drop _ k')). pose proof (spl_full_inv _ _ Hf) as Hk. rewrite Hf. unfold zlen. rewrite Nat2Z.id.
    set (r := drop (length (chunk c)) k') in *. rewrite Hk.
    case_bool_decide as E1; case_bool_decide as E2; try done.
    + destruct E2. by rewrite E1.
    + by apply app_inv_head in E2.
  - rewrite bool_decide_eq_false_2; [done|]. intros ->. by rewrite spl_full in Hf.
Qed.

Lemma updates_value c c' vl vl' v v' next : updates [] (Some v') (Eos c vl v next) (Eos c' vl' v' next).
Proof. intros k'. cbn [find]. by repeat case_bool_decide. Qed.

Lemma updates_remove c vl v next : wf next -> None ∉ heads next -> updates [] None (Eos c vl v next) next.
Proof.
  intros Hw Hn k'. cbn [find]. repeat case_bool_decide; subst; try done. by apply find_not_head.
Qed.

(** A node whose chain is empty can go. *)
Lemma find_prune c next k : wf (Node c Nil next) -> find (Node c Nil next) k = find next k.
Proof.
  intros (_ & Hc & Hh & _ & Hw). cbn [find]. case_bool_decide as Hp; [done|].
  symmetry. trans (@None bytes); [|by case_bool_decide]. apply find_not_head; [done|]. intros Hin. apply Hh.
  destruct (decide (head (chunk c) = head k)) as [->|Hne]; [done|]. destruct Hp. apply spl_zero. auto.
Qed.

(** A node can be split in two. *)
Lemma find_split c c1 c2 child next k :
  chunk c = chunk c1 ++ chunk c2 -> chunk c1 <> [] -> chunk c2 <> [] ->
  find (Node c1 (Node c2 child Nil) next) k = find (Node c child next) k.
Proof.
  intros Hc H1 H2. cbn [find]. rewrite Hc, spl_app, zlen_app.
  pose proof (zlen_not_nil_pos _ H1). pose proof (zlen_not_nil_pos _ H2).
  pose proof (spl_bounds (chunk c1) k). set (p1 := T.shared_prefix_length (chunk c1) k) in *.
  destruct (decide (p1 = 0%Z)) as [E1|E1].
  { rewrite (bool_decide_eq_false_2 (p1 = zlen _)) by lia. by rewrite bool_decide_eq_true_2. }
  rewrite (bool_decide_eq_false_2 (p1 = 0%Z)) by done.
  case_bool_decide as E2.
  - pose proof (spl_bounds (chunk c2) (drop (length (chunk c1)) k)) as Hb2.
    assert (Hd : drop (Z.to_nat p1) k = drop (length (chunk c1)) k) by (rewrite E2; unfold zlen; by rewrite Nat2Z.id).
    rewrite Hd. set (p2 := T.shared_prefix_length (chunk c2) _) in *.
    rewrite (bool_decide_eq_false_2 (_ + _ = 0)%Z) by lia.
    case_bool_decide as E3; [by rewrite bool_decide_eq_false_2 by lia|].
    case_bool_decide as E4.
    + rewrite bool_decide_eq_true_2 by lia. rewrite drop_drop. do 2 f_equal. unfold zlen in *. lia.
    + by rewrite bool_decide_eq_false_2 by lia.
  - rewrite (bool_decide_eq_false_2 (p1 = 0%Z)) by done. by rewrite bool_decide_eq_false_2 by lia.
Qed.

Lemma updates_ext k o t0 t1 t' : (forall k', find t0 k' = find t1 k') -> updates k o t0 t' -> updates k o t1 t'.
Proof. intros He Hu k'. by rewrite <-He. Qed.

Lemma updates_ext_r k o t t0 t1 : (forall k', find t1 k' = find t0 k') -> updates k o t t0 -> updates k o t t1.
Proof. intros He Hu k'. by rewrite He. Qed.

(** ** Well-formedness after a change *)

Lemma extends_refl k t : extends k t t.
Proof. intros x. auto. Qed.

Lemma wf_next k c child next next' :
  wf (Node c child next) -> T.shared_prefix_length (chunk c) k = 0%Z -> extends k next next' -> wf next' ->
  wf (Node c child next') /\ extends k (Node c child next) (Node c child next').
Proof.
  intros (Hc & Hne & Hh & Hch & _) Hp Hx Hw. split.
  - cbn [wf]. split_and!; try done. intros [?|E]%Hx; [done|].
    apply spl_zero in Hp as [?|[->|?]]; [done| |done]. cbn in E. destruct (chunk c); done.
  - intros x. cbn [heads]. rewrite !elem_of_cons. intros [?|[?|?]%Hx]; auto.
Qed.

Lemma wf_next_eos k c vl v next next' :
  wf (Eos c vl v next) -> k <> [] -> extends k next next' -> wf next' ->
  wf (Eos c vl v next') /\ extends k (Eos c vl v next) (Eos c vl v next').
Proof.
  intros (Hc & Hne & Hv & Hh & _) Hk Hx Hw. split.
  - cbn [wf]. split_and!; try done. intros [?|E]%Hx; [done|]. destruct k; done.
  - intros x. cbn [heads]. rewrite !elem_of_cons. intros [?|[?|?]%Hx]; auto.
Qed.
