(* ===== verification/TrieNodes.v ===== *)
(** The operations on one node of the trie, on the heap of records. *)
From S2P Require Import Prelude Crypto BlockStore Codec DataNode FreeSpace Json JsonSpec StateNode Cache CacheSpec.
From S2P Require Import DataNodeIO MemorySpec Trie StateKV Platform TrieSpec TrieHeap TrieModel.

(** A link in a node is empty or leads to a record. *)
Definition link (bo : block_offset_t) : Prop := bo = empty_block_offset \/ place bo.

Lemma place_link bo : place bo -> link bo.
Proof. by right. Qed.
Lemma loc_link t : wf t -> link (loc t).
Proof. destruct t; cbn; [by left|..]; intros ((? & _) & _); by right. Qed.
#[export] Hint Resolve place_link loc_link : core.

Lemma place_not_empty bo : place bo -> block_offset.is_empty bo = false.
Proof.
  intros [[_ Hb] _]. unfold block_offset.is_empty, block_offset.eqb. apply andb_false_intro2.
  apply bool_decide_eq_false_2. cbn. dn_consts. lia.
Qed.

Lemma link_offset bo : link bo -> wf_offset bo.
Proof.
  intros [->|[[H1 H2] H3]]; [by vm_compute|]. unfold wf_offset, addr, ADDR_LIMIT in *. dn_consts. lia.
Qed.

Lemma cell_node_wf c ch nx : wf_cell c -> link ch -> link nx -> wf_node (cell_node c ch nx).
Proof.
  intros (Hp & Hl & Hs) Hch Hnx. unfold wf_node, wf_header, cell_node. cbn.
  unfold MAX_KEY_CHUNK_BYTE_SIZE in *. split_and!; try by apply link_offset. all: lia.
Qed.

Lemma cell_record_length c ch nx : wf_cell c -> zlen (cell_record c ch nx).2 = T.sizeof_node.
Proof. intros (_ & Hl & _). by apply node_bytes_length. Qed.

Lemma overwrite_all {A} (l l' : list A) : zlen l' = zlen l -> overwrite l 0 l' = l'.
Proof.
  intros Hl. unfold overwrite. cbn [Z.to_nat take app]. rewrite drop_ge; [by rewrite app_nil_r|]. unfold zlen in Hl. lia.
Qed.

Section Nodes.
Context {OS : OpenSSL} {OL : @OpenSSLLaws OS} {B : BlockStore} {BL : BlockStoreLaws B} {P : LibC}.
Implicit Types (s : dn_io) (R : list record) (t : trie_node).

Lemma has_in s R u a b : has s R u -> (a, b) ∈ R -> (0 <= a)%Z /\ (a + zlen b <= u)%Z.
Proof. intros (V & free & Hh) Hin. destruct (h_at _ _ _ _ _ Hh _ Hin) as (? & ? & _). done. Qed.

Lemma has_head s R u a b : has s ((a, b) :: R) u -> (0 <= a)%Z /\ (a + zlen b <= u)%Z.
Proof. intros Hh. eapply has_in; [done|]. apply elem_of_cons. by left. Qed.

Lemma has_limit s R u : has s R u -> (u < ADDR_LIMIT)%Z.
Proof.
  intros (V & free & [Hio <- _ _ _ _]). destruct (io_size _ _ _ Hio) as (? & ? & _). destruct Hio as (_ & _ & _ & Hf). unfold used. lia.
Qed.

(** ** Nodes *)

Lemma read_node s R u c ch nx out :
  has s R u -> cell_record c ch nx ∈ R -> wf_cell c -> link ch -> link nx ->
  wp (T.read_trie_node c.(c_loc) out) s
    (fun t s' => t = mk_tn (cell_node c ch nx) false true c.(c_loc) /\ has s' R u).
Proof.
  intros Hh Hin Hc Hch Hnx. pose proof (cell_record_length c ch nx Hc) as Hl. pose proof Hc as ((Hv & _) & _).
  unfold T.read_trie_node. apply wp_bind; [grows|].
  eapply wp_conseq; [eapply (read_record s R u _ _ _ 0); [done|exact Hin|done|lia|lia|by vm_compute|cbn in Hl; lia]|].
  intros b s' (-> & Hh'). cbn [app]. rewrite subseq_all by (by rewrite <-Hl). cbn [cell_record snd] in Hl.
  apply wp_bind; [grows|]. apply wp_throw_if; [rewrite Hl; by vm_compute|]. apply wp_ret.
  split; [|done]. by rewrite node_roundtrip by (by apply cell_node_wf).
Qed.

Lemma write_node s R u t b :
  has s ((addr t.(location), b) :: R) u -> place t.(location) -> zlen b = T.sizeof_node ->
  zlen t.(node).(key_chunk) = MAX_KEY_CHUNK_BYTE_SIZE -> (u + block_data_len < ADDR_LIMIT)%Z ->
  wp (T.write_trie_node t) s (fun t' s' => t' = T.set_modified t false /\
    has s' ((addr t.(location), T.node_bytes t.(node)) :: R) u).
Proof.
  intros Hh Hp Hb Hk Hlim. unfold T.write_trie_node. rewrite (place_not_empty _ Hp).
  apply wp_bind; [grows; apply grows_write_across|]. apply wp_ret. apply wp_bind; [grows|].
  pose proof (node_bytes_length _ Hk) as Hl.
  eapply wp_conseq; [eapply (write_record s R u _ _ b 0 _ Hh); [apply Hp|lia|lia|lia|done]|]. cbn beta. intros _ s' Hh'.
  apply wp_ret. split; [done|]. by rewrite overwrite_all in Hh' by lia.
Qed.

(** A node that has no place yet gets one. *)
Lemma write_new_node s R u t :
  has s R u -> t.(location) = empty_block_offset -> zlen t.(node).(key_chunk) = MAX_KEY_CHUNK_BYTE_SIZE ->
  (u + T.sizeof_node + block_data_len < ADDR_LIMIT)%Z ->
  wp (T.write_trie_node t) s (fun t' s' => exists bo u', place bo /\ t' = T.set_modified (T.set_location t bo) false /\
    has s' ((addr bo, T.node_bytes t.(node)) :: R) u' /\ (u <= u' <= u + T.sizeof_node)%Z).
Proof.
  intros Hh Hloc Hk Hlim. unfold T.write_trie_node. rewrite Hloc. change (block_offset.is_empty empty_block_offset) with true.
  cbv iota. pose proof (node_bytes_length _ Hk) as Hl. assert (H32 : T.sizeof_node = 32%Z) by done.
  assert (Hga : forall n, grows (IO.fsc_allocate n)) by (intros; apply grows_lift_fsc).
  assert (Hgb : grows IO.block_offset_for_appending) by (unfold IO.block_offset_for_appending; grows).
  apply wp_bind; [grows; apply grows_write_across|]. apply wp_bind; [grows|].
  assert (Hcont : forall bo s', valid_bo bo -> region s' R (addr bo) [] T.new_trie_node_size u -> (addr bo <= u)%Z ->
    wp (IO.write_across_data_nodes (T.node_bytes t.(node)) 0 bo ;;! retM (T.set_modified (T.set_location t bo) false)) s'
      (fun t' s' => exists bo u', place bo /\ t' = T.set_modified (T.set_location t bo) false /\
         has s' ((addr bo, T.node_bytes t.(node)) :: R) u' /\ (u <= u' <= u + T.sizeof_node)%Z)).
  { intros bo s1 Hv Hr Ha. apply wp_bind; [grows|]. change T.new_trie_node_size with T.sizeof_node in Hr.
    eapply wp_conseq; [eapply region_write; [exact Hr|done|rewrite zlen_nil; lia|rewrite zlen_nil; lia|lia]|].
    intros _ s2 (u' & Hr' & Hu'). apply wp_ret. exists bo, u'.
    assert (place bo) by (split; [done|dn_consts; lia]). apply (fun H => region_full _ _ _ _ _ _ H Hl) in Hr'.
    split_and!; done || lia. }
  eapply wp_conseq; [eapply (grab s R u T.new_trie_node_size); [done|by vm_compute|exact Hcont]|].
  intros [bo|] s1 Hq; [by apply wp_ret|]. apply wp_bind; [grows|]. eapply wp_conseq; [exact Hq|].
  intros bo s2 Hq2. by apply wp_ret.
Qed.

(** ** Values *)

Definition value_header_byte : byte := T.header_byte (mk_hdr false false false true 0).

Lemma value_image_split v : value_image v = [value_header_byte] ++ le_split 8 (zlen v) ++ v.
Proof. done. Qed.

Lemma value_image_length v : zlen (value_image v) = (9 + zlen v)%Z.
Proof. rewrite value_image_split, !zlen_app, zlen_le_split. change (zlen [_]) with 1%Z. lia. Qed.

Lemma value_image_parts v :
  subseq (value_image v) 0 1 = [value_header_byte] /\ subseq (value_image v) 1 8 = le_split 8 (zlen v) /\
  subseq (value_image v) 9 (zlen v) = v.
Proof.
  rewrite value_image_split. split_and!.
  - by rewrite subseq_app_l.
  - rewrite subseq_app_r by done. change (1 - zlen [value_header_byte])%Z with 0%Z.
    apply subseq_app_l. by rewrite zlen_le_split.
  - rewrite subseq_app_r by done. change (9 - zlen [value_header_byte])%Z with 8%Z.
    rewrite subseq_app_r by (by rewrite zlen_le_split). rewrite zlen_le_split. by apply subseq_all.
Qed.

(** The offsets inside a value record. *)
Lemma value_offsets s R u bo n : has s R u -> valid_bo bo -> (addr bo + (9 + n) <= u)%Z -> (0 <= n)%Z ->
  let bo1 := DN.advance_block_offset bo 1 in let bo9 := DN.advance_block_offset bo1 8 in
  valid_bo bo1 /\ addr bo1 = (addr bo + 1)%Z /\ valid_bo bo9 /\ addr bo9 = (addr bo + 9)%Z.
Proof.
  intros Hh Hv Hu Hn bo1 bo9. apply has_limit in Hh. unfold ADDR_LIMIT in Hh. pose proof (addr_nonneg _ Hv).
  destruct (advance_spec bo 1) as [Ha1 [Hv1 _]]; [done|lia|dn_consts; lia|].
  destruct (advance_spec bo1 8) as [Ha2 [Hv2 _]]; [done|lia|fold bo1 in Ha1; dn_consts; lia|].
  fold bo1 in Ha1, Hv1. fold bo9 in Ha2, Hv2. split_and!; [done..|lia].
Qed.

Lemma read_value_info s R u bo v :
  has s R u -> (addr bo, value_image v) ∈ R -> valid_bo bo ->
  wp (T.do_read_value_info bo) s (fun r s' =>
    r = (DN.advance_block_offset (DN.advance_block_offset bo 1) 8, [value_header_byte], zlen v) /\ has s' R u).
Proof.
  intros Hh Hin Hv. destruct (has_in _ _ _ _ _ Hh Hin) as (H0 & Hu). rewrite value_image_length in Hu.
  pose proof (zlen_nonneg v) as Hv0. destruct (value_offsets s R u bo (zlen v) Hh Hv Hu Hv0) as (Hv1 & Ha1 & _).
  destruct (value_image_parts v) as (Hi1 & Hi2 & _). pose proof (has_limit _ _ _ Hh) as Hlim. unfold ADDR_LIMIT in Hlim.
  assert (Hlen := value_image_length v). unfold T.do_read_value_info.
  assert (Hg := grows_read_across). apply wp_bind; [grows|]. unfold T.header_size.
  eapply wp_conseq; [eapply (read_record s R u bo _ _ 0 1); [done|exact Hin|done|lia|lia|lia|lia]|].
  intros b s1 (-> & Hh1). cbn [app]. rewrite Hi1. apply wp_bind; [grows|]. apply wp_throw_if; [done|].
  apply wp_bind; [grows|]. unfold T.size_t_size.
  eapply wp_conseq; [eapply (read_record s1 R u _ _ _ 1 8); [done|exact Hin|done|lia|lia|lia|lia]|].
  intros b s2 (-> & Hh2). cbn [app]. rewrite Hi2. apply wp_ret. split; [|done].
  rewrite le_combine_split_small by (cbn; lia). done.
Qed.

Lemma read_value s R u t v out :
  has s R u -> (addr t.(node).(child_offset), value_image v) ∈ R -> place t.(node).(child_offset) ->
  wp (T.do_read_value t out) s (fun r s' => r = out ++ v /\ has s' R u).
Proof.
  intros Hh Hin Hp. pose proof Hp as (Hv & _). destruct (has_in _ _ _ _ _ Hh Hin) as (H0 & Hu). rewrite value_image_length in Hu.
  pose proof (zlen_nonneg v) as Hv0. destruct (value_offsets s R u _ (zlen v) Hh Hv Hu Hv0) as (_ & _ & Hv9 & Ha9).
  pose proof (has_limit _ _ _ Hh) as Hlim. unfold ADDR_LIMIT in Hlim. assert (Hlen := value_image_length v).
  unfold T.do_read_value. rewrite (place_not_empty _ Hp). assert (Hg := grows_read_across).
  assert (Hg' := grows_value_info). apply wp_bind; [grows|]. apply wp_throw_if; [done|]. apply wp_bind; [grows|].
  eapply wp_conseq; [by eapply read_value_info|]. intros r s1 (-> & Hh1).
  rewrite u32_small by lia.
  eapply wp_conseq; [eapply (read_record s1 R u _ _ _ 9 (zlen v)); [done|exact Hin|done|lia|lia|lia|lia]|].
  intros b s2 (-> & Hh2). by destruct (value_image_parts v) as (_ & _ & ->).
Qed.

(** Removing a value that is not empty: the misplaced header byte falls on the record that is freed. *)
Lemma delete_value s R u t v :
  has s ((addr t.(node).(child_offset), value_image v) :: R) u -> place t.(node).(child_offset) -> v <> [] ->
  (u + block_data_len < ADDR_LIMIT)%Z ->
  wp (T.do_delete_value t) s (fun t' s' => t' = T.set_modified (T.set_child t empty_block_offset) true /\ has s' R u).
Proof.
  intros Hh Hp Hne Hlim. pose proof Hp as (Hv & _). destruct (has_head _ _ _ _ _ Hh) as (H0 & Hu). rewrite value_image_length in Hu.
  pose proof (zlen_not_nil_pos v Hne) as Hv0. assert (Hlen := value_image_length v).
  destruct (value_offsets s _ u _ (zlen v) Hh Hv Hu) as (_ & _ & Hv9 & Ha9); [lia|].
  unfold T.do_delete_value. assert (Hg := grows_write_across). assert (Hg' := grows_value_info).
  assert (Hg2 : forall b l, grows (IO.fsc_collect b l)) by (intros; apply grows_lift_fsc).
  apply wp_bind; [grows|]. eapply wp_conseq; [eapply (read_value_info s _ u _ v); [done|apply elem_of_cons; by left|done]|].
  intros r s1 (-> & Hh1). cbv zeta. apply wp_bind; [grows|].
  set (hd := overwrite [value_header_byte] 0 _).
  eapply wp_conseq; [eapply (write_record s1 R u _ _ (value_image v) 9 hd Hh1); [done|lia|lia|change (zlen hd) with 1%Z; lia|done]|].
  cbn beta. intros _ s2 Hh2. apply wp_bind; [grows|].
  assert (Hz : u32 (zlen hd + T.size_t_size + zlen v) = zlen (overwrite (value_image v) 9 hd)).
  { rewrite zlen_overwrite by (change (zlen hd) with 1%Z; lia). rewrite Hlen. change (zlen hd + T.size_t_size)%Z with 9%Z.
    apply u32_small. unfold ADDR_LIMIT in Hlim. dn_consts. lia. }
  rewrite Hz. eapply wp_conseq; [eapply free_record; [exact Hh2|done| |dn_consts; lia]|].
  { apply zlen_pos_not_nil. rewrite zlen_overwrite by (change (zlen hd) with 1%Z; lia). lia. }
  intros _ s3 (Hh3 & _). by apply wp_ret.
Qed.

(** The three writes of a value record. *)
Lemma write_value_record s R u bo v n :
  n = (9 + zlen v)%Z -> region s R (addr bo) [] n u -> valid_bo bo -> (addr bo <= u)%Z -> (u + n + block_data_len < ADDR_LIMIT)%Z ->
  let bo1 := DN.advance_block_offset bo 1 in let bo9 := DN.advance_block_offset bo1 8 in
  forall (m : M dn_io trie_node) Q, grows m ->
  (forall s' u', has s' ((addr bo, value_image v) :: R) u' -> (u <= u' <= u + n)%Z -> wp m s' Q) ->
  wp (IO.write_across_data_nodes [value_header_byte] 0 bo ;;!
      IO.write_across_data_nodes (le_split 8 (zlen v)) 0 bo1 ;;!
      IO.write_across_data_nodes v 0 bo9 ;;! m) s Q.
Proof.
  intros Hn Hr Hv Ha Hlim bo1 bo9 m Q Hgm HQ. pose proof (zlen_nonneg v) as Hv0. pose proof (addr_nonneg _ Hv) as Ha0.
  unfold ADDR_LIMIT in Hlim.
  destruct (advance_spec bo 1) as [Ha1 [Hv1 _]]; [done|lia|dn_consts; lia|]. fold bo1 in Ha1, Hv1.
  destruct (advance_spec bo1 8) as [Ha9 [Hv9 _]]; [done|lia|dn_consts; lia|]. fold bo9 in Ha9, Hv9.
  assert (Hg := grows_write_across). apply wp_bind; [grows|].
  eapply wp_conseq; [eapply region_write; [exact Hr|done|rewrite zlen_nil; lia|rewrite zlen_nil, zlen_cons, zlen_nil; lia|unfold ADDR_LIMIT; lia]|].
  cbn [app]. intros _ s1 (u1 & Hr1 & Hu1). apply wp_bind; [grows|].
  eapply wp_conseq; [eapply region_write; [exact Hr1|done|by rewrite Ha1|rewrite zlen_le_split; change (zlen [_]) with 1%Z; lia|unfold ADDR_LIMIT; lia]|].
  intros _ s2 (u2 & Hr2 & Hu2). apply wp_bind; [grows|].
  assert (Hl2 : zlen ([value_header_byte] ++ le_split 8 (zlen v)) = 9%Z) by (by rewrite zlen_app, zlen_le_split).
  eapply wp_conseq; [eapply region_write; [exact Hr2|exact Hv9|rewrite Hl2; lia|rewrite Hl2; lia|unfold ADDR_LIMIT; lia]|].
  intros _ s3 (u3 & Hr3 & Hu3). apply (HQ s3 u3); [|lia]. apply region_full in Hr3; [|rewrite zlen_app, Hl2; lia].
  by rewrite value_image_split, app_assoc.
Qed.

Lemma write_new_value s R u t v :
  has s R u -> t.(node).(child_offset) = empty_block_offset -> (u + (9 + zlen v) + block_data_len < ADDR_LIMIT)%Z ->
  wp (T.do_write_value t v) s (fun t' s' => exists bo u', place bo /\ t' = T.set_modified (T.set_child t bo) true /\
    has s' ((addr bo, value_image v) :: R) u' /\ (u <= u' <= u + (9 + zlen v))%Z).
Proof.
  intros Hh Hc Hlim. unfold T.do_write_value. rewrite Hc. cbn [block_offset.is_empty negb].
  change (negb (block_offset.is_empty empty_block_offset)) with false. cbv iota.
  pose proof (zlen_nonneg v) as Hv0. assert (Hlim32 := Hlim). unfold ADDR_LIMIT in Hlim32.
  assert (Hu0 : (0 <= u)%Z).
  { destruct Hh as (V & free & [Hio <- _ _ _ _]). destruct (io_size _ _ _ Hio) as (? & ? & _). destruct Hio as (_ & _ & _ & Hf). unfold used. dn_consts. lia. }
  assert (Hga : forall n, grows (IO.fsc_allocate n)) by (intros; apply grows_lift_fsc).
  assert (Hgb : grows IO.block_offset_for_appending) by (unfold IO.block_offset_for_appending; grows).
  assert (Hgw := grows_write_across). apply wp_bind; [grows|]. apply wp_ret. cbv zeta.
  rewrite (u32_small (T.header_size + T.size_t_size + zlen v)) by (unfold T.header_size, T.size_t_size; dn_consts; lia).
  change (T.header_size + T.size_t_size)%Z with 9%Z. set (n := (9 + zlen v)%Z).
  apply wp_bind; [grows|].
  eapply wp_conseq; [eapply (grab s R u n (fun child s' => wp _ s' _)); [done|lia|]|].
  2: { intros [bo|] s1 Hq; (apply wp_bind; [grows|]); [apply wp_ret; exact Hq|exact Hq]. }
  intros bo s1 Hv Hr Ha. cbv beta zeta.
  change (zlen [T.header_byte (mk_hdr false false false true 0)]) with 1%Z. rewrite zlen_le_split.
  rewrite (u32_small (n - 1)), (u32_small (n - 1 - Z.of_nat 8)), (u32_small (n - 1 - Z.of_nat 8 - zlen v)) by (subst n; dn_consts; lia).
  eapply (write_value_record s1 R u bo v n); [done|done|done|done|done|grows|].
  intros s2 u2 Hh2 Hu2. apply wp_bind; [grows|]. apply wp_throw_if; [apply bool_decide_eq_false_2; subst n; lia|].
  apply wp_ret. exists bo, u2. assert (place bo) by (split; [done|dn_consts; lia]). split_and!; done || lia.
Qed.

Lemma write_value s R u t v v0 :
  has s ((addr t.(node).(child_offset), value_image v0) :: R) u -> place t.(node).(child_offset) -> v0 <> [] ->
  (u + (9 + zlen v) + block_data_len < ADDR_LIMIT)%Z ->
  wp (T.do_write_value t v) s (fun t' s' => exists bo u', place bo /\ t' = T.set_modified (T.set_child t bo) true /\
    has s' ((addr bo, value_image v) :: R) u' /\ (u <= u' <= u + (9 + zlen v))%Z).
Proof.
  intros Hh Hp Hne Hlim. pose proof (zlen_nonneg v) as Hv0.
  assert (Hga : forall n, grows (IO.fsc_allocate n)) by (intros; apply grows_lift_fsc).
  assert (Hgb : grows IO.block_offset_for_appending) by (unfold IO.block_offset_for_appending; grows).
  assert (Hgw := grows_write_across). unfold T.do_write_value. rewrite (place_not_empty _ Hp). cbn [negb].
  apply wp_bind; [grows|]. eapply wp_conseq; [eapply delete_value; [exact Hh|done|done|lia]|].
  intros t' s1 (-> & Hh1).
  eapply wp_conseq; [exact (write_new_value s1 R u (T.set_modified (T.set_child t empty_block_offset) true) v Hh1 eq_refl Hlim)|].
  intros t' s2 (bo & u2 & ? & -> & ? & ?). exists bo, u2. split_and!; done || lia.
Qed.

(** ** New cells *)

(** The chunk of a new node, padded with zeros. *)
Definition pad (k : bytes) : bytes := overwrite (replicate (Z.to_nat MAX_KEY_CHUNK_BYTE_SIZE) Byte.x00) 0 k.

(** The node that [create_node] makes for the key [k], up to its place. *)
Definition new_cell (bo : block_offset_t) (k : bytes) : cell :=
  mk_cell bo (mk_hdr false true true false (zlen k)) (pad k).

Lemma new_cell_wf bo k : (zlen k <= MAX_KEY_CHUNK_BYTE_SIZE)%Z -> wf_chunk (new_cell bo k) /\ chunk (new_cell bo k) = k.
Proof.
  intros Hk. pose proof (zlen_nonneg k). split.
  - split_and!; cbn; [|lia|done]. unfold pad. rewrite zlen_overwrite; rewrite ?zlen_replicate; unfold MAX_KEY_CHUNK_BYTE_SIZE in *; [done|lia|cbn; lia].
  - unfold chunk, new_cell, pad. cbn [c_chunk c_hdr keyChunkSize]. apply subseq_overwrite_same; [lia|].
    rewrite zlen_replicate. unfold MAX_KEY_CHUNK_BYTE_SIZE in *. cbn. lia.
Qed.

Lemma create_node_eq key depth out_loc :
  (0 <= depth <= zlen key)%Z -> (zlen key < 2 ^ 32)%Z ->
  let k := take 15 (drop (Z.to_nat depth) key) in
  T.create_node key depth (u32 (zlen key)) (T.set_location T.new out_loc) =
  mk_tn (cell_node (new_cell out_loc k) empty_block_offset empty_block_offset) true true out_loc.
Proof.
  intros Hd Hk k. unfold T.create_node. rewrite (u32_small (zlen key)), (u32_small (zlen key - depth)) by lia.
  rewrite u64_small by lia.
  assert (Hz : zlen k = Z.min 15 (zlen key - depth)).
  { unfold k, zlen. rewrite length_take, length_drop. unfold zlen in *. lia. }
  assert (Hs : ((if bool_decide (zlen key - depth > MAX_KEY_CHUNK_BYTE_SIZE)%Z then MAX_KEY_CHUNK_BYTE_SIZE else zlen key - depth) mod 16 = zlen k)%Z).
  { rewrite Hz. unfold MAX_KEY_CHUNK_BYTE_SIZE. case_bool_decide; [by rewrite Z.min_l by lia|]. rewrite Z.min_r by lia. apply Z.mod_small. lia. }
  rewrite Hs. unfold cell_node, new_cell, pad. cbn [c_hdr c_chunk c_loc]. do 3 f_equal.
  unfold subseq. rewrite Hz. unfold k. destruct (decide (15 <= zlen key - depth)%Z).
  - by rewrite Z.min_l by lia.
  - rewrite Z.min_r by lia. rewrite !take_ge; [done|rewrite length_drop; unfold zlen in *; lia..].
Qed.

(** ** Splitting *)

Definition split_head (c : cell) (p : Z) : cell :=
  let h := c.(c_hdr) in
  mk_cell c.(c_loc) (mk_hdr h.(isDeleted) h.(hasNext) h.(hasChild) h.(isValue) p) c.(c_chunk).

Lemma split_head_ok c p : wf_cell c -> (0 < p < zlen (chunk c))%Z ->
  wf_cell (split_head c p) /\ chunk (split_head c p) = take (Z.to_nat p) (chunk c).
Proof.
  intros Hw Hp. pose proof (chunk_length c (proj2 Hw)) as Hl. destruct Hw as (Hpl & Hc & Hs). rewrite Hl in Hp. split.
  - split; [exact Hpl|]. split; cbn; [done|lia].
  - unfold chunk, split_head, subseq. cbn [c_chunk c_hdr keyChunkSize]. rewrite take_take. f_equal. lia.
Qed.

Lemma split_node s R u c ch nx md p :
  has s R u -> wf_cell c -> (0 < p < zlen (chunk c))%Z -> (u + 64 + block_data_len < ADDR_LIMIT)%Z ->
  wp (T.do_split_trie_node (mk_tn (cell_node c ch nx) md true c.(c_loc)) p) s (fun t' s' => exists bo u',
    place bo /\ t' = mk_tn (cell_node (split_head c p) bo nx) true true c.(c_loc) /\
    has s' (cell_record (new_cell bo (drop (Z.to_nat p) (chunk c))) ch empty_block_offset :: R) u' /\
    (u <= u' <= u + 64)%Z).
Proof.
  intros Hh Hw Hp Hlim. pose proof (chunk_length c (proj2 Hw)) as Hl. pose proof Hw as (Hpl & Hc & Hs).
  unfold MAX_KEY_CHUNK_BYTE_SIZE in *. assert (H32 : T.sizeof_node = 32%Z) by done.
  assert (Hgc : forall b, grows (IO.consume_add_and_init_append_data_node_cond b)).
  { intros b. apply grows_when. unfold IO.consume_add_and_init_append_data_node, IO.block_offset_for_appending. grows. }
  assert (Hgn : forall t, grows (T.write_trie_node t)).
  { intros t. unfold T.write_trie_node, IO.fsc_allocate, IO.block_offset_for_appending. grows. all: apply grows_write_across. }
  unfold T.do_split_trie_node. cbn [node cell_node hdr key_chunk child_offset]. apply wp_bind; [grows|].
  apply wp_throw_if; [rewrite !bool_decide_eq_true_2 by lia; done|]. cbv zeta.
  set (tail := fun _ : unit => _). assert (Htail : forall x, grows (tail x)) by (intros x; unfold tail; grows).
  eapply (wp_assoc IO.append_node (fun a => IO.consume_add_and_init_append_data_node_cond _) tail).
  apply wp_bind; [done|]. eapply wp_conseq; [eapply (consume_ok s R u T.new_trie_node_size); [by vm_compute|done|]|].
  { change T.new_trie_node_size with 32%Z. lia. }
  change T.new_trie_node_size with 32%Z. intros [] s1 (u1 & Hh1 & Hu1). unfold tail.
  set (sc := subseq c.(c_chunk) p (keyChunkSize (c_hdr c) - p)).
  assert (Hsc : sc = drop (Z.to_nat p) (chunk c)).
  { unfold sc, chunk, subseq. change (drop (Z.to_nat 0) ?l) with l. rewrite skipn_firstn_comm. f_equal. lia. }
  assert (Hzs : zlen sc = (zlen (chunk c) - p)%Z) by (rewrite Hsc; unfold zlen in *; rewrite length_drop; lia).
  assert (Hcr := create_node_eq sc 0 empty_block_offset ltac:(lia) ltac:(lia)). cbv zeta in Hcr.
  rewrite u32_small in Hcr by lia. change (T.set_location T.new empty_block_offset) with T.new in Hcr.
  rewrite drop_0, take_ge in Hcr by (unfold zlen in *; lia). rewrite Hcr. clear Hcr.
  apply wp_bind; [grows|].
  destruct (new_cell_wf empty_block_offset sc) as [(Hpad & _) _]; [unfold MAX_KEY_CHUNK_BYTE_SIZE; lia|].
  eapply wp_conseq; [eapply (write_new_node s1 R u1); [done|done|exact Hpad|lia]|].
  intros t' s2 (bo & u2 & Hbo & -> & Hh2 & Hu2). apply wp_ret. exists bo, u2. split; [done|]. split.
  - unfold split_head, cell_node. cbn [T.set_modified T.set_child T.set_hdr T.set_node T.set_location location node hdr next_offset key_chunk c_hdr c_chunk modified initialized].
    rewrite (Z.mod_small p 16) by lia. done.
  - rewrite <-Hsc. split; [exact Hh2|lia].
Qed.

(** ** Removing *)

(** The node is freed first and then marked, which writes to free space. *)
Lemma delete_node s R u t b :
  has s ((addr t.(location), b) :: R) u -> place t.(location) -> zlen b = T.sizeof_node ->
  zlen t.(node).(key_chunk) = MAX_KEY_CHUNK_BYTE_SIZE -> t.(node).(child_offset) = empty_block_offset ->
  (u + block_data_len < ADDR_LIMIT)%Z ->
  wp (T.delete_trie_node_childless t) s (fun t' s' => t'.(modified) = false /\
    t'.(location) = t.(node).(next_offset) /\ has s' R u).
Proof.
  intros Hh Hp Hb Hk Hc Hlim. destruct (has_head _ _ _ _ _ Hh) as (H0 & Hu).
  assert (H32 : T.sizeof_node = 32%Z) by done. assert (Hg := grows_write_across).
  assert (Hg2 : forall b l, grows (IO.fsc_collect b l)) by (intros; apply grows_lift_fsc).
  assert (Hgn : forall t, grows (T.write_trie_node t)).
  { intros t0. unfold T.write_trie_node, IO.fsc_allocate, IO.block_offset_for_appending. grows. }
  unfold T.delete_trie_node_childless. rewrite Hc. change (block_offset.is_empty empty_block_offset) with true. cbv iota zeta.
  apply wp_bind; [grows|]. change T.new_trie_node_size with T.sizeof_node. rewrite <-Hb.
  eapply wp_conseq; [eapply free_record; [exact Hh|apply Hp|apply zlen_pos_not_nil; lia|dn_consts; lia]|].
  intros _ s1 (Hh1 & Hout). apply wp_bind; [grows|]. set (n := mk_hdr _ _ _ _ _).
  unfold T.write_trie_node. cbn [T.set_modified T.set_hdr T.set_node location]. rewrite (place_not_empty t.(location) Hp).
  apply wp_bind; [grows|]. apply wp_ret. apply wp_bind; [grows|]. cbn [node location].
  set (nb := T.node_bytes _). assert (Hl : zlen nb = T.sizeof_node) by (by apply node_bytes_length).
  eapply wp_conseq; [eapply (write_outside s1 R u t.(location) nb); [done|apply Hp|lia|done|]|].
  { intros z Hz. apply Hout. lia. }
  intros _ s2 (Hh2 & _). apply wp_ret. apply wp_ret. split_and!; done.
Qed.
End Nodes.
