(* ===== verification/TrieWalk.v ===== *)
(** operate_trie_non_recursive on the heap of records: the top-down loop and the bottom-up phase follow
    the tree, and leave a tree in which the key is found, bound or unbound. *)
From S2P Require Import Prelude Crypto BlockStore Codec DataNode FreeSpace Json JsonSpec StateNode Cache CacheSpec.
From S2P Require Import DataNodeIO MemorySpec Trie StateKV Platform TrieSpec TrieHeap TrieModel TrieNodes.

Section Walk.
Context {OS : OpenSSL} {OL : @OpenSSLLaws OS} {B : BlockStore} {BL : BlockStoreLaws B} {P : LibC}.
Implicit Types (s : dn_io) (R : list record).

(** ** The bottom-up phase, one node at a time *)

(** What the loop does after it has popped a node, until the next one is popped. *)
Definition relink (prev : recursive_item) (l : block_offset_t) : recursive_item :=
  let p := prev.(ri_node) in
  mk_ri (if prev.(go_next) then
           if negb (block_offset.eqb p.(node).(next_offset) l) then T.set_modified (T.set_next p l) true else p
         else
           if negb (block_offset.eqb p.(node).(child_offset) l) then T.set_modified (T.set_child p l) true else p)
    prev.(go_next).

Definition settle (op : kv_operation_e) (t : trie_node) (depth : nat) : M dn_io trie_node :=
  let! t := if bool_decide (op = DEL_OP) && bool_decide (1 < depth)
            then T.delete_trie_node_childless t else retM t in
  if t.(modified) then T.write_trie_node t else retM t.

Definition after (op : kv_operation_e) (l : block_offset_t) (stack : list recursive_item) : M dn_io unit :=
  match stack with
  | [] => retM tt
  | prev :: stack => T.bottom_up op (relink prev l) stack
  end.

Lemma wp_bottom_up op ri stack s (Q : unit -> dn_io -> Prop) :
  wp (let! t := settle op ri.(ri_node) (length stack) in after op t.(location) stack) s Q ->
  wp (T.bottom_up op ri stack) s Q.
Proof.
  destruct stack as [|prev stack]; unfold settle; cbn [T.bottom_up]; apply wp_assoc.
Qed.

Lemma grows_write_node t : grows (T.write_trie_node t).
Proof. unfold T.write_trie_node, IO.fsc_allocate, IO.block_offset_for_appending. grows. all: apply grows_write_across. Qed.
Lemma grows_read_node l o : grows (T.read_trie_node l o).
Proof. unfold T.read_trie_node. grows. apply grows_read_across. Qed.
Lemma grows_delete_node t : grows (T.delete_trie_node_childless t).
Proof. unfold T.delete_trie_node_childless, IO.fsc_collect. grows. all: apply grows_write_node. Qed.
#[local] Hint Resolve grows_write_node grows_read_node grows_delete_node grows_read_across grows_write_across grows_value_info : grows.
Lemma grows_bottom_up op stack ri : grows (T.bottom_up op ri stack).
Proof. revert ri. induction stack as [|prev stack IH]; intros ri; cbn [T.bottom_up]; grows. Qed.
#[local] Hint Resolve grows_bottom_up : grows.
Lemma grows_after op l stack : grows (after op l stack).
Proof. unfold after. grows. Qed.
Lemma grows_delete_value t : grows (T.do_delete_value t).
Proof. unfold T.do_delete_value, IO.fsc_collect. grows. Qed.
Lemma grows_read_value t o : grows (T.do_read_value t o).
Proof. unfold T.do_read_value. grows. Qed.
#[local] Hint Resolve grows_delete_value grows_read_value grows_after : grows.
Lemma grows_write_value t v : grows (T.do_write_value t v).
Proof. unfold T.do_write_value, IO.fsc_allocate, IO.block_offset_for_appending. grows. Qed.
Lemma grows_split t p : grows (T.do_split_trie_node t p).
Proof.
  unfold T.do_split_trie_node, IO.consume_add_and_init_append_data_node_cond, IO.consume_add_and_init_append_data_node,
    IO.block_offset_for_appending, IO.fsc_collect. grows.
Qed.
#[local] Hint Resolve grows_write_value grows_split : grows.
Lemma grows_step op k v stack d : grows (T.top_down_step op k v stack d).
Proof. unfold T.top_down_step. grows. Qed.
#[local] Hint Resolve grows_step : grows.
Lemma grows_top_down fuel op k v stack d : grows (T.top_down fuel op k v stack d).
Proof. revert stack d. induction fuel; intros; cbn [T.top_down]; grows. all: eauto. Qed.
#[local] Hint Resolve grows_top_down : grows.

(** What the function does with the outcome of the top-down loop. *)
Definition finish (op : kv_operation_e) (o : T.step_outcome) : M dn_io bytes :=
  match o with
  | T.Return v => retM v
  | T.Finished (ri :: rest) v => T.bottom_up op ri rest ;;! retM v
  | _ => throwM (UndefinedBehaviour "pop of an empty list")
  end.

Lemma grows_finish op o : grows (finish op o).
Proof. unfold finish. grows. Qed.
#[local] Hint Resolve grows_finish : grows.

(** Answer [v] once the rest of the stack is settled, the current chain being at [l]. *)
Definition conclude op l stack (v : bytes) : M dn_io bytes := after op l stack ;;! retM v.

Lemma grows_conclude op l stack v : grows (conclude op l stack v).
Proof. unfold conclude. grows. Qed.
#[local] Hint Resolve grows_conclude : grows.

(** A node [c] on the stack: in memory it is [old], and [md] says whether it has changed since. *)
Definition item (c : cell) (ch nx : block_offset_t) (md go : bool) : recursive_item :=
  mk_ri (mk_tn (cell_node c ch nx) md true c.(c_loc)) go.

Lemma relink_item c ch nx md go l :
  exists md', relink (item c ch nx md go) l = (if go then item c ch l md' go else item c l nx md' go) /\
    (md' = false -> md = false /\ (if go then nx = l else ch = l)).
Proof.
  assert (He : forall a b, block_offset.eqb a b = true -> a = b).
  { intros [a1 a2] [b1 b2]. unfold block_offset.eqb. cbn. rewrite andb_true_iff, !bool_decide_eq_true. intros [-> ->]. done. }
  unfold relink, item. cbn [ri_node go_next node cell_node next_offset child_offset].
  destruct go; [destruct (block_offset.eqb nx l) eqn:E|destruct (block_offset.eqb ch l) eqn:E]; cbn [negb].
  1,3: apply He in E; subst; exists md; done.
  all: exists true; done.
Qed.

(** Popping a node that stays: it is written back if it changed. *)
Lemma settle_keep op s R u c ch nx md old depth :
  has s ((addr c.(c_loc), old) :: R) u -> wf_cell c -> zlen old = T.sizeof_node ->
  (md = false -> old = T.node_bytes (cell_node c ch nx)) -> (u + block_data_len < ADDR_LIMIT)%Z ->
  (op = DEL_OP -> 1 < depth -> ch <> empty_block_offset /\ link ch) ->
  wp (settle op (mk_tn (cell_node c ch nx) md true c.(c_loc)) depth) s (fun t s' => t.(location) = c.(c_loc) /\
    has s' (cell_record c ch nx :: R) u).
Proof.
  intros Hh Hw Hold Hmd Hlim Hdel. pose proof Hw as (Hp & Hc & _). unfold settle. apply wp_bind; [grows|].
  set (t := mk_tn _ _ _ _).
  assert (Hwrite : wp (if t.(modified) then T.write_trie_node t else retM t) s
    (fun t s' => t.(location) = c.(c_loc) /\ has s' (cell_record c ch nx :: R) u)).
  { cbn [t modified]. destruct md.
    - eapply wp_conseq; [eapply write_node; [exact Hh|done|done|done|done]|]. by intros t' s' (-> & Hh').
    - apply wp_ret. split; [done|]. unfold cell_record. by rewrite <-Hmd. }
  case_bool_decide as Ho; [case_bool_decide as Hd|]; cbn [andb]; [|by apply wp_ret..].
  destruct (Hdel Ho Hd) as [Hne [?|Hl]]; [done|]. unfold T.delete_trie_node_childless. cbn [t node cell_node child_offset].
  rewrite (place_not_empty ch Hl). by apply wp_ret.
Qed.

(** Popping a node without a child during a removal. *)
Lemma settle_drop s R u c nx md old depth :
  has s ((addr c.(c_loc), old) :: R) u -> wf_cell c -> zlen old = T.sizeof_node -> (u + block_data_len < ADDR_LIMIT)%Z ->
  1 < depth ->
  wp (settle DEL_OP (mk_tn (cell_node c empty_block_offset nx) md true c.(c_loc)) depth) s (fun t s' =>
    t.(location) = nx /\ has s' R u).
Proof.
  intros Hh Hw Hold Hlim Hd. pose proof Hw as (Hp & Hc & _). unfold settle. apply wp_bind; [grows|].
  rewrite !bool_decide_eq_true_2 by done. cbn [andb].
  eapply wp_conseq; [eapply delete_node; [exact Hh|done|done|done|done|done]|].
  intros t' s' (Hm & Hl & Hh'). rewrite Hm. by apply wp_ret.
Qed.

(** ** Going back up *)

Lemma wp_then_ret {A C} (m : M dn_io A) (v : C) s (Q : C -> dn_io -> Prop) :
  wp (m ;;! retM v) s Q -> wp m s (fun _ s' => wp (retM v) s' Q).
Proof.
  unfold wp, bindM, retM. destruct (m s) as [[a|e] s1]; cbn; intros Hm Hn; destruct (Hm Hn) as (b & Hb & HQ); [|done].
  exists a. split; [done|]. eauto.
Qed.

(** The bottom-up phase arrives at a node, which stays with the new link [l], or goes. *)
Lemma resume op s c ch nx md (go : bool) l rest v Q :
  let ch' := if go then ch else l in let nx' := if go then l else nx in
  (forall md', (md' = false -> md = false /\ ch = ch' /\ nx = nx') ->
     wp (settle op (mk_tn (cell_node c ch' nx') md' true c.(c_loc)) (length rest)) s
       (fun t s' => wp (conclude op t.(location) rest v) s' Q)) ->
  wp (conclude op l (item c ch nx md go :: rest) v) s Q.
Proof.
  intros ch' nx' Hs. unfold conclude, after. destruct (relink_item c ch nx md go l) as (md' & -> & Hmd).
  apply wp_bind; [grows|]. apply wp_bottom_up. apply wp_bind; [grows|].
  assert (Hi : (if go then item c ch l md' go else item c l nx md' go) = mk_ri (mk_tn (cell_node c ch' nx') md' true c.(c_loc)) go).
  { subst ch' nx'. by destruct go. }
  rewrite Hi. cbn [ri_node]. eapply wp_conseq; [apply (Hs md')|].
  - intros E. destruct (Hmd E) as [-> Hl]. split; [done|]. subst ch' nx'. destruct go; by subst.
  - intros t s' Hc. by apply wp_then_ret.
Qed.

(** The chain below or after the node [c] is now at [l]. *)
Lemma resume_node op s R u c child next md old rest v Q ch nx (go : bool) :
  let l := if go then loc next else loc child in
  (if go then ch = loc child else nx = loc next) ->
  has s ((addr c.(c_loc), old) :: records child ++ records next ++ R) u -> wf (Node c child next) ->
  zlen old = T.sizeof_node -> (md = false -> old = T.node_bytes (cell_node c ch nx)) -> (u + block_data_len < ADDR_LIMIT)%Z ->
  (forall s' t', t' = Node c child next \/ (op = DEL_OP /\ child = Nil /\ t' = next) ->
     has s' (records t' ++ R) u -> wp (conclude op (loc t') rest v) s' Q) ->
  wp (conclude op l (item c ch nx md go :: rest) v) s Q.
Proof.
  intros l Hlk Hh Hw Hold Hmd Hlim HQ. pose proof Hw as (Hc & Hne & _ & Hwc & Hwn).
  apply resume. intros md' Hmd'.
  assert (Ech : (if go then ch else l) = loc child) by (subst l; by destruct go).
  assert (Enx : (if go then l else nx) = loc next) by (subst l; by destruct go).
  rewrite Ech, Enx in *.
  assert (Hkeep : (op = DEL_OP -> 1 < length rest -> loc child <> empty_block_offset /\ link (loc child)) ->
    wp (settle op (mk_tn (cell_node c (loc child) (loc next)) md' true c.(c_loc)) (length rest)) s
       (fun t s' => wp (conclude op t.(location) rest v) s' Q)).
  { intros Hdel. eapply wp_conseq; [eapply settle_keep; [exact Hh|done|done| |done|done]|].
    - intros E. destruct (Hmd' E) as (E1 & <- & <-). by apply Hmd.
    - intros t s' (-> & Hh'). apply (HQ s' (Node c child next)); [by left|]. cbn [records]. by rewrite <-app_comm_cons, <-app_assoc. }
  destruct (decide (op = DEL_OP /\ 1 < length rest /\ child = Nil)) as [(-> & Hd & ->)|Hno].
  - eapply wp_conseq; [eapply settle_drop; [exact Hh|done|done|done|done]|].
    intros t s' (-> & Hh'). apply (HQ s' next); [by right|exact Hh'].
  - apply Hkeep. intros -> Hd. split; [|auto]. destruct child; cbn [loc]; [tauto|..]; intros E;
      destruct Hwc as ((Hp & _) & _); apply place_not_empty in Hp; by rewrite E in Hp.
Qed.

Lemma resume_eos op s R u c vl w next md old rest v Q nx :
  has s ((addr c.(c_loc), old) :: (addr vl, value_image w) :: records next ++ R) u -> wf (Eos c vl w next) ->
  zlen old = T.sizeof_node -> (md = false -> old = T.node_bytes (cell_node c vl nx)) -> (u + block_data_len < ADDR_LIMIT)%Z ->
  (forall s', has s' (records (Eos c vl w next) ++ R) u -> wp (conclude op c.(c_loc) rest v) s' Q) ->
  wp (conclude op (loc next) (item c vl nx md true :: rest) v) s Q.
Proof.
  intros Hh Hw Hold Hmd Hlim HQ. pose proof Hw as (Hc & Hne & Hvl & _ & Hwn).
  apply resume. intros md' Hmd'. cbv iota in *.
  eapply wp_conseq; [eapply settle_keep; [exact Hh|done|done| |done|]|].
  - intros E. destruct (Hmd' E) as (E1 & _ & <-). by apply Hmd.
  - intros _ _. split; [|auto]. intros E. pose proof (place_not_empty vl Hvl) as He. by rewrite E in He.
  - intros t s' (-> & Hh'). apply HQ. exact Hh'.
Qed.

(** ** The top-down loop, one pass at a time *)

Variables key value : bytes.
Hypothesis key_len : (zlen key < 2 ^ 32)%Z.

(** The part of the key that is left at a depth. *)
Definition rest_of (d : Z) : bytes := drop (Z.to_nat d) key.

Lemma rest_of_length d : (0 <= d <= zlen key)%Z -> zlen (rest_of d) = (zlen key - d)%Z.
Proof. intros Hd. unfold rest_of, zlen in *. rewrite length_drop. lia. Qed.

Lemma rest_of_nil d : (0 <= d <= zlen key)%Z -> rest_of d = [] <-> d = zlen key.
Proof.
  intros Hd. pose proof (rest_of_length d Hd) as Hl. split.
  - intros E. rewrite E, zlen_nil in Hl. lia.
  - intros ->. rewrite Z.sub_diag in Hl. destruct (rest_of (zlen key)) as [|x l]; [done|].
    rewrite zlen_cons in Hl. pose proof (zlen_nonneg l). lia.
Qed.

Lemma rest_of_add d p : (0 <= d)%Z -> (0 <= p)%Z -> rest_of (d + p) = drop (Z.to_nat p) (rest_of d).
Proof. intros. unfold rest_of. rewrite drop_drop. f_equal. lia. Qed.

(** A pass over the node [t], once it has been read or created. *)
Definition visit (op : kv_operation_e) (t : trie_node) (go : bool) (rest : list recursive_item) (d : Z) :
  M dn_io T.step_outcome :=
  let size := t.(node).(hdr).(keyChunkSize) in
  let spl := T.shared_prefix_length (subseq t.(node).(key_chunk) 0 size) (subseq key d (u32 (zlen key - d))) in
  if bool_decide (spl = 0%Z) then
    if bool_decide (d < zlen key)%Z || bool_decide (size > 0)%Z
    then retM (T.Continue (T.push_at (mk_ri t true :: rest) t.(node).(next_offset)) d)
    else match op with
         | PUT_OP => let! t := T.do_write_value t value in retM (T.Finished (mk_ri t go :: rest) [])
         | GET_OP => let! v := T.do_read_value t [] in retM (T.Finished (mk_ri t go :: rest) v)
         | DEL_OP => let! t := T.do_delete_value t in retM (T.Finished (mk_ri t go :: rest) [])
         end
  else if bool_decide (spl = size) then
    retM (T.Continue (T.push_at (mk_ri t false :: rest) t.(node).(child_offset)) (u32 (d + spl)))
  else if bool_decide (op = PUT_OP) then
    let! t := T.do_split_trie_node t spl in retM (T.Continue (mk_ri t go :: rest) d)
  else retM (T.Return []).

Lemma grows_visit op t go rest d : grows (visit op t go rest d).
Proof. unfold visit. grows. Qed.
#[local] Hint Resolve grows_visit : grows.

Definition go_on (fuel : nat) op (o : T.step_outcome) : M dn_io bytes :=
  match o with
  | T.Continue stack d => let! o := T.top_down fuel op key value stack d in finish op o
  | o => finish op o
  end.

Lemma grows_go_on fuel op o : grows (go_on fuel op o).
Proof. unfold go_on. grows. Qed.
#[local] Hint Resolve grows_go_on : grows.

Lemma wp_pass fuel op stack d s Q :
  wp (let! o := T.top_down_step op key value stack d in go_on fuel op o) s Q ->
  wp (let! o := T.top_down (S fuel) op key value stack d in finish op o) s Q.
Proof.
  cbn [T.top_down]. unfold wp, bindM, go_on. destruct (T.top_down_step op key value stack d s) as [[[v|st v|st d']|e] s1]; done.
Qed.

Lemma step_initialized op t go rest d :
  t.(initialized) = true -> T.top_down_step op key value (mk_ri t go :: rest) d = visit op t go rest d.
Proof. intros Hi. unfold T.top_down_step, bindM. cbn [ri_node go_next]. rewrite Hi. done. Qed.

Lemma wp_step_read op rest l d s Q :
  block_offset.is_empty l = false ->
  wp (T.read_trie_node l (T.set_location T.new l)) s (fun t s' => wp (visit op t false rest d) s' Q) ->
  wp (T.top_down_step op key value (T.push_at rest l) d) s Q.
Proof.
  intros Hl Hr. unfold T.top_down_step, T.push_at. cbn [ri_node go_next T.set_location T.new initialized location]. rewrite Hl.
  set (g := fun o : option trie_node => _).
  assert (Hg : forall o, grows (g o)) by (intros [t|]; unfold g; [change (grows (visit op t false rest d))|]; grows).
  apply wp_bind; [done|]. apply wp_bind; [grows|]. eapply wp_conseq; [exact Hr|]. intros t s' Hv. apply wp_ret. exact Hv.
Qed.

Lemma wp_step_empty op rest d s Q :
  (op <> PUT_OP -> Q (T.Return []) s) ->
  (op = PUT_OP -> wp (visit PUT_OP (T.create_node key d (u32 (zlen key)) (T.set_location T.new empty_block_offset)) false rest d) s Q) ->
  wp (T.top_down_step op key value (T.push_at rest empty_block_offset) d) s Q.
Proof.
  intros H1 H2. unfold T.top_down_step, T.push_at. cbn [ri_node go_next T.set_location T.new initialized location].
  change (block_offset.is_empty empty_block_offset) with true. cbv iota. case_bool_decide as E.
  - subst. exact (H2 eq_refl).
  - by apply wp_eq with (T.Return []) s; [|intros _; apply H1].
Qed.

(** The branches of a pass over the node [c]. *)
Section Branches.
Context (op : kv_operation_e) (c : cell) (ch nx : block_offset_t) (md go : bool) (rest : list recursive_item) (d : Z).
Hypothesis Hc : wf_chunk c.
Hypothesis Hd : (0 <= d <= zlen key)%Z.
Let t : trie_node := mk_tn (cell_node c ch nx) md true c.(c_loc).
Let p : Z := T.shared_prefix_length (chunk c) (rest_of d).

Lemma spl_here : T.shared_prefix_length (subseq t.(node).(key_chunk) 0 t.(node).(hdr).(keyChunkSize))
  (subseq key d (u32 (zlen key - d))) = p.
Proof.
  unfold p, rest_of. rewrite u32_small by lia. f_equal. unfold subseq. apply take_ge. rewrite length_drop. unfold zlen in *. lia.
Qed.

Lemma visit_next : p = 0%Z -> rest_of d <> [] \/ chunk c <> [] ->
  visit op t go rest d = retM (T.Continue (T.push_at (item c ch nx md true :: rest) nx) d).
Proof.
  intros Hp Hne. unfold visit. rewrite spl_here, bool_decide_eq_true_2 by done.
  assert (E : bool_decide (d < zlen key)%Z || bool_decide (t.(node).(hdr).(keyChunkSize) > 0)%Z = true).
  { apply orb_true_iff. rewrite !bool_decide_eq_true. destruct Hne as [Hne|Hne].
    - left. rewrite rest_of_nil in Hne by done. lia.
    - right. cbn. rewrite <-(chunk_length c Hc). pose proof (zlen_not_nil_pos _ Hne). lia. }
  by rewrite E.
Qed.

Lemma visit_here : rest_of d = [] -> chunk c = [] -> visit op t go rest d =
  match op with
  | PUT_OP => let! t := T.do_write_value t value in retM (T.Finished (mk_ri t go :: rest) [])
  | GET_OP => let! v := T.do_read_value t [] in retM (T.Finished (mk_ri t go :: rest) v)
  | DEL_OP => let! t := T.do_delete_value t in retM (T.Finished (mk_ri t go :: rest) [])
  end.
Proof.
  intros Hr Hch. unfold visit. rewrite spl_here. unfold p. rewrite Hch. cbn [T.shared_prefix_length].
  rewrite bool_decide_eq_true_2 by done. apply rest_of_nil in Hr; [|done]. rewrite (bool_decide_eq_false_2 (d < _)%Z) by lia.
  rewrite bool_decide_eq_false_2; [done|]. cbn. rewrite <-(chunk_length c Hc), Hch, zlen_nil. lia.
Qed.

Lemma visit_child : p = zlen (chunk c) -> chunk c <> [] ->
  visit op t go rest d = retM (T.Continue (T.push_at (item c ch nx md false :: rest) ch) (d + p)).
Proof.
  intros Hp Hne. pose proof (zlen_not_nil_pos _ Hne). pose proof (spl_bounds (chunk c) (rest_of d)) as Hb.
  rewrite rest_of_length in Hb by done. fold p in Hb.
  unfold visit. rewrite spl_here, (bool_decide_eq_false_2 (p = 0%Z)) by lia.
  rewrite bool_decide_eq_true_2 by (cbn; rewrite <-(chunk_length c Hc); done). by rewrite u32_small by lia.
Qed.

Lemma visit_partial : (0 < p < zlen (chunk c))%Z -> visit op t go rest d =
  if bool_decide (op = PUT_OP) then let! t := T.do_split_trie_node t p in retM (T.Continue (mk_ri t go :: rest) d)
  else retM (T.Return []).
Proof.
  intros Hp. unfold visit. rewrite spl_here, bool_decide_eq_false_2 by lia.
  rewrite bool_decide_eq_false_2; [done|]. cbn. rewrite <-(chunk_length c Hc). lia.
Qed.
End Branches.

(** ** Walking a tree *)

(** What the operation does to the binding [o] of the key, and what it answers. *)
Definition outcome (op : kv_operation_e) (o : option bytes) : option bytes :=
  match op with GET_OP => o | PUT_OP => Some value | DEL_OP => None end.
Definition answer (op : kv_operation_e) (o : option bytes) : bytes :=
  match op with GET_OP => default [] o | _ => [] end.

(** The space an operation may need from depth [d] on: the value, and the nodes for the rest of the key. *)
Definition growth (op : kv_operation_e) (d e : Z) : Z :=
  match op with PUT_OP => 9 + zlen value + 32 * (zlen key - d + e) | _ => 0 end.

(** From the tree [t], at depth [d] of the key, the function ends as it should, whatever is on the stack
    below: it returns when the key is not there and need not be, and otherwise leaves a tree [t'] with
    the new binding to the nodes on the stack.  [e] counts additional passes and nodes. *)
Definition walks (op : kv_operation_e) (t : tree) (d e : Z) : Prop :=
  forall s R u rest fuel Q,
  has s (records t ++ R) u -> (Z.of_nat (nodes t) + (zlen key - d) + e <= Z.of_nat fuel)%Z ->
  (u + growth op d e + block_data_len < ADDR_LIMIT)%Z ->
  (op = DEL_OP -> rest <> [] /\ (1 < length rest \/ rest_of d <> [])) ->
  (op <> GET_OP -> find t (rest_of d) <> Some []) ->
  (op <> PUT_OP -> find t (rest_of d) = None -> forall s', has s' (records t ++ R) u -> Q [] s') ->
  (forall s' t' u', wf t' -> extends (rest_of d) t t' ->
     updates (rest_of d) (outcome op (find t (rest_of d))) t t' ->
     (op <> PUT_OP -> is_Some (find t (rest_of d))) ->
     has s' (records t' ++ R) u' -> (u <= u' <= u + growth op d e)%Z ->
     wp (conclude op (loc t') rest (answer op (find t (rest_of d)))) s' Q) ->
  wp (let! o := T.top_down fuel op key value (T.push_at rest (loc t)) d in finish op o) s Q.

Lemma growth_nonneg op d e : (d <= zlen key)%Z -> (0 <= e)%Z -> (0 <= growth op d e)%Z.
Proof. intros. pose proof (zlen_nonneg value). destruct op; cbn; lia. Qed.

Lemma growth_mono op d d' e e' : (d <= d')%Z -> (e' <= e)%Z -> (growth op d' e' <= growth op d e)%Z.
Proof. intros. destruct op; cbn; lia. Qed.

Lemma finish_item op t go rest v s Q :
  wp (settle op t (length rest)) s (fun t' s' => wp (conclude op t'.(location) rest v) s' Q) ->
  wp (finish op (T.Finished (mk_ri t go :: rest) v)) s Q.
Proof.
  intros Hs. cbn [finish]. apply wp_bind; [grows|]. apply wp_bottom_up. apply wp_bind; [grows|]. cbn [ri_node].
  eapply wp_conseq; [exact Hs|]. intros t' s' Hc. by apply wp_then_ret.
Qed.

(** A pass that reads the node at the head of the tree. *)
Lemma pass_read op c ch nx rest d fuel s R u Q :
  has s R u -> cell_record c ch nx ∈ R -> wf_cell c -> link ch -> link nx ->
  (forall s', has s' R u -> wp (visit op (mk_tn (cell_node c ch nx) false true c.(c_loc)) false rest d) s'
     (fun o s'' => wp (go_on fuel op o) s'' Q)) ->
  wp (let! o := T.top_down (S fuel) op key value (T.push_at rest c.(c_loc)) d in finish op o) s Q.
Proof.
  intros Hh Hin Hc Hch Hnx HQ. apply wp_pass. apply wp_bind; [grows|].
  apply wp_step_read; [apply place_not_empty, Hc|].
  eapply wp_conseq; [by eapply read_node|]. intros t s' (-> & Hh'). by apply HQ.
Qed.

Lemma walks_next op c child next d e :
  (0 <= d <= zlen key)%Z -> (0 <= e)%Z -> wf (Node c child next) -> T.shared_prefix_length (chunk c) (rest_of d) = 0%Z ->
  walks op next d e -> walks op (Node c child next) d e.
Proof.
  intros Hd He Hw Hp Hn s R u rest fuel Q Hh Hfuel Hlim Hdel Hval Hnf Hfound. pose proof Hw as (Hc & Hne & Hhd & Hwc & Hwn).
  assert (Hf : find (Node c child next) (rest_of d) = find next (rest_of d)) by (cbn [find]; by rewrite bool_decide_eq_true_2).
  rewrite Hf in *. cbn [nodes] in Hfuel. destruct fuel as [|fuel]; [lia|]. cbn [loc].
  pose proof (growth_nonneg op d e ltac:(lia) He) as Hg.
  eapply (pass_read op c (loc child) (loc next)); [exact Hh|cbn [records]; apply elem_of_cons; by left|done|auto|auto|].
  intros s1 Hh1. rewrite visit_next by (apply Hc || auto). apply wp_ret. cbn [go_on].
  apply (Hn s1 (cell_record c (loc child) (loc next) :: records child ++ R) u); try done.
  - revert Hh1. cbn [records]. apply has_perm; [done|solve_Permutation|done].
  - lia.
  - intros ->. destruct (Hdel eq_refl) as [Hr _]. split; [done|]. left. destruct rest; [done|]. cbn. lia.
  - intros Ho Hnone s2 Hh2. apply Hnf; [done..|]. revert Hh2. cbn [records]. apply has_perm; [done|solve_Permutation|done].
  - intros s2 next' u2 Hw' Hx Hu Hsome Hh2 Hu2. destruct (wf_next _ c child next next' Hw Hp Hx Hw') as [Hw2 Hx2].
    apply (resume_node op s2 R u2 c child next' false (cell_record c (loc child) (loc next)).2 rest _ Q (loc child) (loc next) true);
      try done.
    + revert Hh2. apply has_perm; [done|unfold cell_record; cbn [snd]; solve_Permutation|done].
    + by apply cell_record_length.
    + lia.
    + intros s3 t' Ht Hh3. pose proof (updates_next _ _ c child next next' Hp Hu) as Hup.
      destruct Ht as [->|(-> & -> & ->)]; apply (Hfound s3 _ u2); try done.
      * intros x Hxx. apply Hx2. cbn [heads]. apply elem_of_cons. by right.
      * eapply updates_ext_r; [|exact Hup]. intros k'. symmetry. by apply find_prune.
Qed.

Lemma walks_next_eos op c vl w next d e :
  (0 <= d <= zlen key)%Z -> (0 <= e)%Z -> wf (Eos c vl w next) -> rest_of d <> [] ->
  walks op next d e -> walks op (Eos c vl w next) d e.
Proof.
  intros Hd He Hw Hk Hn s R u rest fuel Q Hh Hfuel Hlim Hdel Hval Hnf Hfound. pose proof Hw as (Hc & Hemp & Hvl & Hhd & Hwn).
  assert (Hf : find (Eos c vl w next) (rest_of d) = find next (rest_of d)) by (cbn [find]; by rewrite bool_decide_eq_false_2).
  rewrite Hf in *. cbn [nodes] in Hfuel. destruct fuel as [|fuel]; [lia|]. cbn [loc].
  pose proof (growth_nonneg op d e ltac:(lia) He) as Hg.
  eapply (pass_read op c vl (loc next)); [exact Hh|cbn [records]; apply elem_of_cons; by left|done|auto|auto|].
  intros s1 Hh1. rewrite visit_next by (apply Hc || (rewrite Hemp; done) || auto). apply wp_ret. cbn [go_on].
  apply (Hn s1 (cell_record c vl (loc next) :: (addr vl, value_image w) :: R) u); try done.
  - revert Hh1. cbn [records]. apply has_perm; [done|solve_Permutation|done].
  - lia.
  - intros ->. destruct (Hdel eq_refl) as [Hr _]. split; [done|]. left. destruct rest; [done|]. cbn. lia.
  - intros Ho Hnone s2 Hh2. apply Hnf; [done..|]. revert Hh2. cbn [records]. apply has_perm; [done|solve_Permutation|done].
  - intros s2 next' u2 Hw' Hx Hu Hsome Hh2 Hu2. destruct (wf_next_eos _ c vl w next next' Hw Hk Hx Hw') as [Hw2 Hx2].
    apply (resume_eos op s2 R u2 c vl w next' false (cell_record c vl (loc next)).2 rest _ Q (loc next)); try done.
    + revert Hh2. apply has_perm; [done|unfold cell_record; cbn [snd]; solve_Permutation|done].
    + by apply cell_record_length.
    + lia.
    + intros s3 Hh3. apply (Hfound s3 (Eos c vl w next') u2); try done. by apply updates_next_eos.
Qed.

Lemma walks_child op c child next d e :
  (0 <= d <= zlen key)%Z -> (0 <= e)%Z -> wf (Node c child next) ->
  T.shared_prefix_length (chunk c) (rest_of d) = zlen (chunk c) ->
  walks op child (d + zlen (chunk c)) e -> walks op (Node c child next) d e.
Proof.
  intros Hd He Hw Hp Hn s R u rest fuel Q Hh Hfuel Hlim Hdel Hval Hnf Hfound. pose proof Hw as (Hc & Hne & Hhd & Hwc & Hwn).
  pose proof (zlen_not_nil_pos _ Hne) as Hl. pose proof (spl_bounds (chunk c) (rest_of d)) as [_ Hb].
  rewrite rest_of_length, Hp in Hb by done. set (d' := (d + zlen (chunk c))%Z) in *.
  assert (Hkey : rest_of d = chunk c ++ rest_of d').
  { rewrite (spl_full_inv _ _ Hp) at 1. f_equal. unfold d'. rewrite rest_of_add by lia. unfold zlen. by rewrite Nat2Z.id. }
  assert (Hf : find (Node c child next) (rest_of d) = find child (rest_of d')).
  { cbn [find]. rewrite Hp, bool_decide_eq_false_2, bool_decide_eq_true_2 by (done || lia). unfold d'. by rewrite rest_of_add by lia. }
  rewrite Hf in *. cbn [nodes] in Hfuel. destruct fuel as [|fuel]; [lia|]. cbn [loc].
  pose proof (growth_nonneg op d' e ltac:(lia) He) as Hg. pose proof (growth_mono op d d' e e ltac:(lia) ltac:(lia)) as Hgm.
  eapply (pass_read op c (loc child) (loc next)); [exact Hh|cbn [records]; apply elem_of_cons; by left|done|auto|auto|].
  intros s1 Hh1. rewrite visit_child by (apply Hc || done). apply wp_ret. cbn [go_on]. rewrite Hp. fold d'.
  apply (Hn s1 (cell_record c (loc child) (loc next) :: records next ++ R) u); try done.
  - revert Hh1. cbn [records]. apply has_perm; [done|solve_Permutation|done].
  - lia.
  - lia.
  - intros ->. destruct (Hdel eq_refl) as [Hr _]. split; [done|]. left. destruct rest; [done|]. cbn. lia.
  - intros Ho Hnone s2 Hh2. apply Hnf; [done..|]. revert Hh2. cbn [records]. apply has_perm; [done|solve_Permutation|done].
  - intros s2 child' u2 Hw' Hx Hu Hsome Hh2 Hu2.
    assert (Hw2 : wf (Node c child' next)) by (cbn [wf]; by split_and!).
    apply (resume_node op s2 R u2 c child' next false (cell_record c (loc child) (loc next)).2 rest _ Q (loc child) (loc next) false);
      try done.
    + revert Hh2. apply has_perm; [done|unfold cell_record; cbn [snd]; solve_Permutation|done].
    + by apply cell_record_length.
    + lia.
    + intros s3 t' Ht Hh3. assert (Hup : updates (rest_of d) (outcome op (find child (rest_of d'))) (Node c child next) (Node c child' next)).
      { rewrite Hkey. by apply updates_child. }
      destruct Ht as [->|(-> & -> & ->)]; apply (Hfound s3 _ u2); try done; try lia.
      * intros x. by left.
      * intros x Hxx. left. cbn [heads]. apply elem_of_cons. by right.
      * eapply updates_ext_r; [|exact Hup]. intros k'. symmetry. by apply find_prune.
Qed.

(** The key ends here. *)
Lemma walks_here op c vl w next d e :
  (0 <= d <= zlen key)%Z -> (0 < e)%Z -> wf (Eos c vl w next) -> rest_of d = [] -> walks op (Eos c vl w next) d e.
Proof.
  intros Hd He Hw Hk s R u rest fuel Q Hh Hfuel Hlim Hdel Hval Hnf Hfound. pose proof Hw as (Hc & Hemp & Hvl & Hhd & Hwn).
  rewrite Hk in *. assert (Hf : find (Eos c vl w next) [] = Some w) by done. rewrite Hf in *.
  destruct fuel as [|fuel]; [lia|]. cbn [loc]. pose proof (growth_nonneg op d e ltac:(lia) ltac:(lia)) as Hg.
  assert (Hclen := cell_record_length c vl (loc next) Hc).
  eapply (pass_read op c vl (loc next)); [exact Hh|cbn [records]; apply elem_of_cons; by left|done|auto|auto|].
  intros s1 Hh1. rewrite visit_here by (apply Hc || done). cbn [records] in Hh1. destruct op.
  - apply wp_bind; [grows|]. eapply wp_conseq; [eapply (read_value s1 _ u _ w); [exact Hh1| |exact Hvl]|].
    { cbn [node cell_node child_offset]. apply elem_of_cons. right. apply elem_of_cons. by left. }
    intros v s2 (-> & Hh2). apply wp_ret. cbn [go_on app]. apply finish_item.
    eapply wp_conseq; [eapply (settle_keep GET_OP s2 ((addr vl, value_image w) :: records next ++ R) u c vl (loc next) false _ _ Hh2); done || lia|].
    intros t s3 (-> & Hh3). apply (Hfound s3 (Eos c vl w next) u); try done; [apply extends_refl|apply (updates_refl (Eos c vl w next) [])|lia].
  - apply wp_bind; [grows|]. cbn [growth] in *. pose proof (zlen_nonneg value).
    eapply wp_conseq; [eapply (write_value s1 (cell_record c vl (loc next) :: records next ++ R) u _ value w)|].
    + revert Hh1. cbn [node cell_node child_offset]. apply has_perm; [done|solve_Permutation|done].
    + exact Hvl.
    + intros ->. by apply Hval.
    + lia.
    + intros t s2 (bo & u2 & Hbo & -> & Hh2 & Hu2). apply wp_ret. cbn [go_on]. apply finish_item.
      eapply wp_conseq; [eapply (settle_keep PUT_OP s2 ((addr bo, value_image value) :: records next ++ R) u2 c bo (loc next) true (cell_record c vl (loc next)).2); try done|].
      * revert Hh2. apply has_perm; [done|unfold cell_record; cbn [snd]; solve_Permutation|done].
      * lia.
      * intros t s3 (-> & Hh3). apply (Hfound s3 (Eos c bo value next) u2); try done; [|apply updates_value|lia].
        intros x ?. by left.
  - destruct (Hdel eq_refl) as [Hr [Hr2|?]]; [|done]. apply wp_bind; [grows|]. cbn [growth] in *.
    eapply wp_conseq; [eapply (delete_value s1 (cell_record c vl (loc next) :: records next ++ R) u _ w)|].
    + revert Hh1. cbn [node cell_node child_offset]. apply has_perm; [done|solve_Permutation|done].
    + exact Hvl.
    + intros ->. by apply Hval.
    + lia.
    + intros t s2 (-> & Hh2). apply wp_ret. cbn [go_on]. apply finish_item.
      eapply wp_conseq; [eapply (settle_drop s2 (records next ++ R) u c (loc next) true (cell_record c vl (loc next)).2); try done; lia|].
      intros t s3 (-> & Hh3). apply (Hfound s3 next u); try done; [|by apply updates_remove|lia].
      intros x Hx. left. cbn [heads]. apply elem_of_cons. by right.
Qed.

(** ** Where the tree ends *)

Lemma walks_mono op t d e e' : (d <= zlen key)%Z -> (0 <= e <= e')%Z -> walks op t d e -> walks op t d e'.
Proof.
  intros Hd He Hw s R u rest fuel Q Hh Hfuel Hlim Hdel Hval Hnf Hfound.
  pose proof (growth_mono op d d e' e ltac:(lia) ltac:(lia)).
  apply (Hw s R u); try done; [lia|lia|]. intros s' t' u' ? ? ? ? ? ?. apply (Hfound s' t' u'); try done. lia.
Qed.

(** A lookup or a removal stops. *)
Lemma walks_nil op d e : op <> PUT_OP -> (d <= zlen key)%Z -> (0 < e)%Z -> walks op Nil d e.
Proof.
  intros Hop Hd He s R u rest fuel Q Hh Hfuel Hlim Hdel Hval Hnf Hfound.
  destruct fuel as [|fuel]; [cbn in Hfuel; lia|]. cbn [loc]. apply wp_pass. apply wp_bind; [grows|].
  apply wp_step_empty; [|done]. intros _. apply wp_ret. by apply Hnf.
Qed.

(** Popping a node that was created: it is given a place. *)
Lemma settle_new s R u k ch nx depth :
  has s R u -> (zlen k <= MAX_KEY_CHUNK_BYTE_SIZE)%Z -> (u + T.sizeof_node + block_data_len < ADDR_LIMIT)%Z ->
  wp (settle PUT_OP (mk_tn (cell_node (new_cell empty_block_offset k) ch nx) true true empty_block_offset) depth) s
    (fun t s' => exists bo u', place bo /\ t.(location) = bo /\ has s' (cell_record (new_cell bo k) ch nx :: R) u' /\
       (u <= u' <= u + T.sizeof_node)%Z).
Proof.
  intros Hh Hk Hlim. destruct (new_cell_wf empty_block_offset k Hk) as [[Hl _] _].
  unfold settle. apply wp_bind; [grows|]. cbn [bool_decide andb]. apply wp_ret. cbn [modified].
  eapply wp_conseq; [eapply write_new_node; [done|done|exact Hl|done]|].
  intros t s' (bo & u' & Hbo & -> & Hh' & Hu'). exists bo, u'. split_and!; try (apply Hbo || done || lia).
Qed.

(** A put makes the nodes for the rest of the key. *)
Lemma walks_create n d : (zlen key - d = Z.of_nat n)%Z -> (0 <= d)%Z -> walks PUT_OP Nil d 1.
Proof.
  revert d. induction n as [n IH] using lt_wf_ind. intros d Hn Hd s R u rest fuel Q Hh Hfuel Hlim Hdel Hval Hnf Hfound.
  destruct fuel as [|fuel]; [cbn in Hfuel; lia|]. cbn [loc]. apply wp_pass. apply wp_bind; [grows|].
  apply wp_step_empty; [done|]. intros _. rewrite create_node_eq by lia. fold (rest_of d). set (k := take 15 (rest_of d)).
  pose proof (rest_of_length d ltac:(lia)) as Hrl. pose proof (zlen_nonneg value) as Hv0. cbn [growth records nodes app] in *.
  assert (Hkl : zlen k = Z.min 15 (zlen key - d)) by (unfold k, zlen in *; rewrite length_take; lia).
  assert (Hk15 : (zlen k <= MAX_KEY_CHUNK_BYTE_SIZE)%Z) by (unfold MAX_KEY_CHUNK_BYTE_SIZE; lia).
  destruct (new_cell_wf empty_block_offset k Hk15) as [Hwc Hck]. assert (H32 : T.sizeof_node = 32%Z) by done.
  change empty_block_offset with (c_loc (new_cell empty_block_offset k)) at 4.
  destruct (decide (rest_of d = [])) as [Hnil|Hne].
  - assert (Hk0 : k = []) by (unfold k; by rewrite Hnil). rewrite visit_here by (done || lia || congruence).
    apply wp_bind; [grows|]. eapply wp_conseq; [eapply write_new_value; [exact Hh|done|lia]|].
    intros t s1 (vl & u1 & Hvl & -> & Hh1 & Hu1). apply wp_ret. cbn [go_on]. apply finish_item.
    eapply wp_conseq; [eapply (settle_new s1 _ u1 k vl empty_block_offset); [exact Hh1|done|lia]|].
    intros t s2 (bo & u2 & Hbo & -> & Hh2 & Hu2). destruct (new_cell_wf bo k Hk15) as [Hwc2 Hck2].
    apply (Hfound s2 (Eos (new_cell bo k) vl value Nil) u2); try done.
    + cbn [wf heads]. split; [by split|]. split; [congruence|]. split; [done|]. split; [apply not_elem_of_nil|done].
    + intros x. cbn [heads]. rewrite list_elem_of_singleton, Hnil. by right.
    + intros k'. cbn [find]. rewrite Hnil. by repeat case_bool_decide.
    + lia.
  - assert (Hkne : k <> []) by (apply zlen_pos_not_nil; pose proof (zlen_not_nil_pos _ Hne); lia).
    assert (Hp : T.shared_prefix_length (chunk (new_cell empty_block_offset k)) (rest_of d) = zlen k).
    { rewrite Hck. rewrite <-(take_drop 15 (rest_of d)). fold k. apply spl_full. }
    assert (Hkey : rest_of d = k ++ rest_of (d + zlen k)).
    { pose proof (spl_full_inv k (rest_of d)) as Hi. rewrite Hck in Hp. rewrite (Hi Hp) at 1. f_equal.
      rewrite rest_of_add by lia. unfold zlen. by rewrite Nat2Z.id. }
    pose proof (zlen_not_nil_pos _ Hkne) as Hk0.
    rewrite visit_child by (done || lia || congruence). apply wp_ret. cbn [go_on]. rewrite Hp.
    apply (IH (Z.to_nat (zlen key - (d + zlen k)))%nat ltac:(lia) (d + zlen k)%Z ltac:(lia) ltac:(lia) s R u);
      cbn [growth records nodes app]; try done; try lia.
    intros s1 child u1 Hw1 Hx1 Hup1 _ Hh1 Hu1.
    apply resume. cbv iota zeta. intros md' Hmd. destruct md'; [|by destruct Hmd]. cbn [new_cell c_loc].
    eapply wp_conseq; [eapply (settle_new s1 _ u1 k (loc child) empty_block_offset); [exact Hh1|done|lia]|].
    intros t s2 (bo & u2 & Hbo & -> & Hh2 & Hu2). destruct (new_cell_wf bo k Hk15) as [Hwc2 Hck2].
    apply (Hfound s2 (Node (new_cell bo k) child Nil) u2); try done.
    + cbn [wf heads]. split; [by split|]. split; [congruence|]. split; [apply not_elem_of_nil|done].
    + intros x. cbn [heads]. rewrite list_elem_of_singleton, Hck2, Hkey. destruct k; [done|]. by right.
    + assert (Hkey2 : rest_of d = chunk (new_cell bo k) ++ rest_of (d + zlen k)) by (by rewrite Hck2).
      rewrite Hkey2. eapply (updates_ext _ _ (Node (new_cell bo k) Nil Nil)).
      * intros k'. cbn [find]. by repeat case_bool_decide.
      * apply updates_child; [congruence|exact Hup1].
    + cbn [records]. by rewrite app_nil_r.
    + lia.
Qed.

(** ** A chunk that matches in part *)

Lemma walks_stop op c child next d e :
  op <> PUT_OP -> (0 <= d <= zlen key)%Z -> (0 < e)%Z -> wf (Node c child next) ->
  (0 < T.shared_prefix_length (chunk c) (rest_of d) < zlen (chunk c))%Z -> walks op (Node c child next) d e.
Proof.
  intros Hop Hd He Hw Hp s R u rest fuel Q Hh Hfuel Hlim Hdel Hval Hnf Hfound. pose proof Hw as (Hc & Hne & Hhd & Hwc & Hwn).
  assert (Hf : find (Node c child next) (rest_of d) = None) by (cbn [find]; by rewrite !bool_decide_eq_false_2 by lia).
  destruct fuel as [|fuel]; [lia|]. cbn [loc].
  eapply (pass_read op c (loc child) (loc next)); [exact Hh|cbn [records]; apply elem_of_cons; by left|done|auto|auto|].
  intros s1 Hh1. rewrite visit_partial by (apply Hc || done). rewrite bool_decide_eq_false_2 by done.
  apply wp_ret. cbn [go_on finish]. apply wp_ret. by apply Hnf.
Qed.

(** A put splits the node; the new key branches off its first part. *)
Lemma walks_split c child next d :
  (0 <= d <= zlen key)%Z -> wf (Node c child next) ->
  (0 < T.shared_prefix_length (chunk c) (rest_of d) < zlen (chunk c))%Z -> walks PUT_OP (Node c child next) d 3.
Proof.
  intros Hd Hw Hp s R u rest fuel Q Hh Hfuel Hlim Hdel Hval Hnf Hfound. pose proof Hw as (Hc & Hne & Hhd & Hwc & Hwn).
  pose proof (zlen_nonneg value) as Hv0. set (p := T.shared_prefix_length _ _) in *.
  pose proof (spl_bounds (chunk c) (rest_of d)) as [_ Hb]. rewrite rest_of_length in Hb by done. fold p in Hb.
  cbn [growth nodes] in *. destruct fuel as [|[|fuel]]; [lia..|]. cbn [loc].
  eapply (pass_read PUT_OP c (loc child) (loc next)); [exact Hh|cbn [records]; apply elem_of_cons; by left|done|auto|auto|].
  intros s1 Hh1. rewrite visit_partial by (apply Hc || done). rewrite bool_decide_eq_true_2 by done. fold p.
  apply wp_bind; [grows|]. eapply wp_conseq; [eapply split_node; [exact Hh1|done|done|lia]|].
  intros t s2 (bo & u2 & Hbo & -> & Hh2 & Hu2). apply wp_ret. cbn [go_on].
  set (c1 := split_head c p). set (k2 := drop (Z.to_nat p) (chunk c)) in *. set (c2 := new_cell bo k2) in *.
  destruct (split_head_ok c p Hc Hp) as [Hc1 Hk1]. fold c1 in Hc1, Hk1.
  pose proof (chunk_length c (proj2 Hc)) as Hcl. destruct Hc as (Hpl & Hch & Hsz).
  assert (Hl2 : zlen k2 = (zlen (chunk c) - p)%Z) by (unfold k2, zlen in *; rewrite length_drop; lia).
  destruct (new_cell_wf bo k2) as [Hc2 Hk2]; [unfold MAX_KEY_CHUNK_BYTE_SIZE in *; lia|]. fold c2 in Hc2, Hk2.
  assert (Hl1 : zlen (chunk c1) = p) by (rewrite Hk1; unfold zlen in *; rewrite length_take; lia).
  assert (Hne1 : chunk c1 <> []) by (apply zlen_pos_not_nil; lia).
  assert (Hne2 : chunk c2 <> []) by (rewrite Hk2; apply zlen_pos_not_nil; lia).
  assert (Hsplit : chunk c = chunk c1 ++ chunk c2) by (rewrite Hk1, Hk2; unfold k2; by rewrite take_drop).
  assert (Hp12 : T.shared_prefix_length (chunk c1) (rest_of d) = p /\ T.shared_prefix_length (chunk c2) (rest_of (d + p)) = 0%Z).
  { pose proof (spl_app (chunk c1) (chunk c2) (rest_of d)) as Ha. rewrite <-Hsplit in Ha. fold p in Ha.
    pose proof (spl_bounds (chunk c1) (rest_of d)) as [Hb1 _]. rewrite Hl1 in *. case_bool_decide as E; [|lia].
    split; [done|]. rewrite rest_of_add by lia.
    assert (Hn1 : length (chunk c1) = Z.to_nat p) by (unfold zlen in Hl1; lia). rewrite Hn1 in Ha. lia. }
  destruct Hp12 as [Hp1 Hp2].
  assert (Hkey : rest_of d = chunk c1 ++ rest_of (d + p)).
  { rewrite (spl_full_inv (chunk c1) (rest_of d)) at 1 by lia. f_equal. rewrite rest_of_add by lia. f_equal.
    unfold zlen in Hl1. lia. }
  apply wp_pass. apply wp_bind; [grows|]. rewrite step_initialized by done.
  change (c_loc c) with (c_loc c1).
  rewrite visit_child by (apply Hc1 || done || (rewrite Hp1, Hl1; done)). apply wp_ret. cbn [go_on]. rewrite Hp1.
  set (t2 := Node c2 child Nil).
  assert (Hw2 : wf t2) by (cbn [wf heads t2]; split; [by split|]; split; [done|]; split; [apply not_elem_of_nil|done]).
  assert (Hwalk : walks PUT_OP t2 (d + p) 1).
  { apply walks_next; [lia|lia|done|done|]. apply (walks_create (Z.to_nat (zlen key - (d + p)))); lia. }
  assert (Hf2 : find t2 (rest_of (d + p)) = None) by (cbn [find t2]; by rewrite bool_decide_eq_true_2).
  change bo with (loc t2) at 2.
  apply (Hwalk s2 (cell_record c (loc child) (loc next) :: records next ++ R) u2); rewrite ?Hf2; cbn [growth nodes t2]; try done; try lia.
  { revert Hh2. cbn [records t2 loc]. apply has_perm; [done|solve_Permutation|done]. }
  intros s3 t2' u3 Hw3 _ Hup _ Hh3 Hu3.
  assert (Hwn' : wf (Node c1 t2' next)).
  { cbn [wf]. split; [done|]. split; [done|]. split; [|done]. rewrite Hsplit in Hhd. by destruct (chunk c1). }
  apply (resume_node PUT_OP s3 R u3 c1 t2' next true (cell_record c (loc child) (loc next)).2 rest _ Q bo (loc next) false);
    try done; try lia.
  - revert Hh3. apply has_perm; [done|unfold cell_record; cbn [snd]; solve_Permutation|done].
  - by apply cell_record_length.
  - intros s4 t' [->|(? & _)] Hh4; [|done]. apply (Hfound s4 (Node c1 t2' next) u3); try done; try lia.
    + intros x. cbn [heads]. rewrite Hsplit, !elem_of_cons. destruct (chunk c1); [done|]. tauto.
    + rewrite Hkey. eapply (updates_ext _ _ (Node c1 t2 next)); [intros k'; by apply find_split|]. by apply updates_child.
Qed.

(** ** All trees *)

Lemma walks_tree op t : forall d, wf t -> (0 <= d <= zlen key)%Z -> walks op t d 3.
Proof.
  induction t as [|c vl w next IH|c child IHc next IHn]; intros d Hw Hd.
  - destruct (decide (op = PUT_OP)) as [->|Hop]; [|apply walks_nil; [done|lia|lia]].
    apply (walks_mono _ _ _ 1); [lia|lia|]. apply (walks_create (Z.to_nat (zlen key - d))); lia.
  - destruct (decide (rest_of d = [])); [apply walks_here; done || lia|].
    apply walks_next_eos; try (done || lia). apply IH; [apply Hw|done].
  - pose proof (spl_bounds (chunk c) (rest_of d)) as [Hb1 Hb2]. rewrite rest_of_length in Hb2 by done.
    destruct (decide (T.shared_prefix_length (chunk c) (rest_of d) = 0%Z)) as [E|E].
    { apply walks_next; try (done || lia). apply IHn; [apply Hw|done]. }
    destruct (decide (T.shared_prefix_length (chunk c) (rest_of d) = zlen (chunk c))) as [E'|E'].
    { apply walks_child; try (done || lia). apply IHc; [apply Hw|lia]. }
    destruct (decide (op = PUT_OP)) as [->|Hop]; [apply walks_split|apply walks_stop]; done || lia.
Qed.
End Walk.
