(* ===== verification/TrieRefine.v ===== *)
(** The key value store as a finite map: what Get, Put and Delete promise to the contract enclave. *)
From S2P Require Import Prelude Crypto BlockStore Codec DataNode FreeSpace Json JsonSpec StateNode Cache CacheSpec.
From S2P Require Import DataNodeIO MemorySpec Trie StateKV KVSpec Platform TrieSpec TrieHeap TrieModel TrieNodes TrieWalk.

(** * The trie implements a map *)

(** What an operation does to the map, and what it answers. *)
Definition map_effect (op : kv_operation_e) (k v : bytes) (m : gmap bytes bytes) : gmap bytes bytes :=
  match op with GET_OP => m | PUT_OP => <[k := v]> m | DEL_OP => delete k m end.
Definition map_answer (op : kv_operation_e) (k : bytes) (m : gmap bytes bytes) : bytes :=
  match op with GET_OP => default [] (m !! k) | _ => [] end.

(** The operations that are sound: the value that is replaced or deleted is not empty, and the empty key
    is not deleted. *)
Definition allowed (op : kv_operation_e) (k : bytes) (m : gmap bytes bytes) : Prop :=
  match op with
  | GET_OP => True
  | PUT_OP => m !! k <> Some []
  | DEL_OP => m !! k <> Some [] /\ k <> []
  end.

(** A bound on the space an operation takes. *)
Definition cost (op : kv_operation_e) (k v : bytes) : Z :=
  match op with PUT_OP => 9 + zlen v + 32 * (zlen k + 3) | _ => 0 end.

Section Refine.
Context {OS : OpenSSL} {OL : @OpenSSLLaws OS} {B : BlockStore} {BL : BlockStoreLaws B} {P : LibC}.
Implicit Types (s : dn_io) (m : gmap bytes bytes).

Definition root_loc : block_offset_t := mk_bo BW.get_root_block_num data_begin_index.

(** The store holds the map [m]: from the root node a tree of records in which every key is found with
    its value. *)
Definition holds_map s m (u : Z) : Prop :=
  exists c t, c.(c_loc) = root_loc /\ wf_cell c /\ wf t /\
    has s (cell_record c empty_block_offset (loc t) :: records t) u /\ forall k, find t k = m !! k.

Lemma nodes_span t : wf t -> (32 * Z.of_nat (nodes t) <= zlen (span (records t)))%Z.
Proof.
  assert (Happ : forall R1 R2, zlen (span (R1 ++ R2)) = (zlen (span R1) + zlen (span R2))%Z).
  { intros R1 R2. unfold span. by rewrite bind_app, zlen_app. }
  assert (Hcons : forall r R, zlen (span (r :: R)) = (zlen r.2 + zlen (span R))%Z).
  { intros r R. rewrite span_cons, zlen_app. unfold zlen at 1. by rewrite length_cells. }
  induction t as [|c vl w next IH|c child IHc next IHn]; cbn [wf records nodes]; [done|..].
  - intros (Hc & _ & _ & _ & Hn). rewrite !Hcons, (cell_record_length c vl _ Hc). specialize (IH Hn).
    pose proof (zlen_nonneg (value_image w)). cbn [snd]. change T.sizeof_node with 32%Z. lia.
  - intros (Hc & _ & _ & Hch & Hn). rewrite Hcons, Happ, (cell_record_length c _ _ Hc).
    specialize (IHc Hch). specialize (IHn Hn). change T.sizeof_node with 32%Z. lia.
Qed.

Lemma operate_ok op key value s m u :
  holds_map s m u -> (zlen key < 2 ^ 32)%Z -> (u + cost op key value + block_data_len < ADDR_LIMIT)%Z -> allowed op key m ->
  wp (T.operate_trie_non_recursive op key value) s (fun r s' => r = map_answer op key m /\
    exists u', holds_map s' (map_effect op key value m) u' /\ (u <= u' <= u + cost op key value)%Z).
Proof.
  intros (c & t & Hloc & Hc & Hw & Hh & Hm) Hkey Hlim Hal. unfold T.operate_trie_non_recursive. fold root_loc. rewrite <-Hloc.
  assert (Hgr := grows_top_down). assert (Hgb := grows_bottom_up).
  apply wp_bind; [grows|]. eapply wp_conseq; [eapply (read_node s _ u c empty_block_offset (loc t));
    [exact Hh|apply elem_of_cons; by left|done|by left|auto]|].
  intros root s1 (-> & Hh1). cbn [node cell_node next_offset]. apply wp_bind; [grows|]. apply wp_get.
  fold (item c empty_block_offset (loc t) false true).
  change (wp (let! o := T.top_down (T.trie_fuel s1 key) op key value
    (T.push_at [item c empty_block_offset (loc t) false true] (loc t)) 0 in finish op o) s1
    (fun r s' => r = map_answer op key m /\
      exists u', holds_map s' (map_effect op key value m) u' /\ (u <= u' <= u + cost op key value)%Z)).
  assert (Hgrow : growth key value op 0 3 = cost op key value) by (destruct op; cbn; lia).
  assert (Hcost : (0 <= cost op key value)%Z).
  { pose proof (zlen_nonneg key). pose proof (zlen_nonneg value). destruct op; cbn; lia. }
  assert (Hr : rest_of key 0 = key) by done.
  apply (walks_tree key value Hkey op t 0 Hw ltac:(pose proof (zlen_nonneg key); lia) s1
    [cell_record c empty_block_offset (loc t)] u); rewrite ?Hgrow, ?Hr, ?Hm; try done.
  - revert Hh1. apply has_perm; [done|solve_Permutation|done].
  - pose proof (span_fits _ _ _ Hh1) as Hs. pose proof (nodes_span t Hw) as Hn.
    rewrite span_cons, zlen_app in Hs. pose proof (zlen_nonneg (cells (cell_record c empty_block_offset (loc t)))).
    unfold T.trie_fuel. change T.sizeof_node with 32%Z. fold block_data_len.
    assert (Z.of_nat (nodes t) <= zlen (blockIds_ (block_warehouse_ s1)) * block_data_len / 32)%Z.
    { apply Z.div_le_lower_bound; lia. }
    unfold zlen at 1. rewrite !Nat2Z.inj_add, Z2Nat.id; lia.
  - intros ->. destruct Hal as [_ Hal]. split; [done|by right].
  - intros Ho. destruct op; [done|apply Hal|apply Hal].
  - intros Ho Hnone s2 Hh2. split; [by destruct op; cbn; rewrite ?Hnone|]. exists u. split; [|lia].
    exists c, t. split_and!; try done; [revert Hh2; apply has_perm; [done|solve_Permutation|done]|].
    intros k. rewrite Hm. destruct op; cbn; [done|done|]. destruct (decide (k = key)) as [->|]; [by rewrite lookup_delete_eq, Hnone|].
    by rewrite lookup_delete_ne.
  - intros s2 t' u2 Hw2 _ Hup _ Hh2 Hu2. apply resume. cbv iota zeta. intros md' Hmd. cbn [length].
    eapply wp_conseq; [eapply (settle_keep op s2 (records t') u2 c empty_block_offset (loc t') md' (cell_record c empty_block_offset (loc t)).2); try done|].
    + revert Hh2. apply has_perm; [done|unfold cell_record; cbn [snd]; solve_Permutation|done].
    + by apply cell_record_length.
    + intros E. destruct (Hmd E) as (_ & _ & <-). done.
    + lia.
    + intros _ Hd. lia.
    + intros tn s3 (_ & Hh3). unfold conclude, after. apply wp_bind; [grows|]. apply wp_ret. apply wp_ret.
      split; [by destruct op|]. exists u2. split; [|lia]. exists c, t'. split_and!; try done.
      intros k. rewrite (Hup k). rewrite !Hm. destruct op; cbn [outcome map_effect].
      * case_bool_decide; congruence.
      * case_bool_decide as E; [subst; by rewrite lookup_insert_eq|by rewrite lookup_insert_ne].
      * case_bool_decide as E; [subst; by rewrite lookup_delete_eq|by rewrite lookup_delete_ne].
Qed.
End Refine.
