(* ===== verification/KVRefine.v ===== *)
(** State_KV as a finite map: any sequence of operations on a new store answers as the map does, and the
    keys of the contract and those of the enclave do not meet. *)
From S2P Require Import Prelude Crypto BlockStore Codec DataNode FreeSpace Json JsonSpec StateNode Cache CacheSpec.
From S2P Require Import DataNodeIO MemorySpec Trie StateKV KVSpec Platform TrieSpec TrieHeap TrieModel TrieNodes TrieWalk TrieRefine.

(** * Sequences of operations *)

Record kv_request := mk_req { rq_op : kv_operation_e; rq_key : bytes; rq_value : bytes }.

(** The answers of the map. *)
Fixpoint map_answers (l : list kv_request) (m : gmap bytes bytes) : list bytes :=
  match l with
  | [] => []
  | r :: l => map_answer r.(rq_op) r.(rq_key) m :: map_answers l (map_effect r.(rq_op) r.(rq_key) r.(rq_value) m)
  end.

Definition map_after (l : list kv_request) (m : gmap bytes bytes) : gmap bytes bytes :=
  fold_left (fun m r => map_effect r.(rq_op) r.(rq_key) r.(rq_value) m) l m.

Fixpoint all_allowed (l : list kv_request) (m : gmap bytes bytes) : Prop :=
  match l with
  | [] => True
  | r :: l => allowed r.(rq_op) r.(rq_key) m /\ (zlen r.(rq_key) < 2 ^ 32)%Z /\
      all_allowed l (map_effect r.(rq_op) r.(rq_key) r.(rq_value) m)
  end.

Fixpoint total_cost (l : list kv_request) : Z :=
  match l with [] => 0 | r :: l => cost r.(rq_op) r.(rq_key) r.(rq_value) + total_cost l end.

Lemma cost_nonneg op k v : (0 <= cost op k v)%Z.
Proof. pose proof (zlen_nonneg k). pose proof (zlen_nonneg v). destruct op; cbn; lia. Qed.

Lemma total_cost_nonneg l : (0 <= total_cost l)%Z.
Proof. induction l as [|r l IH]; cbn; [lia|]. pose proof (cost_nonneg (rq_op r) (rq_key r) (rq_value r)). lia. Qed.

Section Runs.
Context {OS : OpenSSL} {OL : @OpenSSLLaws OS} {B : BlockStore} {BL : BlockStoreLaws B} {P : LibC}.
Implicit Types (s : dn_io) (m : gmap bytes bytes).

(** A request made to a store. *)
Definition submit (r : kv_request) : M State_KV bytes :=
  match r.(rq_op) with
  | GET_OP => KV.Get r.(rq_key)
  | PUT_OP => KV.Put r.(rq_key) r.(rq_value) ;;! retM []
  | DEL_OP => KV.Delete r.(rq_key) ;;! retM []
  end.

Fixpoint submit_all (l : list kv_request) : M State_KV (list bytes) :=
  match l with
  | [] => retM []
  | r :: l => let! a := submit r in let! rest := submit_all l in retM (a :: rest)
  end.

(** The same on the members the operations use. *)
Fixpoint operate_all (l : list kv_request) : M dn_io (list bytes) :=
  match l with
  | [] => retM []
  | r :: l =>
      let! a := T.operate_trie_non_recursive r.(rq_op) r.(rq_key)
                  (match r.(rq_op) with PUT_OP => r.(rq_value) | _ => [] end) in
      let! rest := operate_all l in
      retM ((match r.(rq_op) with GET_OP => a | _ => [] end) :: rest)
  end.

Lemma submit_all_io l kv : submit_all l kv = KV.in_io (operate_all l) kv.
Proof.
  revert kv. induction l as [|[op k v] l IH]; intros kv; [by destruct kv|].
  cbn [submit_all operate_all rq_op rq_key rq_value]. unfold submit. cbn [rq_op rq_key rq_value].
  destruct op; unfold KV.Get, KV.Put, KV.Delete, KV.in_io, zoomM, bindM;
    destruct (T.operate_trie_non_recursive _ k _ (dn_io_ kv)) as [[a|e] s1]; try done;
    unfold retM; cbn beta iota; rewrite IH; unfold KV.in_io, zoomM; cbn [KV.set_io dn_io_];
    by destruct (operate_all l s1) as [[rest|e] s2].
Qed.

Lemma grows_operate op k v : grows (T.operate_trie_non_recursive op k v).
Proof.
  unfold T.operate_trie_non_recursive. assert (Hg := grows_top_down). assert (Hb := grows_bottom_up). assert (Hr := grows_read_node). grows.
Qed.
Lemma grows_operate_all l : grows (operate_all l).
Proof. assert (Hg := grows_operate). induction l; cbn [operate_all]; grows. Qed.

Lemma operate_all_ok l s m u :
  holds_map s m u -> all_allowed l m -> (u + total_cost l + block_data_len < ADDR_LIMIT)%Z ->
  wp (operate_all l) s (fun answers s' => answers = map_answers l m /\
    exists u', holds_map s' (map_after l m) u' /\ (u <= u' <= u + total_cost l)%Z).
Proof.
  revert s m u. induction l as [|[op k v] l IH]; intros s m u Hm Hall Hlim.
  { apply wp_ret. split; [done|]. exists u. split; [done|cbn; lia]. }
  cbn [operate_all all_allowed total_cost map_answers rq_op rq_key rq_value] in *. destruct Hall as (Hal & Hk & Hall).
  pose proof (cost_nonneg op k v) as Hc. pose proof (total_cost_nonneg l) as Ht.
  set (v' := match op with PUT_OP => v | _ => [] end).
  assert (Hcv : cost op k v' = cost op k v) by (by destruct op).
  assert (Hev : map_effect op k v' m = map_effect op k v m) by (by destruct op).
  assert (Hg := grows_operate_all l). apply wp_bind; [grows|].
  eapply wp_conseq; [eapply (operate_ok op k v'); [done|done|rewrite Hcv; lia|done]|].
  rewrite Hcv, Hev. intros r s1 (-> & u1 & Hm1 & Hu1). apply wp_bind; [grows|].
  eapply wp_conseq; [apply (IH s1 _ u1 Hm1 Hall); lia|]. intros rest s2 (-> & u2 & Hm2 & Hu2). apply wp_ret.
  split; [by destruct op|]. exists u2. split; [done|lia].
Qed.

(** A new store holds the empty map. *)
Lemma created_holds w kv : created w kv -> holds_map kv.(dn_io_) ∅ T.sizeof_node.
Proof.
  intros (V & free & Hio & Hc & Hu & Hf & _). set (c := new_cell root_loc []).
  assert (Hrn : root_node.(node) = cell_node c empty_block_offset empty_block_offset) by reflexivity.
  exists c, Nil. split; [done|]. split; [vm_compute; intuition discriminate|]. split; [done|]. split; [|intros k; by rewrite lookup_empty].
  exists V, free. cbn [records]. unfold cell_record. rewrite Hrn in Hc. change (loc Nil) with empty_block_offset.
  set (b := T.node_bytes _) in *. assert (Hb : zlen b = T.sizeof_node) by reflexivity.
  change (addr (c_loc c)) with 0%Z. split; rewrite ?Hf; try done.
  - split; [|done]. split; [by apply Forall_nil|apply SSorted_nil].
  - intros r ->%list_elem_of_singleton. cbn [fst snd]. rewrite Hb. split_and!; [done|done|].
    rewrite Hc, <-Hb. apply subseq_overwrite_same; [done|]. rewrite Hb. unfold zero_block. rewrite zlen_replicate. by vm_compute.
  - rewrite span_cons. cbn [span]. rewrite app_nil_r. apply NoDup_seqZ.
  - intros z [Hz|[]]. by apply Exists_nil in Hz.
Qed.

Lemma create_world w key kv w' : KV.create w key = (Ok kv, w') -> w' = kv.(dn_io_).(io_world).
Proof. unfold KV.create, KV.construct. destruct (KV.create_body key _) as [[u|e] kv1]; intros Hc; by simplify_eq. Qed.
End Runs.

(** ** The two name spaces of the interpreter *)

(** A request that the contract can make: interpreter_kv maps its keys below one prefix. *)
Definition unprivileged (r : kv_request) : Prop := exists k, r.(rq_key) = IKV.to_unprivileged_key k.

Lemma map_effect_other op k v m k' : k' <> k -> map_effect op k v m !! k' = m !! k'.
Proof. intros Hne. destruct op; cbn; [done|by rewrite lookup_insert_ne|by rewrite lookup_delete_ne]. Qed.

Lemma map_after_app l1 l2 m : map_after (l1 ++ l2) m = map_after l2 (map_after l1 m).
Proof. apply fold_left_app. Qed.

Lemma unprivileged_after l m k : Forall unprivileged l ->
  map_after l m !! IKV.to_privileged_key k = m !! IKV.to_privileged_key k.
Proof.
  intros Hl. revert m. induction Hl as [|r l [k' Hk'] _ IH]; intros m; [done|]. cbn [map_after fold_left].
  change (map_after l (map_effect r.(rq_op) r.(rq_key) r.(rq_value) m) !! IKV.to_privileged_key k = m !! IKV.to_privileged_key k).
  rewrite IH, Hk'. by apply map_effect_other.
Qed.

Section CreatedRuns.
Context {OS : OpenSSL} {OL : @OpenSSLLaws OS} {B : BlockStore} {BL : BlockStoreLaws B} {P : LibC}.

Lemma submit_all_run l kv r kv' : submit_all l kv = (r, kv') ->
  operate_all l kv.(dn_io_) = (r, kv'.(dn_io_)) /\ kv'.(kv_start_mode) = kv.(kv_start_mode) /\
  evolves kv.(dn_io_) kv'.(dn_io_).
Proof.
  rewrite submit_all_io. unfold KV.in_io, zoomM. pose proof (grows_operate_all l kv.(dn_io_)) as Hg.
  destruct (operate_all l kv.(dn_io_)) as [r1 s1]. intros [= <- <-]. done.
Qed.

(** Any allowed sequence of operations on a new store. *)
Lemma created_run w key kv w' l answers kv' :
  zlen key = SYM_KEY_LEN -> KV.create w key = (Ok kv, w') -> all_allowed l ∅ ->
  (T.sizeof_node + total_cost l + block_data_len < ADDR_LIMIT)%Z ->
  submit_all l kv = (answers, kv') -> no_collision (log kv'.(dn_io_)) ->
  answers = Ok (map_answers l ∅) /\ exists u, holds_map kv'.(dn_io_) (map_after l ∅) u /\
    (u <= T.sizeof_node + total_cost l)%Z.
Proof.
  intros Hk Hc Hal Hlim Hrun Hn. destruct (submit_all_run _ _ _ _ Hrun) as (Hop & _ & Hev).
  pose proof (create_ok w key Hk) as Hok. rewrite Hc in Hok.
  destruct Hok as (kv0 & [= <-] & Hcr & Hw).
  { rewrite (create_world _ _ _ _ Hc). eapply no_collision_suffix; [apply (ev_log _ _ Hev)|done]. }
  pose proof (operate_all_ok l _ _ _ (created_holds w kv Hcr) Hal Hlim) as Hwp. unfold wp in Hwp. rewrite Hop in Hwp.
  destruct (Hwp Hn) as (a & Ha & -> & u & Hm & Hu). split; [done|]. exists u. split; [done|lia].
Qed.
End CreatedRuns.

(** * Properties *)

(** C5: the store is a finite map.  Any sequence of Get, Put and Delete on a new store answers exactly as
    the same sequence on a finite map that is empty at first, where Get of an unbound key answers the
    empty value; no operation fails or runs forever.  The sequence may not replace or delete an empty
    value, nor delete the empty key, has keys shorter than 2^32 bytes and must fit in 4 GB of data blocks;
    the block store is honest and no two different blocks written have the same hash. *)
Theorem kv_refines_map {OS : OpenSSL} {OL : @OpenSSLLaws OS} {B : BlockStore} {BL : BlockStoreLaws B} {P : LibC}
    w key kv w' l answers kv' :
  zlen key = SYM_KEY_LEN -> KV.create w key = (Ok kv, w') -> all_allowed l ∅ ->
  (T.sizeof_node + total_cost l + block_data_len < ADDR_LIMIT)%Z ->
  submit_all l kv = (answers, kv') -> no_collision (log kv'.(dn_io_)) -> answers = Ok (map_answers l ∅).
Proof. intros Hk Hc Hal Hlim Hrun Hn. by destruct (created_run w key kv w' l answers kv'). Qed.

(** C7: the contract cannot touch the enclave's entries, as long as the store is used within its limits.
    Take a new store and any operations, followed by any requests that the contract makes through the
    unprivileged interface of interpreter_kv, where all of them together replace or delete no empty
    value, do not delete the empty key, have keys shorter than 2^32 bytes and fit in 4 GB of data blocks.
    Then the privileged Get of any key answers what the store held under it before the contract's
    requests.  (The block store is honest and no two different blocks written have the same hash.
    Without the condition on empty values the isolation does not hold: a contract that replaces or deletes
    an empty value overwrites a byte of a neighbouring record, C28.) *)
Theorem privileged_isolation {OS : OpenSSL} {OL : @OpenSSLLaws OS} {B : BlockStore} {BL : BlockStoreLaws B} {P : LibC}
    w key kv w' l1 l2 answers kv1 k r kv2 :
  zlen key = SYM_KEY_LEN -> KV.create w key = (Ok kv, w') -> all_allowed (l1 ++ l2) ∅ -> Forall unprivileged l2 ->
  (T.sizeof_node + total_cost (l1 ++ l2) + block_data_len < ADDR_LIMIT)%Z -> (zlen k < 2 ^ 32 - 1)%Z ->
  submit_all (l1 ++ l2) kv = (answers, kv1) ->
  IKV.PrivilegedGet k kv1 = (r, kv2) -> no_collision (log kv2.(dn_io_)) ->
  r = Ok (default [] (map_after l1 ∅ !! IKV.to_privileged_key k)).
Proof.
  intros Hk Hc Hal Hun Hlim Hkl Hrun Hget Hn. unfold IKV.PrivilegedGet, KV.Get, KV.in_io, zoomM in Hget.
  pose proof (grows_operate GET_OP (IKV.to_privileged_key k) [] kv1.(dn_io_)) as Hg.
  destruct (T.operate_trie_non_recursive _ _ _ _) as [r1 s1] eqn:E. injection Hget as <- <-. cbn in Hn, Hg.
  destruct (created_run _ _ _ _ _ _ _ Hk Hc Hal Hlim Hrun) as (_ & u & Hm & Hu).
  { eapply no_collision_suffix; [apply (ev_log _ _ Hg)|done]. }
  pose proof (operate_ok GET_OP (IKV.to_privileged_key k) [] _ _ u Hm) as Hwp. unfold wp in Hwp. rewrite E in Hwp.
  destruct Hwp as (a & Ha & -> & _); [|cbn; pose proof (total_cost_nonneg (l1 ++ l2)); lia|done|done|].
  { unfold IKV.to_privileged_key. rewrite zlen_cons. lia. }
  cbn in Ha. by rewrite Ha, map_after_app, unprivileged_after.
Qed.
