(* ===== verification/Persist.v ===== *)
(** Finalizing a store and opening it again: the root block that Finalize returns stands for the whole
    content of the store. *)
From S2P Require Import Prelude Crypto BlockStore Codec DataNode FreeSpace Json JsonSpec StateNode Cache CacheSpec.
From S2P Require Import DataNodeIO MemorySpec Trie StateKV KVSpec Platform TrieSpec TrieHeap TrieModel TrieNodes TrieWalk TrieRefine KVRefine.

Section Save.
Context {OS : OpenSSL} {OL : @OpenSSLLaws OS} {B : BlockStore} {BL : BlockStoreLaws B} {P : LibC} {PL : LibCLaws}.
Implicit Types (s : dn_io) (V : list bytes) (F : Z -> Prop).

(** The block [k] holds a collection, all of whose addresses are in [F]. *)
Definition collector_block (k free : Z) (v : bytes) F : Prop :=
  (0 <= free)%Z /\ exists c, wf_collection c /\ (forall z, covers c z -> F z) /\
  forall g n, g.(free_space_collection) = [] -> wf_dn n -> n.(block_num_) = k -> n.(free_bytes_) = free ->
    payload n = v -> FSC.deserialize_from_data_node g n =
      Ok (mk_fsc g.(is_collection_modified) g.(deferred_fsi) c g.(original_block_id_of_collection)).

(** What the code of [Finalize] does with a modified collection. *)
Definition save_collector : M dn_io unit :=
  IO.add_and_init_append_data_node ;;!
  let! n := IO.append_node in
  let! n' := IO.lift_fsc (fun f => FSC.serialize_in_data_node f n) in
  let! s := getM in
  C.assign s.(append_dn_) n'.

Lemma grows_save : grows save_collector.
Proof. unfold save_collector. grows. Qed.

Lemma save_collector_ok s V free :
  io_inv s V free -> free <> block_data_len -> ((zlen V + 1) * block_data_len < ADDR_LIMIT)%Z ->
  wf_fsc s.(free_space_collector_) ->
  wp save_collector s (fun _ s' => exists v fr, cache_inv s' (V ++ [v]) fr None /\ fr (zlen V - 1)%Z = free /\
    collector_block (zlen V) (fr (zlen V)) v (free_in s.(free_space_collector_))).
Proof.
  intros Hio Hne Hlim Hwf. unfold save_collector.
  destruct (append_node_inv s V free Hio) as (n0 & fr & v0 & Hinv & Hlast & Hn0 & _ & _ & _ & Hnf).
  destruct Hio as (_ & Hap & Hu & Hfr). wp_bind.
  eapply wp_conseq; [eapply add_weak_ok; try done; congruence|].
  intros _ s1 (Hinv1 & Hap1 & Hu1 & (e & He & Hmod) & Hfsc1 & _).
  destruct (append_node_cached _ _ _ _ Hinv1 Hap1) as (n & v & Hn & Hv & _ & (Hwn & Hbn & Hpay & Hfree)).
  assert (Hz : (zlen (V ++ [zero_block]) - 1 = zlen V)%Z) by (rewrite zlen_app, zlen_cons, zlen_nil; lia).
  rewrite Hz in *. rewrite set_free_eq in Hfree. specialize (Hfree ltac:(by vm_compute)).
  rewrite <-Hfsc1 in Hwf. destruct (serialize_ok _ n Hwf Hwn Hfree) as (f' & n' & Hs & Hwn' & Hbn' & Hfr' & Hwc & Hd).
  wp_bind. eapply wp_eq; [unfold IO.append_node, C.deref, Slots.deref; run_monad; rewrite Hn; reflexivity|]. intros _.
  wp_bind. eapply wp_eq; [unfold IO.lift_fsc; run_monad; rewrite Hs; reflexivity|]. intros _.
  wp_bind. apply wp_get. apply wp_modify. set (s2 := C.set_fsc f' s1).
  assert (Hinv2 : cache_inv s2 (V ++ [zero_block]) (set_free fr (zlen V) block_data_len) None) by (by apply cache_inv_fsc).
  set (s3 := C.set_slots _ _). set (fr' := set_free fr (zlen V) n'.(free_bytes_)).
  assert (Hde : e.(dn) = s1.(append_dn_)).
  { destruct Hap1 as (e' & He' & _ & <-). rewrite Hz in He'. congruence. }
  destruct (ci_entry _ _ _ _ Hinv2 _ e He) as (_ & _ & Hrf & _).
  exists (payload n'), fr'. split; [|split].
  - replace (V ++ [payload n']) with (<[Z.to_nat (zlen V) := payload n']> (V ++ [zero_block])).
    2: { replace (Z.to_nat (zlen V)) with (length V + 0)%nat by (unfold zlen; lia). by rewrite insert_app_r. }
    eapply (cache_inv_write s2 s3 _ _ _ None (zlen V) e n' (payload n')); try done; [by left|lia|..].
    + cbn. symmetry. apply insert_id. rewrite He. f_equal. destruct e; cbn in *. by subst.
    + cbn. by rewrite Hde.
    + split_and!; [done|congruence|done|]. intros _. unfold fr'. by rewrite set_free_eq.
    + intros k Hk. unfold fr'. by rewrite !set_free_ne.
  - unfold fr'. rewrite set_free_ne by lia. done.
  - unfold fr'. rewrite set_free_eq. split; [by destruct Hwn' as (_ & _ & ? & _)|].
    exists (take max_items f'.(free_space_collection)). split; [done|]. split.
    + intros z Hz'. rewrite <-Hfsc1. apply Hfr'. left. unfold covers in *.
      rewrite <-(take_drop max_items f'.(free_space_collection)). apply Exists_app. by left.
    + intros g n2 Hg Hw2 Hb2 Hf2 Hp2. apply Hd; [done|done|]. split_and!; [congruence|done|done].
Qed.

(** ** Finalize *)

(** The root block [id] in the world [w] stands for the blocks [W]: its ids are read back under the key
    of the store, and each block is stored under its id. *)
Definition saved (w : world) (id key : bytes) (W : list bytes) (fr : Z -> Z) : Prop :=
  exists block idl, BlockStoreGet w.(w_store) id = Ok (PDO_SUCCESS, block) /\ id = ComputeMessageHash block /\
    (forall w0 hp, w0.(state_encryption_key_) = key ->
       BW.deserialize_block_ids w0 (mk_node id block [] hp) = Ok (mk_bw idl key, mk_node id block idl hp)) /\
    cache_inv (mk_io _ w (mk_bw idl key) FSC.empty 0 C.new) W fr None.

(** Emptying the cache of a flushed store, in a world in which its blocks can be read. *)
Lemma reloaded_inv s w W fr :
  cache_inv s W fr None -> bc s = ∅ ->
  (forall k v, stored s fr k v -> stored (mk_io _ w s.(block_warehouse_) FSC.empty 0 C.new) fr k v) ->
  cache_inv (mk_io _ w s.(block_warehouse_) FSC.empty 0 C.new) W fr None.
Proof.
  intros [Hkey Hids Hsize Hslots Hentry Hcached Hst] Hbc Hw. split; try done.
  - split; [reflexivity|apply NoDup_ListNoDup, seq_NoDup| |done|done|reflexivity].
    intros d Hd. apply (elem_of_seq 0 512) in Hd. lia.
  - intros k v Hk Hv _. apply Hw, Hst; [done|done|]. intros e. by rewrite Hbc, lookup_empty.
Qed.

(** The last part of [Finalize]: the ids are written to the root block. *)
Lemma save_root_ok s w' W fr block idl :
  cache_inv s W fr None -> bc s = ∅ -> idl = ids s ->
  stored_in s.(io_world) w' (ComputeMessageHash block) block -> no_collision w'.(w_evicted) ->
  (forall w0 hp, w0.(state_encryption_key_) = iokey s ->
     BW.deserialize_block_ids w0 (mk_node (ComputeMessageHash block) block [] hp) =
       Ok (mk_bw idl (iokey s), mk_node (ComputeMessageHash block) block idl hp)) ->
  saved w' (ComputeMessageHash block) (iokey s) W fr.
Proof.
  intros Hinv Hbc -> Hst Hn Hd. exists block, (ids s). split; [apply Hst|]. split; [done|]. split; [done|].
  replace (mk_bw (ids s) (iokey s)) with s.(block_warehouse_) by (by destruct s.(block_warehouse_)).
  apply reloaded_inv; [done..|]. intros k v. apply stored_mono; try done.
  - exists [block]. unfold log. cbn. apply Hst.
  - intros b Hb Hg. by eapply put_keeps.
Qed.

(** The root block after the flush. *)
Definition save_root : M State_KV unit :=
  let! kv := getM in
  whenM (bool_decide (C.synced_entries kv.(dn_io_) > 0)%Z) (
    let! root := liftM (BW.serialize_block_ids kv.(dn_io_).(block_warehouse_) kv.(rootNode_)) in
    modifyM (KV.set_root root) ;;!
    let! '(ret, id) := KV.in_io (C.in_world (sebio_evict root.(stateBlock_) SEBIO_NO_CRYPTO)) in
    modifyM (KV.set_root (mk_node id root.(stateBlock_) root.(ChildrenArray_) root.(hasParent_))) ;;!
    throw_ifM (bool_decide (ret ≠ STATE_SUCCESS))
      (ValueError "kv root node unload, sebio returned an error")).

Lemma grows_save_root kv : evolves kv.(dn_io_) (save_root kv).2.(dn_io_).
Proof.
  unfold save_root, KV.in_io. run_monad. case_bool_decide; [|done]. cbn [whenM].
  destruct (BW.serialize_block_ids _ _) as [root|]; [|done].
  pose proof (grows_evict root.(stateBlock_) kv.(dn_io_)) as Hg. cbn [KV.set_root dn_io_].
  destruct (C.in_world _ _) as [[[ret id]|] s']; cbn in *; [|done].
  by repeat case_match.
Qed.

Lemma run_save_root kv W fr r kv' :
  cache_inv kv.(dn_io_) W fr None -> bc kv.(dn_io_) = ∅ -> save_root kv = (r, kv') ->
  (C.synced_entries kv'.(dn_io_) > 0)%Z -> (zlen kv'.(rootNode_).(stateBlock_) < 2 ^ 64)%Z ->
  no_collision (log kv'.(dn_io_)) ->
  r = Ok tt /\ saved kv'.(dn_io_).(io_world) kv'.(rootNode_).(blockId_) (iokey kv.(dn_io_)) W fr.
Proof.
  intros Hinv Hbc Hrun Hsyn Hlen Hn.
  destruct (block_ids_ok kv.(dn_io_).(block_warehouse_) kv.(rootNode_)) as (b & Hs & Hd).
  unfold save_root, KV.in_io, C.in_world in Hrun. revert Hrun. run_monad.
  case_bool_decide as Hc; [|by intros [= _ <-]]. cbn [whenM]. rewrite Hs.
  cbn [KV.set_root dn_io_ stateBlock_ KV.set_io ChildrenArray_ hasParent_]. intros Hrun.
  set (block := b ++ [Byte.x00]) in *.
  assert (Hbl : (zlen block < 2 ^ 64)%Z).
  { destruct (sebio_evict block _ _) as [[[ret id]|] w']; [|by injection Hrun as <- <-].
    revert Hrun. case_bool_decide; intros Hrun; by injection Hrun as <- <-. }
  destruct (sebio_evict_plain block kv.(dn_io_).(io_world) Hbl) as (w' & He & Hst & _).
  rewrite He in Hrun. rewrite bool_decide_eq_false_2 in Hrun by (intros Hx; by apply Hx).
  injection Hrun as <- <-. split; [done|]. cbn in *.
  eapply save_root_ok; try done. intros w0 hp Hk. rewrite (Hd w0 (ComputeMessageHash block) hp Hk).
  by destruct (block_warehouse_ (dn_io_ kv)).
Qed.

(** A store whose collection is saved. *)
Definition saves_collection (kv : State_KV) : Prop :=
  kv.(kv_start_mode) = KV_CREATE \/
  kv.(kv_start_mode) = KV_OPEN /\ FSC.collection_modified kv.(dn_io_).(free_space_collector_) = true.

Lemma finalize_eq kv : saves_collection kv ->
  KV.Finalize kv = (KV.in_io save_collector ;;! KV.in_io C.flush ;;! save_root ;;!
    readM (fun kv => kv.(rootNode_).(blockId_))) kv.
Proof.
  intros Hmode. unfold KV.Finalize, save_root, save_collector, KV.in_io. run_monad.
  rewrite bool_decide_eq_false_2 by (by destruct Hmode as [->|[-> _]]).
  replace (bool_decide (kv_start_mode kv = KV_CREATE) || FSC.collection_modified (free_space_collector_ (dn_io_ kv)))
    with true; [done|].
  destruct Hmode as [->|[_ ->]]; [done|symmetry; apply orb_true_r].
Qed.

Lemma finalize_log kv r kv' : saves_collection kv -> KV.Finalize kv = (r, kv') ->
  log kv.(dn_io_) `suffix_of` log kv'.(dn_io_).
Proof.
  intros Hmode. rewrite (finalize_eq kv Hmode). unfold KV.in_io. cbv beta iota zeta delta [bindM zoomM].
  pose proof (ev_log _ _ (grows_save kv.(dn_io_))) as H1. destruct (save_collector _) as [[u1|] s1]; [|intros [= _ <-]; apply H1].
  cbn [KV.set_io dn_io_ snd] in *. pose proof (ev_log _ _ (grows_flush s1)) as H2.
  destruct (C.flush s1) as [[u2|] s2]; cbn [snd] in *; [|intros [= _ <-]; etransitivity; [apply H1|apply H2]].
  set (kv2 := KV.set_io s2 _). pose proof (ev_log _ _ (grows_save_root kv2)) as H3.
  assert (H13 : log kv.(dn_io_) `suffix_of` log (save_root kv2).2.(dn_io_)).
  { etransitivity; [apply H1|]. etransitivity; [apply H2|apply H3]. }
  destruct (save_root kv2) as [[u3|] kv3]; by intros [= _ <-].
Qed.

Lemma finalize_ok kv V free r kv' :
  io_inv kv.(dn_io_) V free -> free <> block_data_len -> ((zlen V + 1) * block_data_len < ADDR_LIMIT)%Z ->
  wf_fsc kv.(dn_io_).(free_space_collector_) ->
  saves_collection kv ->
  KV.Finalize kv = (r, kv') -> no_collision (log kv'.(dn_io_)) ->
  (C.synced_entries kv'.(dn_io_) > 0)%Z -> (zlen kv'.(rootNode_).(stateBlock_) < 2 ^ 64)%Z ->
  exists id v fr, r = Ok id /\ saved kv'.(dn_io_).(io_world) id (iokey kv.(dn_io_)) (V ++ [v]) fr /\
    fr (zlen V - 1)%Z = free /\
    collector_block (zlen V) (fr (zlen V)) v (free_in kv.(dn_io_).(free_space_collector_)).
Proof.
  intros Hio Hne Hlim Hwf Hmode Hrun Hn Hsyn Hlen.
  pose proof (save_collector_ok _ V free Hio Hne Hlim Hwf) as Hsave.
  rewrite (finalize_eq kv Hmode) in Hrun. revert Hrun. unfold KV.in_io, wp in *. cbv beta iota zeta delta [bindM zoomM].
  pose proof (grows_flush (save_collector kv.(dn_io_)).2) as Hg. pose proof (ev_key _ _ (grows_save kv.(dn_io_))) as Hk1.
  destruct (save_collector kv.(dn_io_)) as [r1 s1]. cbn [fst snd KV.set_io dn_io_] in *.
  destruct (C.flush s1) as [r2 s2] eqn:E2. cbn [fst snd] in Hg. set (kv2 := KV.set_io s2 (KV.set_io s1 kv)).
  pose proof (grows_save_root kv2) as Hg2. destruct (save_root kv2) as [r3 kv3] eqn:E3. cbn [snd] in Hg2.
  intros Hrun. assert (Hsuf : log s1 `suffix_of` log kv'.(dn_io_)).
  { destruct r1; [|by injection Hrun as <- <-]. etransitivity; [apply (ev_log _ _ Hg)|].
    destruct r2; [|by injection Hrun as <- <-]. destruct r3; injection Hrun as <- <-; apply (ev_log _ _ Hg2). }
  destruct (Hsave (no_collision_suffix _ _ Hsuf Hn)) as ([] & -> & v & fr & Hinv1 & Hlast & Hcol).
  pose proof (flush_ok s1 _ fr Hinv1) as Hflush. unfold wp in Hflush. rewrite E2 in Hflush. cbn [fst snd] in Hflush.
  assert (Hsuf2 : log s2 `suffix_of` log kv'.(dn_io_)).
  { destruct r2; [|by injection Hrun as <- <-]. destruct r3; injection Hrun as <- <-; apply (ev_log _ _ Hg2). }
  destruct (Hflush (no_collision_suffix _ _ Hsuf2 Hn)) as ([] & -> & Hinv2 & Hbc2 & _ & _ & Hk2).
  assert (Hkv' : kv' = kv3) by (destruct r3; by injection Hrun as <- <-). subst kv'.
  destruct (run_save_root kv2 _ fr r3 kv3 Hinv2 Hbc2 E3 Hsyn Hlen Hn) as [-> Hsaved].
  injection Hrun as <-. exists kv3.(rootNode_).(blockId_), v, fr. split; [done|]. split; [|done].
  cbn [kv2 KV.set_io dn_io_] in Hsaved. by rewrite Hk2, Hk1 in Hsaved.
Qed.

(** ** Opening *)

(** Forgetting the block of the collection, once it has been read. *)
Lemma remove_last_ok s V v fr (e : block_cache_entry_t) :
  cache_inv s (V ++ [v]) fr None -> (0 < zlen V)%Z -> bc s = {[zlen V := e]} ->
  e.(Cache.modified) = false -> e.(pinned) = false ->
  wp (IO.lift_bw (fun b => BW.remove_block_id_from_datablock_num b (zlen V))) s (fun _ s' =>
    cache_inv s' V fr None /\ bc s' = {[zlen V := e]} /\
    s'.(free_space_collector_) = s.(free_space_collector_) /\ iokey s' = iokey s).
Proof.
  intros [Hkey Hids Hsize Hslots Hentry Hcached Hst] Hz Hbc Hm Hp. rewrite length_app in Hids. cbn in Hids.
  rewrite zlen_app, zlen_cons, zlen_nil in Hsize.
  assert (Hl : length (take (length V) (ids s)) = length V) by (rewrite length_take; lia).
  eapply wp_eq.
  { unfold IO.lift_bw, BW.remove_block_id_from_datablock_num, vec_erase. run_monad.
    rewrite bool_decide_eq_true_2 by (unfold zlen; lia). reflexivity. }
  intros _. set (s' := C.set_bw _ _). assert (Hids' : ids s' = take (length V) (ids s)).
  { cbn. unfold zlen. rewrite Nat2Z.id, (drop_ge (ids s)), app_nil_r by lia. done. }
  split; [|done]. split; try done.
  - by rewrite Hids'.
  - split; [done|]. dn_consts. lia.
  - destruct Hslots. by split.
  - intros k1 e1 He1. change (bc s !! k1 = Some e1) in He1. destruct (Hentry k1 e1 He1) as (_ & _ & Hrf & _).
    rewrite Hbc in He1. apply lookup_singleton_Some in He1 as [<- <-]. split_and!; [lia|lia|done|done|].
    intros Hp'. by rewrite Hp' in Hp.
  - intros k1 e1 v1 He1. change (bc s !! k1 = Some e1) in He1. rewrite Hbc in He1.
    apply lookup_singleton_Some in He1 as [<- <-]. unfold zlen. rewrite Nat2Z.id, lookup_ge_None_2 by lia. done.
  - intros k1 v1 Hk1 Hv1 Hm1. pose proof (lookup_lt_Some _ _ _ Hv1) as Hlt.
    eapply (stored_mono s); [|done|by exists []|done|apply Hst; [done|by rewrite lookup_app_l|]].
    + rewrite Hids', lookup_take_lt by done. done.
    + intros e1 He1. by apply Hm1.
Qed.

(** The constructor's code after it has read the ids. *)
Definition open_rest : M dn_io unit :=
  let! free_space_collection_block_num := IO.get_last_block_num in
  let! d := C.retrieve free_space_collection_block_num false in
  let! s := getM in
  let! id := liftM (BW.get_datablock_id_from_datablock_num s.(block_warehouse_) free_space_collection_block_num) in
  let f := s.(free_space_collector_) in
  modifyM (C.set_fsc (mk_fsc f.(is_collection_modified) f.(deferred_fsi) f.(free_space_collection) id)) ;;!
  let! fsc_dn := C.deref d in
  IO.lift_fsc (fun f => let? f := FSC.deserialize_from_data_node f fsc_dn in Ok (f, tt)) ;;!
  let! last := IO.get_last_block_num in
  C.done last false ;;!
  IO.lift_bw (fun b => BW.remove_block_id_from_datablock_num b free_space_collection_block_num) ;;!
  IO.init_append_data_node.

Lemma wp_run {A C} (m : M dn_io A) (m' : M dn_io C) s s' (f : C -> A) (Q : A -> dn_io -> Prop) :
  m s = (let! c := m' in retM (f c)) s' -> wp m' s' (fun c s2 => Q (f c) s2) -> wp m s Q.
Proof.
  unfold wp, bindM. intros -> Hw Hn. destruct (m' s') as [[c|e] s2]; cbn in *.
  - destruct (Hw Hn) as (? & [= <-] & HQ). by exists (f c).
  - destruct (Hw Hn) as (? & ? & _). done.
Qed.

Lemma open_rest_ok w idl key V v fr free F :
  cache_inv (mk_io _ w (mk_bw idl key) FSC.empty 0 C.new) (V ++ [v]) fr None ->
  fr (zlen V - 1)%Z = free -> collector_block (zlen V) (fr (zlen V)) v F ->
  (0 < zlen V)%Z -> uniform V -> (0 <= free <= block_data_len)%Z ->
  wp open_rest (mk_io _ w (mk_bw idl key) FSC.empty 0 C.new) (fun _ s => io_inv s V free /\
    wf_fsc s.(free_space_collector_) /\ (forall z, free_in s.(free_space_collector_) z -> F z)).
Proof.
  intros Hinv Hlast (Hf0 & c & Hwc & Hcov & Hcol) Hz Hu Hfree. set (s0 := mk_io _ _ _ _ _ _) in *.
  assert (Hz' : zlen (V ++ [v]) = (zlen V + 1)%Z) by (rewrite zlen_app; done).
  assert (Hv : (V ++ [v]) !! Z.to_nat (zlen V) = Some v) by (unfold zlen; rewrite Nat2Z.id; by apply list_lookup_middle).
  assert (Hga := grows_init_append). unfold open_rest. wp_bind. apply wp_read. rewrite (last_block _ _ _ _ Hinv), Hz'.
  replace (zlen V + 1 - 1)%Z with (zlen V) by lia.
  wp_bind. eapply wp_conseq; [eapply (retrieve_ok s0 _ fr (zlen V) v false Hinv); [lia|done|done]|].
  intros d s1 (Hinv1 & Hfr1 & Hnode & Hload).
  destruct (Hload ltac:(apply lookup_empty)) as (e & He & Hpe & Hme & Ho).
  wp_bind. apply wp_get. wp_bind.
  assert (exists id, ids s1 !! Z.to_nat (zlen V) = Some id) as [id Hid].
  { apply lookup_lt_is_Some_2. rewrite (ci_ids _ _ _ _ Hinv1), length_app. cbn. unfold zlen. lia. }
  eapply wp_lift; [unfold BW.get_datablock_id_from_datablock_num, vec_get; rewrite bool_decide_eq_true_2 by lia; by rewrite Hid|].
  cbv zeta. wp_bind. apply wp_modify. wp_bind. eapply (deref_ok _ (V ++ [v])); [exact Hnode|]. intros n Hn (Hwn & Hbn & Hpay & Hnf).
  rewrite (fr_fsc _ _ Hfr1). wp_bind. eapply wp_eq.
  { unfold IO.lift_fsc. run_monad. cbn [C.set_fsc free_space_collector_].
    rewrite Hcol; [cbn [result_bind]; reflexivity|done|done|done|by apply Hnf|done]. }
  intros _. set (s2 := C.set_fsc _ _).
  assert (Hinv2 : cache_inv s2 (V ++ [v]) fr (Some (zlen V))) by (by do 2 apply cache_inv_fsc).
  wp_bind. apply wp_read. rewrite (last_block _ _ _ _ Hinv2), Hz'. replace (zlen V + 1 - 1)%Z with (zlen V) by lia.
  wp_bind. eapply wp_conseq; [eapply (done_ok s2 _ fr (zlen V) v d Hinv2); exact Hnode|].
  intros _ s3 (Hinv3 & Hfr3 & _ & e0 & e3 & He0 & Hbc3 & Hp3 & Hm3 & _).
  assert (e0 = e) as -> by (change (bc s1 !! zlen V = Some e0) in He0; congruence).
  assert (Hbc : bc s3 = {[zlen V := e3]}).
  { rewrite Hbc3. apply map_eq. intros k. destruct (decide (k = zlen V)) as [->|Hk].
    - by rewrite lookup_insert_eq, lookup_singleton_eq.
    - rewrite lookup_insert_ne, lookup_singleton_ne by done. change (bc s1 !! k = None).
      destruct (bc s1 !! k) as [ek|] eqn:Ek; [|done]. destruct (Ho k Hk ltac:(by exists ek)) as [? Hx].
      change (bc s0 !! k) with ((∅ : gmap Z block_cache_entry_t) !! k) in Hx. by rewrite lookup_empty in Hx. }
  wp_bind. eapply wp_conseq; [eapply (remove_last_ok s3 V v fr e3); try done; congruence|].
  intros _ s4 (Hinv4 & Hbc4 & Hf4 & _).
  destruct (last_content V Hz) as [vl Hvl].
  eapply wp_conseq; [eapply (init_append_ok s4 V fr free vl); try done|].
  { rewrite Hbc4. apply lookup_singleton_ne. lia. }
  intros _ s5 (Hio5 & Hf5 & _). split; [done|]. rewrite Hf5, Hf4, (fr_fsc _ _ Hfr3). cbn [s2 C.set_fsc free_space_collector_].
  split; [by split|]. intros z [Hz0|[]]. by apply Hcov.
Qed.

Lemma grows_open_rest : grows open_rest.
Proof. assert (Hga := grows_init_append). unfold open_rest. grows. Qed.

(** A saved store can be opened with the same key: its memory is as it was, and whatever the collection
    hands out was free when it was saved. *)
Lemma open_ok w id key V v fr free F :
  saved w id key (V ++ [v]) fr -> fr (zlen V - 1)%Z = free -> collector_block (zlen V) (fr (zlen V)) v F ->
  (0 < zlen V)%Z -> uniform V -> (0 <= free <= block_data_len)%Z ->
  let '(r, w') := KV.open w id key in
  no_collision w'.(w_evicted) -> exists kv, r = Ok kv /\ kv.(dn_io_).(io_world) = w' /\
    kv.(kv_start_mode) = KV_OPEN /\ iokey kv.(dn_io_) = key /\
    io_inv kv.(dn_io_) V free /\ wf_fsc kv.(dn_io_).(free_space_collector_) /\
    forall z, free_in kv.(dn_io_).(free_space_collector_) z -> F z.
Proof.
  intros (block & idl & Hget & Hid & Hdes & Hinv) Hlast Hcol Hz Hu Hfree.
  set (s0 := mk_io _ w (mk_bw idl key) FSC.empty 0 C.new) in *.
  pose proof (open_rest_ok w idl key V v fr free F Hinv Hlast Hcol Hz Hu Hfree) as Hrest. fold s0 in Hrest.
  pose proof (ev_key _ _ (grows_open_rest s0)) as Hk.
  assert (Hinit : IO.initialize (mk_node id block [] false) (IO.new w key) =
    (open_rest ;;! retM (mk_node id block idl false)) s0).
  { unfold IO.initialize, open_rest. run_monad. cbn [IO.new block_warehouse_]. rewrite Hdes by done.
    change (C.set_bw (mk_bw idl key) (IO.new w key)) with s0. by repeat (case_match; try done). }
  unfold KV.open, KV.construct, KV.open_body, KV.in_io, C.in_world. run_monad.
  cbn [KV.init dn_io_ IO.new io_world rootNode_ ChildrenArray_ hasParent_ SN.new].
  rewrite (sebio_fetch_plain id block w Hget Hid). cbn [KV.set_io KV.set_root dn_io_ C.set_world io_world].
  rewrite bool_decide_eq_false_2 by (intros Hx; by apply Hx).
  change (C.set_world w (IO.new w key)) with (IO.new w key). rewrite Hinit. clear Hinit Hdes.
  unfold wp in Hrest. unfold bindM. destruct (open_rest s0) as [[u|e] s1]; cbn in *; intros Hn.
  - destruct (Hrest Hn) as (? & _ & Hio & Hwf & Hfs). eexists. by split_and!.
  - destruct (Hrest Hn) as (? & ? & _). done.
Qed.

(** ** The map *)

(** The append node still has its whole data area free. *)
Definition append_node_empty s : Prop :=
  exists n, (IO.append_node s).1 = Ok n /\ n.(free_bytes_) = block_data_len.

Lemma finalize_open_ok kv m u r kv' :
  holds_map kv.(dn_io_) m u -> ~ append_node_empty kv.(dn_io_) -> (u + 2 * block_data_len < ADDR_LIMIT)%Z ->
  saves_collection kv ->
  KV.Finalize kv = (r, kv') -> no_collision (log kv'.(dn_io_)) ->
  (C.synced_entries kv'.(dn_io_) > 0)%Z -> (zlen kv'.(rootNode_).(stateBlock_) < 2 ^ 64)%Z ->
  exists id, r = Ok id /\
    let '(r2, w2) := KV.open kv'.(dn_io_).(io_world) id (iokey kv.(dn_io_)) in
    no_collision w2.(w_evicted) -> exists kv2, r2 = Ok kv2 /\ kv2.(dn_io_).(io_world) = w2 /\
      kv2.(kv_start_mode) = KV_OPEN /\ iokey kv2.(dn_io_) = iokey kv.(dn_io_) /\ holds_map kv2.(dn_io_) m u.
Proof.
  intros (c & t & Hloc & Hc & Hw & (V & free & Hh) & Hm) Hne Hlim Hmode Hrun Hn Hsyn Hlen.
  pose proof Hh as [Hio Hus Hwf Hat Hdis Hfree]. destruct (io_size _ _ _ Hio) as (Hz & _ & _).
  pose proof Hio as (_ & _ & Hu & Hfr).
  assert (Hnf : free <> block_data_len).
  { intros ->. apply Hne. destruct (append_node_inv _ _ _ Hio) as (n0 & fr & v & _ & _ & Hn0 & _ & _ & _ & Hf0).
    exists n0. split; [|done]. unfold IO.append_node, C.deref, Slots.deref. run_monad. by rewrite Hn0. }
  destruct (finalize_ok kv V free r kv' Hio Hnf) as (id' & v & fr & -> & Hsaved & Hlast & Hcol); try done.
  { unfold used in Hus. lia. }
  exists id'. split; [done|].
  pose proof (open_ok _ _ _ V v fr free _ Hsaved Hlast Hcol Hz Hu Hfr) as Hopen.
  destruct (KV.open _ _ _) as [r2 w2]. intros Hn2.
  destruct (Hopen Hn2) as (kv2 & -> & Hw2 & Hmode2 & Hk2 & Hio2 & Hwf2 & Hf2). exists kv2.
  split; [done|]. split; [done|]. split; [done|]. split; [done|].
  exists c, t. split; [done|]. split; [done|]. split; [done|]. split; [|done].
  exists V, free. split; try done. intros z Hz2. by apply Hfree, Hf2.
Qed.
End Save.

Section Created.
Context {OS : OpenSSL} {OL : @OpenSSLLaws OS} {B : BlockStore} {BL : BlockStoreLaws B} {P : LibC}.

Lemma create_key w key kv w' : KV.create w key = (Ok kv, w') -> iokey kv.(dn_io_) = key /\ kv.(kv_start_mode) = KV_CREATE.
Proof.
  assert (Hg : grows (let! '(_, dn_id) := C.in_world (DN.unload (DN.new BW.get_root_block_num) key) in
    IO.lift_bw (fun b => BW.add_block_id b dn_id) ;;! IO.init_append_data_node ;;! T.init_trie_root ;;!
    C.pin BW.get_root_block_num)).
  { assert (Hi := grows_init_append). assert (Hr := grows_init_root). grows. }
  pose proof (ev_key _ _ (Hg (IO.new w key))) as Hk. clear Hg.
  unfold KV.create, KV.construct, KV.create_body, KV.in_io, zoomM, KV.init. cbn [dn_io_].
  destruct (bindM _ _ (IO.new w key)) as [[u|e] s]; [|done]. intros [= <- <-]. done.
Qed.

End Created.

(** * Properties *)

(** C6: finalizing a store and opening it again loses nothing, for stores used as follows.  Take a new
    store, under a key of the right size, and a sequence of operations on it that replaces or deletes no
    empty value, does not delete the empty key, has keys shorter than 2^32 bytes and fits in 4 GB of data
    blocks with two blocks to spare.  Then Finalize returns the id of a root block, and the store opened
    with that id and the same key answers every further sequence of operations that meets the same
    conditions (on the map the first sequence produced, and within the same 4 GB) as the finite map that
    the first sequence produced.  Further conditions: the block store is honest, no two different blocks
    written have the same hash, the last block is not empty when the store is finalized, the count of
    blocks written back has not wrapped around to zero, and the root block is shorter than 2^64 bytes.
    Without the condition on empty values the statement is false of the code (C28). *)
Theorem finalize_open_roundtrip {OS : OpenSSL} {OL : @OpenSSLLaws OS} {B : BlockStore} {BL : BlockStoreLaws B}
    {P : LibC} {PL : LibCLaws} w key kv w0 l answers kv1 r kv2 :
  zlen key = SYM_KEY_LEN -> KV.create w key = (Ok kv, w0) -> all_allowed l ∅ ->
  (T.sizeof_node + total_cost l + 2 * block_data_len < ADDR_LIMIT)%Z ->
  submit_all l kv = (answers, kv1) -> ~ append_node_empty kv1.(dn_io_) ->
  KV.Finalize kv1 = (r, kv2) -> no_collision (log kv2.(dn_io_)) ->
  (C.synced_entries kv2.(dn_io_) > 0)%Z -> (zlen kv2.(rootNode_).(stateBlock_) < 2 ^ 64)%Z ->
  exists id, r = Ok id /\
    let '(r3, w3) := KV.open kv2.(dn_io_).(io_world) id key in
    no_collision w3.(w_evicted) -> exists kv3, r3 = Ok kv3 /\ forall l' answers' kv4,
      all_allowed l' (map_after l ∅) ->
      (T.sizeof_node + total_cost l + total_cost l' + block_data_len < ADDR_LIMIT)%Z ->
      submit_all l' kv3 = (answers', kv4) -> no_collision (log kv4.(dn_io_)) ->
      answers' = Ok (map_answers l' (map_after l ∅)).
Proof.
  intros Hk Hc Hal Hlim Hrun Hne Hfin Hn Hsyn Hlen.
  destruct (create_key _ _ _ _ Hc) as [Hkey Hmode].
  destruct (submit_all_run _ _ _ _ Hrun) as (Hop & Hmode1 & Hev).
  assert (Hs : saves_collection kv1) by (left; congruence). pose proof (finalize_log _ _ _ Hs Hfin) as Hlog.
  assert (Hn1 : no_collision (log kv1.(dn_io_))) by (by eapply no_collision_suffix).
  destruct (created_run w key kv w0 l answers kv1) as (_ & u & Hm & Hu); try done; [dn_consts; lia|].
  destruct (finalize_open_ok kv1 _ u r kv2 Hm) as (id & -> & Hopen); try done; [lia|].
  exists id. split; [done|]. rewrite (ev_key _ _ Hev), Hkey in Hopen.
  destruct (KV.open _ id key) as [r3 w3]. intros Hn3. destruct (Hopen Hn3) as (kv3 & -> & _ & _ & _ & Hm3).
  exists kv3. split; [done|]. intros l' answers' kv4 Hal' Hlim' Hrun' Hn4.
  destruct (submit_all_run _ _ _ _ Hrun') as (Hop' & _).
  pose proof (operate_all_ok l' _ _ _ Hm3 Hal' ltac:(lia)) as Hwp'. unfold wp in Hwp'. rewrite Hop' in Hwp'.
  by destruct (Hwp' Hn4) as (a' & ? & -> & _).
Qed.
