(* ===== verification/Witnesses.v ===== *)
(** Witnesses of the properties whose hypotheses involve a platform: each applies its property to a
    concrete input on the platform of Platform.v. *)
From S2P Require Import Prelude Crypto BlockStore Codec DataNode FreeSpace Json JsonSpec StateNode Cache CacheSpec.
From S2P Require Import DataNodeIO MemorySpec Trie StateKV KVSpec Platform TrieSpec.

(** * A concrete store *)

Lemma no_collision_single (l : list bytes) : length l <= 1 -> no_collision l.
Proof.
  intros Hl b1 b2 H1 H2 _. destruct l as [|x [|y l]]; [by apply elem_of_nil in H1| |cbn in Hl; lia].
  apply list_elem_of_singleton in H1, H2. congruence.
Qed.

Definition io0 : dn_io :=
  match KV.create world0 key0 with
  | (Ok kv, _) => kv.(dn_io_)
  | (Err _, _) => IO.new world0 key0
  end.

Lemma log0 : length (KV.create world0 key0).2.(w_evicted) = 1.
Proof. vm_compute. reflexivity. Qed.

Lemma io0_inv : exists V free, io_inv io0 V free /\ used V free = T.sizeof_node.
Proof.
  pose proof (create_ok world0 key0 ltac:(done)) as Hc. pose proof log0 as Hl. unfold io0.
  destruct (KV.create world0 key0) as [r w'].
  destruct Hc as (kv & -> & (V & free & Hio & _ & Hu & _) & _).
  { apply no_collision_single. cbn in Hl. lia. }
  by exists V, free.
Qed.

(** * Witnesses *)

Lemma encrypt_decrypt_roundtrip_witness :
  exists c, EncryptMessage key0 (bytes_of "hello") 0 = (Ok c, 1) /\ DecryptMessage key0 c = Ok (bytes_of "hello").
Proof.
  destruct (encrypt_decrypt_roundtrip key0 (replicate 12 Byte.x00) (bytes_of "hello") 0)
    as [(c & He & Hd & _) _]; [reflexivity|reflexivity|discriminate|].
  exists c. exact (conj He Hd).
Defined.

Lemma skenc_input_checks_witness :
  exists msg, EncryptMessage key0 [] 0 = (Err (ValueError msg), 0).
Proof. apply (skenc_input_checks key0 [] 0). right. reflexivity. Defined.

Lemma lmdb_block_store_correct_witness :
  exists e', lmdb_block_store.BlockStorePut (L := map_lmdb) ∅ (bytes_of "id") (bytes_of "block") =
      (Ok PDO_SUCCESS, e') /\
    lmdb_block_store.BlockStoreGet (L := map_lmdb) e' (bytes_of "id") = Ok (PDO_SUCCESS, bytes_of "block").
Proof.
  eexists. split; [reflexivity|].
  destruct (lmdb_block_store_correct (L := map_lmdb) ∅ (bytes_of "id") (bytes_of "block") (Ok PDO_SUCCESS)
    (lmdb_block_store.BlockStorePut (L := map_lmdb) ∅ (bytes_of "id") (bytes_of "block")).2) as [_ Hs];
    [vm_compute; reflexivity|reflexivity|].
  destruct (Hs eq_refl) as (t & c & Hc & Hr). apply Hr; [by eexists|]. by injection Hc as <- _.
Defined.

(** On a full disk a put reports success and the block is not there. *)
Example put_reports_lost_block :
  exists e', lmdb_block_store.BlockStorePut (L := full_lmdb) ∅ (bytes_of "id") (bytes_of "block") =
      (Ok PDO_SUCCESS, e') /\
    lmdb_block_store.BlockStoreHead (L := full_lmdb) e' (bytes_of "id") = Ok (PDO_SUCCESS, false, 0%Z).
Proof. eexists. split; vm_compute; reflexivity. Qed.

Lemma enclave_block_store_refines_witness :
  let H := enclave_block_store.ocall_host (L := map_lmdb) in
  exists e', enclave_block_store.BlockStorePut (H := H) ∅ (bytes_of "id") (bytes_of "block") =
      (Ok PDO_SUCCESS, e') /\
    enclave_block_store.BlockStoreGet (H := H) e' (bytes_of "id") = Ok (PDO_SUCCESS, bytes_of "block").
Proof.
  destruct (enclave_block_store_refines (L := map_lmdb) ∅ (bytes_of "id") (bytes_of "block"))
    as (e' & Hp & _ & Hg & _); [vm_compute; reflexivity|].
  exists e'. exact (conj Hp Hg).
Defined.

(** A world whose context carries a key. *)
Definition world1 : world :=
  mk_world _ (∅ : gmap bytes bytes) 0 {| ctx_key := key0; ctx_crypto_algo := SEBIO_AES_GCM |} [].

Lemma sebio_evict_fetch_witness :
  exists id w', sebio_evict (bytes_of "block") SEBIO_AES_GCM world1 = (Ok (STATE_SUCCESS, id), w') /\
    sebio_fetch id SEBIO_AES_GCM w' = (Ok (STATE_SUCCESS, bytes_of "block"), w').
Proof.
  destruct (sebio_evict_fetch (bytes_of "block") SEBIO_AES_GCM world1) as (id & w' & He & Hf & _);
    [vm_compute; intuition discriminate|reflexivity|reflexivity|].
  exists id, w'. exact (conj He Hf).
Defined.

(** A store with one block under its hash. *)
Definition block3 : bytes := bytes_of "block".
Definition id3 : bytes := ComputeMessageHash block3.
Definition world3 : world :=
  mk_world map_store (<[id3 := block3]> (∅ : gmap bytes bytes)) 0 sebio_ctx_default [].

Lemma fetch3 : sebio_fetch id3 SEBIO_NO_CRYPTO world3 = (Ok (STATE_SUCCESS, block3), world3).
Proof. apply sebio_fetch_plain; [|done]. cbn. by rewrite lookup_insert_eq. Qed.

Lemma sebio_fetch_integrity_witness :
  exists stored, BlockStoreGet world3.(w_store) id3 = Ok (PDO_SUCCESS, stored) /\ ComputeMessageHash stored = id3.
Proof.
  destruct (sebio_fetch_integrity id3 SEBIO_NO_CRYPTO world3 block3 world3 fetch3) as (_ & stored & Hg & Hh & _).
  exists stored. exact (conj Hg Hh).
Defined.

Lemma unload_load_roundtrip_witness :
  exists n1 id w', DN.unload (DN.new 5) key0 world0 = (Ok (n1, id), w') /\
    exists n2, DN.load (DN.deserialize_original_encrypted_data_id (DN.new 0) id) key0 w' = (Ok n2, w') /\
      same_node n2 (DN.new 5).
Proof.
  destruct (unload_load_roundtrip (DN.new 5) (DN.new 0) key0 world0 (new_wf 5 ltac:(lia)) eq_refl)
    as (n1 & id & w' & Hu & _ & n2 & Hl & Hs & _).
  exists n1, id, w'. split; [exact Hu|]. exists n2. exact (conj Hl Hs).
Defined.

(** A store that holds the stored form of a node. *)
Definition world2 : world := (DN.unload (DN.new 5) key0 world0).2.
Definition id2 : bytes := match (DN.unload (DN.new 5) key0 world0).1 with Ok (_, id) => id | Err _ => [] end.

Lemma load2_ok :
  is_ok (DN.load (DN.deserialize_original_encrypted_data_id (DN.new 0) id2) key0 world2).1 = true.
Proof. vm_compute. reflexivity. Qed.

Lemma load_integrity_witness :
  exists n block, DN.load (DN.deserialize_original_encrypted_data_id (DN.new 0) id2) key0 world2 = (Ok n, world2) /\
    DecryptMessage key0 block = Ok n.(data_).
Proof.
  pose proof load2_ok as Hok.
  destruct (DN.load (DN.deserialize_original_encrypted_data_id (DN.new 0) id2) key0 world2)
    as [[n|e] w'] eqn:E; [|discriminate Hok].
  destruct (load_integrity (DN.deserialize_original_encrypted_data_id (DN.new 0) id2) key0 world2 n w' E)
    as (-> & block & _ & _ & Hd & _).
  exists n, block. exact (conj eq_refl Hd).
Defined.

Lemma block_ids_roundtrip_witness :
  let w := mk_bw [bytes_of "one"; bytes_of "two"] key0 in
  exists n', BW.serialize_block_ids w SN.new = Ok n' /\
    BW.deserialize_block_ids (BW.new key0) (mk_node [] n'.(stateBlock_) [] false) =
      Ok (w, mk_node [] n'.(stateBlock_) w.(blockIds_) false).
Proof. exact (block_ids_roundtrip (mk_bw [bytes_of "one"; bytes_of "two"] key0) SN.new (BW.new key0) [] false eq_refl). Defined.

Definition root1 : StateNode :=
  match BW.serialize_block_ids (mk_bw [bytes_of "one"] key0) SN.new with Ok n => n | Err _ => SN.new end.

Lemma root1_ok : is_ok (BW.deserialize_block_ids (BW.new key0) root1) = true.
Proof. vm_compute. reflexivity. Qed.

Lemma block_ids_authenticated_witness :
  exists w' n', BW.deserialize_block_ids (BW.new key0) root1 = Ok (w', n') /\
    w'.(state_encryption_key_) = key0.
Proof.
  pose proof root1_ok as Hok.
  destruct (BW.deserialize_block_ids (BW.new key0) root1) as [[w' n']|e] eqn:E; [|discriminate Hok].
  destruct (block_ids_authenticated (BW.new key0) root1 w' n') as [Hk _];
    [vm_compute; reflexivity|exact E|].
  exists w', n'. exact (conj eq_refl Hk).
Defined.

Lemma create_correct_witness :
  exists kv V free, KV.create world0 key0 = (Ok kv, kv.(dn_io_).(io_world)) /\ io_inv kv.(dn_io_) V free.
Proof.
  destruct (KV.create world0 key0) as [r w'] eqn:E. pose proof log0 as Hl. rewrite E in Hl. cbn in Hl.
  destruct (create_correct world0 key0 r w' eq_refl E) as (kv & V & free & -> & <- & _ & Hio & _);
    [apply no_collision_single; lia|].
  exists kv, V, free. exact (conj eq_refl Hio).
Defined.

Lemma cache_retrieve_correct_witness :
  exists V fr v, cache_inv io0 V fr None /\ wp (C.retrieve 0 false) io0 (fun d s' =>
    cache_inv s' V fr (Some 0%Z) /\ frame io0 s' /\
    exists e n, bc s' !! 0%Z = Some e /\ e.(dn) = d /\ e.(references) = 1%Z /\
      nodes s' !! d = Some n /\ n.(block_num_) = 0%Z /\ payload n = v).
Proof.
  destruct io0_inv as (V & free & ((fr & Hinv & _) & _) & _). destruct (ci_size _ _ _ _ Hinv) as [Hz _].
  destruct V as [|v V]; [discriminate|]. exists (v :: V), fr, v. split; [exact Hinv|].
  apply (cache_retrieve_correct io0 (v :: V) fr 0 v Hinv); [lia|reflexivity].
Defined.

Lemma cache_flush_correct_witness :
  exists V fr, cache_inv io0 V fr None /\ wp C.flush io0 (fun _ s' => bc s' = ∅).
Proof.
  destruct io0_inv as (V & free & ((fr & Hinv & _) & _) & _). exists V, fr. split; [exact Hinv|].
  eapply wp_conseq; [exact (cache_flush_correct io0 V fr Hinv)|]. intros a s' [Hb _]. exact Hb.
Defined.

Lemma read_across_data_nodes_correct_witness :
  exists V free, io_inv io0 V free /\ wp (IO.read_across_data_nodes (mk_bo 0 8) 100 []) io0 (fun r s' =>
    r = [] ++ subseq (concat V) 0 100 /\ io_inv s' V free /\
    s'.(free_space_collector_) = io0.(free_space_collector_)).
Proof.
  destruct io0_inv as (V & free & Hio & _). exists V, free. split; [exact Hio|].
  destruct (io_size _ _ _ Hio) as [Hz _].
  apply (read_across_data_nodes_correct io0 V free (mk_bo 0 8) 100 [] Hio);
    [vm_compute; intuition discriminate|lia|]. unfold addr. cbn [block_num bytes_]. dn_consts. lia.
Defined.

Lemma write_across_data_nodes_correct_witness :
  exists V free, io_inv io0 V free /\
    wp (IO.write_across_data_nodes (bytes_of "hello") 0 (mk_bo 0 40)) io0 (fun _ s' => exists V' free',
      io_inv s' V' free' /\ written V free 32 (bytes_of "hello") V' free' /\
      s'.(free_space_collector_) = io0.(free_space_collector_)).
Proof.
  destruct io0_inv as (V & free & Hio & Hu). exists V, free. split; [exact Hio|].
  apply (write_across_data_nodes_correct io0 V free (mk_bo 0 40) (bytes_of "hello") 0 Hio);
    [vm_compute; intuition discriminate|rewrite Hu; vm_compute; discriminate|vm_compute; reflexivity].
Defined.

(** A store with three blocks in its cache. *)
Definition io3 : dn_io :=
  (IO.write_across_data_nodes (replicate (2 * Z.to_nat block_data_len) "x"%byte) 0 (mk_bo 0 40) io0).2.

Lemma io3_size : size (bc io3) = 3.
Proof. vm_compute. reflexivity. Qed.
Lemma io3_log : length (log io3) = 1.
Proof. vm_compute. reflexivity. Qed.

Lemma io3_no_collision : no_collision (log io3).
Proof. apply no_collision_single. rewrite io3_log. apply le_n. Qed.

Lemma io3_inv : exists V free, io_inv io3 V free.
Proof.
  destruct io0_inv as (V & free & Hio & Hu). 
  destruct (write_across_ok io0 V free (mk_bo 0 40)
    (replicate (2 * Z.to_nat block_data_len) "x"%byte) 0 Hio) as (a & _ & V' & free' & Hio' & _).
  - vm_compute; intuition discriminate.
  - rewrite Hu. by vm_compute.
  - rewrite zlen_replicate. by vm_compute.
  - exact io3_no_collision.
  - by exists V', free'.
Qed.

Lemma replacement_MRU_correct_witness :
  exists V fr, cache_inv io3 V fr None /\
    wp C.replacement_policy_MRU io3 (fun _ s' => cache_inv s' V fr None).
Proof.
  destruct io3_inv as (V & free & ((fr & Hinv & _) & _)). exists V, fr. split; [exact Hinv|].
  eapply wp_conseq; [apply (replacement_MRU_correct io3 V fr Hinv); rewrite io3_size; apply le_n|].
  intros a s' [Hi _]. exact Hi.
Defined.

(** A store with a value record of three bytes right after the root node. *)
Definition record4 : bytes := T.header_byte (mk_hdr false false false true 0) :: le_split 8 3 ++ bytes_of "xyz".
Definition io4 : dn_io := (IO.write_across_data_nodes record4 0 (mk_bo 0 40) io0).2.

Lemma io4_log : length (log io4) = 1.
Proof. vm_compute. reflexivity. Qed.
Lemma io4_fsc : io4.(free_space_collector_) = FSC.empty.
Proof. vm_compute. reflexivity. Qed.

Lemma io4_inv : exists V free, io_inv io4 V free /\ subseq (concat V) 32 12 = record4 /\ used V free = 44%Z.
Proof.
  destruct io0_inv as (V & free & Hio & Hu).
  destruct (write_across_ok io0 V free (mk_bo 0 40) record4 0 Hio) as (a & _ & V' & free' & Hio' & (Hz & Hc & Hu') & _).
  - vm_compute; intuition discriminate.
  - rewrite Hu. by vm_compute.
  - by vm_compute.
  - apply no_collision_single. fold io4. rewrite io4_log. apply le_n.
  - exists V', free'. split; [exact Hio'|]. rewrite Hc. change (addr (mk_bo 0 40)) with 32%Z in *.
    change (zlen record4) with 12%Z in *. rewrite Hu in Hu'. split; [|exact Hu'].
    apply subseq_overwrite_same; [lia|]. destruct (io_size _ _ _ Hio) as [Hv _].
    rewrite zlen_app, zlen_concat by apply Hio. pose proof (zlen_nonneg (replicate
      (Z.to_nat ((zlen V' - zlen V) * block_data_len)) Byte.x00)). change (zlen record4) with 12%Z. dn_consts. lia.
Qed.

(** What a record says at its address. *)
Lemma record_at V a r : (0 <= a)%Z -> (9 <= zlen r)%Z -> (a + zlen r <= zlen (concat V))%Z ->
  subseq (concat V) a (zlen r) = r ->
  value_header V a = nth 0 r Byte.x00 /\ value_size V a = le_combine (subseq r 1 8).
Proof.
  intros Ha Hl Hz Hr. split.
  - assert (H1 : subseq (concat V) a 1 = subseq r 0 1) by (rewrite <-Hr, subseq_subseq by lia; f_equal; lia).
    rewrite (subseq_one _ _ Byte.x00), (subseq_one _ _ Byte.x00) in H1 by lia. by injection H1.
  - unfold value_size. rewrite <-Hr, subseq_subseq by lia. done.
Qed.

Definition holder4 : trie_node :=
  mk_tn (mk_th (mk_hdr false false true false 1) empty_block_offset (mk_bo 0 40) (replicate 15 Byte.x00))
    false true (mk_bo 0 8).

Lemma do_delete_value_effect_witness :
  exists V free, io_inv io4 V free /\
    wp (T.do_delete_value holder4) io4 (fun t' s' => exists V' free', io_inv s' V' free' /\
      t'.(node).(child_offset) = empty_block_offset).
Proof.
  destruct io4_inv as (V & free & Hio & Hr & Hu). exists V, free. split; [exact Hio|].
  destruct (record_at V 32 record4) as [Hh Hs];
    [lia|by vm_compute| |exact Hr|].
  { rewrite zlen_concat by apply Hio. destruct (io_size _ _ _ Hio) as [Hv _].
    change (zlen record4) with 12%Z. dn_consts. lia. }
  assert (Hb : addr (child_offset (node holder4)) = 32%Z) by reflexivity.
  assert (Hsz : value_size V 32 = 3%Z) by (rewrite Hs; reflexivity).
  eapply wp_conseq; [apply (do_delete_value_effect io4 V free holder4 Hio); rewrite ?Hb, ?Hsz, ?io4_fsc|].
  - vm_compute; intuition discriminate.
  - rewrite Hu. lia.
  - by vm_compute.
  - rewrite Hh. by vm_compute.
  - split; [split; constructor|exact I].
  - vm_compute; intuition discriminate.
  - intros z _ [Hcov|Hf]; [by apply Exists_nil in Hcov|exact Hf].
  - intros t' s' (V' & free' & Hio' & _ & _ & _ & _ & Hc & _). exists V', free'. exact (conj Hio' Hc).
Defined.

(** * JSON *)

(** A number, an escaped control character and nested containers. *)
Definition json1 : json :=
  JObject [(bytes_of "v", JNumber 5); (bytes_of "s", JString [Byte.x01; "/"%byte; Byte.x00]);
           (bytes_of "a", JArray [JNull; JObject [(bytes_of "b", JBool false)]; JArray []])].

Lemma json_roundtrip_witness : exists text : bytes, json_serialize_pretty json1 = Some text /\
  json_parse text = Some json1 /\ (Byte.x00 ∉ text).
Proof.
  eexists. split; [reflexivity|]. apply (json_roundtrip json1); [by vm_compute|by vm_compute|by right].
Defined.
