(* ===== verification/KVWitnesses.v ===== *)
(** Concrete runs of the key value store on the platform of Platform.v: the witnesses of the theorems about
    whole stores, and a store that cannot be finalized. *)
From S2P Require Import Prelude Crypto BlockStore Codec DataNode FreeSpace Json JsonSpec StateNode Cache CacheSpec.
From S2P Require Import DataNodeIO MemorySpec Trie StateKV KVSpec Platform TrieSpec TrieHeap TrieModel TrieNodes TrieWalk TrieRefine KVRefine Persist.

(** * Runs *)

Definition hashes_distinct (l : list bytes) : bool := bool_decide (NoDup (ComputeMessageHash <$> l)).

Lemma no_collision_check l : hashes_distinct l = true -> no_collision l.
Proof.
  intros Hd%bool_decide_eq_true b1 b2 [i H1]%list_elem_of_lookup [j H2]%list_elem_of_lookup E.
  assert (i = j) as ->; [|congruence].
  eapply (NoDup_lookup _ i j (ComputeMessageHash b1)); [exact Hd| |]; rewrite list_lookup_fmap.
  - by rewrite H1.
  - rewrite H2, E. done.
Qed.

(** The map a request is made to decides whether it is allowed. *)
Definition allowed_b (r : kv_request) (m : gmap bytes bytes) : bool :=
  match r.(rq_op) with
  | GET_OP => true
  | PUT_OP => bool_decide (m !! r.(rq_key) <> Some [])
  | DEL_OP => bool_decide (m !! r.(rq_key) <> Some []) && bool_decide (r.(rq_key) <> [])
  end.
Fixpoint all_allowed_b (l : list kv_request) (m : gmap bytes bytes) : bool :=
  match l with
  | [] => true
  | r :: l => allowed_b r m && bool_decide (zlen r.(rq_key) < 2 ^ 32)%Z &&
      all_allowed_b l (map_effect r.(rq_op) r.(rq_key) r.(rq_value) m)
  end.

Lemma all_allowed_check l m : all_allowed_b l m = true -> all_allowed l m.
Proof.
  revert m. induction l as [|[op k v] l IH]; intros m; cbn [all_allowed_b all_allowed rq_op rq_key rq_value]; [done|].
  rewrite !andb_true_iff, bool_decide_eq_true. intros [[Ha Hk] Hl]. split; [|by auto].
  unfold allowed_b in Ha. cbn in Ha. destruct op; cbn; [done|by apply bool_decide_eq_true in Ha|].
  by apply andb_true_iff in Ha as [?%bool_decide_eq_true ?%bool_decide_eq_true].
Qed.

Definition put_req (k : string) (v : bytes) : kv_request := mk_req PUT_OP (bytes_of k) v.
Definition del_req (k : string) : kv_request := mk_req DEL_OP (bytes_of k) [].
Definition get_req (k : string) : kv_request := mk_req GET_OP (bytes_of k) [].

Definition kv0 : State_KV :=
  match KV.create world0 key0 with (Ok kv, _) => kv | (Err _, _) => KV.init world0 key0 end.
Definition world1 : world := (KV.create world0 key0).2.

Lemma create_kv0 : KV.create world0 key0 = (Ok kv0, world1).
Proof.
  unfold kv0, world1. assert (E : is_ok (KV.create world0 key0).1 = true) by (vm_compute; reflexivity).
  by destruct (KV.create world0 key0) as [[kv|e] w].
Qed.

(** A run that overwrites, splits a node and deletes. *)
Definition run1 : list kv_request :=
  [put_req "Pmeta" (bytes_of "code"); put_req "pabc" (bytes_of "one"); put_req "pabd" (bytes_of "two");
   put_req "pabc" (bytes_of "three"); del_req "pabd"; get_req "pabc"; get_req "pabd"].
Definition kv1 : State_KV := (submit_all run1 kv0).2.
Definition kv2 : State_KV := (KV.Finalize kv1).2.

Lemma run1_checks :
  all_allowed_b run1 ∅ = true /\ hashes_distinct (log kv1.(dn_io_)) = true /\
  (submit_all run1 kv0).1 = Ok [[]; []; []; []; []; bytes_of "three"; []].
Proof. vm_compute. split_and!; reflexivity. Qed.

Lemma kv2_checks :
  hashes_distinct (log kv2.(dn_io_)) = true /\ (C.synced_entries kv2.(dn_io_) > 0)%Z /\
  (zlen kv2.(rootNode_).(stateBlock_) < 2 ^ 64)%Z /\
  match (IO.append_node kv1.(dn_io_)).1 with Ok n => n.(free_bytes_) <> block_data_len | Err _ => False end.
Proof. vm_compute. split_and!; (reflexivity || discriminate). Qed.

(** The same store, opened again. *)
Definition opened (id : bytes) : result State_KV * world := KV.open kv2.(dn_io_).(io_world) id key0.

(** * Witnesses *)

Lemma kv_refines_map_witness : (submit_all run1 kv0).1 = Ok (map_answers run1 ∅).
Proof.
  destruct run1_checks as (Ha & Hn & _).
  apply (kv_refines_map world0 key0 kv0 world1 run1 (submit_all run1 kv0).1 kv1 eq_refl create_kv0
    (all_allowed_check _ _ Ha)).
  - vm_compute. reflexivity.
  - apply surjective_pairing.
  - exact (no_collision_check _ Hn).
Defined.

Lemma privileged_isolation_witness :
  exists kv, IKV.PrivilegedGet (bytes_of "meta") kv1 = (Ok (bytes_of "code"), kv).
Proof.
  exists (IKV.PrivilegedGet (bytes_of "meta") kv1).2.
  destruct (IKV.PrivilegedGet (bytes_of "meta") kv1) as [r kv] eqn:E. cbn [snd]. f_equal.
  apply (privileged_isolation world0 key0 kv0 world1 [put_req "Pmeta" (bytes_of "code")] (tl run1)
    (submit_all run1 kv0).1 kv1 (bytes_of "meta") r kv eq_refl create_kv0).
  - apply all_allowed_check. exact (proj1 run1_checks).
  - repeat constructor; eexists; reflexivity.
  - vm_compute. reflexivity.
  - vm_compute. reflexivity.
  - apply surjective_pairing.
  - exact E.
  - apply no_collision_check. replace kv with (IKV.PrivilegedGet (bytes_of "meta") kv1).2 by (rewrite E; reflexivity).
    vm_compute. reflexivity.
Defined.

Lemma finalize_open_roundtrip_witness :
  exists id, (KV.Finalize kv1).1 = Ok id /\
    (no_collision (opened id).2.(w_evicted) -> exists kv, (opened id).1 = Ok kv).
Proof.
  destruct run1_checks as (Ha & _ & _). destruct kv2_checks as (Hn & Hs & Hl & He).
  destruct (finalize_open_roundtrip world0 key0 kv0 world1 run1 (submit_all run1 kv0).1 kv1
    (KV.Finalize kv1).1 kv2 eq_refl create_kv0 (all_allowed_check _ _ Ha)) as (id & Hid & Hopen).
  - vm_compute. reflexivity.
  - apply surjective_pairing.
  - intros (n & Hn' & Hf). rewrite Hn' in He. exact (He Hf).
  - apply surjective_pairing.
  - exact (no_collision_check _ Hn).
  - exact Hs.
  - exact Hl.
  - exists id. split; [exact Hid|]. unfold opened. destruct (KV.open _ id key0) as [r w].
    intros Hc. destruct (Hopen Hc) as (kv & Hr & _). exists kv. exact Hr.
Defined.

(** * Properties *)

(** A run that leaves the last block empty: the second value ends ten bytes before the end of the block,
    splitting the node of the first key abandons these bytes and appends a block, and the new records are
    placed in the space that the deletion freed. *)
Definition run_stuck : list kv_request :=
  [put_req "abc" (bytes_of "one"); put_req "zz" (replicate (Z.to_nat 7993) "x"%byte); del_req "zz"; put_req "abd" (bytes_of "two")].

(** Finalize can refuse a store that is in order: after four operations, all of which succeed and which
    leave the store holding two keys, Finalize throws "appending new data node after empty one", so that
    nothing of the store can be saved. *)
Theorem finalize_refuses_valid_store :
  let '(answers, kv) := submit_all run_stuck kv0 in
  answers = Ok (map_answers run_stuck ∅) /\ (KV.Get (bytes_of "abc") kv).1 = Ok (bytes_of "one") /\
  (KV.Get (bytes_of "abd") kv).1 = Ok (bytes_of "two") /\
  (KV.Finalize kv).1 = Err (RuntimeError "appending new data node after empty one").
Proof. vm_compute. split_and!; reflexivity. Qed.
