(* ===== verification/Ledger.v ===== *)
(** The ledger's transaction processor: ledgers/ccf/transaction_processor/pdo_tp.{h,cpp},
    verify_signatures.cpp and the registries enclave_registry.h, contract_registry.h, ccl_registry.h.
    CCF (the replicated tables, its crypto and its JSON library) and the SGX quote layout are
    parameters. *)
From S2P Require Import Prelude Codec.

(** * The records of the registries *)

Module EnclaveInfo.
Record t := mk {
  verifying_key : bytes;
  encryption_key : bytes;
  proof_data : bytes;
  enclave_persistent_id : bytes;
  registration_block_context : bytes;
  organizational_info : bytes;
  EHS_verifying_key : bytes;
}.
End EnclaveInfo.

Module ExpectedSGXMeasurements.
Record t := mk { mrenclave : bytes; basename : bytes; ias_public_key : bytes; sgx_debug_flag : bool }.
End ExpectedSGXMeasurements.

Module ProofData.
Record t := mk { certificates : list bytes; verification_report : bytes; signature : bytes }.
End ProofData.

Module VerificationReport.
Record t := mk {
  epidPseudonym : bytes;
  id : bytes;
  isvEnclaveQuoteStatus : bytes;
  isvEnclaveQuoteBody : bytes;
  version : Z;
  nonce : bytes;
  timestamp : bytes;
}.
End VerificationReport.

Module ProvisioningKeysToSecretMap.
Record t := mk { pspk : bytes; encrypted_secret : bytes }.
End ProvisioningKeysToSecretMap.

Module ContractEnclaveInfo.
Record t := mk {
  contract_enclave_id : bytes;
  contract_id : bytes;
  encrypted_state_encryption_key : bytes;
  signature : bytes;
  provisioning_key_state_secret_pairs : list ProvisioningKeysToSecretMap.t;
}.
End ContractEnclaveInfo.

Module ContractInfo.
Record t := mk {
  contract_id : bytes;
  contract_code_hash : bytes;
  contract_metadata_hash : bytes;
  contract_creator_verifying_key_PEM : bytes;
  provisioning_service_ids : list bytes;
  enclave_info : list ContractEnclaveInfo.t;
  current_state_hash : bytes;
  is_active : bool;
}.
End ContractInfo.

Module ContractStateDependecy.
Record t := mk { contract_id : bytes; state_hash : bytes; state_hash_for_sign : bytes }.
End ContractStateDependecy.

Module ContractStateInfo.
Record t := mk {
  transaction_id : bytes;
  previous_state_hash : bytes;
  message_hash : bytes;
  dependency_list : list ContractStateDependecy.t;
}.
End ContractStateInfo.

Module StateUpdateInfo.
Record t := mk {
  contract_id : bytes;
  current_state_hash : bytes;
  previous_state_hash : bytes;
  message_hash : bytes;
  dependency_list : list ContractStateDependecy.t;
}.
End StateUpdateInfo.

(** * The inputs of the requests *)

Module Register_enclave.
Record In := mk {
  verifying_key : bytes;
  encryption_key : bytes;
  proof_data : bytes;
  enclave_persistent_id : bytes;
  registration_block_context : bytes;
  organizational_info : bytes;
  EHS_verifying_key : bytes;
  signature : bytes;
}.
End Register_enclave.

Module Register_contract.
Record In := mk {
  contract_code_hash : bytes;
  contract_creator_verifying_key_PEM : bytes;
  nonce : bytes;
  signature : bytes;
  contract_id : bytes;
  provisioning_service_ids : list bytes;
}.
End Register_contract.

Module Add_enclave.
Record In := mk { contract_id : bytes; enclave_info : bytes; signature : bytes }.
End Add_enclave.

Module Initialize_contract_state.
Record In := mk {
  nonce : bytes;
  contract_id : bytes;
  initial_state_hash : bytes;
  message_hash : bytes;
  metadata_hash : bytes;
  contract_enclave_id : bytes;
  contract_enclave_signature : bytes;
  creator_signature : bytes;
}.
End Initialize_contract_state.

Module Update_contract_state.
Record In := mk {
  nonce : bytes;
  state_update_info : bytes;
  contract_enclave_id : bytes;
  contract_enclave_signature : bytes;
}.
End Update_contract_state.

(** * The answers of the read requests *)

Module Verify_enclave.
Record Out := mk {
  verifying_key : bytes;
  encryption_key : bytes;
  proof_data : bytes;
  last_registration_block_context : bytes;
  owner_id : bytes;
  signature : bytes;
}.
End Verify_enclave.

Module Get_contract_provisioning_info.
Record Out := mk {
  pdo_contract_creator_pem_key : bytes;
  provisioning_service_ids : list bytes;
  enclaves_info : list ContractEnclaveInfo.t;
  signature : bytes;
}.
End Get_contract_provisioning_info.

Module Get_contract_info.
Record Out := mk {
  pdo_contract_creator_pem_key : bytes;
  contract_code_hash : bytes;
  metadata_hash : bytes;
  signature : bytes;
}.
End Get_contract_info.

Module Get_current_state_info.
Record Out := mk {
  state_hash : bytes;
  is_active : bool;
  signature : bytes;
}.
End Get_current_state_info.

Module Get_state_details.
Record Out := mk {
  transaction_id : bytes;
  previous_state_hash : bytes;
  message_hash : bytes;
  dependency_list : bytes;
  signature : bytes;
}.
End Get_state_details.

(** * CCF and SGX *)

(** The fields of an [sgx_quote_t] the code reads. *)
Record sgx_quote := {
  mr_enclave : bytes;
  quote_basename : bytes;
  report_data : bytes;
  attributes_flags : Z;
}.

(** What the code uses of CCF and of the SGX headers.  [None] is an exception thrown by the library;
    for [read_quote] it is a buffer shorter than the structure it is cast to.  A verifier made from a
    PEM string answers [verify key contents signature]; keys are their PEM strings. *)
Class CCF := {
  make_public_key : bytes -> option bytes;
  verify : bytes -> bytes -> bytes -> bool;
  verify_rsa : bytes -> bytes -> bytes -> option bool;
  make_key_pair : bytes -> option bytes;
  new_key_pair : nat -> option (bytes * bytes);
  sign : bytes -> bytes -> bytes;
  raw_from_b64 : bytes -> option bytes;
  b64_from_raw : bytes -> option bytes;
  ccf_sha256 : bytes -> bytes;
  to_hex : bytes -> bytes;
  parse_ProofData : bytes -> option ProofData.t;
  parse_VerificationReport : bytes -> option VerificationReport.t;
  parse_enclave_info : bytes -> option (list ContractEnclaveInfo.t);
  parse_StateUpdateInfo : bytes -> option StateUpdateInfo.t;
  dump_provisioning_info : bytes -> bytes -> list ContractEnclaveInfo.t -> list bytes -> bytes;
  dump_dependencies : list ContractStateDependecy.t -> bytes;
  read_quote : bytes -> option sgx_quote;
}.

Definition SGX_FLAGS_DEBUG : Z := 2.
Definition SGX_FLAGS_MODE64BIT : Z := 4.
Definition SGX_REPORT_DATA_SIZE : Z := 64.
Definition ORIGINATOR_KEY_HASH_SIZE : Z := 64.

(** * State *)

(** The replicated tables. *)
Record tables := mk_tables {
  check_attestation_flag : option bool;
  expected_sgx_measurements : option ExpectedSGXMeasurements.t;
  enclavetable : gmap bytes EnclaveInfo.t;
  contracttable : gmap bytes ContractInfo.t;
  ccltable : gmap bytes ContractStateInfo.t;
  signer : option (bytes * bytes);
}.

Definition empty_tables : tables := mk_tables None None ∅ ∅ ∅ None.

(** The members of a [TPHandlerRegistry] object, which are not replicated.  A null pointer stored in
    [enclave_pubk_verifier] is [Some None]. *)
Record node_local := mk_local {
  ledger_signer_local : option bytes;
  enclave_pubk_verifier : gmap bytes (option bytes);
}.

Definition fresh_local : node_local := mk_local None ∅.

(** What a handler sees: the globally committed tables, the latest ones, which its transaction writes,
    the members of the node that executes it, and the key generator. *)
Record node := mk_lnode {
  globally_committed : tables;
  current : tables;
  members : node_local;
  keys_made : nat;
}.

Definition set_current (t : tables) (n : node) : node :=
  mk_lnode n.(globally_committed) t n.(members) n.(keys_made).
Definition set_members (m : node_local) (n : node) : node :=
  mk_lnode n.(globally_committed) n.(current) m n.(keys_made).

Definition put_flag (b : bool) (t : tables) : tables :=
  mk_tables (Some b) t.(expected_sgx_measurements) t.(enclavetable) t.(contracttable) t.(ccltable) t.(signer).
Definition put_measurements (m : ExpectedSGXMeasurements.t) (t : tables) : tables :=
  mk_tables t.(check_attestation_flag) (Some m) t.(enclavetable) t.(contracttable) t.(ccltable) t.(signer).
Definition put_enclave (k : bytes) (e : EnclaveInfo.t) (t : tables) : tables :=
  mk_tables t.(check_attestation_flag) t.(expected_sgx_measurements) (<[k := e]> t.(enclavetable))
    t.(contracttable) t.(ccltable) t.(signer).
Definition put_contract (k : bytes) (c : ContractInfo.t) (t : tables) : tables :=
  mk_tables t.(check_attestation_flag) t.(expected_sgx_measurements) t.(enclavetable)
    (<[k := c]> t.(contracttable)) t.(ccltable) t.(signer).
Definition put_ccl (k : bytes) (c : ContractStateInfo.t) (t : tables) : tables :=
  mk_tables t.(check_attestation_flag) t.(expected_sgx_measurements) t.(enclavetable) t.(contracttable)
    (<[k := c]> t.(ccltable)) t.(signer).
Definition put_signer (k : bytes * bytes) (t : tables) : tables :=
  mk_tables t.(check_attestation_flag) t.(expected_sgx_measurements) t.(enclavetable) t.(contracttable)
    t.(ccltable) (Some k).

Definition write_tables (f : tables -> tables) : M node unit :=
  modifyM (fun n => set_current (f n.(current)) n).

(** [ccf::make_error(HTTP_STATUS_BAD_REQUEST, InvalidInput, msg)]: the request is refused. *)
Definition refuse (msg : string) : error := ValueError msg.

(** [nlohmann] and CCF exceptions that no handler catches. *)
Definition uncaught {A} (o : option A) : M node A := liftM (of_option o (RuntimeError "uncaught exception")).


Definition found {A} (o : option A) (msg : string) : M node A := liftM (of_option o (refuse msg)).

(** * Characters *)

Definition digit (z : Z) : Init.Byte.byte := byte.of_Z (48 + z).

(** [std::to_string] of a [uint8_t]. *)
Definition to_string_u8 (b : Init.Byte.byte) : bytes :=
  let z := byte.unsigned b in
  if bool_decide (z < 10)%Z then [digit z]
  else if bool_decide (z < 100)%Z then [digit (z / 10); digit (z mod 10)]
  else [digit (z / 100); digit (z / 10 mod 10); digit (z mod 10)].

Definition vector_to_string (vec : bytes) : bytes := concat (map to_string_u8 vec).

(** [v.resize(n)] of a string or of a vector of bytes: cut, or padded with zero bytes. *)
Definition resize_bytes (n : Z) (l : bytes) : bytes := resize (Z.to_nat n) Byte.x00 l.

Section VerifySignatures.
Context `{CCF}.

(** * verify_signatures.cpp *)

(** A null [pubk_verifier] is dereferenced. *)
Definition verify_sig_static (signature : bytes) (pubk_verifier : option bytes) (contents : bytes) : result bool :=
  match pubk_verifier with
  | Some key => Ok (verify key contents signature)
  | None => Err (UndefinedBehaviour "null pubk_verifier")
  end.

Definition library_exception : error := RuntimeError "uncaught exception".

Definition verify_sig (signature verifying_key contents : bytes) : result bool :=
  let? pubk_verifier := of_option (make_public_key verifying_key) library_exception in
  Ok (verify pubk_verifier contents signature).

Definition verify_rsa_sig (signature verifying_key contents : bytes) : result bool :=
  of_option (verify_rsa signature verifying_key contents) library_exception.

Definition verify_ias_signature (signature ias_public_key verification_report_string : bytes) : result bool :=
  let? raw := of_option (raw_from_b64 signature) library_exception in
  verify_rsa_sig raw ias_public_key verification_report_string.

Definition register_enclave_message (verifying_key : bytes) (e : EnclaveInfo.t) : bytes :=
  verifying_key ++ e.(EnclaveInfo.verifying_key) ++ e.(EnclaveInfo.encryption_key) ++ e.(EnclaveInfo.proof_data)
    ++ e.(EnclaveInfo.enclave_persistent_id) ++ e.(EnclaveInfo.registration_block_context)
    ++ e.(EnclaveInfo.organizational_info).

Definition verify_pdo_transaction_signature_register_enclave
    (signature verifying_key : bytes) (e : EnclaveInfo.t) : result bool :=
  verify_sig signature verifying_key (register_enclave_message verifying_key e).

Definition register_contract_message
    (verifying_key contract_code_hash nonce : bytes) (provisioning_service_ids : list bytes) : bytes :=
  verifying_key ++ contract_code_hash ++ concat provisioning_service_ids ++ nonce.

Definition verify_pdo_transaction_signature_register_contract
    (signature verifying_key contract_code_hash nonce : bytes) (provisioning_service_ids : list bytes) : result bool :=
  verify_sig signature verifying_key
    (register_contract_message verifying_key contract_code_hash nonce provisioning_service_ids).

Definition verify_pdo_transaction_signature_add_enclave
    (signature verifying_key contract_id enclave_info_json_string : bytes) : result bool :=
  verify_sig signature verifying_key (verifying_key ++ contract_id ++ enclave_info_json_string).

Definition add_enclave_message
    (contract_creator_key contract_id : bytes) (prov_key_maps : list ProvisioningKeysToSecretMap.t)
    (encrypted_state_encryption_key : bytes) : bytes :=
  contract_id ++ contract_creator_key
    ++ concat (map (fun prov => prov.(ProvisioningKeysToSecretMap.pspk)
                                  ++ prov.(ProvisioningKeysToSecretMap.encrypted_secret)) prov_key_maps)
    ++ encrypted_state_encryption_key.

Definition verify_enclave_signature_add_enclave
    (signature : bytes) (pubk_verifier : option bytes) (contract_creator_key contract_id : bytes)
    (prov_key_maps : list ProvisioningKeysToSecretMap.t) (encrypted_state_encryption_key : bytes) : result bool :=
  let? temp := of_option (raw_from_b64 encrypted_state_encryption_key) library_exception in
  let? signature_byte_array := of_option (raw_from_b64 signature) library_exception in
  verify_sig_static signature_byte_array pubk_verifier
    (add_enclave_message contract_creator_key contract_id prov_key_maps temp).

Definition verify_creator_signature_initialize_contract_state
    (contract_enclave_signature contract_creator_signature contract_creator_verifying_key : bytes) : result bool :=
  verify_sig contract_creator_signature contract_creator_verifying_key contract_enclave_signature.

Definition initialize_message
    (nonce contract_id initial_state_hash contract_code_hash message_hash contract_metadata_hash
     contract_creator_verifying_key : bytes) : bytes :=
  nonce ++ contract_id ++ contract_code_hash ++ message_hash ++ contract_creator_verifying_key
    ++ contract_metadata_hash ++ initial_state_hash.

Definition verify_enclave_signature_initialize_contract_state
    (nonce contract_id initial_state_hash contract_code_hash message_hash contract_metadata_hash
     contract_creator_verifying_key enclave_signature : bytes) (enclave_verifying_key : option bytes) : result bool :=
  verify_sig_static enclave_signature enclave_verifying_key
    (initialize_message nonce contract_id initial_state_hash contract_code_hash message_hash
       contract_metadata_hash contract_creator_verifying_key).

Definition update_message (nonce contract_code_hash : bytes) (u : StateUpdateInfo.t) : bytes :=
  nonce ++ u.(StateUpdateInfo.contract_id) ++ contract_code_hash ++ u.(StateUpdateInfo.message_hash)
    ++ u.(StateUpdateInfo.previous_state_hash) ++ u.(StateUpdateInfo.current_state_hash)
    ++ concat (map (fun dep => dep.(ContractStateDependecy.contract_id)
                                 ++ dep.(ContractStateDependecy.state_hash_for_sign))
                 u.(StateUpdateInfo.dependency_list)).

Definition verify_enclave_signature_update_contract_state
    (nonce contract_code_hash : bytes) (u : StateUpdateInfo.t) (enclave_signature : bytes)
    (enclave_verifying_key : option bytes) : result bool :=
  verify_sig_static enclave_signature enclave_verifying_key (update_message nonce contract_code_hash u).

End VerifySignatures.

(** * The handlers *)

Section Handlers.
Context `{CCF}.
Implicit Types (n : node).

(** [this->enclave_pubk_verifier[key]]: a missing key is inserted with a null pointer. *)
Definition enclave_verifier (key : bytes) : M node (option bytes) := fun n =>
  match n.(members).(enclave_pubk_verifier) !! key with
  | Some v => (Ok v, n)
  | None =>
      (Ok None, set_members (mk_local n.(members).(ledger_signer_local)
                               (<[key := None]> n.(members).(enclave_pubk_verifier))) n)
  end.

Definition cache_verifier (key pubk : bytes) : M node unit :=
  modifyM (fun n => set_members (mk_local n.(members).(ledger_signer_local)
                                   (<[key := Some pubk]> n.(members).(enclave_pubk_verifier))) n).

Definition set_signer_local (key : bytes) : M node unit :=
  modifyM (fun n => set_members (mk_local (Some key) n.(members).(enclave_pubk_verifier)) n).

Definition sign_document (document : bytes) : M node bytes :=
  let! k := readM (fun n => n.(members).(ledger_signer_local)) in
  match k with
  | None => throwM (UndefinedBehaviour "null ledger_signer_local")
  | Some key => uncaught (b64_from_raw (sign key document))
  end.

(** ** The consortium's requests *)

Definition set_contract_enclave_attestation_check_flag (check_attestation : bool) : M node bool :=
  let! already := readM (fun n => n.(current).(check_attestation_flag)) in
  throw_ifM (bool_decide (is_Some already)) (refuse "Attesation check flag can be set only once") ;;!
  write_tables (put_flag check_attestation) ;;!
  retM true.

Definition set_contract_enclave_expected_sgx_measurements (m : ExpectedSGXMeasurements.t) : M node bool :=
  let! flag := readM (fun n => n.(globally_committed).(check_attestation_flag)) in
  let! check_attestation := found flag "Please set the check-attestation flag before providing expected measurements" in
  throw_ifM (negb check_attestation)
    (refuse "Please enable attesation check before providing expected measurements") ;;!
  write_tables (put_measurements m) ;;!
  retM true.

(** [make_key_pair(CurveID::SECP384R1)]: the keys generated so far select the next pair. *)
Definition generate_keys : M node (option (bytes * bytes)) := fun n =>
  (Ok (new_key_pair n.(keys_made)),
   mk_lnode n.(globally_committed) n.(current) n.(members) (S n.(keys_made))).

Definition gen_signing_key : M node string :=
  let! signer_global := readM (fun n => n.(globally_committed).(signer)) in
  if bool_decide (is_Some signer_global)
  then retM "Ledger signing keys exist and globally committed"%string
  else
    let! signer_local := readM (fun n => n.(current).(signer)) in
    if bool_decide (is_Some signer_local)
    then retM "Ledger signing keys exist and scheduled for global commit"%string
    else
      let! kp := generate_keys in
      let! key_pair := found kp "Unable to create ledger Key" in
      write_tables (put_signer key_pair) ;;!
      retM "Ledger signing keys created locally and scheduled for global commit"%string.

Definition get_ledger_key : M node bytes :=
  let! signer_global := readM (fun n => n.(globally_committed).(signer)) in
  match signer_global with
  | Some (privk, pubk) =>
      let! local := readM (fun n => n.(members).(ledger_signer_local)) in
      match local with
      | Some _ => retM pubk
      | None =>
          let! key := found (make_key_pair privk) "Unable to locate ledger Key despite global commit" in
          set_signer_local key ;;!
          retM pubk
      end
  | None =>
      let! signer_local := readM (fun n => n.(current).(signer)) in
      if bool_decide (is_Some signer_local)
      then throwM (refuse "Ledger signing key exist locally, and scheduled for globally commit")
      else throwM (refuse "Ledger signing keys not created yet")
  end.

(** ** Registration of enclaves *)

Definition user_data_hash (verifying_key encryption_key EHS_verifying_key : bytes) : bytes :=
  let originator_key_hash_hex :=
    map tolower (resize_bytes ORIGINATOR_KEY_HASH_SIZE (to_hex (ccf_sha256 EHS_verifying_key))) in
  resize_bytes SGX_REPORT_DATA_SIZE (ccf_sha256 (verifying_key ++ encryption_key ++ originator_key_hash_hex)).

Definition accepted_quote_status : list bytes :=
  [bytes_of "OK"; bytes_of "GROUP_OUT_OF_DATE"; bytes_of "SW_HARDENING_NEEDED";
   bytes_of "CONFIGURATION_AND_SW_HARDENING_NEEDED"].

(** The attestation checks, in the source's order. *)
Definition check_attestation_report (expected : ExpectedSGXMeasurements.t) (in_ : Register_enclave.In) : result unit :=
  throw_if (bool_decide (in_.(Register_enclave.proof_data) = []))
    (refuse "Proof data cannot be empty while attestation check is enabled") ;;?
  let? proof := of_option (parse_ProofData in_.(Register_enclave.proof_data)) (refuse "Unable to parse proof data JSON") in
  let? ias_ok := verify_ias_signature proof.(ProofData.signature) expected.(ExpectedSGXMeasurements.ias_public_key)
                   proof.(ProofData.verification_report) in
  throw_if (negb ias_ok) (refuse "unable to verify IAS report signature for registering enclave") ;;?
  let? report := of_option (parse_VerificationReport proof.(ProofData.verification_report))
                   (refuse "Unable to parse IAS verification report") in
  let? raw := of_option (raw_from_b64 report.(VerificationReport.isvEnclaveQuoteBody)) library_exception in
  throw_if (bool_decide (in_.(Register_enclave.enclave_persistent_id) <> report.(VerificationReport.epidPseudonym)))
    (refuse "Enclave attestation report verification Failed. Invalid epid pseudonym") ;;?
  throw_if (bool_decide (map toupper report.(VerificationReport.isvEnclaveQuoteStatus) ∉ accepted_quote_status))
    (refuse "Enclave attestation report verification Failed. Invalid quote status") ;;?
  let? quote := of_option (read_quote raw) (UndefinedBehaviour "quote shorter than sgx_quote_t") in
  throw_if (bool_decide (map toupper (to_hex quote.(mr_enclave)) <> expected.(ExpectedSGXMeasurements.mrenclave)))
    (refuse "Enclave attestation report verification Failed. Invalid MREnclave") ;;?
  throw_if (bool_decide (in_.(Register_enclave.registration_block_context) <> report.(VerificationReport.nonce)))
    (refuse "Enclave attestation report verification Failed. Invalid Nonce in the Verification Report") ;;?
  throw_if (bool_decide (map toupper (to_hex quote.(quote_basename)) <> expected.(ExpectedSGXMeasurements.basename)))
    (refuse "Enclave attestation report verification Failed. Invalid enclave base name") ;;?
  throw_if (bool_decide (user_data_hash in_.(Register_enclave.verifying_key) in_.(Register_enclave.encryption_key)
                            in_.(Register_enclave.EHS_verifying_key) <> quote.(report_data)))
    (refuse "Enclave attestation report verification Failed. Invalid user report data") ;;?
  throw_if (bool_decide (Z.land quote.(attributes_flags) SGX_FLAGS_MODE64BIT = 0%Z))
    (refuse "Enclave attestation report verification Failed. Enclave is not 64-bit") ;;?
  throw_if (bool_decide (bool_decide (Z.land quote.(attributes_flags) SGX_FLAGS_DEBUG <> 0%Z)
                           <> expected.(ExpectedSGXMeasurements.sgx_debug_flag)))
    (refuse "Enclave attestation report verification Failed. Enclave debug flag does not match policy flag").

Definition new_enclave (in_ : Register_enclave.In) : EnclaveInfo.t :=
  EnclaveInfo.mk in_.(Register_enclave.verifying_key) in_.(Register_enclave.encryption_key)
    in_.(Register_enclave.proof_data) in_.(Register_enclave.enclave_persistent_id)
    in_.(Register_enclave.registration_block_context) in_.(Register_enclave.organizational_info)
    in_.(Register_enclave.EHS_verifying_key).

(** The test meant for the measurements reads the flag again, so missing measurements surface as the
    [bad_optional_access] of [value()]. *)
Definition register_enclave (in_ : Register_enclave.In) : M node bool :=
  let! enclave_r := readM (fun n => n.(current).(enclavetable) !! in_.(Register_enclave.verifying_key)) in
  throw_ifM (bool_decide (is_Some enclave_r)) (refuse "Enclave already registered") ;;!
  let! flag := readM (fun n => n.(globally_committed).(check_attestation_flag)) in
  let! check_attestation := found flag "No value set for attestation-check flag. Enclave cannot be registered" in
  whenM check_attestation
    (let! measurements := readM (fun n => n.(globally_committed).(expected_sgx_measurements)) in
     throw_ifM (bool_decide (flag = None)) (refuse "Expected sgx measurents have not been set. Enclave cannot be registered") ;;!
     let! expected := uncaught measurements in
     liftM (check_attestation_report expected in_)) ;;!
  let! sig_ok := liftM (verify_pdo_transaction_signature_register_enclave in_.(Register_enclave.signature)
                          in_.(Register_enclave.EHS_verifying_key) (new_enclave in_)) in
  throw_ifM (negb sig_ok) (refuse "Invalid PDO payload signature") ;;!
  write_tables (put_enclave in_.(Register_enclave.verifying_key) (new_enclave in_)) ;;!
  let! pubk := uncaught (make_public_key in_.(Register_enclave.verifying_key)) in
  cache_verifier in_.(Register_enclave.verifying_key) pubk ;;!
  retM true.

End Handlers.

Section ContractHandlers.
Context `{CCF}.

(** ** Contracts *)

Definition new_contract (in_ : Register_contract.In) : ContractInfo.t :=
  ContractInfo.mk in_.(Register_contract.contract_id) in_.(Register_contract.contract_code_hash) []
    in_.(Register_contract.contract_creator_verifying_key_PEM) in_.(Register_contract.provisioning_service_ids)
    [] [] true.

Definition register_contract (in_ : Register_contract.In) : M node bool :=
  let! contract_r := readM (fun n => n.(current).(contracttable) !! in_.(Register_contract.contract_id)) in
  throw_ifM (bool_decide (is_Some contract_r)) (refuse "Contract already registered") ;;!
  let! sig_ok := liftM (verify_pdo_transaction_signature_register_contract in_.(Register_contract.signature)
                          in_.(Register_contract.contract_creator_verifying_key_PEM)
                          in_.(Register_contract.contract_code_hash) in_.(Register_contract.nonce)
                          in_.(Register_contract.provisioning_service_ids)) in
  throw_ifM (negb sig_ok) (refuse "Invalid PDO payload signature") ;;!
  write_tables (put_contract in_.(Register_contract.contract_id) (new_contract in_)) ;;!
  retM true.

Definition set_enclave_info (l : list ContractEnclaveInfo.t) (c : ContractInfo.t) : ContractInfo.t :=
  ContractInfo.mk c.(ContractInfo.contract_id) c.(ContractInfo.contract_code_hash)
    c.(ContractInfo.contract_metadata_hash) c.(ContractInfo.contract_creator_verifying_key_PEM)
    c.(ContractInfo.provisioning_service_ids) l c.(ContractInfo.current_state_hash) c.(ContractInfo.is_active).

Definition in_contract (enclave_id : bytes) (c : ContractInfo.t) : bool :=
  bool_decide (enclave_id ∈ map ContractEnclaveInfo.contract_enclave_id c.(ContractInfo.enclave_info)).

(** One turn of the loop over [enclave_info_array]. *)
Definition add_one_enclave (contract_id : bytes) (contract_info : ContractInfo.t) (e : ContractEnclaveInfo.t)
    : M node ContractInfo.t :=
  throw_ifM (bool_decide (e.(ContractEnclaveInfo.contract_id) <> contract_info.(ContractInfo.contract_id)))
    (refuse "Enclave info has invalid contract id") ;;!
  let! enclave_r := readM (fun n => n.(current).(enclavetable) !! e.(ContractEnclaveInfo.contract_enclave_id)) in
  let! enclave_info_ledger := found enclave_r "Enclave not yet registered" in
  throw_ifM (in_contract e.(ContractEnclaveInfo.contract_enclave_id) contract_info)
    (refuse "Enclave already part of contract") ;;!
  let! pubk_verifier := enclave_verifier enclave_info_ledger.(EnclaveInfo.verifying_key) in
  let! sig_ok := liftM (verify_enclave_signature_add_enclave e.(ContractEnclaveInfo.signature) pubk_verifier
                          contract_info.(ContractInfo.contract_creator_verifying_key_PEM) contract_id
                          e.(ContractEnclaveInfo.provisioning_key_state_secret_pairs)
                          e.(ContractEnclaveInfo.encrypted_state_encryption_key)) in
  throw_ifM (negb sig_ok) (refuse "Invalid enclave signature") ;;!
  retM (set_enclave_info (contract_info.(ContractInfo.enclave_info) ++ [e]) contract_info).

Fixpoint add_enclaves (contract_id : bytes) (contract_info : ContractInfo.t) (l : list ContractEnclaveInfo.t)
    : M node ContractInfo.t :=
  match l with
  | [] => retM contract_info
  | e :: l' =>
      let! contract_info' := add_one_enclave contract_id contract_info e in
      add_enclaves contract_id contract_info' l'
  end.

Definition add_enclave (in_ : Add_enclave.In) : M node bool :=
  let! contract_r := readM (fun n => n.(current).(contracttable) !! in_.(Add_enclave.contract_id)) in
  let! contract_info := found contract_r "Contract not yet registered" in
  let! sig_ok := liftM (verify_pdo_transaction_signature_add_enclave in_.(Add_enclave.signature)
                          contract_info.(ContractInfo.contract_creator_verifying_key_PEM)
                          in_.(Add_enclave.contract_id) in_.(Add_enclave.enclave_info)) in
  throw_ifM (negb sig_ok) (refuse "Invalid PDO payload signature") ;;!
  let! enclave_info_array := found (parse_enclave_info in_.(Add_enclave.enclave_info))
                               "Unable to parse ContractEnclaveInfo Json" in
  throw_ifM (bool_decide (enclave_info_array = [])) (refuse "Provide at least one encalve to add to contract") ;;!
  let! contract_info' := add_enclaves in_.(Add_enclave.contract_id) contract_info enclave_info_array in
  write_tables (put_contract in_.(Add_enclave.contract_id) contract_info') ;;!
  retM true.

(** The key of the CCL table. *)
Definition ccl_key (contract_id state_hash : bytes) : bytes := contract_id ++ vector_to_string state_hash.

Definition set_initial_state (state_hash metadata_hash : bytes) (c : ContractInfo.t) : ContractInfo.t :=
  ContractInfo.mk c.(ContractInfo.contract_id) c.(ContractInfo.contract_code_hash) metadata_hash
    c.(ContractInfo.contract_creator_verifying_key_PEM) c.(ContractInfo.provisioning_service_ids)
    c.(ContractInfo.enclave_info) state_hash c.(ContractInfo.is_active).

Definition initialize_contract_state (in_ : Initialize_contract_state.In) : M node bool :=
  let contract_id := in_.(Initialize_contract_state.contract_id) in
  let! contract_r := readM (fun n => n.(current).(contracttable) !! contract_id) in
  let! enclave_r := readM (fun n => n.(current).(enclavetable) !! in_.(Initialize_contract_state.contract_enclave_id)) in
  let! contract_info := found contract_r "Contract not yet registered" in
  throw_ifM (negb contract_info.(ContractInfo.is_active))
    (refuse "Contract has been turned inactive. No more upates permitted") ;;!
  throw_ifM (bool_decide (contract_info.(ContractInfo.current_state_hash) <> []))
    (refuse "Contract has already been initialized") ;;!
  throw_ifM (negb (in_contract in_.(Initialize_contract_state.contract_enclave_id) contract_info))
    (refuse "Enclave used for state update not part of contract") ;;!
  let! creator_ok := liftM (verify_creator_signature_initialize_contract_state
                              in_.(Initialize_contract_state.contract_enclave_signature)
                              in_.(Initialize_contract_state.creator_signature)
                              contract_info.(ContractInfo.contract_creator_verifying_key_PEM)) in
  throw_ifM (negb creator_ok) (refuse "Invalid PDO payload signature") ;;!
  let! enclave := uncaught enclave_r in
  let! pubk_verifier := enclave_verifier enclave.(EnclaveInfo.verifying_key) in
  let! sig_ok := liftM (verify_enclave_signature_initialize_contract_state
                          in_.(Initialize_contract_state.nonce) contract_id
                          in_.(Initialize_contract_state.initial_state_hash)
                          contract_info.(ContractInfo.contract_code_hash)
                          in_.(Initialize_contract_state.message_hash) in_.(Initialize_contract_state.metadata_hash)
                          contract_info.(ContractInfo.contract_creator_verifying_key_PEM)
                          in_.(Initialize_contract_state.contract_enclave_signature) pubk_verifier) in
  throw_ifM (negb sig_ok) (refuse "Invalid enclave signature for contract state initialize operation") ;;!
  write_tables (put_ccl (ccl_key contract_id in_.(Initialize_contract_state.initial_state_hash))
                  (ContractStateInfo.mk in_.(Initialize_contract_state.nonce) []
                     in_.(Initialize_contract_state.message_hash) [])) ;;!
  write_tables (put_contract contract_id
                  (set_initial_state in_.(Initialize_contract_state.initial_state_hash)
                     in_.(Initialize_contract_state.metadata_hash) contract_info)) ;;!
  retM true.

Definition set_state (state_hash : bytes) (c : ContractInfo.t) : ContractInfo.t :=
  set_initial_state state_hash c.(ContractInfo.contract_metadata_hash) c.

Definition dependencies_met (t : tables) (deps : list ContractStateDependecy.t) : bool :=
  forallb (fun dep => bool_decide (is_Some (t.(ccltable) !!
             ccl_key dep.(ContractStateDependecy.contract_id) dep.(ContractStateDependecy.state_hash)))) deps.

Definition update_contract_state (in_ : Update_contract_state.In) : M node bool :=
  let! u := found (parse_StateUpdateInfo in_.(Update_contract_state.state_update_info))
              "Unable to parse StateUpdateInfo json string" in
  let contract_id := u.(StateUpdateInfo.contract_id) in
  let! contract_r := readM (fun n => n.(current).(contracttable) !! contract_id) in
  let! enclave_r := readM (fun n => n.(current).(enclavetable) !! in_.(Update_contract_state.contract_enclave_id)) in
  let! contract_info := found contract_r "Contract not yet registered" in
  throw_ifM (negb contract_info.(ContractInfo.is_active))
    (refuse "Contract has been turned inactive. No more upates permitted") ;;!
  throw_ifM (negb (in_contract in_.(Update_contract_state.contract_enclave_id) contract_info))
    (refuse "Enclave used for state update not part of contract") ;;!
  throw_ifM (bool_decide (u.(StateUpdateInfo.previous_state_hash) <> contract_info.(ContractInfo.current_state_hash)))
    (refuse "Update can be performed only on the latest state registered with the ledger") ;;!
  let! deps_ok := readM (fun n => dependencies_met n.(current) u.(StateUpdateInfo.dependency_list)) in
  throw_ifM (negb deps_ok) (refuse "Unknown CCL dependencies. Cannot commit state") ;;!
  throw_ifM (bool_decide (u.(StateUpdateInfo.current_state_hash) = contract_info.(ContractInfo.current_state_hash)))
    (refuse "Update can be commited only if there is a change in state") ;;!
  let! enclave := uncaught enclave_r in
  let! pubk_verifier := enclave_verifier enclave.(EnclaveInfo.verifying_key) in
  let! sig_ok := liftM (verify_enclave_signature_update_contract_state in_.(Update_contract_state.nonce)
                          contract_info.(ContractInfo.contract_code_hash) u
                          in_.(Update_contract_state.contract_enclave_signature) pubk_verifier) in
  throw_ifM (negb sig_ok) (refuse "Invalid enclave signature for contract update operation") ;;!
  write_tables (put_ccl (ccl_key contract_id u.(StateUpdateInfo.current_state_hash))
                  (ContractStateInfo.mk in_.(Update_contract_state.nonce) u.(StateUpdateInfo.previous_state_hash)
                     u.(StateUpdateInfo.message_hash) u.(StateUpdateInfo.dependency_list))) ;;!
  write_tables (put_contract contract_id (set_state u.(StateUpdateInfo.current_state_hash) contract_info)) ;;!
  retM true.

(** ** Read requests, answered from the globally committed tables and signed *)

(** The block that every read request runs when the node has not loaded the signing key yet. *)
Definition load_ledger_signer : M node unit :=
  let! local := readM (fun n => n.(members).(ledger_signer_local)) in
  match local with
  | Some _ => retM tt
  | None =>
      let! signer_global := readM (fun n => n.(globally_committed).(signer)) in
      let! key_pair := found signer_global "Unable to locate ledger authority for signing read rpcs" in
      let! key := uncaught (make_key_pair key_pair.1) in
      set_signer_local key
  end.

Definition verify_enclave (enclave_id : bytes) : M node Verify_enclave.Out :=
  let! enclave_r := readM (fun n => n.(globally_committed).(enclavetable) !! enclave_id) in
  let! e := found enclave_r "Enclave not found" in
  load_ledger_signer ;;!
  let! signature := sign_document (enclave_id ++ e.(EnclaveInfo.encryption_key) ++ e.(EnclaveInfo.proof_data)
                                     ++ e.(EnclaveInfo.registration_block_context) ++ e.(EnclaveInfo.EHS_verifying_key)) in
  retM (Verify_enclave.mk enclave_id e.(EnclaveInfo.encryption_key) e.(EnclaveInfo.proof_data)
          e.(EnclaveInfo.registration_block_context) e.(EnclaveInfo.EHS_verifying_key) signature).

Definition get_contract_provisioning_info (contract_id : bytes) : M node Get_contract_provisioning_info.Out :=
  let! contract_r := readM (fun n => n.(globally_committed).(contracttable) !! contract_id) in
  let! c := found contract_r "Contract not found" in
  load_ledger_signer ;;!
  let! encoded_code_hash := uncaught (b64_from_raw c.(ContractInfo.contract_code_hash)) in
  let! signature := sign_document (dump_provisioning_info contract_id
                                     c.(ContractInfo.contract_creator_verifying_key_PEM)
                                     c.(ContractInfo.enclave_info) c.(ContractInfo.provisioning_service_ids)) in
  retM (Get_contract_provisioning_info.mk c.(ContractInfo.contract_creator_verifying_key_PEM)
          c.(ContractInfo.provisioning_service_ids) c.(ContractInfo.enclave_info) signature).

Definition get_contract_info (contract_id : bytes) : M node Get_contract_info.Out :=
  let! contract_r := readM (fun n => n.(globally_committed).(contracttable) !! contract_id) in
  let! c := found contract_r "Contract not found" in
  load_ledger_signer ;;!
  let! encoded_code_hash := uncaught (b64_from_raw c.(ContractInfo.contract_code_hash)) in
  let! encoded_metadata_hash := uncaught (b64_from_raw c.(ContractInfo.contract_metadata_hash)) in
  let creator_key := c.(ContractInfo.contract_creator_verifying_key_PEM) in
  let! signature := sign_document (contract_id ++ creator_key ++ encoded_code_hash ++ encoded_metadata_hash) in
  retM (Get_contract_info.mk creator_key encoded_code_hash encoded_metadata_hash signature).

Definition get_current_state_info_for_contract (contract_id : bytes) : M node Get_current_state_info.Out :=
  let! contract_r := readM (fun n => n.(globally_committed).(contracttable) !! contract_id) in
  let! c := found contract_r "Contract not found" in
  throw_ifM (c.(ContractInfo.is_active) && bool_decide (c.(ContractInfo.current_state_hash) = []))
    (refuse "Contract not yet initialized") ;;!
  load_ledger_signer ;;!
  let! encoded_state_hash := uncaught (b64_from_raw c.(ContractInfo.current_state_hash)) in
  let! signature := sign_document (contract_id ++ encoded_state_hash) in
  retM (Get_current_state_info.mk encoded_state_hash c.(ContractInfo.is_active) signature).

Definition get_details_about_state (contract_id state_hash : bytes) : M node Get_state_details.Out :=
  let! ccl_r := readM (fun n => n.(globally_committed).(ccltable) !! ccl_key contract_id state_hash) in
  let! ccl_value := found ccl_r "Unknown (contract_id, state_hash) pair" in
  let dep_list_string := dump_dependencies ccl_value.(ContractStateInfo.dependency_list) in
  load_ledger_signer ;;!
  let! encoded_psh :=
    if bool_decide (ccl_value.(ContractStateInfo.previous_state_hash) = []) then retM []
    else uncaught (b64_from_raw ccl_value.(ContractStateInfo.previous_state_hash)) in
  let! encoded_mh := uncaught (b64_from_raw ccl_value.(ContractStateInfo.message_hash)) in
  let! encoded_txnid := uncaught (b64_from_raw ccl_value.(ContractStateInfo.transaction_id)) in
  let! signature := sign_document (encoded_psh ++ encoded_mh ++ encoded_txnid ++ dep_list_string) in
  retM (Get_state_details.mk encoded_txnid encoded_psh encoded_mh dep_list_string signature).

End ContractHandlers.

(** * The service *)

(** The requests and who may make them. *)
Inductive request :=
  | SET_CONTRACT_ENCLAVE_CHECK_ATTESTATION_FLAG (b : bool)
  | SET_CONTRACT_ENCLAVE_EXPECTED_SGX_MEASUREMENTS (m : ExpectedSGXMeasurements.t)
  | GEN_SIGNING_KEY
  | GET_LEDGER_KEY
  | REGISTER_ENCLAVE (in_ : Register_enclave.In)
  | REGISTER_CONTRACT (in_ : Register_contract.In)
  | ADD_ENCLAVE_TO_CONTRACT (in_ : Add_enclave.In)
  | INITIALIZE_CONTRACT_STATE (in_ : Initialize_contract_state.In)
  | UPDATE_CONTRACT_STATE (in_ : Update_contract_state.In)
  | VERIFY_ENCLAVE_REGISTRATION (enclave_id : bytes)
  | GET_CONTRACT_PROVISIONING_INFO (contract_id : bytes)
  | GET_CONTRACT_INFO (contract_id : bytes)
  | GET_CURRENT_STATE_INFO_FOR_CONTRACT (contract_id : bytes)
  | GET_DETAILS_ABOUT_STATE (contract_id state_hash : bytes)
  | PingMe.

Inductive caller := Member | Anyone.

(** [member_cert_sign_required] and [no_auth_policy]. *)
Definition authorized (c : caller) (r : request) : bool :=
  match r, c with
  | (SET_CONTRACT_ENCLAVE_CHECK_ATTESTATION_FLAG _ | SET_CONTRACT_ENCLAVE_EXPECTED_SGX_MEASUREMENTS _
    | GEN_SIGNING_KEY), Anyone => false
  | _, _ => true
  end.

Inductive response :=
  | Success (b : bool)
  | Message (m : string)
  | LedgerKey (k : bytes)
  | EnclaveOut (o : Verify_enclave.Out)
  | ProvisioningOut (o : Get_contract_provisioning_info.Out)
  | ContractOut (o : Get_contract_info.Out)
  | CurrentStateOut (o : Get_current_state_info.Out)
  | StateDetailsOut (o : Get_state_details.Out).

Section Service.
Context `{CCF}.

Definition fmapM {S A B} (f : A -> B) (m : M S A) : M S B := let! a := m in retM (f a).

(** The endpoints the constructor installs. *)
Definition dispatch (r : request) : M node response :=
  match r with
  | SET_CONTRACT_ENCLAVE_CHECK_ATTESTATION_FLAG b => fmapM Success (set_contract_enclave_attestation_check_flag b)
  | SET_CONTRACT_ENCLAVE_EXPECTED_SGX_MEASUREMENTS m => fmapM Success (set_contract_enclave_expected_sgx_measurements m)
  | GEN_SIGNING_KEY => fmapM Message gen_signing_key
  | GET_LEDGER_KEY => fmapM LedgerKey get_ledger_key
  | REGISTER_ENCLAVE in_ => fmapM Success (register_enclave in_)
  | REGISTER_CONTRACT in_ => fmapM Success (register_contract in_)
  | ADD_ENCLAVE_TO_CONTRACT in_ => fmapM Success (add_enclave in_)
  | INITIALIZE_CONTRACT_STATE in_ => fmapM Success (initialize_contract_state in_)
  | UPDATE_CONTRACT_STATE in_ => fmapM Success (update_contract_state in_)
  | VERIFY_ENCLAVE_REGISTRATION id => fmapM EnclaveOut (verify_enclave id)
  | GET_CONTRACT_PROVISIONING_INFO id => fmapM ProvisioningOut (get_contract_provisioning_info id)
  | GET_CONTRACT_INFO id => fmapM ContractOut (get_contract_info id)
  | GET_CURRENT_STATE_INFO_FOR_CONTRACT id => fmapM CurrentStateOut (get_current_state_info_for_contract id)
  | GET_DETAILS_ABOUT_STATE id h => fmapM StateDetailsOut (get_details_about_state id h)
  | PingMe => retM (Success true)
  end.

(** The replicated service as CCF documents it: a prefix of the transactions is globally committed and
    never lost, the versions after it are pending, oldest first; requests run at the primary on the latest
    version; a new primary keeps some prefix of the pending versions; each node has its own handler
    object. *)
Record service := mk_service {
  committed : tables;
  pending : list tables;
  primary : nat;
  locals : nat -> node_local;
  generated : nat;
}.

Definition genesis : service := mk_service empty_tables [] 0 (fun _ => fresh_local) 0.

Definition latest (s : service) : tables := List.last s.(pending) s.(committed).

Definition set_local (i : nat) (m : node_local) (f : nat -> node_local) : nat -> node_local :=
  fun j => if decide (j = i) then m else f j.

(** Execute a request at the primary: a success appends a version, a failure leaves the tables as they
    were, and a crash restarts the node with new members. *)
Definition execute (r : request) (s : service) : result response * service :=
  let '(res, n) := dispatch r (mk_lnode s.(committed) (latest s) (s.(locals) s.(primary)) s.(generated)) in
  match res with
  | Ok a => (Ok a, mk_service s.(committed) (s.(pending) ++ [n.(current)]) s.(primary)
                     (set_local s.(primary) n.(members) s.(locals)) n.(keys_made))
  | Err (UndefinedBehaviour w) =>
      (Err (UndefinedBehaviour w), mk_service s.(committed) s.(pending) s.(primary)
                                     (set_local s.(primary) fresh_local s.(locals)) n.(keys_made))
  | Err e => (Err e, mk_service s.(committed) s.(pending) s.(primary)
                       (set_local s.(primary) n.(members) s.(locals)) n.(keys_made))
  end.

Inductive step : service -> service -> Prop :=
  | step_request c r s : authorized c r = true -> step s (execute r s).2
  | step_commit t rest s : s.(pending) = t :: rest ->
      step s (mk_service t rest s.(primary) s.(locals) s.(generated))
  | step_elect p k s : step s (mk_service s.(committed) (take k s.(pending)) p s.(locals) s.(generated))
  | step_restart i s :
      step s (mk_service s.(committed) s.(pending) s.(primary) (set_local i fresh_local s.(locals)) s.(generated)).

Definition steps : service -> service -> Prop := rtc step.
Definition reachable (s : service) : Prop := steps genesis s.

End Service.
