(* ===== verification/LedgerSpec.v ===== *)
(** Correctness of the ledger's transaction processor: what every reachable state of the replicated
    service satisfies, how its committed tables may evolve, and what each request does. *)
From S2P Require Import Prelude Codec Ledger.

Create HintDb ledger.

Section Spec.
Context `{CCF}.

(** * The invariant of the tables *)

(** The content of a successful attestation check of an enclave against the measurements [m]: a report
    signed by the attestation service whose quote carries the expected measurement and base name, a
    64-bit enclave with the debug flag the policy asks for, and user data that binds the enclave's two
    keys and its owner's. *)
Record attested_by (m : ExpectedSGXMeasurements.t) (e : EnclaveInfo.t) : Prop := {
  attestation_evidence : exists proof sig report raw quote,
    parse_ProofData e.(EnclaveInfo.proof_data) = Some proof /\
    raw_from_b64 proof.(ProofData.signature) = Some sig /\
    verify_rsa sig m.(ExpectedSGXMeasurements.ias_public_key) proof.(ProofData.verification_report) = Some true /\
    parse_VerificationReport proof.(ProofData.verification_report) = Some report /\
    raw_from_b64 report.(VerificationReport.isvEnclaveQuoteBody) = Some raw /\
    read_quote raw = Some quote /\
    e.(EnclaveInfo.enclave_persistent_id) = report.(VerificationReport.epidPseudonym) /\
    map toupper report.(VerificationReport.isvEnclaveQuoteStatus) ∈ accepted_quote_status /\
    map toupper (to_hex quote.(mr_enclave)) = m.(ExpectedSGXMeasurements.mrenclave) /\
    e.(EnclaveInfo.registration_block_context) = report.(VerificationReport.nonce) /\
    map toupper (to_hex quote.(quote_basename)) = m.(ExpectedSGXMeasurements.basename) /\
    user_data_hash e.(EnclaveInfo.verifying_key) e.(EnclaveInfo.encryption_key) e.(EnclaveInfo.EHS_verifying_key)
      = quote.(report_data) /\
    Z.land quote.(attributes_flags) SGX_FLAGS_MODE64BIT <> 0%Z /\
    bool_decide (Z.land quote.(attributes_flags) SGX_FLAGS_DEBUG <> 0%Z) = m.(ExpectedSGXMeasurements.sgx_debug_flag)
}.

(** A message signed by the holder of the key whose PEM string is [key]. *)
Definition signed_by (key message : bytes) : Prop :=
  exists pk sig, make_public_key key = Some pk /\ verify pk message sig = true.

(** The current state of contract [c] was signed, as an initial state or as an update, by an enclave
    that belongs to the contract. *)
Definition state_signed (c : ContractInfo.t) : Prop :=
  exists ei nonce,
    ei ∈ c.(ContractInfo.enclave_info) /\
    ((exists message_hash metadata_hash,
        signed_by ei.(ContractEnclaveInfo.contract_enclave_id)
          (initialize_message nonce c.(ContractInfo.contract_id) c.(ContractInfo.current_state_hash)
             c.(ContractInfo.contract_code_hash) message_hash metadata_hash
             c.(ContractInfo.contract_creator_verifying_key_PEM))) \/
     (exists u,
        u.(StateUpdateInfo.contract_id) = c.(ContractInfo.contract_id) /\
        u.(StateUpdateInfo.current_state_hash) = c.(ContractInfo.current_state_hash) /\
        signed_by ei.(ContractEnclaveInfo.contract_enclave_id)
          (update_message nonce c.(ContractInfo.contract_code_hash) u))).

(** An enclave of a contract: it is registered, its entry names the contract, and it has signed the
    provisioning secrets and the encrypted state key of its entry. *)
Definition enclave_entry_ok (t : tables) (c : ContractInfo.t) (ei : ContractEnclaveInfo.t) : Prop :=
  ei.(ContractEnclaveInfo.contract_id) = c.(ContractInfo.contract_id) /\
  is_Some (t.(enclavetable) !! ei.(ContractEnclaveInfo.contract_enclave_id)) /\
  exists key, raw_from_b64 ei.(ContractEnclaveInfo.encrypted_state_encryption_key) = Some key /\
    signed_by ei.(ContractEnclaveInfo.contract_enclave_id)
      (add_enclave_message c.(ContractInfo.contract_creator_verifying_key_PEM) c.(ContractInfo.contract_id)
         ei.(ContractEnclaveInfo.provisioning_key_state_secret_pairs) key).

(** The measurements that were in force at some time: those an attestation may have been checked against. *)
Context (in_force : ExpectedSGXMeasurements.t -> Prop).

Record enclave_ok (t : tables) (k : bytes) (e : EnclaveInfo.t) : Prop := {
  enclave_key : e.(EnclaveInfo.verifying_key) = k;
  enclave_owner : signed_by e.(EnclaveInfo.EHS_verifying_key)
                    (register_enclave_message e.(EnclaveInfo.EHS_verifying_key) e);
  enclave_policy : is_Some t.(check_attestation_flag);
  enclave_attested : t.(check_attestation_flag) = Some true -> exists m, in_force m /\ attested_by m e;
}.

Record contract_ok (t : tables) (k : bytes) (c : ContractInfo.t) : Prop := {
  contract_key : c.(ContractInfo.contract_id) = k;
  contract_active : c.(ContractInfo.is_active) = true;
  contract_creator : exists nonce, signed_by c.(ContractInfo.contract_creator_verifying_key_PEM)
      (register_contract_message c.(ContractInfo.contract_creator_verifying_key_PEM)
         c.(ContractInfo.contract_code_hash) nonce c.(ContractInfo.provisioning_service_ids));
  contract_enclaves : Forall (enclave_entry_ok t c) c.(ContractInfo.enclave_info);
  contract_enclaves_once : NoDup (map ContractEnclaveInfo.contract_enclave_id c.(ContractInfo.enclave_info));
  contract_state : c.(ContractInfo.current_state_hash) <> [] ->
    is_Some (t.(ccltable) !! ccl_key k c.(ContractInfo.current_state_hash)) /\ state_signed c;
}.

Definition dependency_known (t : tables) (d : ContractStateDependecy.t) : Prop :=
  is_Some (t.(ccltable) !! ccl_key d.(ContractStateDependecy.contract_id) d.(ContractStateDependecy.state_hash)).

Record tables_ok (t : tables) : Prop := {
  enclaves_ok : forall k e, t.(enclavetable) !! k = Some e -> enclave_ok t k e;
  contracts_ok : forall k c, t.(contracttable) !! k = Some c -> contract_ok t k c;
  dependencies_ok : forall k r, t.(ccltable) !! k = Some r ->
    Forall (dependency_known t) r.(ContractStateInfo.dependency_list);
  measurements_ok : is_Some t.(expected_sgx_measurements) -> t.(check_attestation_flag) = Some true;
}.

(** * How the tables may evolve *)

(** What a contract keeps for ever: its id, code, creator and provisioning services, and the enclaves
    it has, to which others are only appended. *)
Record contract_evolves (c c' : ContractInfo.t) : Prop := {
  same_id : c'.(ContractInfo.contract_id) = c.(ContractInfo.contract_id);
  same_code : c'.(ContractInfo.contract_code_hash) = c.(ContractInfo.contract_code_hash);
  same_creator : c'.(ContractInfo.contract_creator_verifying_key_PEM) = c.(ContractInfo.contract_creator_verifying_key_PEM);
  same_provisioning : c'.(ContractInfo.provisioning_service_ids) = c.(ContractInfo.provisioning_service_ids);
  more_enclaves : c.(ContractInfo.enclave_info) `prefix_of` c'.(ContractInfo.enclave_info);
}.

Record evolves (t t' : tables) : Prop := {
  flag_once : forall b, t.(check_attestation_flag) = Some b -> t'.(check_attestation_flag) = Some b;
  signer_once : forall k, t.(signer) = Some k -> t'.(signer) = Some k;
  enclaves_kept : t.(enclavetable) ⊆ t'.(enclavetable);
  contracts_kept : forall k c, t.(contracttable) !! k = Some c ->
    exists c', t'.(contracttable) !! k = Some c' /\ contract_evolves c c';
  states_kept : dom t.(ccltable) ⊆ dom t'.(ccltable);
}.

#[global] Instance contract_evolves_preorder : PreOrder contract_evolves.
Proof.
  split.
  - intros c. by split.
  - intros c1 c2 c3 [] []. split; try congruence. by etrans.
Qed.

#[global] Instance evolves_preorder : PreOrder evolves.
Proof.
  split.
  - intros t. split; auto. intros k c Hc. by exists c.
  - intros t1 t2 t3 H1 H2. split.
    + intros b Hb. by apply (flag_once _ _ H2), (flag_once _ _ H1).
    + intros b Hb. by apply (signer_once _ _ H2), (signer_once _ _ H1).
    + etrans; [apply H1|apply H2].
    + intros k c Hc. destruct (contracts_kept _ _ H1 _ _ Hc) as (c2 & Hc2 & ?).
      destruct (contracts_kept _ _ H2 _ _ Hc2) as (c3 & Hc3 & ?). exists c3. split; [done|by etrans].
    + etrans; [apply H1|apply H2].
Qed.

(** * The node's own members *)

Record locals_ok (g : tables) (m : node_local) : Prop := {
  verifiers_ok : forall k pk, m.(enclave_pubk_verifier) !! k = Some (Some pk) -> make_public_key k = Some pk;
  signer_ok : forall key, m.(ledger_signer_local) = Some key ->
    exists privk pubk, g.(signer) = Some (privk, pubk) /\ make_key_pair privk = Some key;
}.

(** A handler leaves the committed tables and keeps its node's members sound, whatever its outcome. *)
Definition keeps {A} (m : M node A) : Prop := forall n,
  locals_ok n.(globally_committed) n.(members) ->
  (m n).2.(globally_committed) = n.(globally_committed) /\
  locals_ok n.(globally_committed) (m n).2.(members).

Lemma keeps_bind {A B} (m : M node A) (f : A -> M node B) : keeps m -> (forall a, keeps (f a)) -> keeps (bindM m f).
Proof.
  intros Hm Hf n Hn. unfold bindM. destruct (Hm n Hn) as [Hg Hl].
  destruct (m n) as [[a|e] n1]; cbn [snd] in *; [|done].
  rewrite <-Hg in Hl |- *. destruct (Hf a n1 Hl) as [Hg' Hl']. by rewrite Hg'.
Qed.

Lemma keeps_ret {A} (a : A) : keeps (retM a).
Proof. by intros n Hn. Qed.
Lemma keeps_throw {A} e : keeps (throwM (A := A) e).
Proof. by intros n Hn. Qed.
Lemma keeps_read {A} (f : node -> A) : keeps (readM f).
Proof. by intros n Hn. Qed.
Lemma keeps_lift {A} (r : result A) : keeps (liftM r).
Proof. by intros n Hn. Qed.
Lemma keeps_write f : keeps (write_tables f).
Proof. by intros n Hn. Qed.
Lemma keeps_generate : keeps generate_keys.
Proof. by intros n Hn. Qed.

Lemma keeps_verifier k : keeps (enclave_verifier k).
Proof.
  intros n [Hv Hs]. unfold enclave_verifier. destruct (_ !! k) as [v|] eqn:E; [by split|].
  split; [done|]. split; [|done]. intros k' pk Hk. cbn in Hk.
  destruct (decide (k = k')) as [->|]; simplify_map_eq. by apply Hv.
Qed.

#[local] Hint Resolve keeps_ret keeps_throw keeps_read keeps_lift keeps_write keeps_generate keeps_verifier : ledger.

Lemma keeps_cache_verifier k : keeps (let! pk := uncaught (make_public_key k) in cache_verifier k pk).
Proof.
  intros n [Hv Hs]. unfold uncaught. destruct (make_public_key k) as [pk|] eqn:E; [|done].
  split; [done|]. split; [|done]. intros k' pk' Hk. cbn in Hk.
  destruct (decide (k = k')) as [->|]; simplify_map_eq; auto.
Qed.

Lemma keeps_load_ledger_signer : keeps load_ledger_signer.
Proof.
  intros n Hn. unfold load_ledger_signer, found, uncaught. run_monad.
  destruct (ledger_signer_local _); [done|].
  destruct (signer (globally_committed n)) as [[privk pubk]|] eqn:Hs; [|done]. cbn.
  destruct (make_key_pair privk) as [key|] eqn:Hk; [|done].
  split; [done|]. split; [apply Hn|]. cbn. intros key' [= <-]. eauto.
Qed.

Lemma keeps_get_ledger_key : keeps get_ledger_key.
Proof.
  intros n Hn. unfold get_ledger_key, found. run_monad.
  destruct (signer (globally_committed n)) as [[privk pubk]|] eqn:Hs; [|by case_bool_decide].
  destruct (ledger_signer_local _); [done|].
  destruct (make_key_pair privk) as [key|] eqn:Hk; [|done].
  split; [done|]. split; [apply Hn|]. cbn. intros key' [= <-]. eauto.
Qed.

Lemma keeps_assoc {A B C} (m : M node A) (f : A -> M node B) (g : B -> M node C) :
  keeps (let! b := (let! a := m in f a) in g b) -> keeps (let! a := m in let! b := f a in g b).
Proof.
  intros Hk n Hn. specialize (Hk n Hn). unfold bindM in *. by destruct (m n) as [[a|e] n1].
Qed.

#[local] Hint Resolve keeps_load_ledger_signer keeps_get_ledger_key : ledger.

Ltac keeps :=
  repeat first
    [ solve [eauto with ledger]
    | apply keeps_bind; [solve [eauto with ledger] | intros ?]
    | case_match | case_bool_decide
    | apply keeps_bind; [|intros ?] ].

Lemma keeps_add_enclaves id l c : keeps (add_enclaves id c l).
Proof.
  revert c. induction l as [|e l IH]; intros c; cbn [add_enclaves]; [keeps|].
  apply keeps_bind; [|done]. unfold add_one_enclave, found, throw_ifM. keeps.
Qed.
#[local] Hint Resolve keeps_add_enclaves : ledger.

Lemma keeps_register_enclave i : keeps (register_enclave i).
Proof.
  unfold register_enclave, throw_ifM, found, whenM.
  do 4 (apply keeps_bind; [solve [eauto with ledger]|intros ?]).
  apply keeps_bind; [case_match; unfold uncaught, throw_ifM; keeps|intros _].
  do 3 (apply keeps_bind; [solve [eauto with ledger]|intros ?]).
  apply keeps_assoc, keeps_bind; [apply keeps_cache_verifier|keeps].
Qed.
#[local] Hint Resolve keeps_register_enclave : ledger.

Lemma keeps_dispatch r : keeps (dispatch r).
Proof.
  destruct r; cbn [dispatch]; [..|keeps];
    (apply keeps_bind; [|intros ?; keeps]); try solve [eauto with ledger];
    unfold set_contract_enclave_attestation_check_flag, set_contract_enclave_expected_sgx_measurements,
      gen_signing_key, register_contract, add_enclave, initialize_contract_state, update_contract_state,
      verify_enclave, get_contract_provisioning_info, get_contract_info, get_current_state_info_for_contract,
      get_details_about_state, sign_document, throw_ifM, found, uncaught; keeps.
Qed.

(** * Facts about entries survive the evolution of the tables *)

Section Monotone.
Context {t t' : tables} (E : evolves t t').

Lemma state_known_mono k : is_Some (t.(ccltable) !! k) -> is_Some (t'.(ccltable) !! k).
Proof. rewrite <-!elem_of_dom. apply E. Qed.

Lemma enclave_known_mono k : is_Some (t.(enclavetable) !! k) -> is_Some (t'.(enclavetable) !! k).
Proof. intros [e He]. exists e. eapply lookup_weaken; [done|apply E]. Qed.

Lemma enclave_ok_mono k e : enclave_ok t k e -> enclave_ok t' k e.
Proof.
  intros [Hk Ho [b Hb] Ha]. pose proof (flag_once _ _ E _ Hb) as Hb'. split; [done..|by exists b|].
  rewrite Hb'. intros [= ->]. auto.
Qed.

Lemma contract_ok_mono k c : contract_ok t k c -> contract_ok t' k c.
Proof.
  intros [Hk Ha Hc He Hn Hs]. split; [done..| |done|].
  - eapply list.Forall_impl; [exact He|]. intros ei (? & ? & ?). split_and!; auto using enclave_known_mono.
  - intros Hh. destruct (Hs Hh). auto using state_known_mono.
Qed.

Lemma dependencies_mono l : Forall (dependency_known t) l -> Forall (dependency_known t') l.
Proof. intros Hl. eapply list.Forall_impl; [exact Hl|]. intros d. apply state_known_mono. Qed.
End Monotone.

Lemma evolves_flag t b : t.(check_attestation_flag) = None -> evolves t (put_flag b t).
Proof. intros Hn. split; cbn; auto; [congruence|]. intros k c Hc. by exists c. Qed.

Lemma evolves_measurements t m : evolves t (put_measurements m t).
Proof. split; cbn; auto. intros k c Hc. by exists c. Qed.

Lemma evolves_signer t k : t.(signer) = None -> evolves t (put_signer k t).
Proof. intros Hn. split; cbn; auto; [congruence|]. intros k' c Hc. by exists c. Qed.

Lemma evolves_enclave t k e : t.(enclavetable) !! k = None -> evolves t (put_enclave k e t).
Proof. intros Hn. split; cbn; auto; [by apply insert_subseteq|]. intros k' c Hc. by exists c. Qed.

Lemma evolves_ccl t k r : evolves t (put_ccl k r t).
Proof. split; cbn; auto; [|rewrite dom_insert; set_solver]. intros k' c Hc. by exists c. Qed.

Lemma evolves_contract t k c :
  (forall c0, t.(contracttable) !! k = Some c0 -> contract_evolves c0 c) -> evolves t (put_contract k c t).
Proof.
  intros Hc. split; cbn; auto. intros k' c' Hc'. destruct (decide (k = k')) as [->|].
  - exists c. rewrite lookup_insert_eq. auto.
  - exists c'. by rewrite lookup_insert_ne.
Qed.

(** The invariant after a change that evolves the tables, given the entries that are new. *)
Lemma tables_ok_evolves t t' :
  tables_ok t -> evolves t t' ->
  (forall k e, t'.(enclavetable) !! k = Some e -> t.(enclavetable) !! k = Some e \/ enclave_ok t' k e) ->
  (forall k c, t'.(contracttable) !! k = Some c -> t.(contracttable) !! k = Some c \/ contract_ok t' k c) ->
  (forall k r, t'.(ccltable) !! k = Some r ->
     t.(ccltable) !! k = Some r \/ Forall (dependency_known t') r.(ContractStateInfo.dependency_list)) ->
  (is_Some t'.(expected_sgx_measurements) -> t'.(check_attestation_flag) = Some true) ->
  tables_ok t'.
Proof.
  intros [He Hc Hd Hm] Ev Ne Nc Nd Nm. split; [| | |done].
  - intros k e Hk. destruct (Ne k e Hk); eauto using enclave_ok_mono.
  - intros k c Hk. destruct (Nc k c Hk); eauto using contract_ok_mono.
  - intros k r Hk. destruct (Nd k r Hk); eauto using dependencies_mono.
Qed.

(** * Successful runs *)

Lemma bind_success {A B} (m : M node A) (f : A -> M node B) n b n' :
  bindM m f n = (Ok b, n') -> exists a n1, m n = (Ok a, n1) /\ f a n1 = (Ok b, n').
Proof. unfold bindM. destruct (m n) as [[a|e] n1]; [eauto|done]. Qed.

Lemma ret_success {A} (x a : A) (n : node) n' : retM x n = (Ok a, n') -> a = x /\ n' = n.
Proof. by intros [= -> ->]. Qed.

Lemma read_success {A} (f : node -> A) n a n' : readM f n = (Ok a, n') -> a = f n /\ n' = n.
Proof. by intros [= <- ->]. Qed.

Lemma throw_if_success c e (n : node) u n' : throw_ifM c e n = (Ok u, n') -> c = false /\ n' = n.
Proof. destruct c; [done|]. by intros [= _ ->]. Qed.

Lemma lift_success {A} (r : result A) (n : node) a n' : liftM r n = (Ok a, n') -> r = Ok a /\ n' = n.
Proof. by intros [= -> ->]. Qed.

Lemma of_option_success {A} (o : option A) e (n : node) a n' : liftM (of_option o e) n = (Ok a, n') -> o = Some a /\ n' = n.
Proof. destruct o; [|done]. by intros [= -> ->]. Qed.

Lemma write_success f n u n' : write_tables f n = (Ok u, n') -> n' = set_current (f n.(current)) n.
Proof. by intros [= _ <-]. Qed.

Lemma verifier_success k n v n' : enclave_verifier k n = (Ok v, n') ->
  n'.(current) = n.(current) /\
  (forall pk, v = Some pk -> n' = n /\ n.(members).(enclave_pubk_verifier) !! k = Some (Some pk)).
Proof.
  unfold enclave_verifier. destruct (_ !! k) as [w|] eqn:Hk; intros [= <- <-]; cbn; [|done].
  split; [done|]. intros pk ->. done.
Qed.

Lemma verify_sig_success sig key msg : verify_sig sig key msg = Ok true -> signed_by key msg.
Proof.
  unfold verify_sig. destruct (make_public_key key) as [pk|] eqn:Hp; [|done]. cbn. intros [= Hv].
  by exists pk, sig.
Qed.

Lemma verify_sig_static_success sig v msg : verify_sig_static sig v msg = Ok true ->
  exists pk, v = Some pk /\ verify pk msg sig = true.
Proof. destruct v as [pk|]; [|done]. cbn. intros [= Hv]. eauto. Qed.

End Spec.

(** More measurements in force leave sound tables sound. *)
Lemma tables_ok_weaken `{CCF} (P Q : ExpectedSGXMeasurements.t -> Prop) t :
  (forall m, P m -> Q m) -> tables_ok P t -> tables_ok Q t.
Proof.
  intros HPQ [He Hc Hd Hm]. split; [|done..]. intros k e Hk. destruct (He k e Hk) as [Hkey Ho Hp Ha].
  split; [done..|]. intros Hf. destruct (Ha Hf) as (m & ? & ?). eauto.
Qed.

(** Split the equation of a successful run into the facts its guards establish. *)
Ltac success_step :=
  match goal with
  | H : bindM _ _ _ = (Ok _, _) |- _ => apply bind_success in H as (? & ? & ? & ?)
  | H : retM _ _ = (Ok _, _) |- _ => apply ret_success in H as [? ?]
  | H : readM _ _ = (Ok _, _) |- _ => apply read_success in H as [? ?]
  | H : throw_ifM _ _ _ = (Ok _, _) |- _ => apply throw_if_success in H as [? ?]
  | H : found _ _ _ = (Ok _, _) |- _ => apply of_option_success in H as [? ?]
  | H : uncaught _ _ = (Ok _, _) |- _ => apply of_option_success in H as [? ?]
  | H : liftM _ _ = (Ok _, _) |- _ => apply lift_success in H as [? ?]
  | H : write_tables _ _ = (Ok _, _) |- _ => apply write_success in H
  end.

Ltac success := repeat (success_step; subst); guard_facts; subst.

(** * Each request preserves the invariant *)

Section Requests.
Context `{CCF} (in_force : ExpectedSGXMeasurements.t -> Prop).

(** A request that succeeds leaves sound tables that evolve from the ones it read. *)
Definition handler_ok {A} (m : M node A) : Prop := forall n a n',
  tables_ok in_force n.(current) -> evolves n.(globally_committed) n.(current) ->
  locals_ok n.(globally_committed) n.(members) ->
  (forall x, n.(globally_committed).(expected_sgx_measurements) = Some x -> in_force x) ->
  m n = (Ok a, n') -> tables_ok in_force n'.(current) /\ evolves n.(current) n'.(current).

Lemma handler_fmap {A B} (f : A -> B) m : handler_ok m -> handler_ok (fmapM f m).
Proof. intros Hm n b n' Ht Hg Hl HP Hr. unfold fmapM in Hr. success. eauto. Qed.

Lemma check_flag_ok b : handler_ok (set_contract_enclave_attestation_check_flag b).
Proof.
  intros n a n' Ht Hg Hl HP Hr. unfold set_contract_enclave_attestation_check_flag in Hr. success. cbn.
  rewrite <-eq_None_not_Some in *.
  assert (Ev : evolves (current n) (put_flag b (current n))) by by apply evolves_flag.
  split; [|done]. apply (tables_ok_evolves _ _ _ Ht Ev); cbn; auto.
  intros Hm. pose proof (measurements_ok _ _ Ht Hm). congruence.
Qed.

Lemma measurements_request_ok m : handler_ok (set_contract_enclave_expected_sgx_measurements m).
Proof.
  intros n a n' Ht Hg Hl HP Hr. unfold set_contract_enclave_expected_sgx_measurements in Hr. success. cbn.
  assert (Ev : evolves (current n) (put_measurements m (current n))) by apply evolves_measurements.
  split; [|done]. apply (tables_ok_evolves _ _ _ Ht Ev); cbn; auto. intros _. by apply (flag_once _ _ Hg).
Qed.

Lemma gen_signing_key_ok : handler_ok gen_signing_key.
Proof.
  intros n a n' Ht Hg Hl HP Hr. unfold gen_signing_key in Hr.
  apply bind_success in Hr as (g & n1 & [-> ->]%read_success & Hr).
  case_bool_decide; [success; by split|].
  apply bind_success in Hr as (l & n1 & [-> ->]%read_success & Hr).
  case_bool_decide as Hs; [success; by split|].
  apply bind_success in Hr as (kp & n1 & [= <- <-] & Hr). success. cbn.
  rewrite <-eq_None_not_Some in Hs. split; [|by apply evolves_signer].
  eapply tables_ok_evolves; [exact Ht|by apply evolves_signer|cbn; auto..]. apply Ht.
Qed.

End Requests.

Section Registration.
Context `{CCF} (in_force : ExpectedSGXMeasurements.t -> Prop).

Lemma of_option_ok {A} (o : option A) e a : of_option o e = Ok a -> o = Some a.
Proof. destruct o; [|done]. by intros [= ->]. Qed.

Lemma check_attestation_report_ok m i :
  check_attestation_report m i = Ok tt -> attested_by m (new_enclave i).
Proof.
  intros Hc. unfold check_attestation_report, verify_ias_signature, verify_rsa_sig in Hc. split.
  result_inv. repeat match goal with H : of_option _ _ = Ok _ |- _ => apply of_option_ok in H end. guard_facts.
  do 5 eexists. cbn [new_enclave EnclaveInfo.proof_data EnclaveInfo.enclave_persistent_id
    EnclaveInfo.registration_block_context EnclaveInfo.verifying_key EnclaveInfo.encryption_key
    EnclaveInfo.EHS_verifying_key].
  split_and!; eauto; try congruence; by apply dec_stable.
Qed.

(** The policy check of [register_enclave]. *)
Lemma attestation_policy_ok (flag : option bool) check i n u n' :
  whenM check
    (let! measurements := readM (fun n => n.(globally_committed).(expected_sgx_measurements)) in
     throw_ifM (bool_decide (flag = None)) (refuse "Expected sgx measurents have not been set. Enclave cannot be registered") ;;!
     let! expected := uncaught measurements in
     liftM (check_attestation_report expected i)) n = (Ok u, n') ->
  n' = n /\ (check = true -> exists m,
    n.(globally_committed).(expected_sgx_measurements) = Some m /\ attested_by m (new_enclave i)).
Proof.
  destruct check; cbn [whenM]; intros Hr; success; [|done].
  split; [done|]. intros _. eexists. split; [done|]. apply check_attestation_report_ok. by destruct u.
Qed.

Lemma register_enclave_ok i : handler_ok in_force (register_enclave i).
Proof.
  intros n a n' Ht Hg Hl HP Hr. unfold register_enclave in Hr. success.
  match goal with H : whenM _ _ _ = _ |- _ => apply attestation_policy_ok in H as [-> Ha] end.
  match goal with H : verify_pdo_transaction_signature_register_enclave _ _ _ = _ |- _ =>
    apply verify_sig_success in H as Hs end.
  match goal with H : cache_verifier _ _ _ = _ |- _ => injection H as _ <- end.
  match goal with H : check_attestation_flag _ = Some ?b |- _ => pose proof (flag_once _ _ Hg _ H) as Hf end.
  cbn. rewrite <-eq_None_not_Some in *. split; [|by apply evolves_enclave].
  eapply tables_ok_evolves; [exact Ht|by apply evolves_enclave|cbn; auto..|apply Ht].
  intros k e [[<- <-]|[_ ?]]%lookup_insert_Some; [right|by left].
  split; cbn; rewrite ?Hf; [done..|]. intros [= ->].
  destruct (Ha eq_refl) as (m & Hm & ?). eauto.
Qed.

Lemma register_contract_ok i : handler_ok in_force (register_contract i).
Proof.
  intros n a n' Ht Hg Hl HP Hr. unfold register_contract in Hr. success.
  match goal with H : verify_pdo_transaction_signature_register_contract _ _ _ _ _ = _ |- _ =>
    apply verify_sig_success in H as Hs end.
  rewrite <-eq_None_not_Some in *. cbn.
  assert (Ev : evolves (current n) (put_contract (Register_contract.contract_id i) (new_contract i) (current n))).
  { apply evolves_contract. congruence. }
  split; [|done]. eapply tables_ok_evolves; [exact Ht|exact Ev|cbn; auto..|apply Ht].
  intros k c [[<- <-]|[_ ?]]%lookup_insert_Some; [right|by left].
  split; cbn; [done|done|by eexists|constructor|constructor|done].
Qed.

End Registration.

Section Contracts.
Context `{CCF} (in_force : ExpectedSGXMeasurements.t -> Prop).

(** One turn of the loop of [add_enclave]. *)
Lemma add_one_enclave_ok n c e c' n' :
  tables_ok in_force n.(current) -> locals_ok n.(globally_committed) n.(members) ->
  contract_ok n.(current) c.(ContractInfo.contract_id) c ->
  add_one_enclave c.(ContractInfo.contract_id) c e n = (Ok c', n') ->
  n'.(current) = n.(current) /\ n'.(globally_committed) = n.(globally_committed) /\
  c' = set_enclave_info (c.(ContractInfo.enclave_info) ++ [e]) c /\ contract_ok n.(current) c.(ContractInfo.contract_id) c'.
Proof.
  intros Ht Hl Hc Hr. unfold add_one_enclave, in_contract in Hr. success.
  match goal with H : enclave_verifier _ _ = _ |- _ => apply verifier_success in H as [Hcur Hv] end.
  match goal with H : verify_enclave_signature_add_enclave _ _ _ _ _ _ = _ |- _ =>
    unfold verify_enclave_signature_add_enclave in H; rename H into Hs end.
  result_inv. repeat match goal with H : of_option _ _ = Ok _ |- _ => apply of_option_ok in H end.
  apply verify_sig_static_success in Hs as (pk & -> & Hver). destruct (Hv pk eq_refl) as [-> Hpk].
  match goal with H : enclavetable _ !! _ = Some _ |- _ =>
    destruct (enclaves_ok _ _ Ht _ _ H) as [Hkey _ _ _] end. rewrite Hkey in Hpk. apply Hl in Hpk.
  split_and!; [done..|]. destruct Hc as [_ Ha Hcr He Hn Hst]. split; cbn; [done..| | |].
  - apply Forall_app. split; [exact He|]. constructor; [|done]. split_and!; cbn.
    + by apply dec_stable.
    + eauto.
    + eexists. split; [done|]. by eexists pk, _.
  - rewrite map_app. apply list.NoDup_app. split_and!; [done| |apply NoDup_singleton].
    intros k Hk Hk'. apply list_elem_of_singleton in Hk' as ->. done.
  - intros Hh. destruct (Hst Hh) as [Hk (ei & nonce & Hei & Hsig)]. split; [done|].
    exists ei, nonce. split; [|done]. cbn. apply elem_of_app. by left.
Qed.

Lemma add_enclaves_ok l n c c' n' :
  tables_ok in_force n.(current) -> locals_ok n.(globally_committed) n.(members) ->
  contract_ok n.(current) c.(ContractInfo.contract_id) c ->
  add_enclaves c.(ContractInfo.contract_id) c l n = (Ok c', n') ->
  n'.(current) = n.(current) /\ contract_evolves c c' /\ contract_ok n.(current) c.(ContractInfo.contract_id) c'.
Proof.
  revert n c. induction l as [|e l IH]; intros n c Ht Hl Hc Hr; cbn [add_enclaves] in Hr.
  { success. split_and!; [done|reflexivity|done]. }
  apply bind_success in Hr as (c1 & n1 & H1 & H2).
  pose proof (keeps_add_enclaves c.(ContractInfo.contract_id) [e] c n Hl) as [_ Hl1].
  cbn [add_enclaves] in Hl1. unfold bindM in Hl1. rewrite H1 in Hl1. cbn in Hl1.
  destruct (add_one_enclave_ok _ _ _ _ _ Ht Hl Hc H1) as (Hcur & Hg & -> & Hc1).
  rewrite <-Hcur in Ht, Hc1 |- *. rewrite <-Hg in Hl1.
  destruct (IH n1 (set_enclave_info (c.(ContractInfo.enclave_info) ++ [e]) c) Ht Hl1 Hc1 H2) as (-> & Hev & Hc'). split_and!; [done| |done].
  etrans; [|exact Hev]. split; cbn; try done. by apply prefix_app_r.
Qed.

Lemma add_enclave_ok i : handler_ok in_force (add_enclave i).
Proof.
  intros n a n' Ht Hg Hl HP Hr. unfold add_enclave in Hr. success.
  match goal with H : contracttable _ !! _ = Some ?c0 |- _ => rename H into Hc; set (c := c0) in * end.
  pose proof (contracts_ok _ _ Ht _ _ Hc) as Hok. pose proof (contract_key _ _ _ Hok) as Hk.
  rewrite <-Hk in Hok |- *.
  match goal with H : add_enclaves _ _ _ _ = (Ok ?x, _) |- _ => rewrite <-Hk in H; rename H into Hadd, x into c1 end.
  destruct (add_enclaves_ok _ _ _ _ _ Ht Hl Hok Hadd) as (Hcur & Hev & Hok').
  cbn. rewrite Hcur.
  assert (Ev : evolves (current n) (put_contract (ContractInfo.contract_id c) c1 (current n))).
  { apply evolves_contract. rewrite Hk, Hc. by intros c0 [= <-]. }
  split; [|done]. eapply tables_ok_evolves; [exact Ht|exact Ev|cbn; auto..|apply Ht].
  intros k c2 [[<- <-]|[_ ?]]%lookup_insert_Some; [right|by left].
  by apply (contract_ok_mono Ev).
Qed.
End Contracts.

Section States.
Context `{CCF} (in_force : ExpectedSGXMeasurements.t -> Prop).

(** When an update is accepted: the contract is registered and active, the enclave belongs to it, the
    update starts from the contract's latest state and changes it, every dependency is a state the ledger
    knows, and the node's verifier for the enclave accepts the signature over the whole update. *)
Record update_accepted (n : node) (i : Update_contract_state.In) (u : StateUpdateInfo.t) (c : ContractInfo.t)
    (e : EnclaveInfo.t) (pk : bytes) : Prop := {
  upd_parsed : parse_StateUpdateInfo i.(Update_contract_state.state_update_info) = Some u;
  upd_contract : n.(current).(contracttable) !! u.(StateUpdateInfo.contract_id) = Some c;
  upd_enclave : n.(current).(enclavetable) !! i.(Update_contract_state.contract_enclave_id) = Some e;
  upd_active : c.(ContractInfo.is_active) = true;
  upd_member : i.(Update_contract_state.contract_enclave_id)
                 ∈ map ContractEnclaveInfo.contract_enclave_id c.(ContractInfo.enclave_info);
  upd_latest : u.(StateUpdateInfo.previous_state_hash) = c.(ContractInfo.current_state_hash);
  upd_dependencies : Forall (dependency_known n.(current)) u.(StateUpdateInfo.dependency_list);
  upd_changes : u.(StateUpdateInfo.current_state_hash) <> c.(ContractInfo.current_state_hash);
  upd_verifier : n.(members).(enclave_pubk_verifier) !! e.(EnclaveInfo.verifying_key) = Some (Some pk);
  upd_signature : verify pk (update_message i.(Update_contract_state.nonce) c.(ContractInfo.contract_code_hash) u)
                    i.(Update_contract_state.contract_enclave_signature) = true;
}.

(** What an accepted update writes: the CCL record of the new state and the contract's latest state. *)
Definition updated (i : Update_contract_state.In) (u : StateUpdateInfo.t) (c : ContractInfo.t) (t : tables) : tables :=
  put_contract u.(StateUpdateInfo.contract_id) (set_state u.(StateUpdateInfo.current_state_hash) c)
    (put_ccl (ccl_key u.(StateUpdateInfo.contract_id) u.(StateUpdateInfo.current_state_hash))
       (ContractStateInfo.mk i.(Update_contract_state.nonce) u.(StateUpdateInfo.previous_state_hash)
          u.(StateUpdateInfo.message_hash) u.(StateUpdateInfo.dependency_list)) t).

Lemma dependencies_met_spec t l : dependencies_met t l = true <-> Forall (dependency_known t) l.
Proof.
  unfold dependencies_met. induction l as [|d l IH]; cbn; [by split|].
  rewrite andb_true_iff, IH, Forall_cons_iff, bool_decide_eq_true. done.
Qed.

Lemma update_run i n a n' :
  update_contract_state i n = (Ok a, n') <->
  a = true /\ exists u c e pk, update_accepted n i u c e pk /\ n' = set_current (updated i u c n.(current)) n.
Proof.
  split.
  - intros Hr. unfold update_contract_state, in_contract in Hr. success. split; [done|].
    match goal with H : enclave_verifier _ _ = _ |- _ => apply verifier_success in H as [Hcur Hv] end.
    match goal with H : verify_enclave_signature_update_contract_state _ _ _ _ _ = _ |- _ =>
      apply verify_sig_static_success in H as (pk & -> & Hver) end.
    destruct (Hv pk eq_refl) as [-> Hpk].
    match goal with H : dependencies_met _ _ = true |- _ => apply dependencies_met_spec in H end.
    do 4 eexists. split; [split|done]; try done; try (by apply dec_stable).
  - intros (-> & u & c & e & pk & [Hp Hc He Ha Hm Hl Hd Hn Hv Hs] & ->).
    unfold update_contract_state, found, uncaught, in_contract. run_monad. rewrite Hp. cbn.
    rewrite Hc, He. cbn. rewrite Ha. guards. rewrite Hl. guards.
    apply dependencies_met_spec in Hd. rewrite Hd. guards. unfold enclave_verifier. rewrite Hv.
    unfold verify_enclave_signature_update_contract_state, verify_sig_static. rewrite Hs.
    unfold updated. by rewrite Hl.
Qed.

(** A contract that moves to a state an enclave of the contract has signed, with the CCL record of that state. *)
Lemma state_change_ok t k r c c' :
  tables_ok in_force t -> t.(contracttable) !! k = Some c ->
  c' = set_initial_state c'.(ContractInfo.current_state_hash) c'.(ContractInfo.contract_metadata_hash) c ->
  Forall (dependency_known t) r.(ContractStateInfo.dependency_list) ->
  state_signed c' ->
  let t' := put_contract k c' (put_ccl (ccl_key k c'.(ContractInfo.current_state_hash)) r t) in
  tables_ok in_force t' /\ evolves t t'.
Proof.
  intros Ht Hc Hc' Hd Hs t'.
  set (h := ContractInfo.current_state_hash c') in *. set (m := ContractInfo.contract_metadata_hash c') in *.
  assert (Ev : evolves t t').
  { etrans; [apply evolves_ccl|]. apply evolves_contract. cbn. rewrite Hc. intros c0 [= <-]. by rewrite Hc'. }
  split; [|done]. destruct (contract_ok_mono Ev _ _ (contracts_ok _ _ Ht _ _ Hc)) as [Hk Ha Hcr He Hn Hst].
  eapply tables_ok_evolves; [exact Ht|exact Ev|cbn; auto..|apply Ht].
  - intros k1 c1 [[<- <-]|[_ ?]]%lookup_insert_Some; [right|by left].
    split; [by rewrite Hc'..|]. intros _. split; [|done]. cbn. by rewrite lookup_insert_eq.
  - intros k1 r1 [[<- <-]|[_ ?]]%lookup_insert_Some; [right|by left]. by apply (dependencies_mono Ev).
Qed.

(** The enclave that signed belongs to the contract under its verifying key. *)
Lemma signing_enclave n id e c pk msg sig :
  tables_ok in_force n.(current) -> locals_ok n.(globally_committed) n.(members) ->
  n.(current).(enclavetable) !! id = Some e ->
  id ∈ map ContractEnclaveInfo.contract_enclave_id c.(ContractInfo.enclave_info) ->
  n.(members).(enclave_pubk_verifier) !! e.(EnclaveInfo.verifying_key) = Some (Some pk) ->
  verify pk msg sig = true ->
  exists ei, ei ∈ c.(ContractInfo.enclave_info) /\ signed_by ei.(ContractEnclaveInfo.contract_enclave_id) msg.
Proof.
  intros Ht Hl He (ei & -> & Hei)%list_elem_of_fmap Hpk Hv.
  rewrite (enclave_key _ _ _ _ (enclaves_ok _ _ Ht _ _ He)) in Hpk. apply Hl in Hpk.
  exists ei. split; [done|]. by exists pk, sig.
Qed.

Lemma update_contract_state_ok i : handler_ok in_force (update_contract_state i).
Proof.
  intros n a n' Ht Hg Hl HP (-> & u & c & e & pk & [Hp Hc He Ha Hm Hla Hd Hn Hv Hs] & ->)%update_run. cbn [current set_current].
  destruct (signing_enclave n _ _ _ _ _ _ Ht Hl He Hm Hv Hs) as (ei & Hei & Hsig).
  apply state_change_ok with c; [done..|]. exists ei, i.(Update_contract_state.nonce). split; [done|].
  right. exists u. split_and!; [|done|done]. symmetry. apply (contract_key _ _ _ (contracts_ok _ _ Ht _ _ Hc)).
Qed.

Lemma initialize_contract_state_ok i : handler_ok in_force (initialize_contract_state i).
Proof.
  intros n a n' Ht Hg Hl HP Hr. unfold initialize_contract_state, in_contract in Hr. success.
  match goal with H : enclave_verifier _ _ = _ |- _ => apply verifier_success in H as [Hcur Hv] end.
  match goal with H : verify_enclave_signature_initialize_contract_state _ _ _ _ _ _ _ _ _ = _ |- _ =>
    apply verify_sig_static_success in H as (pk & -> & Hver) end.
  destruct (Hv pk eq_refl) as [-> Hpk].
  match goal with H : contracttable _ !! _ = Some ?x |- _ => rename H into Hc, x into c end.
  match goal with H : enclavetable _ !! _ = Some _ |- _ => rename H into He end.
  destruct (signing_enclave n _ _ c _ _ _ Ht Hl He ltac:(done) Hpk Hver) as (ei & Hei & Hsig).
  cbn [current set_current]. apply state_change_ok with c; [done|done|done|constructor|].
  exists ei, i.(Initialize_contract_state.nonce). split; [done|]. left. do 2 eexists.
  cbn. rewrite (contract_key _ _ _ (contracts_ok _ _ Ht _ _ Hc)). exact Hsig.
Qed.

End States.

(** * Requests that only read *)

Section Reads.
Context `{CCF} (in_force : ExpectedSGXMeasurements.t -> Prop).

Definition reads {A} (m : M node A) : Prop := forall n, (m n).2.(current) = n.(current).

Lemma reads_bind {A B} (m : M node A) (f : A -> M node B) : reads m -> (forall a, reads (f a)) -> reads (bindM m f).
Proof.
  intros Hm Hf n. unfold bindM. specialize (Hm n). destruct (m n) as [[a|e] n1]; [|done].
  rewrite Hf. exact Hm.
Qed.

Lemma reads_ret {A} (a : A) : reads (retM a).
Proof. done. Qed.
Lemma reads_throw {A} e : reads (throwM (A := A) e).
Proof. done. Qed.
Lemma reads_read {A} (f : node -> A) : reads (readM f).
Proof. done. Qed.
Lemma reads_lift {A} (r : result A) : reads (liftM r).
Proof. done. Qed.
Lemma reads_set_signer k : reads (set_signer_local k).
Proof. done. Qed.

Lemma reads_handler_ok {A} (m : M node A) : reads m -> handler_ok in_force m.
Proof. intros Hm n a n' Ht _ _ _ Hr. specialize (Hm n). rewrite Hr in Hm. cbn in Hm. by rewrite Hm. Qed.

#[local] Hint Resolve reads_ret reads_throw reads_read reads_lift reads_set_signer : ledger.

Ltac reads :=
  unfold throw_ifM, found, uncaught;
  repeat first
    [ solve [eauto with ledger] | case_match | case_bool_decide
    | apply reads_bind; [|intros ?] ].

Lemma reads_load_ledger_signer : reads load_ledger_signer.
Proof. unfold load_ledger_signer. reads. Qed.
Lemma reads_sign_document d : reads (sign_document d).
Proof. unfold sign_document. reads. Qed.
#[local] Hint Resolve reads_load_ledger_signer reads_sign_document : ledger.

Definition is_read (r : request) : bool :=
  match r with
  | GET_LEDGER_KEY | VERIFY_ENCLAVE_REGISTRATION _ | GET_CONTRACT_PROVISIONING_INFO _ | GET_CONTRACT_INFO _
  | GET_CURRENT_STATE_INFO_FOR_CONTRACT _ | GET_DETAILS_ABOUT_STATE _ _ | PingMe => true
  | _ => false
  end.

Lemma reads_dispatch r : is_read r = true -> reads (dispatch r).
Proof.
  destruct r; try done; intros _; cbn [dispatch]; [..|reads];
    (apply reads_bind; [|intros ?; reads]);
    unfold get_ledger_key, verify_enclave, get_contract_provisioning_info, get_contract_info,
      get_current_state_info_for_contract, get_details_about_state; reads.
Qed.

Lemma dispatch_ok r : handler_ok in_force (dispatch r).
Proof.
  destruct (is_read r) eqn:Hr; [by apply reads_handler_ok, reads_dispatch|].
  destruct r; try done; apply handler_fmap.
  - apply check_flag_ok.
  - apply measurements_request_ok.
  - apply gen_signing_key_ok.
  - apply register_enclave_ok.
  - apply register_contract_ok.
  - apply add_enclave_ok.
  - apply initialize_contract_state_ok.
  - apply update_contract_state_ok.
Qed.

End Reads.

(** * The replicated service *)

Section ServiceSpec.
Context `{CCF}.

(** The measurements [m] were the committed ones at some time on the way to [s]. *)
Definition was_committed (s : service) (m : ExpectedSGXMeasurements.t) : Prop :=
  exists s0, reachable s0 /\ steps s0 s /\ s0.(committed).(expected_sgx_measurements) = Some m.

(** The committed tables and the pending versions, oldest first, are sound and evolve one from another;
    every node's members agree with the committed tables. *)
Record service_inv (in_force : ExpectedSGXMeasurements.t -> Prop) (s : service) : Prop := {
  versions_ok : Forall (tables_ok in_force) (s.(committed) :: s.(pending));
  versions_evolve : StronglySorted evolves (s.(committed) :: s.(pending));
  nodes_ok : forall i, locals_ok s.(committed) (s.(locals) i);
}.

Lemma latest_in s : latest s ∈ s.(committed) :: s.(pending).
Proof.
  unfold latest. destruct (decide (s.(pending) = [])) as [->|Hn]; [left|right].
  rewrite (app_removelast_last s.(committed) Hn) at 2. apply elem_of_app. right. by left.
Qed.

Lemma latest_max P s x : service_inv P s -> x ∈ s.(committed) :: s.(pending) -> evolves x (latest s).
Proof.
  intros [_ Hs _]. unfold latest. destruct (decide (s.(pending) = [])) as [->|Hn].
  - intros ->%list_elem_of_singleton. reflexivity.
  - rewrite (app_removelast_last s.(committed) Hn) in Hs |- * at 1. rewrite app_comm_cons in Hs |- *.
    intros [Hx| ->%list_elem_of_singleton]%elem_of_app; [|reflexivity].
    apply (StronglySorted_app_1_elem_of _ _ _ _ _ Hs Hx). by left.
Qed.

Lemma locals_ok_evolves g g' m : evolves g g' -> locals_ok g m -> locals_ok g' m.
Proof.
  intros Ev [Hv Hs]. split; [done|]. intros key Hk. destruct (Hs key Hk) as (privk & pubk & Hg & Hp).
  exists privk, pubk. split; [|done]. by apply Ev.
Qed.

Lemma fresh_local_ok g : locals_ok g fresh_local.
Proof. split; [|done]. intros k pk Hk. cbn in Hk. by rewrite lookup_empty in Hk. Qed.

Lemma set_local_ok g i m f : locals_ok g m -> (forall j, locals_ok g (f j)) -> forall j, locals_ok g (set_local i m f j).
Proof. intros Hm Hf j. unfold set_local. by destruct (decide _). Qed.

Lemma empty_tables_ok P : tables_ok P empty_tables.
Proof. split; cbn; done. Qed.

Lemma genesis_inv P : service_inv P genesis.
Proof.
  split; cbn.
  - constructor; [apply empty_tables_ok|constructor].
  - constructor; [constructor|constructor].
  - intros i. apply fresh_local_ok.
Qed.

(** The node on which the primary runs a request. *)
Definition primary_node (s : service) : node :=
  mk_lnode s.(committed) (latest s) (s.(locals) s.(primary)) s.(generated).

Lemma execute_inv P r s :
  (forall m, s.(committed).(expected_sgx_measurements) = Some m -> P m) ->
  service_inv P s -> service_inv P (execute r s).2.
Proof.
  intros HP Hs. pose proof Hs as [Hv He Hn].
  assert (Hlt : tables_ok P (latest s)).
  { apply (proj1 (list.Forall_forall _ _) Hv). apply latest_in. }
  assert (Hle : evolves (committed s) (latest s)) by (eapply latest_max; [done|by left]).
  destruct (keeps_dispatch r (primary_node s) (Hn _)) as [_ Hk].
  unfold execute. fold (primary_node s). destruct (dispatch r (primary_node s)) as [res n] eqn:Hd. cbn in Hk.
  assert (Hset : forall j, locals_ok (committed s) (set_local (primary s) (members n) (locals s) j))
    by by apply set_local_ok.
  destruct res as [a|e]; cycle 1.
  { destruct e; split; cbn [snd committed pending locals]; try done. all: try by auto using set_local_ok, fresh_local_ok. }
  destruct (dispatch_ok P r (primary_node s) _ _ Hlt Hle (Hn _) HP Hd) as [Ht Hev]. cbn in Hev.
  split; cbn; [| |done]; rewrite app_comm_cons.
  - apply Forall_app. split; [done|]. by constructor.
  - apply StronglySorted_app_2; [|done|repeat constructor].
    intros x y Hx ->%list_elem_of_singleton. etrans; [by eapply latest_max|done].
Qed.

Lemma step_inv P s s' :
  (forall m, s.(committed).(expected_sgx_measurements) = Some m -> P m) ->
  service_inv P s -> step s s' -> service_inv P s' /\ evolves s.(committed) s'.(committed).
Proof.
  intros HP Hs Hst. destruct Hst as [c r s Ha|t rest s Hp|p k s|i s].
  - split; [by apply execute_inv|]. unfold execute. destruct (dispatch _ _) as [[a|[]] n]; reflexivity.
  - destruct Hs as [Hv He Hn]. rewrite Hp in Hv, He. apply list.Forall_cons in Hv as [_ Hv].
    apply StronglySorted_inv in He as [He Hc]. apply list.Forall_cons in Hc as [Hc _].
    split; [|done]. split; cbn; [done..|]. intros i. by apply (locals_ok_evolves (committed s)).
  - split; [|reflexivity]. destruct Hs as [Hv He Hn]. rewrite <-(take_drop k s.(pending)) in Hv, He.
    rewrite app_comm_cons in Hv, He. split; cbn; [..|done].
    + by apply Forall_app in Hv as [? _].
    + by apply StronglySorted_app_1_l in He.
  - split; [|reflexivity]. destruct Hs as [Hv He Hn]. split; cbn; [done..|].
    apply set_local_ok; [apply fresh_local_ok|done].
Qed.

Lemma service_inv_weaken (P Q : ExpectedSGXMeasurements.t -> Prop) s :
  (forall m, P m -> Q m) -> service_inv P s -> service_inv Q s.
Proof.
  intros HPQ [Hv He Hn]. split; [|done..]. eapply list.Forall_impl; [exact Hv|].
  intros t. by apply tables_ok_weaken.
Qed.

Lemma was_committed_now s m : reachable s -> s.(committed).(expected_sgx_measurements) = Some m -> was_committed s m.
Proof. intros Hr Hm. exists s. split_and!; [done|constructor|done]. Qed.

Lemma was_committed_later s s' m : steps s s' -> was_committed s m -> was_committed s' m.
Proof. intros Hs (s0 & Hr & H0 & Hm). exists s0. split_and!; [done|by etrans|done]. Qed.

Lemma reachable_step s s' : reachable s -> step s s' -> service_inv (was_committed s) s ->
  service_inv (was_committed s') s' /\ evolves s.(committed) s'.(committed).
Proof.
  intros Hr Hst Hs. destruct (step_inv _ _ _ (fun m => was_committed_now s m Hr) Hs Hst) as [Hi Hev].
  split; [|done]. revert Hi. apply service_inv_weaken. intros m. apply was_committed_later. by apply rtc_once.
Qed.

Lemma reachable_inv s : reachable s -> service_inv (was_committed s) s.
Proof.
  apply (rtc_ind_r (fun s => service_inv (was_committed s) s)); [apply genesis_inv|].
  intros s1 s2 H1 H2 IH. by apply (reachable_step _ _ H1 H2).
Qed.

Lemma steps_evolve s s' : reachable s -> steps s s' -> evolves s.(committed) s'.(committed).
Proof.
  intros Hr Hs. revert Hr. induction Hs as [s|s1 s2 s3 H12 _ IH]; intros Hr; [reflexivity|].
  etrans; [apply (reachable_step _ _ Hr H12), reachable_inv, Hr|].
  apply IH. unfold reachable, steps in *. etrans; [exact Hr|by apply rtc_once].
Qed.

End ServiceSpec.

(** * Properties *)

Section Properties.
Context `{CCF}.

(** C1: in every reachable state of the replicated service the committed tables and every pending
    version are sound.  Enclaves are stored under their own verifying keys, by their owners' signature,
    and, when the policy asks for attestation, with a report that passes every check of the policy
    against measurements that were the committed ones at some time before (signature of the attestation
    service, quote status, MRENCLAVE, base name, nonce, bound keys, 64-bit mode and debug flag);
    contracts are
    stored under their ids with their creators' signature, every enclave of a contract is registered,
    appears once and has signed its provisioning; a contract with a state has the CCL record of that
    state and a signature of one of its own enclaves over it; every recorded dependency is a recorded
    state; measurements are only set where attestation is checked. *)
Theorem ledger_tables_sound s :
  reachable s -> tables_ok (was_committed s) s.(committed) /\ Forall (tables_ok (was_committed s)) s.(pending).
Proof. intros Hr. destruct (reachable_inv _ Hr) as [Hv _ _]. by apply list.Forall_cons in Hv. Qed.

(** C2: whatever requests, commits, elections and restarts follow, what is committed stays: the
    attestation flag and the signing keys are set once, no enclave is removed or changed, no contract
    changes its id, code, creator or provisioning services or loses an enclave, and no key of the
    states table is lost (the record under such a key can be written again). *)
Theorem ledger_history_immutable s s' :
  reachable s -> steps s s' -> evolves s.(committed) s'.(committed).
Proof. apply steps_evolve. Qed.

(** C4: [update_contract_state] succeeds exactly when the update is acceptable, and then writes exactly
    the CCL record of the new state and the contract's latest state; when it fails it writes nothing. *)
Theorem update_contract_state_correct i n :
  (forall a n', update_contract_state i n = (Ok a, n') <->
     a = true /\ exists u c e pk, update_accepted n i u c e pk /\ n' = set_current (updated i u c n.(current)) n) /\
  (forall e n', update_contract_state i n = (Err e, n') -> n'.(current) = n.(current)).
Proof.
  split; [intros; apply update_run|]. intros e n'. unfold update_contract_state, throw_ifM, found, uncaught.
  assert (Hv : forall k, reads (enclave_verifier k)).
  { intros k m. unfold enclave_verifier. by destruct (_ !! k). }
  repeat lazymatch goal with
  | |- bindM (write_tables _) _ _ = _ -> _ => by intros Hw
  | |- bindM ?m ?f ?n1 = (Err e, n') -> ?C =>
      let Hm := fresh in
      assert (Hm : reads m) by first [apply reads_lift | apply reads_read | apply Hv];
      unfold bindM at 1; specialize (Hm n1);
      destruct (m n1) as [[?|?] ?n2] eqn:?; cbn [snd] in Hm;
      [|by intros [= _ <-]]; rewrite <-Hm; clear Hm
  end.
Qed.

Lemma execute_success r s a s' : execute r s = (Ok a, s') -> exists n,
  dispatch r (primary_node s) = (Ok a, n) /\ latest s' = n.(current) /\ s'.(committed) = s.(committed).
Proof.
  unfold execute. fold (primary_node s). destruct (dispatch _ _) as [[b|[]] n] eqn:Hd; intros [= <- <-].
  exists n. split_and!; [done| |done]. unfold latest. cbn. by rewrite last_last.
Qed.

(** C3: an update the service accepts comes from an enclave of the contract: that enclave is registered
    (and, when the policy asks for it, attested against measurements that were committed before),
    belongs to the contract, and its key accepts a signature
    over the contract's id and code, the state the contract had, the new state and the dependencies. *)
Theorem accepted_update_authentic s i a s' :
  reachable s -> execute (UPDATE_CONTRACT_STATE i) s = (Ok a, s') ->
  exists u c ei e,
    (latest s).(contracttable) !! u.(StateUpdateInfo.contract_id) = Some c /\
    ei ∈ c.(ContractInfo.enclave_info) /\
    (latest s).(enclavetable) !! ei.(ContractEnclaveInfo.contract_enclave_id) = Some e /\
    (s.(committed).(check_attestation_flag) = Some true ->
     exists m, was_committed s m /\ attested_by m e) /\
    u.(StateUpdateInfo.previous_state_hash) = c.(ContractInfo.current_state_hash) /\
    Forall (dependency_known (latest s)) u.(StateUpdateInfo.dependency_list) /\
    signed_by ei.(ContractEnclaveInfo.contract_enclave_id)
      (update_message i.(Update_contract_state.nonce) c.(ContractInfo.contract_code_hash) u) /\
    latest s' = updated i u c (latest s).
Proof.
  intros Hr (n & Hd & -> & _)%execute_success. pose proof (reachable_inv _ Hr) as Hs.
  apply bind_success in Hd as (b & n1 & Hu & [_ ->]%ret_success).
  apply update_run in Hu as (-> & u & c & e & pk & [Hp Hc He Ha Hm Hl Hdep Hn Hv Hsig] & ->).
  assert (Hlt : tables_ok (was_committed s) (latest s)).
  { apply (proj1 (list.Forall_forall _ _) (versions_ok _ _ Hs)). apply latest_in. }
  apply list_elem_of_fmap in Hm as (ei & Hid & Hei). rewrite Hid in He.
  pose proof (enclaves_ok _ _ Hlt _ _ He) as Hok. rewrite (enclave_key _ _ _ _ Hok) in Hv.
  exists u, c, ei, e. split_and!; try done.
  - intros Hf. apply (enclave_attested _ _ _ _ Hok).
    apply (flag_once _ _ (latest_max _ s (committed s) Hs ltac:(by left)) _ Hf).
  - exists pk, i.(Update_contract_state.contract_enclave_signature). split; [|done].
    by apply (verifiers_ok _ _ (nodes_ok _ _ Hs s.(primary))).
Qed.

(** C39: the signature verifiers live in the node that registered the enclave.  At a node that does not
    hold the verifier (a restarted node, or a new primary), an update that meets every other condition
    does not get an error: the handler dereferences a null pointer. *)
Theorem update_without_verifier_crashes n i u c e :
  parse_StateUpdateInfo i.(Update_contract_state.state_update_info) = Some u ->
  n.(current).(contracttable) !! u.(StateUpdateInfo.contract_id) = Some c ->
  n.(current).(enclavetable) !! i.(Update_contract_state.contract_enclave_id) = Some e ->
  c.(ContractInfo.is_active) = true ->
  i.(Update_contract_state.contract_enclave_id)
    ∈ map ContractEnclaveInfo.contract_enclave_id c.(ContractInfo.enclave_info) ->
  u.(StateUpdateInfo.previous_state_hash) = c.(ContractInfo.current_state_hash) ->
  Forall (dependency_known n.(current)) u.(StateUpdateInfo.dependency_list) ->
  u.(StateUpdateInfo.current_state_hash) <> c.(ContractInfo.current_state_hash) ->
  n.(members).(enclave_pubk_verifier) !! e.(EnclaveInfo.verifying_key) = None ->
  (update_contract_state i n).1 = Err (UndefinedBehaviour "null pubk_verifier").
Proof.
  intros Hp Hc He Ha Hm Hl Hd Hn Hv.
  unfold update_contract_state, found, uncaught, in_contract. run_monad. rewrite Hp. cbn.
  rewrite Hc, He. cbn. rewrite Ha. guards. rewrite Hl. guards.
  apply dependencies_met_spec in Hd. rewrite Hd. guards. unfold enclave_verifier. by rewrite Hv.
Qed.


Lemma load_ledger_signer_success n u n' : locals_ok n.(globally_committed) n.(members) ->
  load_ledger_signer n = (Ok u, n') -> exists privk pubk key,
    n.(globally_committed).(signer) = Some (privk, pubk) /\ make_key_pair privk = Some key /\
    n'.(members).(ledger_signer_local) = Some key.
Proof.
  intros [_ Hs] Hr. unfold load_ledger_signer in Hr.
  apply bind_success in Hr as (k & n1 & [-> ->]%read_success & Hr).
  destruct (ledger_signer_local (members n)) as [key|] eqn:Hk.
  - success. destruct (Hs key eq_refl) as (privk & pubk & ? & ?). by exists privk, pubk, key.
  - apply bind_success in Hr as (g & n1 & [-> ->]%read_success & Hr).
    apply bind_success in Hr as ([privk pubk] & n1 & [Hg ->]%of_option_success & Hr).
    apply bind_success in Hr as (key & n1 & [Hm ->]%of_option_success & Hr).
    injection Hr as _ <-. by exists privk, pubk, key.
Qed.

Lemma sign_document_success d n sg n' : sign_document d n = (Ok sg, n') ->
  exists key, n.(members).(ledger_signer_local) = Some key /\ b64_from_raw (sign key d) = Some sg.
Proof.
  unfold sign_document. intros (k & n1 & [-> ->]%read_success & Hr)%bind_success.
  destruct (ledger_signer_local _) as [key|]; [|done]. success. eauto.
Qed.

(** An answer about a contract's current state is about a globally committed, initialised contract
    whose state an enclave of the contract has signed; it carries that state's encoding and the
    signature, with the committed ledger key, over the contract's id and that encoding; answering
    changes no table. *)
Theorem current_state_answer_correct s id o s' :
  reachable s -> execute (GET_CURRENT_STATE_INFO_FOR_CONTRACT id) s = (Ok (CurrentStateOut o), s') ->
  exists c privk pubk key,
    s.(committed).(contracttable) !! id = Some c /\
    c.(ContractInfo.current_state_hash) <> [] /\ state_signed c /\
    s.(committed).(signer) = Some (privk, pubk) /\ make_key_pair privk = Some key /\
    b64_from_raw c.(ContractInfo.current_state_hash) = Some o.(Get_current_state_info.state_hash) /\
    b64_from_raw (sign key (id ++ o.(Get_current_state_info.state_hash)))
      = Some o.(Get_current_state_info.signature) /\
    latest s' = latest s.
Proof.
  intros Hr (n & Hd & -> & _)%execute_success. pose proof (reachable_inv _ Hr) as Hs.
  pose proof (reads_dispatch (GET_CURRENT_STATE_INFO_FOR_CONTRACT id) eq_refl (primary_node s)) as Hsame.
  rewrite Hd in Hsame. cbn in Hsame.
  apply bind_success in Hd as (b & n1 & Hu & [[= <-] ->]%ret_success).
  unfold get_current_state_info_for_contract in Hu. success.
  match goal with H : contracttable _ !! _ = Some ?x |- _ => rename H into Hc, x into c; cbn in Hc end.
  match goal with H : load_ledger_signer _ = _ |- _ =>
    apply load_ledger_signer_success in H as (privk & pubk & key & Hsg & Hmk & Hk); [|apply Hs] end.
  match goal with H : sign_document _ _ = _ |- _ => apply sign_document_success in H as (key' & Hk' & Hsig) end.
  rewrite Hk in Hk'. injection Hk' as <-.
  pose proof (proj1 (proj1 (list.Forall_cons _ _ _) (versions_ok _ _ Hs))) as Ht.
  pose proof (contracts_ok _ _ Ht _ _ Hc) as Hok. rewrite (contract_active _ _ _ Hok) in *. cbn in *. guard_facts.
  exists c, privk, pubk, key. split_and!; try done. by apply Hok.
Qed.

(** The key of the CCL table does not determine the state: the decimal digits of a hash's bytes are
    written without separators, so different hashes of the same length share a record, and a dependency
    on one is met by the other. *)
Theorem ccl_key_collision contract_id p q deps t :
  let h1 := p ++ [Byte.x01; Byte.x17] ++ q in
  let h2 := p ++ [Byte.x0c; Byte.x03] ++ q in
  h1 <> h2 /\ length h1 = length h2 /\ ccl_key contract_id h1 = ccl_key contract_id h2 /\
  (forall s1 s2, dependencies_met t (ContractStateDependecy.mk contract_id h1 s1 :: deps)
                 = dependencies_met t (ContractStateDependecy.mk contract_id h2 s2 :: deps)).
Proof.
  intros h1 h2. assert (Hk : ccl_key contract_id h1 = ccl_key contract_id h2).
  { unfold ccl_key, vector_to_string, h1, h2. rewrite !map_app, !concat_app. done. }
  split_and!; [|unfold h1, h2; rewrite !length_app; done|done|].
  - unfold h1, h2. intros Heq. by apply app_inv_head in Heq.
  - intros s1 s2. unfold dependencies_met. cbn [forallb ContractStateDependecy.contract_id ContractStateDependecy.state_hash].
    by rewrite Hk.
Qed.

End Properties.
