(* ===== verification/LedgerWitnesses.v ===== *)
(** Concrete runs of the ledger, with a small instance of the CCF parameters: a signature is the key
    followed by the message, encodings are the identity, and the JSON texts the runs use are decoded to
    fixed records. *)
From S2P Require Import Prelude Codec Ledger LedgerSpec.

(** * A CCF *)

Definition ek : bytes := bytes_of "EK".
Definition ck : bytes := bytes_of "CREATOR".
Definition ehs : bytes := bytes_of "OWNER".
Definition contract_1 : bytes := bytes_of "contract".

Definition entry_1 : ContractEnclaveInfo.t :=
  ContractEnclaveInfo.mk ek contract_1 (bytes_of "k") (ek ++ contract_1 ++ ck ++ bytes_of "k") [].

Definition hash_0 : bytes := [Byte.x07].
Definition hash_1 : bytes := [Byte.x08].

Definition upd_1 : StateUpdateInfo.t :=
  StateUpdateInfo.mk contract_1 hash_1 hash_0 (bytes_of "m")
    [ContractStateDependecy.mk contract_1 hash_0 (bytes_of "Bw==")].
Definition upd_0 : StateUpdateInfo.t := StateUpdateInfo.mk contract_1 hash_1 [] (bytes_of "m") [].

Definition pad_64 (l : bytes) : bytes := resize_bytes 64 l.

Definition quote_1 : sgx_quote :=
  {| mr_enclave := bytes_of "MR"; quote_basename := bytes_of "BN";
     report_data := pad_64 (ek ++ bytes_of "enc" ++ map tolower (pad_64 ehs)); attributes_flags := 4 |}.

Definition report_1 : VerificationReport.t :=
  VerificationReport.mk (bytes_of "epid") [] (bytes_of "ok") [] 3 (bytes_of "ctx") [].

#[local] Instance ccf_1 : CCF := {|
  make_public_key k := Some k;
  verify pk m sg := bool_decide (sg = pk ++ m);
  verify_rsa sg k m := Some (bool_decide (sg = k ++ m));
  make_key_pair k := Some k;
  new_key_pair _ := Some (bytes_of "priv", bytes_of "pub");
  sign k m := k ++ m;
  raw_from_b64 := Some;
  b64_from_raw := Some;
  ccf_sha256 l := l;
  to_hex l := l;
  parse_ProofData _ := Some (ProofData.mk [] (bytes_of "report") (bytes_of "IASreport"));
  parse_VerificationReport _ := Some report_1;
  parse_enclave_info _ := Some [entry_1];
  parse_StateUpdateInfo j := Some (if bool_decide (j = bytes_of "u0") then upd_0 else upd_1);
  dump_provisioning_info _ _ _ _ := [];
  dump_dependencies _ := [];
  read_quote _ := Some quote_1;
|}.

(** * Runs *)

Inductive event :=
  | Request (c : caller) (r : request)
  | Commit
  | Elect (p k : nat)
  | Restart (i : nat).

Definition apply_event (s : service) (ev : event) : service :=
  match ev with
  | Request c r => if authorized c r then (execute r s).2 else s
  | Commit =>
      match s.(pending) with
      | t :: rest => mk_service t rest s.(primary) s.(locals) s.(generated)
      | [] => s
      end
  | Elect p k => mk_service s.(committed) (take k s.(pending)) p s.(locals) s.(generated)
  | Restart i => mk_service s.(committed) s.(pending) s.(primary) (set_local i fresh_local s.(locals)) s.(generated)
  end.

Lemma apply_event_steps s ev : steps s (apply_event s ev).
Proof.
  destruct ev as [c r| |p k|i]; cbn.
  - destruct (authorized c r) eqn:Ha; [|apply rtc_refl]. apply rtc_once. by apply (step_request c).
  - destruct (pending s) eqn:Hp; [apply rtc_refl|]. apply rtc_once. by constructor.
  - apply rtc_once. constructor.
  - apply rtc_once. constructor.
Qed.

Definition run (s : service) (l : list event) : service := foldl apply_event s l.

Lemma run_steps l s : steps s (run s l).
Proof.
  revert s. induction l as [|ev l IH]; intros s; [apply rtc_refl|].
  etrans; [apply apply_event_steps|apply IH].
Qed.

Definition reg_enclave : Register_enclave.In :=
  Register_enclave.mk ek (bytes_of "enc") (bytes_of "proof") (bytes_of "epid") (bytes_of "ctx") (bytes_of "org") ehs
    (ehs ++ ehs ++ ek ++ bytes_of "encproofepidctxorg").

Definition reg_contract : Register_contract.In :=
  Register_contract.mk (bytes_of "code") ck (bytes_of "n") (ck ++ ck ++ bytes_of "codePSn") contract_1 [bytes_of "PS"].

Definition add_1 : Add_enclave.In :=
  Add_enclave.mk contract_1 (bytes_of "j") (ck ++ ck ++ contract_1 ++ bytes_of "j").

Definition init_sig : bytes :=
  ek ++ bytes_of "n" ++ contract_1 ++ bytes_of "code" ++ bytes_of "m" ++ ck ++ bytes_of "meta" ++ hash_0.

Definition init_1 : Initialize_contract_state.In :=
  Initialize_contract_state.mk (bytes_of "n") contract_1 hash_0 (bytes_of "m") (bytes_of "meta") ek init_sig
    (ck ++ init_sig).

Definition update_1 : Update_contract_state.In :=
  Update_contract_state.mk (bytes_of "n1") (bytes_of "u1") ek (ek ++ update_message (bytes_of "n1") (bytes_of "code") upd_1).
Definition update_0 : Update_contract_state.In :=
  Update_contract_state.mk (bytes_of "n1") (bytes_of "u0") ek (ek ++ update_message (bytes_of "n1") (bytes_of "code") upd_0).

(** The consortium sets the policy; an enclave and a contract are registered and joined. *)
Definition setup : list event :=
  [Request Member (SET_CONTRACT_ENCLAVE_CHECK_ATTESTATION_FLAG true); Commit;
   Request Member (SET_CONTRACT_ENCLAVE_EXPECTED_SGX_MEASUREMENTS
                     (ExpectedSGXMeasurements.mk (bytes_of "MR") (bytes_of "BN") (bytes_of "IAS") false)); Commit;
   Request Member GEN_SIGNING_KEY;
   Request Anyone (REGISTER_ENCLAVE reg_enclave);
   Request Anyone (REGISTER_CONTRACT reg_contract);
   Request Anyone (ADD_ENCLAVE_TO_CONTRACT add_1)].

Definition service_0 : service := run genesis setup.
Definition service_1 : service :=
  run service_0 [Request Anyone (INITIALIZE_CONTRACT_STATE init_1); Commit; Commit; Commit; Commit; Commit].
Definition service_2 : service := run service_1 [Request Anyone (UPDATE_CONTRACT_STATE update_1); Commit].

Lemma service_0_reachable : reachable service_0.
Proof. apply run_steps. Defined.
Lemma service_1_reachable : reachable service_1.
Proof. unfold reachable, steps. etrans; [apply service_0_reachable|apply run_steps]. Defined.

Lemma run_results :
  is_ok (execute (UPDATE_CONTRACT_STATE update_1) service_1).1 = true /\
  is_ok (execute (GET_CURRENT_STATE_INFO_FOR_CONTRACT contract_1) service_1).1 = true /\
  is_ok (execute (UPDATE_CONTRACT_STATE update_0) service_0).1 = true /\
  length service_1.(pending) = 0.
Proof. vm_compute. done. Qed.

(** * Witnesses *)

Lemma ledger_tables_sound_witness :
  reachable service_1 /\ is_Some (service_1.(committed).(contracttable) !! contract_1) /\
  tables_ok (was_committed service_1) service_1.(committed).
Proof.
  split; [exact service_1_reachable|]. split; [vm_compute; by eexists|].
  exact (proj1 (ledger_tables_sound service_1 service_1_reachable)).
Defined.

Lemma ledger_history_immutable_witness :
  evolves service_1.(committed) service_2.(committed) /\
  bool_decide (is_Some (service_2.(committed).(ccltable) !! ccl_key contract_1 hash_1)) = true.
Proof.
  split; [|vm_compute; done].
  apply (ledger_history_immutable service_1 service_2 service_1_reachable). apply run_steps.
Defined.

Lemma is_ok_execute r s : is_ok (execute r s).1 = true -> exists a, execute r s = (Ok a, (execute r s).2).
Proof. destruct (execute r s) as [[a|e] s']; [by exists a|done]. Qed.

Lemma accepted_update_authentic_witness :
  exists a s' u c ei, execute (UPDATE_CONTRACT_STATE update_1) service_1 = (Ok a, s') /\
    (latest service_1).(contracttable) !! u.(StateUpdateInfo.contract_id) = Some c /\
    ei ∈ c.(ContractInfo.enclave_info) /\
    signed_by ei.(ContractEnclaveInfo.contract_enclave_id)
      (update_message (bytes_of "n1") c.(ContractInfo.contract_code_hash) u).
Proof.
  destruct (is_ok_execute _ _ (proj1 run_results)) as [a Ha].
  destruct (accepted_update_authentic _ _ _ _ service_1_reachable Ha)
    as (u & c & ei & e & Hc & Hei & He & _ & _ & _ & Hs & _).
  exists a, (execute (UPDATE_CONTRACT_STATE update_1) service_1).2, u, c, ei. split; [exact Ha|]. split; [exact Hc|]. split; [exact Hei|exact Hs].
Defined.

Definition restarted : node := primary_node (run service_1 [Restart 0]).
Definition contract_now : ContractInfo.t :=
  ContractInfo.mk contract_1 (bytes_of "code") (bytes_of "meta") ck [bytes_of "PS"] [entry_1] hash_0 true.

Lemma update_without_verifier_crashes_witness :
  (update_contract_state update_1 restarted).1 = Err (UndefinedBehaviour "null pubk_verifier").
Proof.
  apply (update_without_verifier_crashes restarted update_1 upd_1 contract_now (new_enclave reg_enclave)).
  - reflexivity.
  - vm_compute; reflexivity.
  - vm_compute; reflexivity.
  - reflexivity.
  - left.
  - reflexivity.
  - apply dependencies_met_spec. vm_compute. reflexivity.
  - discriminate.
  - vm_compute. reflexivity.
Defined.

Definition answer_1 : Get_current_state_info.Out :=
  Get_current_state_info.mk hash_0 true (bytes_of "priv" ++ contract_1 ++ hash_0).

Lemma answer_1_result :
  (execute (GET_CURRENT_STATE_INFO_FOR_CONTRACT contract_1) service_1).1 = Ok (CurrentStateOut answer_1).
Proof. vm_compute. reflexivity. Qed.

Lemma current_state_answer_correct_witness :
  exists c, service_1.(committed).(contracttable) !! contract_1 = Some c /\
    c.(ContractInfo.current_state_hash) <> [] /\ state_signed c.
Proof.
  destruct (execute (GET_CURRENT_STATE_INFO_FOR_CONTRACT contract_1) service_1) as [r s'] eqn:He.
  pose proof answer_1_result as Hr. rewrite He in Hr. cbn [fst] in Hr. subst r.
  destruct (current_state_answer_correct _ _ _ _ service_1_reachable He) as (c & pr & pu & k & Hc & Hn & Hs & _).
  exists c. split; [exact Hc|]. split; [exact Hn|exact Hs].
Defined.

(** An update does not need an initialised contract, although the comment on the check of the
    previous state says it ensures one: in a reachable state of the service, an update whose previous
    state is empty is accepted for a contract that was registered and never initialised. *)
Theorem update_accepted_without_initialization :
  exists (C : CCF) (s : service) i c, reachable s /\
    (latest s).(contracttable) !! contract_1 = Some c /\ c.(ContractInfo.current_state_hash) = [] /\
    (latest s).(ccltable) = ∅ /\ is_ok (execute (UPDATE_CONTRACT_STATE i) s).1 = true.
Proof.
  exists ccf_1, service_0, update_0, (ContractInfo.mk contract_1 (bytes_of "code") [] ck [bytes_of "PS"] [entry_1] [] true).
  split; [exact service_0_reachable|]. vm_compute. done.
Qed.
