(* ===== verification/EnclaveData.v ===== *)
(** The keys of an enclave and the frame of its entry points: {eservice,pservice}/lib/libpdo_enclave/
    enclave_data.{h,cpp} and eservice/lib/libpdo_enclave/signup_enclave.cpp.  SGX is a parameter. *)
From S2P Require Import Prelude Crypto BlockStore Codec Json Keys.

(** * SGX *)

(** [sgx_seal_data_ex] takes the size of the output buffer last; [None] of the two functions on a blob is a
    blob shorter than the header it is cast to.  A status that is not a success is the exception that
    [ThrowSgxError] makes of it.  [heap_after b] is what lies in memory behind a buffer that holds [b]. *)
Class SGX := {
  sgx_calc_sealed_data_size : Z -> Z -> Z;
  sgx_seal_data_ex : nat -> bytes -> bytes -> Z -> result bytes;
  sgx_unseal_data : bytes -> option (result (bytes * bytes));
  sgx_get_encrypt_txt_len : bytes -> option Z;
  sgx_create_report : bytes -> bytes -> result bytes;
  sgx_sha256_msg : bytes -> result bytes;
  sgx_read_rand : nat -> Z -> result bytes;
  heap_after : bytes -> bytes;
}.

(** What is sealed is unsealed, also from a larger buffer, with its additional data and length; a blob has
    the size that was computed for it, which is the size of the buffer. *)
Class SGXLaws `{SGX} : Prop := {
  unseal_seal n aad d size blob rest : sgx_seal_data_ex n aad d size = Ok blob ->
    sgx_unseal_data (blob ++ rest) = Some (Ok (aad, d)) /\ sgx_get_encrypt_txt_len (blob ++ rest) = Some (zlen d);
  seal_size n aad d size blob : sgx_seal_data_ex n aad d size = Ok blob ->
    zlen blob = size /\ size = sgx_calc_sealed_data_size (zlen aad) (zlen d);
  read_rand_length n len b : sgx_read_rand n len = Ok b -> zlen b = len;
}.

(** * The handlers around the body of an entry point *)

Definition error_code (e : error) : pdo_err_t :=
  match e with
  | ValueError _ => PDO_ERR_VALUE
  | RuntimeError _ => PDO_ERR_RUNTIME
  | CryptoError _ => PDO_ERR_CRYPTO
  | MemoryError _ => PDO_ERR_MEMORY
  | SystemError _ => PDO_ERR_SYSTEM
  | IOError _ => PDO_ERR_IO
  | IndexError _ => PDO_ERR_INDEX
  | DivisionByZero _ => PDO_ERR_DIVIDE_BY_ZERO
  | OverflowError _ => PDO_ERR_OVERFLOW
  | SystemBusyError _ => PDO_ERR_SYSTEM_BUSY
  | NotFoundError _ => PDO_ERR_NOTFOUND
  | _ => PDO_ERR_UNKNOWN
  end.

(** An exception becomes its code, and the outputs are not given. *)
Definition ecall {S A} (m : M S A) : M S (pdo_err_t * option A) :=
  catchM (let! a := m in retM (PDO_SUCCESS, Some a)) (fun e => retM (error_code e, None)).

(** Copy into an output buffer of [n] bytes that was zeroed. *)
Definition fill_buffer (n : Z) (b : bytes) : bytes := b ++ replicate (Z.to_nat (n - zlen b)) Byte.x00.

(** [strncpy_s(dest, n, src.c_str(), src.size())] into a zeroed buffer: without room for the terminating NUL
    the copy is made and then its first byte is cleared. *)
Definition strncpy_s (n : Z) (src : bytes) : bytes :=
  if bool_decide (n <= zlen src)%Z then fill_buffer n (<[0 := Byte.x00]> (take (Z.to_nat n) src)) else fill_buffer n src.

(** A draw of random bytes; the state is the number of draws made so far. *)
Definition with_draw {A} (f : nat -> result A) : M nat A := fun n => (f n, S n).

(** * enclave_data.cpp *)

Record EnclaveData := mk_enclave_data {
  public_signing_key_ : Key;
  private_signing_key_ : Key;
  public_encryption_key_ : option RSA;
  private_encryption_key_ : option RSA;
  serialized_private_data_ : bytes;
  serialized_public_data_ : bytes;
}.

Definition cMaxSealedDataSize : Z := 8192.
Definition cMaxPublicDataSize : Z := 4096.

Section EnclaveDataOps.
Context `{OpenSSL, LibC, OpenSSLKeys, SGX}.

Definition required (o : option bytes) (msg : string) : result bytes := of_option o (ValueError msg).

(** The keys; the serialized data is set afterwards. *)
Definition DeserializeSealedData (inSerializedEnclaveData : bytes) : result EnclaveData :=
  let? parsed := of_option (json_parse (c_str inSerializedEnclaveData))
                   (ValueError "Failed to parse the Enclave data, badly formed JSON") in
  throw_if (negb (json_is_object parsed)) (ValueError "Failed to parse the key store object") ;;?
  let? v := required (dotget_cstring parsed (bytes_of "SigningKey") (bytes_of "PublicKey"))
              "Failed to retrieve public signing key from the key store" in
  let? pub := sig_PublicKey v in
  let? v := required (dotget_cstring parsed (bytes_of "SigningKey") (bytes_of "PrivateKey"))
              "Failed to retrieve private signing key from the key store" in
  let? priv := sig_PrivateKey v in
  let? v := required (dotget_cstring parsed (bytes_of "EncryptionKey") (bytes_of "PublicKey"))
              "Failed to retrieve public encryption key from the key store" in
  let? epub := pkenc_PublicKey v in
  let? v := required (dotget_cstring parsed (bytes_of "EncryptionKey") (bytes_of "PrivateKey"))
              "Failed to retrieve private encryption key from the key store" in
  let? epriv := pkenc_PrivateKey v in
  Ok (mk_enclave_data pub priv epub epriv [] []).

(** [json_object_dotset_string(o, name, key.Serialize().c_str())] with the two checks around it. *)
Definition set_key (l : list (bytes * json)) (path : list bytes) (serialized : result bytes) (empty failed : string) :
    result (list (bytes * json)) :=
  let? t := serialized in
  throw_if (bool_decide (t = [])) (RuntimeError empty) ;;?
  of_option (json_object_dotset_string l path (c_str t)) (RuntimeError failed).

(** The text in the buffer that [json_serialize_to_buffer] filled. *)
Definition serialized_object (l : list (bytes * json)) : result bytes :=
  of_option (json_serialize (JObject l)) (RuntimeError "enclave data serialization failed").

Definition SerializePrivateData (d : EnclaveData) : result bytes :=
  let? o := set_key [] [bytes_of "SigningKey"; bytes_of "PrivateKey"] (sig_private_key.Serialize d.(private_signing_key_))
              "failed to serialize the private signing key" "enclave data serialization failed on private signing key" in
  let? o := set_key o [bytes_of "SigningKey"; bytes_of "PublicKey"] (sig_public_key.Serialize d.(public_signing_key_))
              "failed to serialize the public signing key" "enclave data serialization failed on public signing key" in
  let? o := set_key o [bytes_of "EncryptionKey"; bytes_of "PrivateKey"] (pkenc_private_key.Serialize d.(private_encryption_key_))
              "failed to serialize the private encryption key" "enclave data serialization failed on private encryption key" in
  let? o := set_key o [bytes_of "EncryptionKey"; bytes_of "PublicKey"] (pkenc_public_key.Serialize d.(public_encryption_key_))
              "failed to serialize the public encryption key" "enclave data serialization failed on public encryption key" in
  serialized_object o.

(** The contract enclave names its interpreter; the provisioning enclave has none. *)
Definition SerializePublicData (interpreter : option bytes) (d : EnclaveData) : result bytes :=
  let? o := match interpreter with
            | Some i => of_option (json_object_dotset_string [] [bytes_of "Interpreter"] (c_str i))
                          (RuntimeError "enclave data serialization failed on interpreter identity")
            | None => Ok []
            end in
  let? o := set_key o [bytes_of "VerifyingKey"] (sig_public_key.Serialize d.(public_signing_key_))
              "failed to serialize the public signing key" "enclave data serialization failed on public signing key" in
  let? o := set_key o [bytes_of "EncryptionKey"] (pkenc_public_key.Serialize d.(public_encryption_key_))
              "failed to serialize the public encryption key" "enclave data serialization failed on public encryption key" in
  serialized_object o.

(** The end of both constructors. *)
Definition with_serialized_data (interpreter : option bytes) (d : EnclaveData) : result EnclaveData :=
  let? priv := SerializePrivateData d in
  let? pub := SerializePublicData interpreter d in
  Ok (mk_enclave_data d.(public_signing_key_) d.(private_signing_key_) d.(public_encryption_key_)
        d.(private_encryption_key_) priv pub).

(** Run a method that changes an object. *)
Definition run_method {S} (m : M S unit) (s : S) : result S := let '(r, s) := m s in let? _ := r in Ok s.

(** [EnclaveData()]; it draws randomness twice. *)
Definition EnclaveData_new (interpreter : option bytes) : M nat EnclaveData :=
  let! priv := with_draw (fun n => run_method (sig_private_key.Generate n) (sig_Key UNDEFINED)) in
  let! pub := liftM (sig_private_key.GetPublicKey priv) in
  let! epriv := with_draw (fun n => run_method (pkenc_private_key.Generate n) None) in
  let! epub := liftM (pkenc_private_key.GetPublicKey epriv) in
  liftM (with_serialized_data interpreter (mk_enclave_data pub priv epub epriv [] [])).

Definition unseal (blob : bytes) (msg : string) : result (bytes * bytes) :=
  match sgx_unseal_data blob with
  | None => Err (UndefinedBehaviour "sealed blob shorter than its header")
  | Some r => r
  end.

(** [EnclaveData(inSealedData)].  The sealed text has no terminating NUL: the string that is read from the
    buffer goes on with whatever is behind it. *)
Definition EnclaveData_unseal (interpreter : option bytes) (inSealedData : bytes) : result EnclaveData :=
  let? '(_, decrypted) := unseal inSealedData "Failed to unseal  data" in
  let? d := DeserializeSealedData (c_str (decrypted ++ heap_after decrypted)) in
  with_serialized_data interpreter d.

Definition get_serialized_signing_key (d : EnclaveData) : result bytes := sig_public_key.Serialize d.(public_signing_key_).
Definition get_serialized_encryption_key (d : EnclaveData) : result bytes := pkenc_public_key.Serialize d.(public_encryption_key_).
Definition get_enclave_id (d : EnclaveData) : result bytes := sig_public_key.Serialize d.(public_signing_key_).
Definition encrypt_message (n : nat) (d : EnclaveData) (message : bytes) : result bytes :=
  pkenc_public_key.EncryptMessage n d.(public_encryption_key_) message.
Definition decrypt_message (d : EnclaveData) (cipher : bytes) : result bytes :=
  pkenc_private_key.DecryptMessage d.(private_encryption_key_) cipher.
Definition sign_message (n : nat) (d : EnclaveData) (message : bytes) : result bytes :=
  sig_private_key.SignMessage n d.(private_signing_key_) message.
Definition verify_signature (d : EnclaveData) (message signature : bytes) : result Z :=
  sig_public_key.VerifySignature d.(public_signing_key_) message signature.
Definition max_sig_size (d : EnclaveData) (encoded : bool) : Z :=
  let size := MaxSigSize d.(private_signing_key_) in if encoded then u32 (size * 2) else size.

(** The assertion ends the program. *)
Definition get_sealed_data_size (d : EnclaveData) : result Z :=
  let sdsize := sgx_calc_sealed_data_size 0 (zlen d.(serialized_private_data_)) in
  throw_if (bool_decide (cMaxSealedDataSize <= sdsize)%Z) (UndefinedBehaviour "assertion sdsize < cMaxSealedDataSize") ;;?
  Ok sdsize.
End EnclaveDataOps.

(** * Creating and reading sealed enclave data *)

Record created_data := mk_created {
  outPublicEnclaveData : bytes;
  outPublicEnclaveDataSize : Z;
  outSealedEnclaveData : bytes;
  outSealedEnclaveDataSize : Z;
}.

Section CreateEnclaveData.
Context `{OpenSSL, LibC, OpenSSLKeys, SGX}.

(** The common part of the two [ecall_CreateEnclaveData]: [report] is what the contract enclave does
    between the size checks and the sealing. *)
Definition CreateEnclaveData_body {R} (interpreter : option bytes) (report : EnclaveData -> result R)
    (inAllocatedPublicEnclaveDataSize inAllocatedSealedEnclaveDataSize : Z) : M nat (created_data * R) :=
  let! d := EnclaveData_new interpreter in
  throw_ifM (bool_decide (inAllocatedPublicEnclaveDataSize < zlen d.(serialized_public_data_))%Z)
    (ValueError "Public enclave data buffer size is too small") ;;!
  let! size := liftM (get_sealed_data_size d) in
  throw_ifM (bool_decide (inAllocatedSealedEnclaveDataSize < size)%Z)
    (ValueError "Sealed enclave data buffer size is too small") ;;!
  let! r := liftM (report d) in
  let! sealed := with_draw (fun n => sgx_seal_data_ex n [] d.(serialized_private_data_) (u32 size)) in
  retM (mk_created (strncpy_s inAllocatedPublicEnclaveDataSize d.(serialized_public_data_))
          (zlen d.(serialized_public_data_)) (fill_buffer inAllocatedSealedEnclaveDataSize sealed) size, r).

Definition UnsealEnclaveData_body (interpreter : option bytes) (inSealedEnclaveData : bytes)
    (inAllocatedPublicEnclaveDataSize : Z) : M nat (bytes * Z) :=
  let! d := liftM (EnclaveData_unseal interpreter inSealedEnclaveData) in
  throw_ifM (bool_decide (inAllocatedPublicEnclaveDataSize < zlen d.(serialized_public_data_))%Z)
    (ValueError "Public enclave data buffer size is too small") ;;!
  retM (strncpy_s inAllocatedPublicEnclaveDataSize d.(serialized_public_data_), zlen d.(serialized_public_data_)).
End CreateEnclaveData.

(** * eservice/lib/libpdo_enclave/signup_enclave.cpp *)

(** The build selects the interpreter. *)
Class Build := { USE_WAWAKA_OPT : bool }.

(** interpreter/wawaka_wasm/WawakaInterpreter.cpp *)
Definition GetInterpreterIdentity `{Build} : bytes :=
  if USE_WAWAKA_OPT then bytes_of "wawaka-opt" else bytes_of "wawaka".

(** [sizeof(sgx_report_data_t)]. *)
Definition report_data_size : Z := 64.

Module signup_enclave.
Section Ecalls.
Context `{OpenSSL, LibC, OpenSSLKeys, SGX, Build}.

Definition ecall_CalculateSealedEnclaveDataSize : M nat (pdo_err_t * option Z) := ecall (retM cMaxSealedDataSize).
Definition ecall_CalculatePublicEnclaveDataSize : M nat (pdo_err_t * option Z) := ecall (retM cMaxPublicDataSize).

(** The hash at the start of a zeroed structure. *)
Definition CreateSignupReportData (pOriginatorPublicKeyHash : bytes) (d : EnclaveData) : result bytes :=
  let? signing := get_serialized_signing_key d in
  let? encryption := get_serialized_encryption_key d in
  let hashString := signing ++ encryption ++ c_str pOriginatorPublicKeyHash in
  let? h := sgx_sha256_msg hashString in
  Ok (overwrite (replicate (Z.to_nat report_data_size) Byte.x00) 0 h).

Definition ecall_CreateEnclaveData (inTargetInfo inOriginatorPublicKeyHash : bytes)
    (inAllocatedPublicEnclaveDataSize inAllocatedSealedEnclaveDataSize : Z) :
    M nat (pdo_err_t * option (created_data * bytes)) :=
  ecall (CreateEnclaveData_body (Some GetInterpreterIdentity)
    (fun d => let? reportData := CreateSignupReportData inOriginatorPublicKeyHash d in
              sgx_create_report inTargetInfo reportData)
    inAllocatedPublicEnclaveDataSize inAllocatedSealedEnclaveDataSize).

Definition ecall_UnsealEnclaveData (inSealedEnclaveData : bytes) (inAllocatedPublicEnclaveDataSize : Z) :
    M nat (pdo_err_t * option (bytes * Z)) :=
  ecall (UnsealEnclaveData_body (Some GetInterpreterIdentity) inSealedEnclaveData
           inAllocatedPublicEnclaveDataSize).
End Ecalls.
End signup_enclave.
