(* ===== verification/EnclaveDataSpec.v ===== *)
(** Correctness of the enclaves' keys: what is created and sealed is unsealed, whatever lies behind the
    buffer it is read from, and the report binds the keys. *)
From S2P Require Import Prelude Crypto BlockStore Codec Json JsonSpec Keys KeysSpec EnclaveData.

Lemma ecall_ok {S A} (m : M S A) s c o s' : ecall m s = (Ok (c, o), s') ->
  (exists a, m s = (Ok a, s') /\ c = PDO_SUCCESS /\ o = Some a) \/
  (exists e, m s = (Err e, s') /\ c = error_code e /\ o = None).
Proof.
  unfold ecall, catchM, bindM. destruct (m s) as [[a|e] s1].
  - intros [= <- <- <-]. left. eauto.
  - destruct e; try done; intros [= <- <- <-]; right; eauto.
Qed.

Lemma c_str_app b rest : Byte.x00 ∉ b -> c_str (b ++ rest) = b ++ c_str rest.
Proof.
  induction b as [|x b IH]; [done|]. rewrite not_elem_of_cons. intros [Hx Hb]. cbn [app c_str]. guards. by rewrite IH.
Qed.

Section Spec.
Context {OS : OpenSSL} {LC : LibC} {LL : LibCLaws} {OK : OpenSSLKeys} {OL : OpenSSLKeysLaws} {SG : SGX}.

(** The four keys of an enclave: two generated pairs. *)
Record good_data (d : EnclaveData) : Prop := {
  good_signing : good_private d.(private_signing_key_);
  good_verifying : good_public d.(public_signing_key_) /\ sig_private_key.GetPublicKey d.(private_signing_key_) = Ok d.(public_signing_key_);
  good_encryption : exists k, generated_rsa k /\ d.(private_encryption_key_) = Some k /\
    d.(public_encryption_key_) = Some (RSAPublicKey_dup k);
}.

Lemma set_key_ok l path r m1 m2 l' : set_key l path r m1 m2 = Ok l' ->
  exists t, r = Ok t /\ json_object_dotset_value l path (JString (c_str t)) = Some l'.
Proof.
  unfold set_key, json_object_dotset_string. intros Hs. result_inv. destruct (json_valid_string _); [|done].
  eexists. split; [done|]. by destruct (json_object_dotset_value _ _ _); simplify_eq/=.
Qed.

(** The object that is sealed. *)
Definition private_object (pub priv epub epriv : bytes) : list (bytes * json) :=
  [(bytes_of "SigningKey", JObject [(bytes_of "PrivateKey", JString priv); (bytes_of "PublicKey", JString pub)]);
   (bytes_of "EncryptionKey", JObject [(bytes_of "PrivateKey", JString epriv); (bytes_of "PublicKey", JString epub)])].

Lemma SerializePrivateData_ok d text : SerializePrivateData d = Ok text -> exists pub priv epub epriv,
  sig_public_key.Serialize d.(public_signing_key_) = Ok pub /\ sig_private_key.Serialize d.(private_signing_key_) = Ok priv /\
  pkenc_public_key.Serialize d.(public_encryption_key_) = Ok epub /\
  pkenc_private_key.Serialize d.(private_encryption_key_) = Ok epriv /\
  text = json_serialize_to_buffer_r false 0 (JObject (private_object (c_str pub) (c_str priv) (c_str epub) (c_str epriv))).
Proof.
  unfold SerializePrivateData. intros Hs.
  destruct (set_key [] _ _ _ _) as [o1|] eqn:E1; [|done]. cbn [result_bind] in Hs.
  apply set_key_ok in E1 as (priv & Hpriv & E1). vm_compute in E1. injection E1 as <-.
  destruct (set_key _ _ _ _ _) as [o2|] eqn:E2; [|done]. cbn [result_bind] in Hs.
  apply set_key_ok in E2 as (pub & Hpub & E2). vm_compute in E2. injection E2 as <-.
  destruct (set_key _ _ _ _ _) as [o3|] eqn:E3; [|done]. cbn [result_bind] in Hs.
  apply set_key_ok in E3 as (epriv & Hepriv & E3). vm_compute in E3. injection E3 as <-.
  destruct (set_key _ _ _ _ _) as [o4|] eqn:E4; [|done]. cbn [result_bind] in Hs.
  apply set_key_ok in E4 as (epub & Hepub & E4). vm_compute in E4. injection E4 as <-.
  exists pub, priv, epub, epriv. unfold serialized_object in Hs. injection Hs as <-. by split_and!.
Qed.
End Spec.

Lemma c_str_idem b : c_str (c_str b) = c_str b.
Proof.
  induction b as [|x b IH]; [done|]. cbn [c_str]. case_bool_decide as Hx; [done|]. cbn [c_str]. guards. by rewrite IH.
Qed.

Section RoundTrip.
Context {OS : OpenSSL} {LC : LibC} {LL : LibCLaws} {OK : OpenSSLKeys} {OL : OpenSSLKeysLaws} {SG : SGX}.

(** Only the keys matter. *)
Definition set_serialized (priv pub : bytes) (d : EnclaveData) : EnclaveData :=
  mk_enclave_data d.(public_signing_key_) d.(private_signing_key_) d.(public_encryption_key_)
    d.(private_encryption_key_) priv pub.

Lemma with_serialized_ok i d d' : with_serialized_data i d = Ok d' -> exists priv pub,
  SerializePrivateData d = Ok priv /\ SerializePublicData i d = Ok pub /\ d' = set_serialized priv pub d.
Proof. unfold with_serialized_data. intros Hs. result_inv. eauto. Qed.

Lemma with_serialized_again i d d' : with_serialized_data i d = Ok d' ->
  with_serialized_data i (set_serialized [] [] d') = Ok d'.
Proof.
  intros (priv & pub & Hp & Hq & ->)%with_serialized_ok. unfold with_serialized_data.
  change (SerializePrivateData (set_serialized [] [] (set_serialized priv pub d))) with (SerializePrivateData d).
  change (SerializePublicData i (set_serialized [] [] (set_serialized priv pub d))) with (SerializePublicData i d).
  by rewrite Hp, Hq.
Qed.

Lemma private_text_parsed pub priv epub epriv rest :
  json_parse (c_str (json_serialize_to_buffer_r false 0 (JObject (private_object pub priv epub epriv)) ++ rest)) =
  Some (JObject (private_object pub priv epub epriv)).
Proof.
  assert (Hw : wf_json (JObject (private_object pub priv epub epriv)) = true) by (by vm_compute).
  rewrite c_str_app by (by apply serialize_no_nul). apply serialized_object_parses; [done|by vm_compute].
Qed.

Lemma private_object_fields pub priv epub epriv :
  Byte.x00 ∉ pub -> Byte.x00 ∉ priv -> Byte.x00 ∉ epub -> Byte.x00 ∉ epriv ->
  let o := JObject (private_object pub priv epub epriv) in
  dotget_cstring o (bytes_of "SigningKey") (bytes_of "PublicKey") = Some pub /\
  dotget_cstring o (bytes_of "SigningKey") (bytes_of "PrivateKey") = Some priv /\
  dotget_cstring o (bytes_of "EncryptionKey") (bytes_of "PublicKey") = Some epub /\
  dotget_cstring o (bytes_of "EncryptionKey") (bytes_of "PrivateKey") = Some epriv.
Proof.
  intros H1 H2 H3 H4 o. unfold o, dotget_cstring, get_cstring.
  split_and!; [transitivity (Some (c_str pub))|transitivity (Some (c_str priv))|transitivity (Some (c_str epub))|
    transitivity (Some (c_str epriv))]; try reflexivity; by rewrite c_str_id.
Qed.

(** Reading back what was serialized gives the keys, whatever follows the text in memory. *)
Lemma deserialize_serialized d text rest : good_data d -> SerializePrivateData d = Ok text ->
  DeserializeSealedData (c_str (text ++ rest)) = Ok (set_serialized [] [] d).
Proof.
  intros [Hpriv [Hpub _] (k & Hk & Hek & Hep)] (pub & priv & epub & epriv & S1 & S2 & S3 & S4 & ->)%SerializePrivateData_ok.
  rewrite Hep in S3. rewrite Hek in S4. destruct (generated_rsa_size k Hk) as [Hd _].
  destruct (sig_public_serialized _ _ Hpub S1) as (R1 & _ & N1). destruct (sig_private_serialized _ _ Hpriv S2) as (R2 & _ & N2).
  destruct (pkenc_public_serialized (RSAPublicKey_dup k) _ eq_refl S3) as (R3 & _ & N3).
  destruct (pkenc_private_serialized k _ Hd S4) as (R4 & _ & N4).
  rewrite !(c_str_id _ N1), !(c_str_id _ N2), !(c_str_id _ N3), !(c_str_id _ N4).
  destruct (private_object_fields pub priv epub epriv N1 N2 N3 N4) as (F1 & F2 & F3 & F4).
  unfold DeserializeSealedData. rewrite c_str_idem, private_text_parsed. cbn [of_option result_bind json_is_object negb throw_if].
  rewrite F1, F2, F3, F4. cbn [required of_option result_bind]. rewrite R1. cbn [result_bind]. rewrite R2. cbn [result_bind].
  rewrite R3. cbn [result_bind]. rewrite R4. cbn [result_bind]. unfold set_serialized. by rewrite Hep, Hek.
Qed.

Lemma EnclaveData_new_ok i n d n' : EnclaveData_new i n = (Ok d, n') ->
  good_data d /\ with_serialized_data i (set_serialized [] [] d) = Ok d.
Proof.
  unfold EnclaveData_new, with_draw. run_monad. unfold run_method.
  destruct (sig_private_key.Generate n (sig_Key UNDEFINED)) as [[[]|?] priv] eqn:Hg; [|done]. cbn [result_bind].
  apply generated_key in Hg. destruct (public_of_good _ Hg) as (pub & Hp & Hpub & _). rewrite Hp.
  destruct (pkenc_private_key.Generate (S n) None) as [[[]|?] epriv] eqn:He; [|done]. cbn [result_bind].
  assert (exists k, generated_rsa k /\ epriv = Some k) as (k & Hk & ->).
  { unfold pkenc_private_key.Generate in He. run_monad_in He. destruct (RSA_generate_key_ex _ _ _) as [k|] eqn:Hr; [|done].
    injection He as <-. exists k. split; [by eexists|done]. }
  cbn [pkenc_private_key.GetPublicKey of_option result_bind].
  destruct (with_serialized_data i _) as [d0|] eqn:Hw; [|done]. intros [= -> _].
  split; [|by eapply with_serialized_again]. apply with_serialized_ok in Hw as (a & b & _ & _ & ->).
  split; cbn; [done|done|]. by exists k.
Qed.
End RoundTrip.

Lemma fill_buffer_length n b : (zlen b <= n)%Z -> zlen (fill_buffer n b) = n.
Proof. unfold fill_buffer, zlen. rewrite length_app, length_replicate. lia. Qed.

Lemma strncpy_s_length n b : (zlen b <= n)%Z -> zlen (strncpy_s n b) = n.
Proof.
  intros Hn. unfold strncpy_s. case_bool_decide; apply fill_buffer_length; [|done].
  unfold zlen in *. rewrite length_insert, length_take. lia.
Qed.

Section Signup.
Context {OS : OpenSSL} {LC : LibC} {LL : LibCLaws} {OK : OpenSSLKeys} {OL : OpenSSLKeysLaws} {SG : SGX} {SL : SGXLaws}.

(** What creating enclave data gives: keys, a report on them, and the sealed data, from which the same keys are unsealed whatever
    follows it in its buffer. *)
Lemma created_data_sealed {R} i (report : EnclaveData -> result R) ps ss n c r n' :
  CreateEnclaveData_body i report ps ss n = (Ok (c, r), n') ->
  exists d sealed, good_data d /\ report d = Ok r /\ (forall rest, EnclaveData_unseal i (sealed ++ rest) = Ok d) /\
    c = mk_created (strncpy_s ps d.(serialized_public_data_)) (zlen d.(serialized_public_data_)) (fill_buffer ss sealed) (zlen sealed) /\
    (zlen d.(serialized_public_data_) <= ps)%Z /\ (zlen sealed <= ss)%Z.
Proof.
  unfold CreateEnclaveData_body. intros (d & n1 & Hd & H1)%bind_ok. apply EnclaveData_new_ok in Hd as [Hgood Hser].
  apply bind_ok in H1 as (u1 & n2 & Hps & H2). apply bind_ok in H2 as (size & n3 & Hsize & H3).
  apply bind_ok in H3 as (u2 & n4 & Hss & H4). apply bind_ok in H4 as (r0 & n5 & Hr & H5).
  apply bind_ok in H5 as (sealed & n6 & Hsealed & H6). injection H6 as <- <- <-. exists d, sealed.
  unfold throw_ifM, throw_if in Hps, Hss. case_bool_decide as Hp; [done|]. case_bool_decide as Hs; [done|].
  unfold liftM in Hsize, Hr. injection Hsize as Hsize _. injection Hr as Hr _.
  unfold get_sealed_data_size in Hsize. result_inv. unfold with_draw in Hsealed. injection Hsealed as Hsealed _.
  destruct (seal_size _ _ _ _ _ Hsealed) as [Hlen Hcalc]. change (zlen (@nil byte)) with 0%Z in Hcalc. guard_facts.
  assert (zlen sealed = sgx_calc_sealed_data_size 0 (zlen d.(serialized_private_data_))) as Hz by (rewrite Hlen, Hcalc; lia).
  split_and!; try done; [|by rewrite Hz|lia|rewrite Hz; lia]. intros rest.
  unfold EnclaveData_unseal, unseal. destruct (unseal_seal _ _ _ _ _ rest Hsealed) as [-> _].
  cbn [result_bind]. pose proof (with_serialized_ok _ _ _ Hser) as (priv & pub & Hpriv & _ & Heq).
  assert (serialized_private_data_ d = priv) as -> by (rewrite Heq; done).
  rewrite (deserialize_serialized d priv) by done. exact Hser.
Qed.

(** The same, with buffers of the caller's sizes. *)
Lemma created_data_ok {R} i (report : EnclaveData -> result R) ps ss n c r n' :
  CreateEnclaveData_body i report ps ss n = (Ok (c, r), n') ->
  exists d, good_data d /\ report d = Ok r /\ EnclaveData_unseal i c.(outSealedEnclaveData) = Ok d /\
    c.(outPublicEnclaveData) = strncpy_s ps d.(serialized_public_data_) /\
    c.(outPublicEnclaveDataSize) = zlen d.(serialized_public_data_) /\
    (zlen d.(serialized_public_data_) <= ps)%Z /\
    zlen c.(outSealedEnclaveData) = ss /\ zlen c.(outPublicEnclaveData) = ps.
Proof.
  intros (d & sealed & Hgood & Hr & Hun & -> & Hps & Hss)%created_data_sealed. exists d. cbn.
  split_and!; try done; [apply Hun|by apply fill_buffer_length|by apply strncpy_s_length].
Qed.

(** C25: signing up an enclave.  When the enclave creates its data, the keys are two fresh pairs; the report
    contains the hash of the public keys and of the originator's key hash; the sealed buffer, padded to the
    size the caller allocated and read past its end, unseals to the same keys and the same public data; and
    a signature of the enclave verifies under the key it publishes. *)
Theorem signup_data_roundtrip {BU : Build} target okh ps ss n c report n' :
  signup_enclave.ecall_CreateEnclaveData target okh ps ss n = (Ok (PDO_SUCCESS, Some (c, report)), n') ->
  exists d id ek h, good_data d /\ EnclaveData_unseal (Some GetInterpreterIdentity) c.(outSealedEnclaveData) = Ok d /\
    get_enclave_id d = Ok id /\ get_serialized_encryption_key d = Ok ek /\
    sgx_sha256_msg (id ++ ek ++ c_str okh) = Ok h /\
    sgx_create_report target (overwrite (replicate (Z.to_nat report_data_size) Byte.x00) 0 h) = Ok report /\
    zlen c.(outSealedEnclaveData) = ss /\ zlen c.(outPublicEnclaveData) = ps /\
    (forall k, signup_enclave.ecall_UnsealEnclaveData c.(outSealedEnclaveData) ps k =
       (Ok (PDO_SUCCESS, Some (c.(outPublicEnclaveData), c.(outPublicEnclaveDataSize))), k)) /\
    (forall k m sg, sign_message k d m = Ok sg -> exists vk, sig_PublicKey id = Ok vk /\
       sig_public_key.VerifySignature vk m sg = Ok 1%Z).
Proof.
  unfold signup_enclave.ecall_CreateEnclaveData. intros [(a & Hb & _ & [= <-])|(e & _ & _ & [=])]%ecall_ok.
  destruct (created_data_ok _ _ _ _ _ _ _ _ Hb) as (d & Hgood & Hreport & Hun & Hpub & Hsize & Hps & Hss & Hlen).
  pose proof (conj Hss Hlen) as Hsizes. clear Hss Hlen. result_inv. unfold signup_enclave.CreateSignupReportData in E. result_inv.
  exists d, a0, a1, a2. destruct Hsizes. split_and!; try done.
  - intros k. unfold signup_enclave.ecall_UnsealEnclaveData, UnsealEnclaveData_body, ecall, catchM. run_monad. rewrite Hun.
    rewrite bool_decide_eq_false_2 by lia. by rewrite Hpub, Hsize.
  - intros k m sg Hsg. destruct Hgood as [Hk [Hgp Hpk] _]. destruct (signature_ok _ _ _ _ [] Hk Hsg) as (vk & Hvk & _ & Hv & _).
    rewrite app_nil_r in Hv. exists vk. split; [|done]. assert (vk = public_signing_key_ d) as -> by congruence.
    by eapply sig_public_serialized.
Qed.
End Signup.

(** The enclave's signatures verify under its own public key. *)
Lemma good_data_verifies {OS : OpenSSL} {OK : OpenSSLKeys} {OL : OpenSSLKeysLaws} d k m sg :
  good_data d -> sign_message k d m = Ok sg -> verify_signature d m sg = Ok 1%Z.
Proof.
  intros [Hk [_ Hp] _] Hs. destruct (signature_ok _ _ _ _ [] Hk Hs) as (p & Hp' & _ & Hv & _).
  rewrite app_nil_r in Hv. unfold verify_signature. assert (p = d.(public_signing_key_)) as <- by congruence. exact Hv.
Qed.
