(* ===== verification/Attestation.v ===== *)
(** Attestation: common/crypto/verify_ias_report/verify-report.cpp.  Certificates and their signatures are a
    parameter; the status of a quote, the quote inside a report and the checks around the signature are
    the source's. *)
From S2P Require Import Prelude Crypto Codec Json.

(** What the code uses of OpenSSL's certificates: the return values of [X509_verify_cert] against the one
    trusted certificate and of [EVP_VerifyFinal], and [EVP_DecodeBlock], which pads its output with NUL.
    The root certificate is a file the build includes. *)
Class X509 := {
  certificate : Type;
  pkey : Type;
  PEM_read_bio_X509 : bytes -> option certificate;
  X509_get_pubkey : certificate -> option pkey;
  EVP_VerifyFinal : pkey -> bytes -> bytes -> Z;
  X509_verify_cert : certificate -> certificate -> Z;
  EVP_DecodeBlock : bytes -> option bytes;
  IAS_CA_CERT_REQUIRED : bool;
  ias_report_signing_ca_cert_pem : bytes;
}.

Inductive verify_status_t := VERIFY_SUCCESS | VERIFY_FAILURE.
#[global] Instance verify_status_eq_dec : EqDecision verify_status_t.
Proof. solve_decision. Defined.

Inductive quote_status_e :=
  | QS_INVALID | QS_OK | QS_GROUP_OUT_OF_DATE | QS_CONFIGURATION_NEEDED | QS_SW_HARDENING_NEEDED
  | QS_CONFIGURATION_AND_SW_HARDENING_NEEDED.

Definition quote_status_number (q : quote_status_e) : Z :=
  match q with
  | QS_INVALID => 0
  | QS_OK => 1
  | QS_GROUP_OUT_OF_DATE => 2
  | QS_CONFIGURATION_NEEDED => 3
  | QS_SW_HARDENING_NEEDED => 4
  | QS_CONFIGURATION_AND_SW_HARDENING_NEEDED => 5
  end.

(** The entries of the table after [QS_INVALID], which the loop skips. *)
Definition quote_status : list (quote_status_e * bytes) :=
  [(QS_OK, bytes_of "OK"); (QS_GROUP_OUT_OF_DATE, bytes_of "GROUP_OUT_OF_DATE");
   (QS_CONFIGURATION_NEEDED, bytes_of "CONFIGURATION_NEEDED");
   (QS_SW_HARDENING_NEEDED, bytes_of "SW_HARDENING_NEEDED");
   (QS_CONFIGURATION_AND_SW_HARDENING_NEEDED, bytes_of "CONFIGURATION_AND_SW_HARDENING_NEEDED")].

Section Quotes.
Context `{LibC, X509}.

(** [s] is at most as long as the report it was parsed from. *)
Definition get_quote_status (ias_report : bytes) (ias_report_len : Z) : quote_status_e :=
  match json_parse (c_str ias_report) with
  | Some jo =>
      match get_cstring jo (bytes_of "isvEnclaveQuoteStatus") with
      | Some s =>
          let s := take (Z.to_nat ias_report_len) s in
          match list_find (fun q => q.2 = s) quote_status with
          | Some (_, q) => q.1
          | None => QS_INVALID
          end
      | None => QS_INVALID
      end
  | None => QS_INVALID
  end.

Definition verify_enclave_quote_status (ias_report : bytes) (ias_report_len quote_status_flags : Z) : verify_status_t :=
  match get_quote_status ias_report ias_report_len with
  | QS_INVALID => VERIFY_FAILURE
  | QS_OK => VERIFY_SUCCESS
  | qs => if bool_decide (Z.land quote_status_flags (Z.shiftl 1 (quote_status_number qs)) = 0%Z)
          then VERIFY_FAILURE else VERIFY_SUCCESS
  end.

(** The decoded text without the padding, [None] when it does not decode; the last two characters are read
    also when there are none. *)
Definition EVP_DecodeBlock_wrapper (in_ : bytes) : result (option bytes) :=
  match EVP_DecodeBlock in_ with
  | None => Ok None
  | Some buf =>
      match rev in_ with
      | a :: b :: _ =>
          let pad := if bool_decide (a = "="%byte) then (if bool_decide (b = "="%byte) then 2 else 1) else 0 in
          Ok (Some (take (length buf - pad) buf))
      | _ => Err (UndefinedBehaviour "signature shorter than two characters")
      end
  end.

(** The decoded signature is copied into a buffer of 2048 bytes. *)
Definition verify_ias_report_signature (ias_attestation_signing_cert_pem ias_report ias_signature : bytes) :
    result verify_status_t :=
  match (crt ← PEM_read_bio_X509 (c_str ias_attestation_signing_cert_pem); X509_get_pubkey crt) with
  | None => Ok VERIFY_FAILURE
  | Some key =>
      let? decoded := EVP_DecodeBlock_wrapper ias_signature in
      match decoded with
      | None => Ok VERIFY_FAILURE
      | Some sig =>
          throw_if (bool_decide (zlen sig > 2048)%Z) (UndefinedBehaviour "signature longer than its buffer") ;;?
          Ok (if bool_decide (EVP_VerifyFinal key ias_report sig = 1%Z) then VERIFY_SUCCESS else VERIFY_FAILURE)
      end
  end.

(** Without a root certificate, in simulator mode, nothing verifies; the assertion is on a certificate of the
    build. *)
Definition verify_ias_certificate_chain (cert_pem : bytes) : result verify_status_t :=
  if negb IAS_CA_CERT_REQUIRED then Ok VERIFY_FAILURE
  else
    match PEM_read_bio_X509 (c_str cert_pem) with
    | None => Ok VERIFY_FAILURE
    | Some crt =>
        let? cacrt := of_option (PEM_read_bio_X509 (c_str ias_report_signing_ca_cert_pem)) (UndefinedBehaviour "assertion cacrt != NULL") in
        Ok (if bool_decide (X509_verify_cert cacrt crt <= 0)%Z then VERIFY_FAILURE else VERIFY_SUCCESS)
    end.
End Quotes.

(** [strstr] and [strchr]: the text from the first occurrence on. *)
Fixpoint strstr (s needle : bytes) : option bytes :=
  match strip_prefix needle s with
  | Some _ => Some s
  | None => match s with [] => None | _ :: s => strstr s needle end
  end.

(** * The fields of an sgx_quote_t *)

(** The structures are packed: a quote has 48 bytes before its report body of 384. *)
Definition report_body_offset : Z := 48.
Definition attributes_offset : Z := report_body_offset + 48.
Definition mr_enclave_offset : Z := report_body_offset + 64.
Definition report_data_offset : Z := report_body_offset + 320.
Definition quote_body_size : Z := report_body_offset + 384.
Definition SGX_HASH_SIZE : Z := 32.

Definition quote_field (quote : bytes) (offset size : Z) : result bytes :=
  if bool_decide (offset + size <= zlen quote)%Z then Ok (subseq quote offset size)
  else Err (UndefinedBehaviour "quote shorter than sgx_quote_t").

(** The structure has a signature length after the report body; the signature itself is not part of it. *)
Definition sizeof_sgx_quote_t : Z := quote_body_size + 4.

(** The quote of a report, found by its member name without parsing the JSON text; a quote that is too short
    is filled up with zeros. *)
Definition get_quote_from_report `{X509} (report : bytes) : option bytes :=
  let buf := c_str report in
  let json_string := [Byte.x22] ++ bytes_of "isvEnclaveQuoteBody" ++ [Byte.x22] ++ bytes_of ":" ++ [Byte.x22] in
  at_name ← strstr buf json_string;
  let p_begin := drop (length json_string) at_name in
  p_end ← strstr p_begin [Byte.x22];
  quote_bin ← EVP_DecodeBlock (take (length p_begin - length p_end) p_begin);
  if bool_decide (zlen quote_bin > sizeof_sgx_quote_t)%Z then None
  else Some (overwrite (replicate (Z.to_nat sizeof_sgx_quote_t) Byte.x00) 0 quote_bin).
