(* ===== verification/Provisioning.v ===== *)
(** The provisioning enclave: pservice/lib/libpdo_enclave/secret_enclave.cpp.  It creates and seals secrets
    and gives one to a contract enclave whose attestation it has verified. *)
From S2P Require Import Prelude Crypto BlockStore Codec Json Keys EnclaveData Attestation.

(** What the build fixes: whether SGX is simulated, the measurement and the attributes expected of contract
    enclaves (a generated header).  And two things the code leaves to memory: what the memory that held [b]
    contains after it is freed, and what a failed unsealing leaves in a zeroed buffer. *)
Class ProvisioningBuild := {
  IS_SGX_SIMULATOR : bool;
  ESERVICE_ENCLAVE_MRENCLAVE : bytes;
  attribute_mask_flags : Z;
  attributes_flags : Z;
  released : bytes -> bytes;
  unseal_residue : Z -> bytes;
}.

Definition SGX_FLAGS_DEBUG : Z := 2.
Definition SGX_FLAGS_MODE64BIT : Z := 4.

Module secret_enclave.
Section Ecalls.
Context `{OpenSSL, LibC, OpenSSLKeys, SGX, X509, ProvisioningBuild}.

Definition SECRET_SIZE : Z := SYM_KEY_LEN.
Definition ENCODED_SECRET_SIZE : Z := (SECRET_SIZE * 2)%Z.

(** ** Enclave data *)

Definition ecall_CalculateSealedEnclaveDataSize : M nat (pdo_err_t * option Z) := ecall (retM cMaxSealedDataSize).
Definition ecall_CalculatePublicEnclaveDataSize : M nat (pdo_err_t * option Z) := ecall (retM cMaxPublicDataSize).
Definition ecall_CalculateSealedSecretSize (plain_len : Z) : M nat (pdo_err_t * option Z) :=
  ecall (retM (sgx_calc_sealed_data_size 0 plain_len)).

Definition text_len (blob : bytes) : result Z :=
  of_option (sgx_get_encrypt_txt_len blob) (UndefinedBehaviour "sealed blob shorter than its header").

(** The buffers of an ecall are copied into the enclave before it runs. *)
Definition ecall_CalculatePlainSecretSize (inSealedSecret : bytes) : M nat (pdo_err_t * option Z) :=
  ecall (liftM (text_len inSealedSecret)).

(** The target info is only checked: no report is made. *)
Definition ecall_CreateEnclaveData (inAllocatedPublicEnclaveDataSize inAllocatedSealedEnclaveDataSize : Z) :
    M nat (pdo_err_t * option (created_data * unit)) :=
  ecall (CreateEnclaveData_body None (fun _ => Ok tt) inAllocatedPublicEnclaveDataSize inAllocatedSealedEnclaveDataSize).

Definition ecall_UnsealEnclaveData (inSealedEnclaveData : bytes) (inAllocatedPublicEnclaveDataSize : Z) :
    M nat (pdo_err_t * option (bytes * Z)) :=
  ecall (UnsealEnclaveData_body None inSealedEnclaveData inAllocatedPublicEnclaveDataSize).

(** ** Secrets *)

Definition ecall_CreateSealedSecret (secret_len inAllocatedSealedSecretSize : Z) : M nat (pdo_err_t * option bytes) :=
  ecall (
    throw_ifM (bool_decide (inAllocatedSealedSecretSize < sgx_calc_sealed_data_size 0 secret_len)%Z)
      (ValueError "SealedSecret data buffer size is too small") ;;!
    let! tmp := with_draw (fun n => sgx_read_rand n secret_len) in
    with_draw (fun n => sgx_seal_data_ex n [] tmp (u32 inAllocatedSealedSecretSize))).

Definition UnsealSecret_body (inSealedSecret : bytes) (inAllocatedPlainSecretSize : Z) : result bytes :=
  let? len := text_len inSealedSecret in
  throw_if (bool_decide (inAllocatedPlainSecretSize < len)%Z) (ValueError "PlainSecret data buffer size is too small") ;;?
  let? '(_, secret) := unseal inSealedSecret "Failed to unseal secret" in
  Ok (fill_buffer inAllocatedPlainSecretSize secret).

Definition ecall_UnsealSecret (inSealedSecret : bytes) (inAllocatedPlainSecretSize : Z) : M nat (pdo_err_t * option bytes) :=
  ecall (liftM (UnsealSecret_body inSealedSecret inAllocatedPlainSecretSize)).

(** ** VerifyEnclaveInfo *)

Definition CreateReportData (pOriginatorPublicKeyHash enclaveId enclaveEncryptKey : bytes) : result bytes :=
  let? signingKey := sig_PublicKey enclaveId in
  let? enclaveKey := pkenc_PublicKey enclaveEncryptKey in
  let? signing := sig_public_key.Serialize signingKey in
  let? encryption := pkenc_public_key.Serialize enclaveKey in
  let? h := sgx_sha256_msg (signing ++ encryption ++ c_str pOriginatorPublicKeyHash) in
  Ok (overwrite (replicate (Z.to_nat report_data_size) Byte.x00) 0 h).

Definition parse_object (text : bytes) (badly_formed not_object : string) : result json :=
  let? parsed := of_option (json_parse (c_str text)) (ValueError badly_formed) in
  throw_if (negb (json_is_object parsed)) (ValueError not_object) ;;? Ok parsed.

Definition check_verified (r : verify_status_t) (msg : string) : result unit :=
  throw_if (bool_decide (r <> VERIFY_SUCCESS)) (ValueError msg).

Definition QSF_flags : Z :=
  Z.lor (Z.lor (Z.shiftl 1 (quote_status_number QS_GROUP_OUT_OF_DATE)) (Z.shiftl 1 (quote_status_number QS_SW_HARDENING_NEEDED)))
    (Z.shiftl 1 (quote_status_number QS_CONFIGURATION_AND_SW_HARDENING_NEEDED)).

(** The signature and the two certificates, and the report with its quote. *)
Definition parse_proof (proofData : bytes) : result (bytes * bytes * bytes * bytes * bytes) :=
  let? proof := parse_object proofData "Failed to parse the proofData, badly formed JSON" "Invalid proof, expecting object" in
  let? signature := required (get_cstring proof (bytes_of "signature")) "Invalid proof_signature" in
  let? certs := of_option (json_object_get_array proof (bytes_of "certificates")) (ValueError "Invalid proof_certificates") in
  let? signing_cert := required (array_get_cstring certs 0) "Invalid signing cert" in
  let? ca_cert := required (array_get_cstring certs 1) "Invalid ca cert" in
  let? report_text := required (get_cstring proof (bytes_of "verification_report")) "Invalid proof_verification_report" in
  let? report := parse_object report_text "Failed to parse the verificationReport, badly formed JSON"
                   "Invalid verification_report, expecting object" in
  let? quote_body := required (get_cstring report (bytes_of "isvEnclaveQuoteBody")) "Invalid enclave_quote_body" in
  let? _ := required (get_cstring report (bytes_of "epidPseudonym")) "Invalid epid_pseudonym" in
  Ok (signature, signing_cert, ca_cert, report_text, quote_body).

(** The decoded quote is a temporary that is gone when its fields are read. *)
Definition check_quote (quote_body ownerId enclaveId enclaveEncryptKey : bytes) : result unit :=
  let decoded := Base64EncodedStringToByteArray quote_body in
  throw_if (bool_decide (zlen decoded < quote_body_size)%Z) (UndefinedBehaviour "quote shorter than sgx_quote_t") ;;?
  let quote := released decoded in
  let? expectedReportData := quote_field quote report_data_offset report_data_size in
  let? mrEnclaveFromReport := quote_field quote mr_enclave_offset SGX_HASH_SIZE in
  let? flags := quote_field quote attributes_offset 8 in
  let flags := le_combine flags in
  let? allowed := HexEncodedStringToByteArray ESERVICE_ENCLAVE_MRENCLAVE in
  throw_if (bool_decide (zlen allowed < SGX_HASH_SIZE)%Z) (UndefinedBehaviour "measurement shorter than a hash") ;;?
  throw_if (bool_decide (mrEnclaveFromReport <> take (Z.to_nat SGX_HASH_SIZE) allowed)) (ValueError "Invalid MR_ENCLAVE") ;;?
  let originatorPublicKeyHash := map tolower (ByteArrayToHexEncodedString (ComputeMessageHash ownerId)) in
  let? computedReportData := CreateReportData originatorPublicKeyHash enclaveId enclaveEncryptKey in
  throw_if (bool_decide (computedReportData <> expectedReportData))
    (ValueError "Invalid Report data: computedReportData does not match expectedReportData") ;;?
  throw_if (bool_decide (Z.land flags SGX_FLAGS_MODE64BIT = 0%Z)) (ValueError "Invalid 64-bit flag: 0") ;;?
  throw_if (bool_decide (Z.land attribute_mask_flags SGX_FLAGS_DEBUG <> 0%Z) &&
            bool_decide (Z.land flags SGX_FLAGS_DEBUG <> Z.land attributes_flags SGX_FLAGS_DEBUG))
    (ValueError "Invalid SGX debug flag").

(** The enclave's id and encryption key. *)
Definition VerifyEnclaveInfo (enclaveInfo : bytes) : result (bytes * bytes) :=
  let? info := parse_object enclaveInfo "Failed to parse the enclave info, badly formed JSON"
                 "Invalid enclave_info, expecting object" in
  let? enclaveId := required (get_cstring info (bytes_of "verifying_key")) "Invalid verifying_key" in
  let? enclaveEncryptKey := required (get_cstring info (bytes_of "encryption_key")) "Invalid encryption_key" in
  let? ownerId := required (get_cstring info (bytes_of "owner_id")) "Invalid owner_id" in
  if IS_SGX_SIMULATOR then Ok (enclaveId, enclaveEncryptKey)
  else
    let? proofData := required (get_cstring info (bytes_of "proof_data")) "Invalid proof_data" in
    let? '(signature, signing_cert, ca_cert, report, quote_body) := parse_proof proofData in
    check_verified (verify_enclave_quote_status report (zlen report) QSF_flags) "Invalid Enclave Quote" ;;?
    let? r := verify_ias_certificate_chain ca_cert in
    check_verified r "Failed to cross-verify passed IAS CA vs root-of-trust CA" ;;?
    let? r := verify_ias_certificate_chain signing_cert in
    check_verified r "Failed to verify IAS signing cert against CA" ;;?
    let? r := verify_ias_report_signature signing_cert report signature in
    check_verified r "Invalid verificationReport; Invalid Signature" ;;?
    check_quote quote_body ownerId enclaveId enclaveEncryptKey ;;?
    Ok (enclaveId, enclaveEncryptKey).

(** ** GenerateEnclaveSecret *)

(** The result of the unsealing is not looked at: when it fails, the buffer holds what it left there. *)
Definition plain_secret (inSealedSecret : bytes) : M nat bytes :=
  let! len := liftM (text_len inSealedSecret) in
  let! '(_, secret) := ecall_UnsealSecret inSealedSecret len in
  retM (default (unseal_residue len) secret).

(** [s.append(n, '0')]: a negative count is a length error. *)
Definition append_zeros (s : bytes) (n : Z) : result bytes :=
  throw_if (bool_decide (n < 0)%Z) (StdException "length_error") ;;? Ok (s ++ replicate (Z.to_nat n) "0"%byte).

(** [memcpy_s] into a zeroed buffer, which stays zero when it is too small. *)
Definition memcpy_s (n : Z) (b : bytes) : bytes :=
  if bool_decide (n < zlen b)%Z then replicate (Z.to_nat n) Byte.x00 else fill_buffer n b.

Definition ecall_GenerateEnclaveSecret (inSealedEnclaveData inSealedSecret inContractId inOpk inEnclaveInfo : bytes)
    (inAllocatedSignedSecretSize : Z) : M nat (pdo_err_t * option bytes) :=
  ecall (
    let! plainSecretBuffer := plain_secret inSealedSecret in
    let secret := ByteArrayToHexEncodedString plainSecretBuffer in
    throw_ifM (bool_decide (zlen secret < ENCODED_SECRET_SIZE)%Z) (ValueError "secret is too short") ;;!
    throw_ifM (bool_decide (zlen secret > ENCODED_SECRET_SIZE)%Z) (ValueError "secret is too long") ;;!
    let! '(enclaveId, enclaveEncryptKey) := liftM (VerifyEnclaveInfo inEnclaveInfo) in
    let! enclaveData := liftM (EnclaveData_unseal None inSealedEnclaveData) in
    let message := secret ++ enclaveId ++ c_str inContractId ++ c_str inOpk in
    let! signature := with_draw (fun n => sign_message n enclaveData message) in
    let secretsig := ByteArrayToHexEncodedString signature in
    let! secretsig := liftM (append_zeros secretsig (2 * max_sig_size enclaveData false - zlen secretsig)) in
    throw_ifM (bool_decide (zlen secretsig < max_sig_size enclaveData true)%Z) (ValueError "secretsig is too short") ;;!
    throw_ifM (bool_decide (zlen secretsig > max_sig_size enclaveData true)%Z) (ValueError "secretsig is too long") ;;!
    let enclaveMessage := secret ++ secretsig in
    throw_ifM (bool_decide (zlen enclaveMessage < ENCODED_SECRET_SIZE + max_sig_size enclaveData true)%Z)
      (ValueError "enclaveMessage is too short") ;;!
    let! enclaveKey := liftM (pkenc_PublicKey enclaveEncryptKey) in
    throw_ifM (bool_decide (zlen enclaveMessage < zlen secret + zlen secretsig)%Z) (ValueError "enclaveMessage is too short") ;;!
    let! esecret := with_draw (fun n => pkenc_public_key.EncryptMessage n enclaveKey enclaveMessage) in
    retM (memcpy_s inAllocatedSignedSecretSize esecret)).
End Ecalls.
End secret_enclave.
