(* ===== verification/Enclave.v ===== *)
(** The contract enclave: eservice/lib/libpdo_enclave/{contract_secrets,contract_code,contract_message,
    contract_state,contract_request,contract_response,contract_enclave}.cpp.  The contract interpreter is a
    parameter. *)
From S2P Require Import Prelude Crypto BlockStore Codec Json StateNode Cache DataNodeIO StateKV Keys EnclaveData.

(** * Parameters *)

(** What the interpreter is given: interpreter/ContractCode.h and ContractMessage.h. *)
Record interpreter_code := mk_icode { Code : bytes; Name : bytes; CodeHash : bytes }.
Record interpreter_message := mk_imsg { Message : bytes; OriginatorID : bytes; MessageHash : bytes }.

(** interpreter/ContractInterpreter.h.  The dependencies are a [std::map]: the list of its pairs in key
    order. *)
Class ContractInterpreter `{BlockStore} := {
  create_initial_contract_state :
    bytes -> bytes -> interpreter_code -> interpreter_message -> M State_KV unit;
  send_message_to_contract :
    bytes -> bytes -> interpreter_code -> interpreter_message -> bytes ->
    M State_KV (bool * list (bytes * bytes) * bytes);
}.

(** * contract_secrets.cpp *)

Section ContractSecrets.
Context `{OpenSSL, LibC, OpenSSLKeys, SGX, Build}.

Definition ENCODED_SECRET_SIZE : Z := (SYM_KEY_LEN * 2)%Z.

Definition secret_message (encoded_secret inEnclaveId inContractId inCreatorId : bytes) : bytes :=
  encoded_secret ++ inEnclaveId ++ inContractId ++ inCreatorId.

Definition VerifySecretSignature
    (inEnclaveId inContractId inCreatorId pspk encoded_secret signature : bytes) : result unit :=
  let? ps_public_key := sig_PublicKey pspk in
  let? r := sig_public_key.VerifySignature ps_public_key
              (secret_message encoded_secret inEnclaveId inContractId inCreatorId) signature in
  throw_if (bool_decide (r <= 0)%Z)
    (ValueError "failed to verify the secret signature").

Definition xor_byte (a b : byte) : byte := byte.of_Z (Z.lxor (byte.unsigned a) (byte.unsigned b)).

(** [accumulator[i] = accumulator[i] ^ secret[i]] for the length of the accumulator; a shorter secret
    is read out of bounds. *)
Definition xor_secret (accumulator secret : bytes) : result bytes :=
  if bool_decide (zlen secret < zlen accumulator)%Z then Err (UndefinedBehaviour "secret out of bounds")
  else Ok (zip_with xor_byte accumulator secret).

(** One turn of the loop over the secrets: the seen services, the accumulator and the message. *)
Definition add_secret (enclave_data : EnclaveData) (enclave_id inContractId inCreatorId : bytes)
    (acc : list bytes * bytes * bytes) (secret_value : json) : result (list bytes * bytes * bytes) :=
  let '(pspk_list, accumulator, message) := acc in
  throw_if (negb (json_is_object secret_value)) (ValueError "Invalid secret, expecting object") ;;?
  let? pspk := required (get_cstring secret_value (bytes_of "pspk")) "Invalid provisioning service public key" in
  throw_if (bool_decide (pspk ∈ pspk_list)) (ValueError "Multiple secrets from the same provisioning service") ;;?
  let? encrypted_ps_secret := required (get_cstring secret_value (bytes_of "encrypted_secret"))
                                "Invalid encrypted secret" in
  let message := message ++ pspk ++ encrypted_ps_secret in
  let? decrypted_ps_secret := decrypt_message enclave_data (Base64EncodedStringToByteArray encrypted_ps_secret) in
  throw_if (bool_decide (zlen decrypted_ps_secret < ENCODED_SECRET_SIZE + max_sig_size enclave_data true)%Z)
    (ValueError "Invalid secret, wrong length") ;;?
  let encoded_secret := take (Z.to_nat ENCODED_SECRET_SIZE) decrypted_ps_secret in
  let? secret := HexEncodedStringToByteArray encoded_secret in
  let? signature := HexEncodedStringToByteArray (drop (Z.to_nat ENCODED_SECRET_SIZE) decrypted_ps_secret) in
  VerifySecretSignature enclave_id inContractId inCreatorId pspk encoded_secret signature ;;?
  let? accumulator := xor_secret accumulator secret in
  Ok (pspk :: pspk_list, accumulator, message).

Fixpoint add_secrets (enclave_data : EnclaveData) (enclave_id inContractId inCreatorId : bytes)
    (acc : list bytes * bytes * bytes) (l : list json) : result (list bytes * bytes * bytes) :=
  match l with
  | [] => Ok acc
  | s :: l =>
      let? acc := add_secret enclave_data enclave_id inContractId inCreatorId acc s in
      add_secrets enclave_data enclave_id inContractId inCreatorId acc l
  end.

(** The key and the message so far. *)
Definition CreateEnclaveStateEncryptionKey (enclave_data : EnclaveData)
    (inContractId inCreatorId inSerializedSecretList : bytes) : result (bytes * bytes) :=
  let? enclave_id := get_enclave_id enclave_data in
  let? parsed := of_option (json_parse (c_str inSerializedSecretList))
                   (ValueError "Failed to parse the secret list, badly formed JSON") in
  let? secret_array := match parsed with JArray l => Ok l
                       | _ => Err (ValueError "Failed to parse the secret list, expecting array") end in
  throw_if (bool_decide (secret_array = [])) (ValueError "there must be at least one secret provided") ;;?
  let? '(_, accumulator, message) :=
    add_secrets enclave_data enclave_id inContractId inCreatorId
      ([], replicate (Z.to_nat (ENCODED_SECRET_SIZE / 2)) Byte.x00, inContractId ++ inCreatorId) secret_array in
  Ok (accumulator, message).

Definition EncryptStateEncryptionKey (n : nat) (inContractId inContractStateEncryptionKey : bytes) : result bytes :=
  let sealedBlobSize := sgx_calc_sealed_data_size (zlen inContractId) (zlen inContractStateEncryptionKey) in
  throw_if (bool_decide (sealedBlobSize = 0xFFFFFFFF)%Z)
    (RuntimeError "Failed to get valid size for sealed Blob of state encryption key") ;;?
  sgx_seal_data_ex n inContractId inContractStateEncryptionKey sealedBlobSize.

Definition EncryptAndEncodeStateEncryptionKey (n : nat) (inContractId inContractStateEncryptionKey : bytes) : result bytes :=
  let? encrypted := EncryptStateEncryptionKey n inContractId inContractStateEncryptionKey in
  Ok (base64_encode encrypted).

Definition DecryptStateEncryptionKey (inContractId inEncryptedStateEncryptionKey : bytes) : result bytes :=
  let? '(aad, key) := unseal inEncryptedStateEncryptionKey "Failed to unseal contract state encryption key" in
  throw_if (bool_decide (aad <> inContractId))
    (ValueError "ContractID mismatch while decrypting contract state encryption key") ;;?
  Ok key.

Definition DecodeAndDecryptStateEncryptionKey (inContractId encoded : bytes) : result bytes :=
  DecryptStateEncryptionKey inContractId (base64_decode encoded).
End ContractSecrets.

(** * contract_code.cpp and contract_message.cpp *)

Record ContractCode := mk_code { code_ : bytes; name_ : bytes; nonce_ : bytes; code_hash_ : bytes }.

Definition no_code : ContractCode := mk_code [] [] [] [].

Record ContractMessage := mk_message {
  expression_ : bytes;
  originator_verifying_key_ : bytes;
  channel_verifying_key_ : bytes;
  message_nonce_ : bytes;
  message_hash_ : bytes;
}.

Section CodeAndMessage.
Context `{OpenSSL, OpenSSLKeys}.

Definition code_ComputeHash (code name nonce : bytes) : bytes :=
  ComputeMessageHash (ComputeMessageHash (code ++ name) ++ ComputeMessageHash nonce).

Definition code_Unpack (object : json) : result ContractCode :=
  let? code := required (get_cstring object (bytes_of "Code")) "invalid request; failed to retrieve Code" in
  let? name := required (get_cstring object (bytes_of "Name")) "invalid request; failed to retrieve Name" in
  let? nonce := required (get_cstring object (bytes_of "Nonce")) "invalid request; failed to retrieve Nonce" in
  Ok (mk_code code name nonce (code_ComputeHash code name nonce)).

(** What the originator signs. *)
Definition invocation_text (expression channel_key nonce : bytes) : bytes := expression ++ channel_key ++ nonce.

Definition message_VerifySignature (expression originator channel_key nonce signature : bytes) : result bool :=
  let? verifying_key := sig_PublicKey originator in
  let? r := sig_public_key.VerifySignature verifying_key (invocation_text expression channel_key nonce) signature in
  Ok (bool_decide (r > 0)%Z).

Definition message_Unpack (object : json) : result ContractMessage :=
  let? expression := required (get_cstring object (bytes_of "InvocationRequest"))
                       "invalid request; failed to retrieve Request" in
  let? originator := required (get_cstring object (bytes_of "OriginatorVerifyingKey"))
                       "invalid request; failed to retrieve OriginatorVerifyingKey" in
  let? channel := required (get_cstring object (bytes_of "ChannelVerifyingKey"))
                    "invalid request; failed to retrieve ChannelVerifyingKey" in
  let? nonce := required (get_cstring object (bytes_of "Nonce")) "invalid request; failed to retrieve Nonce" in
  let? sg := required (get_cstring object (bytes_of "Signature")) "invalid request; failed to retrieve Signature" in
  let? ok := message_VerifySignature expression originator channel nonce (base64_decode sg) in
  throw_if (negb ok) (ValueError "unable to verify the source of the message") ;;?
  Ok (mk_message expression originator channel nonce (ComputeMessageHash (expression ++ nonce))).
End CodeAndMessage.

(** * contract_state.cpp *)

Record ContractState `{BlockStore} := mk_state {
  input_block_id_ : bytes;
  output_block_id_ : bytes;
  state_ : State_KV;
  metadata_hash_ : bytes;
}.

Definition zero_block_id : bytes := replicate (Z.to_nat STATE_BLOCK_ID_LENGTH) Byte.x00.

Section ContractStateOps.
Context `{OpenSSL, BlockStore, LibC, OpenSSLKeys}.

Definition set_kv (kv : State_KV) (s : ContractState) : ContractState :=
  mk_state _ s.(input_block_id_) s.(output_block_id_) kv s.(metadata_hash_).
Definition in_kv {A} (m : M State_KV A) : M ContractState A := zoomM state_ set_kv m.

Definition kv_world (kv : State_KV) : world := kv.(dn_io_).(io_world).
Definition set_kv_world (w : world) (kv : State_KV) : State_KV := KV.set_io (C.set_world w kv.(dn_io_)) kv.
(** A call that draws random bytes while the state is open. *)
Definition with_rng {A} (f : nat -> result A) : M ContractState A := fun s =>
  let w := kv_world s.(state_) in
  (f w.(w_rng), set_kv (set_kv_world (mk_world _ w.(w_store) (S w.(w_rng)) w.(w_ctx) w.(w_evicted)) s.(state_)) s).

Definition Finalize : M ContractState unit :=
  let! id := in_kv KV.Finalize in
  modifyM (fun s => mk_state _ s.(input_block_id_) id s.(state_) s.(metadata_hash_)).

Definition Unpack (input_block_id id_hash : bytes) : M ContractState unit :=
  modifyM (fun s => mk_state _ input_block_id s.(output_block_id_) s.(state_) s.(metadata_hash_)) ;;!
  let! stored := in_kv (IKV.PrivilegedGet (bytes_of "IdHash")) in
  throw_ifM (bool_decide (id_hash <> stored)) (ValueError "invalid encrypted state; contract id mismatch") ;;!
  let! metadata_hash := in_kv (IKV.PrivilegedGet (bytes_of "Metadata.Hash")) in
  modifyM (fun s => mk_state _ s.(input_block_id_) s.(output_block_id_) s.(state_) metadata_hash).

(** The two key pairs of a contract, serialized: private and public. *)
Definition new_signing_keys (n : nat) : result (bytes * bytes) :=
  let? privkey := run_method (sig_private_key.Generate n) (sig_Key UNDEFINED) in
  let? pubkey := sig_private_key.PublicKey_of privkey in
  let? encpriv := sig_private_key.Serialize privkey in
  let? encpub := sig_public_key.Serialize pubkey in
  Ok (encpriv, encpub).

Definition new_encryption_keys (n : nat) : result (bytes * bytes) :=
  let? privkey := run_method (pkenc_private_key.Generate n) None in
  let? pubkey := pkenc_private_key.GetPublicKey privkey in
  let? encpriv := pkenc_private_key.Serialize privkey in
  let? encpub := pkenc_public_key.Serialize pubkey in
  Ok (encpriv, encpub).

Definition Initialize (id_hash : bytes) : M ContractState unit :=
  in_kv (IKV.PrivilegedPut (bytes_of "IdHash") id_hash) ;;!
  let! '(signing, verifying) := with_rng new_signing_keys in
  in_kv (IKV.PrivilegedPut (bytes_of "ContractKeys.Signing") signing) ;;!
  in_kv (IKV.PrivilegedPut (bytes_of "ContractKeys.Verifying") verifying) ;;!
  let! '(decryption, encryption) := with_rng new_encryption_keys in
  in_kv (IKV.PrivilegedPut (bytes_of "ContractKeys.Decryption") decryption) ;;!
  in_kv (IKV.PrivilegedPut (bytes_of "ContractKeys.Encryption") encryption) ;;!
  let metadata_hash := ComputeMessageHash (id_hash ++ verifying ++ encryption) in
  modifyM (fun s => mk_state _ s.(input_block_id_) s.(output_block_id_) s.(state_) metadata_hash) ;;!
  in_kv (IKV.PrivilegedPut (bytes_of "Metadata.Hash") metadata_hash).

(** Run [m] on a contract state built from a store that a constructor opened; the world outlives the
    object. *)
Definition with_state {A} (opened : result State_KV * world) (m : M ContractState A) : result A * world :=
  match opened with
  | (Err e, w) => (Err e, w)
  | (Ok kv, _) =>
      let '(r, s) := m (mk_state _ zero_block_id zero_block_id kv []) in (r, kv_world s.(state_))
  end.

(** [ContractState(key, input_block_id, id_hash)], then [m]. *)
Definition with_opened_state {A} (key input_block_id id_hash : bytes) (m : M ContractState A) : M world A := fun w =>
  with_state (KV.open w input_block_id key) (Unpack input_block_id id_hash ;;! m).

(** [ContractState(key, id_hash)], then [m]. *)
Definition with_new_state {A} (key id_hash : bytes) (m : M ContractState A) : M world A := fun w =>
  with_state (KV.create w key) (Initialize id_hash ;;! m).

(** ** The code in the state *)

Definition fetch_nonempty (key : bytes) (msg : string) : M ContractState bytes :=
  let! v := in_kv (IKV.PrivilegedGet key) in
  throw_ifM (bool_decide (v = [])) (ValueError msg) ;;!
  retM v.

Definition FetchFromState (code_hash : bytes) : M ContractState ContractCode :=
  let! code := fetch_nonempty (bytes_of "ContractCode.Code") "contract code missing" in
  let! name := fetch_nonempty (bytes_of "ContractCode.Name") "contract code name missing" in
  let! nonce := fetch_nonempty (bytes_of "ContractCode.Nonce") "contract code nonce missing" in
  let! v := fetch_nonempty (bytes_of "ContractCode.Hash") "contract code hash missing" in
  throw_ifM (bool_decide (v <> code_hash)) (ValueError "mismatched contract code hash") ;;!
  retM (mk_code (ByteArrayToString code) (ByteArrayToString name) (ByteArrayToString nonce) v).

Definition SaveToState (c : ContractCode) : M ContractState unit :=
  in_kv (IKV.PrivilegedPut (bytes_of "ContractCode.Code") c.(code_)) ;;!
  in_kv (IKV.PrivilegedPut (bytes_of "ContractCode.Name") c.(name_)) ;;!
  in_kv (IKV.PrivilegedPut (bytes_of "ContractCode.Nonce") c.(nonce_)) ;;!
  in_kv (IKV.PrivilegedPut (bytes_of "ContractCode.Hash") c.(code_hash_)).
End ContractStateOps.

(** * contract_response.cpp *)

(** The virtual class: the plain response and its two subclasses. *)
Inductive response_kind :=
  | PlainResponse
  | InitializeStateResponse (output_block_id contract_metadata_hash : bytes)
  | UpdateStateResponse (state_changed : bool) (dependencies : list (bytes * bytes)) (input_block_id output_block_id : bytes).

Record ContractResponse := mk_response {
  rsp_contract_id_ : bytes;
  rsp_creator_id_ : bytes;
  rsp_channel_verifying_key_ : bytes;
  contract_code_hash_ : bytes;
  contract_message_hash_ : bytes;
  result_ : bytes;
  operation_succeeded_ : bool;
  kind : response_kind;
}.

Section Response.
Context `{OpenSSL, BlockStore, LibC, OpenSSLKeys}.

Definition ContractResponse_SerializeForSigning (r : ContractResponse) : bytes :=
  r.(rsp_channel_verifying_key_) ++ r.(rsp_contract_id_) ++ r.(contract_code_hash_) ++ r.(contract_message_hash_).

Definition InitializeStateResponse_SerializeForSigning (r : ContractResponse) (output metadata : bytes) : bytes :=
  ContractResponse_SerializeForSigning r ++ r.(rsp_creator_id_) ++ metadata ++ output.

Definition UpdateStateResponse_SerializeForSigning (r : ContractResponse) (deps : list (bytes * bytes))
    (input output : bytes) : bytes :=
  ContractResponse_SerializeForSigning r ++ input ++ output ++ concat (map (fun d => d.1 ++ d.2) deps).

(** The virtual method. *)
Definition SerializeForSigning (r : ContractResponse) : bytes :=
  match r.(kind) with
  | PlainResponse => ContractResponse_SerializeForSigning r
  | InitializeStateResponse output metadata => InitializeStateResponse_SerializeForSigning r output metadata
  | UpdateStateResponse _ deps input output => UpdateStateResponse_SerializeForSigning r deps input output
  end.

(** A draw of random bytes outside a state. *)
Definition world_rng {A} (f : nat -> result A) : M world A := fun w =>
  (f w.(w_rng), mk_world _ w.(w_store) (S w.(w_rng)) w.(w_ctx) w.(w_evicted)).

Definition ComputeSignature (d : EnclaveData) (r : ContractResponse) : M world bytes :=
  world_rng (fun n => sign_message n d (SerializeForSigning r)).

(** [json_object_dotset_string(o, name, s.c_str())]. *)
Definition json_string (s : bytes) (msg : string) : result json :=
  throw_if (negb (json_valid_string (c_str s))) (RuntimeError msg) ;;? Ok (JString (c_str s)).

Fixpoint dependency_values (deps : list (bytes * bytes)) : result (list json) :=
  match deps with
  | [] => Ok []
  | d :: deps =>
      let? id := json_string d.1 "failed to serialize contract id in the dependency list" in
      let? h := json_string d.2 "failed to serialize contract hash in the dependency list" in
      let? l := dependency_values deps in
      Ok (JObject [(bytes_of "ContractID", id); (bytes_of "StateHash", h)] :: l)
  end.

Definition status_field (r : ContractResponse) : bytes * json :=
  (bytes_of "Status", JBool r.(operation_succeeded_)).
Definition result_field (r : ContractResponse) : result (bytes * json) :=
  let? res := json_string r.(result_) "failed to serialize the result" in
  Ok (bytes_of "InvocationResponse", res).
Definition signature_field (d : EnclaveData) (r : ContractResponse) : M world (bytes * json) :=
  let! signature := ComputeSignature d r in
  let! s := liftM (json_string (base64_encode signature) "failed to serialize the signature") in
  retM (bytes_of "Signature", s).

(** The members of the response object of each class, in the order they are set. *)
Definition ContractResponse_fields (r : ContractResponse) : M world (list (bytes * json)) :=
  let! res := liftM (result_field r) in
  retM [status_field r; res].

Definition InitializeStateResponse_fields (d : EnclaveData) (r : ContractResponse) (output metadata : bytes) :
    M world (list (bytes * json)) :=
  let! res := liftM (result_field r) in
  let! s := signature_field d r in
  let! m := liftM (json_string (base64_encode metadata) "failed to serialize the metadata hash") in
  let! h := liftM (json_string (base64_encode output) "failed to serialize the state hash") in
  retM [status_field r; res; s; (bytes_of "MetadataHash", m); (bytes_of "StateHash", h)].

Definition UpdateStateResponse_fields (d : EnclaveData) (r : ContractResponse) (state_changed : bool)
    (deps : list (bytes * bytes)) (output : bytes) : M world (list (bytes * json)) :=
  let changed := (bytes_of "StateChanged", JBool state_changed) in
  let! res := liftM (result_field r) in
  if r.(operation_succeeded_) && state_changed
  then
    let! s := signature_field d r in
    let! h := liftM (json_string (base64_encode output) "failed to serialize the state hash") in
    let! l := liftM (dependency_values deps) in
    retM [status_field r; changed; res; s; (bytes_of "StateHash", h); (bytes_of "Dependencies", JArray l)]
  else retM [status_field r; changed; res].

Definition response_fields (d : EnclaveData) (r : ContractResponse) : M world (list (bytes * json)) :=
  match r.(kind) with
  | PlainResponse => ContractResponse_fields r
  | InitializeStateResponse output metadata => InitializeStateResponse_fields d r output metadata
  | UpdateStateResponse state_changed deps _ output => UpdateStateResponse_fields d r state_changed deps output
  end.

(** The buffer has the size parson reports, which counts the terminating NUL. *)
Definition SerializeAndEncrypt (session_key : bytes) (d : EnclaveData) (r : ContractResponse) : M world bytes :=
  let! fields := response_fields d r in
  let! b := liftM (of_option (json_serialize (JObject fields)) (RuntimeError "contract response serialization failed")) in
  w_encrypt session_key (b ++ [Byte.x00]).
End Response.

(** * contract_request.cpp *)

Record ContractRequest := mk_request {
  contract_id_ : bytes;
  creator_id_ : bytes;
  request_state_encryption_key_ : bytes;
  contract_id_hash_ : bytes;
  contract_code_ : ContractCode;
  contract_message_ : ContractMessage;
}.

Definition set_code (c : ContractCode) (r : ContractRequest) : ContractRequest :=
  mk_request r.(contract_id_) r.(creator_id_) r.(request_state_encryption_key_) r.(contract_id_hash_) c r.(contract_message_).

Section Request.
Context `{OpenSSL, BlockStore, LibC, OpenSSLKeys, SGX, Build}.
Context {I : ContractInterpreter}.

(** The test after the lookup of the message reads [pvalue] again, so a missing message surfaces in
    [Unpack]. *)
Definition parse_common_properties (o : json) : result ContractRequest :=
  let? contract_id := required (get_cstring o (bytes_of "ContractID")) "invalid request; failed to retrieve ContractID" in
  let id_hash := Base64EncodedStringToByteArray contract_id in
  throw_if (bool_decide (zlen id_hash <> SHA256_DIGEST_LENGTH)) (ValueError "invalid contract id") ;;?
  let? creator_id := required (get_cstring o (bytes_of "CreatorID")) "invalid request; failed to retrieve CreatorID" in
  let? encoded := required (get_cstring o (bytes_of "EncryptedStateEncryptionKey"))
                    "invalid request; failed to retrieve EncryptedStateEncryptionKey" in
  let? key := DecodeAndDecryptStateEncryptionKey contract_id encoded in
  let? message := message_Unpack (json_object_get_object o (bytes_of "ContractMessage")) in
  Ok (mk_request contract_id creator_id key id_hash no_code message).

Definition parse_request (session_key encrypted_request : bytes) : result json :=
  let? decrypted := DecryptMessage session_key encrypted_request in
  let? parsed := of_option (json_parse (c_str (ByteArrayToString decrypted)))
                   (ValueError "failed to parse the contract request, badly formed JSON") in
  throw_if (negb (json_is_object parsed)) (ValueError "Missing JSON object in contract request") ;;?
  Ok parsed.

Definition get_hash (o : json) (name : bytes) (missing invalid : string) : result bytes :=
  let? v := required (get_cstring o name) missing in
  let h := Base64EncodedStringToByteArray v in
  throw_if (bool_decide (zlen h <> SHA256_DIGEST_LENGTH)) (ValueError invalid) ;;? Ok h.

(** The request, [code_hash_] and [input_state_hash_]. *)
Definition UpdateStateRequest (session_key encrypted_request : bytes) : result (ContractRequest * bytes * bytes) :=
  let? o := parse_request session_key encrypted_request in
  let? r := parse_common_properties o in
  let? code_hash := get_hash o (bytes_of "ContractCodeHash") "invalid request; failed to retrieve ContractCodeHash"
                      "invalid contract code hash" in
  let? state_hash := get_hash o (bytes_of "ContractStateHash") "invalid request; failed to retrieve ContractStateHash"
                       "invalid contract state hash" in
  Ok (r, code_hash, state_hash).

Definition InitializeStateRequest (session_key encrypted_request : bytes) : result ContractRequest :=
  let? o := parse_request session_key encrypted_request in
  let? r := parse_common_properties o in
  throw_if (negb (json_is_object (json_object_get_object o (bytes_of "ContractCode"))))
    (ValueError "invalid request; failed to retrieve ContractCode") ;;?
  let? code := code_Unpack (json_object_get_object o (bytes_of "ContractCode")) in
  Ok (set_code code r).

Definition make_response (r : ContractRequest) (succeeded : bool) (res : bytes) (k : response_kind) : ContractResponse :=
  mk_response r.(contract_id_) r.(creator_id_) r.(contract_message_).(channel_verifying_key_)
    r.(contract_code_).(code_hash_) r.(contract_message_).(message_hash_) res succeeded k.

Definition interpreter_inputs (r : ContractRequest) : interpreter_code * interpreter_message :=
  (mk_icode r.(contract_code_).(code_) r.(contract_code_).(name_)
     (ByteArrayToBase64EncodedString r.(contract_code_).(code_hash_)),
   mk_imsg r.(contract_message_).(expression_) r.(contract_message_).(originator_verifying_key_)
     (ByteArrayToBase64EncodedString r.(contract_message_).(message_hash_))).

(** The handlers at the end of [process_request]: [on_value_error] is what the first one does before it
    answers. *)
Definition answer_errors (r : ContractRequest) (on_value_error : M ContractState unit)
    (m : M ContractState ContractResponse) : M ContractState ContractResponse :=
  catchM m (fun e =>
    match e with
    | ValueError msg => on_value_error ;;! retM (make_response r false (bytes_of msg) PlainResponse)
    | StdException _ => retM (make_response r false (bytes_of "internal error") PlainResponse)
    | _ => retM (make_response r false (bytes_of "internal pdo error") PlainResponse)
    end).

Definition UpdateStateRequest_process_request (r : ContractRequest) : M ContractState ContractResponse :=
  answer_errors r Finalize (
    let '(code, msg) := interpreter_inputs r in
    let! s := getM in
    let! '(state_changed_flag, dependencies, res) :=
      in_kv (send_message_to_contract r.(contract_id_) r.(creator_id_) code msg s.(input_block_id_)) in
    Finalize ;;!
    let! s := getM in
    retM (make_response r true res
            (if state_changed_flag : bool
             then UpdateStateResponse true dependencies s.(input_block_id_) s.(output_block_id_)
             else UpdateStateResponse false [] s.(input_block_id_) s.(input_block_id_)))).

Definition InitializeStateRequest_process_request (r : ContractRequest) : M ContractState ContractResponse :=
  answer_errors r (retM tt) (
    let '(code, msg) := interpreter_inputs r in
    in_kv (create_initial_contract_state r.(contract_id_) r.(creator_id_) code msg) ;;!
    Finalize ;;!
    let! s := getM in
    retM (make_response r true (bytes_of "true") (InitializeStateResponse s.(output_block_id_) s.(metadata_hash_)))).
End Request.

(** * contract_enclave.cpp *)

(** The enclave's globals and the world it uses. *)
Record enclave_state `{BlockStore} := mk_estate {
  e_world : world;
  last_result : bytes;
  worker_initialized : bool;
}.

Section Ecalls.
Context `{OpenSSL, BlockStore, LibC, OpenSSLKeys, SGX, Build}.
Context {I : ContractInterpreter}.

Definition set_e_world (w : world) (s : enclave_state) : enclave_state :=
  mk_estate _ w s.(last_result) s.(worker_initialized).
Definition in_e_world {A} (m : M world A) : M enclave_state A := zoomM e_world set_e_world m.
Definition set_last_result (b : bytes) : M enclave_state unit :=
  modifyM (fun s => mk_estate _ s.(e_world) b s.(worker_initialized)).

Definition ecall_CalculateSealedContractKeySize (inContractIdSize : Z) : M enclave_state (pdo_err_t * option Z) :=
  ecall (let size := sgx_calc_sealed_data_size inContractIdSize SYM_KEY_LEN in
         throw_ifM (bool_decide (size = 0xFFFFFFFF)%Z)
           (RuntimeError "Failed to get valid size for sealed Blob of contract key encryption") ;;!
         retM size).

(** The two output buffers and the length of the signature. *)
Definition ecall_VerifySecrets (inSealedSignupData inContractId inContractCreatorId inSerializedSecretList : bytes)
    (inEncryptedContractKeyLength inEncryptedContractKeySignatureMaxLength : Z) :
    M enclave_state (pdo_err_t * option (bytes * bytes * Z)) :=
  ecall (
    let! enclaveData := liftM (EnclaveData_unseal (Some GetInterpreterIdentity) inSealedSignupData) in
    let! '(key, message) := liftM (CreateEnclaveStateEncryptionKey enclaveData inContractId inContractCreatorId
                                     inSerializedSecretList) in
    let! encrypted := in_e_world (world_rng (fun n => EncryptStateEncryptionKey n inContractId key)) in
    throw_ifM (bool_decide (inEncryptedContractKeyLength < zlen encrypted)%Z)
      (ValueError "Contract key length is too short") ;;!
    let! signature := in_e_world (world_rng (fun n => sign_message n enclaveData (message ++ encrypted))) in
    throw_ifM (bool_decide (inEncryptedContractKeySignatureMaxLength < zlen signature)%Z)
      (ValueError "Contract key signature is too short") ;;!
    retM (fill_buffer inEncryptedContractKeyLength encrypted,
          fill_buffer inEncryptedContractKeySignatureMaxLength signature, zlen signature)).

(** The first part of the two request ecalls. *)
Definition open_session (inSealedSignupData inEncryptedSessionKey : bytes) : M enclave_state (EnclaveData * bytes) :=
  let! s := getM in
  throw_ifM (negb s.(worker_initialized)) (ValueError "worker pointer is NULL") ;;!
  let! enclaveData := liftM (EnclaveData_unseal (Some GetInterpreterIdentity) inSealedSignupData) in
  let! session_key := liftM (decrypt_message enclaveData inEncryptedSessionKey) in
  retM (enclaveData, session_key).

(** The last part: the response is kept and its size is returned. *)
Definition keep_response (session_key : bytes) (d : EnclaveData) (r : ContractResponse) : M enclave_state Z :=
  let! encrypted := in_e_world (SerializeAndEncrypt session_key d r) in
  set_last_result encrypted ;;!
  retM (zlen encrypted).

Definition HandleContractRequest_body (inSealedSignupData inEncryptedSessionKey inSerializedRequest : bytes) :
    M enclave_state Z :=
  let! '(enclaveData, session_key) := open_session inSealedSignupData inEncryptedSessionKey in
  let! '(request, code_hash, state_hash) := liftM (UpdateStateRequest session_key inSerializedRequest) in
  let! response := in_e_world (
    with_opened_state request.(request_state_encryption_key_) state_hash request.(contract_id_hash_) (
      let! code := FetchFromState code_hash in
      UpdateStateRequest_process_request (set_code code request))) in
  keep_response session_key enclaveData response.

Definition ecall_HandleContractRequest (inSealedSignupData inEncryptedSessionKey inSerializedRequest : bytes) :
    M enclave_state (pdo_err_t * option Z) :=
  ecall (HandleContractRequest_body inSealedSignupData inEncryptedSessionKey inSerializedRequest).

Definition InitializeContractState_body (inSealedSignupData inEncryptedSessionKey inSerializedRequest : bytes) :
    M enclave_state Z :=
  let! '(enclaveData, session_key) := open_session inSealedSignupData inEncryptedSessionKey in
  let! request := liftM (InitializeStateRequest session_key inSerializedRequest) in
  let! response := in_e_world (
    with_new_state request.(request_state_encryption_key_) request.(contract_id_hash_) (
      SaveToState request.(contract_code_) ;;!
      InitializeStateRequest_process_request request)) in
  keep_response session_key enclaveData response.

Definition ecall_InitializeContractState (inSealedSignupData inEncryptedSessionKey inSerializedRequest : bytes) :
    M enclave_state (pdo_err_t * option Z) :=
  ecall (InitializeContractState_body inSealedSignupData inEncryptedSessionKey inSerializedRequest).

(** The response is copied over the start of the caller's buffer. *)
Definition ecall_GetSerializedResponse (inSealedSignupData outSerializedResponse : bytes) :
    M enclave_state (pdo_err_t * option bytes) :=
  ecall (
    let! s := getM in
    throw_ifM (bool_decide (zlen outSerializedResponse < zlen s.(last_result))%Z)
      (ValueError "Not enough space for the response") ;;!
    let! _ := liftM (EnclaveData_unseal (Some GetInterpreterIdentity) inSealedSignupData) in
    retM (overwrite outSerializedResponse 0 s.(last_result))).
End Ecalls.
