(* ===== verification/EnclaveSpec.v ===== *)
(** Correctness of the contract enclave: the key it derives, what it signs and when, and the agreement of
    its signatures with the ones the ledger verifies. *)
From S2P Require Import Prelude Ledger LedgerSpec Crypto BlockStore Codec Json JsonSpec StateNode Cache DataNodeIO StateKV Keys EnclaveData EnclaveDataSpec Enclave.

(** * The state encryption key *)

Lemma xor_byte_comm a b : xor_byte a b = xor_byte b a.
Proof. unfold xor_byte. by rewrite Z.lxor_comm. Qed.

Lemma xor_byte_unsigned a b : byte.unsigned (xor_byte a b) = Z.lxor (byte.unsigned a) (byte.unsigned b).
Proof.
  unfold xor_byte. rewrite byte.unsigned_of_Z. unfold byte.wrap. apply Z.mod_small.
  pose proof (byte.unsigned_range a) as Ha. pose proof (byte.unsigned_range b) as Hb.
  assert (Hl : forall x, (0 <= x < 2 ^ 8)%Z -> (Z.log2 x < 8)%Z).
  { intros x Hx. destruct (Z.eq_dec x 0%Z) as [->|]; [by vm_compute|]. apply Z.log2_lt_pow2; lia. }
  set (x := Z.lxor _ _). assert (0 <= x)%Z by (apply Z.lxor_nonneg; lia). split; [done|].
  destruct (Z.eq_dec x 0%Z) as [->|Hn]; [lia|]. apply Z.log2_lt_pow2; [lia|].
  eapply Z.le_lt_trans; [apply Z.log2_lxor; lia|]. apply Z.max_lub_lt; auto.
Qed.

Lemma xor_byte_assoc a b c : xor_byte a (xor_byte b c) = xor_byte (xor_byte a b) c.
Proof.
  apply byte.unsigned_inj. rewrite !xor_byte_unsigned. by rewrite Z.lxor_assoc.
Qed.

Definition xor_bytes (a b : bytes) : bytes := zip_with xor_byte a b.

Lemma xor_bytes_comm a b : xor_bytes a b = xor_bytes b a.
Proof.
  unfold xor_bytes. revert b. induction a as [|x a IH]; intros [|y b]; cbn; [done..|].
  by rewrite xor_byte_comm, IH.
Qed.

Lemma xor_bytes_assoc a b c : xor_bytes a (xor_bytes b c) = xor_bytes (xor_bytes a b) c.
Proof.
  unfold xor_bytes. revert b c. induction a as [|x a IH]; intros [|y b] [|z c]; cbn; [done..|].
  by rewrite xor_byte_assoc, IH.
Qed.

(** The bytewise exclusive or of keys of [SYM_KEY_LEN] bytes. *)
Definition xor_all (l : list bytes) : bytes := foldr xor_bytes (replicate (Z.to_nat SYM_KEY_LEN) Byte.x00) l.

#[global] Instance xor_all_proper : Proper ((≡ₚ) ==> (=)) xor_all.
Proof.
  unfold xor_all. induction 1; cbn; [done|congruence| |congruence].
  by rewrite !xor_bytes_assoc, (xor_bytes_comm x).
Qed.

Lemma hex_loop_length s ret b : hex_loop s ret = Ok b -> length b = length ret + length s / 2.
Proof.
  revert ret. induction s as [|a|a c s IH] using list_pair_ind; intros ret Hh.
  - injection Hh as <-. cbn. lia.
  - injection Hh as <-. cbn. lia.
  - cbn [hex_loop] in Hh. result_inv. apply IH in Hh. rewrite Hh, length_app. cbn [length].
    replace (S (S (length s))) with (length s + 1 * 2) by lia. rewrite Nat.div_add by lia. lia.
Qed.

Section Secrets.
Context `{OpenSSL, BlockStore, LibC, OpenSSLKeys, SGX, Build}.

(** A share of the key, as it comes from the provisioning service [pspk]: its encryption [enc] opens to
    the share and a signature by that service over the share, the enclave, the contract and its creator. *)
Record share := mk_share { sh_pspk : bytes; sh_encrypted : bytes; sh_secret : bytes }.

Record share_ok (d : EnclaveData) (cid creator : bytes) (s : share) : Prop := {
  share_length : length s.(sh_secret) = Z.to_nat SYM_KEY_LEN;
  share_signed : exists plain sg vk id r,
    get_enclave_id d = Ok id /\
    decrypt_message d (Base64EncodedStringToByteArray s.(sh_encrypted)) = Ok plain /\
    HexEncodedStringToByteArray (take (Z.to_nat ENCODED_SECRET_SIZE) plain) = Ok s.(sh_secret) /\
    HexEncodedStringToByteArray (drop (Z.to_nat ENCODED_SECRET_SIZE) plain) = Ok sg /\
    sig_PublicKey s.(sh_pspk) = Ok vk /\
    sig_public_key.VerifySignature vk (secret_message (take (Z.to_nat ENCODED_SECRET_SIZE) plain) id cid creator) sg = Ok r /\
    (0 < r)%Z;
}.

Lemma add_secret_ok d id cid creator seen acc msg j r : get_enclave_id d = Ok id ->
  length acc = Z.to_nat SYM_KEY_LEN ->
  add_secret d id cid creator (seen, acc, msg) j = Ok r ->
  exists s, share_ok d cid creator s /\ (s.(sh_pspk) ∉ seen) /\
    r = (s.(sh_pspk) :: seen, xor_bytes acc s.(sh_secret), msg ++ s.(sh_pspk) ++ s.(sh_encrypted)).
Proof.
  intros Hid Hacc Hr. unfold add_secret, required, VerifySecretSignature in Hr. result_inv. guard_facts.
  unfold xor_secret in E8. case_bool_decide; [done|]. injection E8 as <-.
  assert (Hlen : (ENCODED_SECRET_SIZE <= zlen a3)%Z).
  { pose proof (u32_range (MaxSigSize d.(private_signing_key_) * 2)). unfold max_sig_size in *. lia. }
  exists (mk_share a0 a2 a5). split; [|by split]. split; cbn.
  - unfold HexEncodedStringToByteArray, HexStringToBinary in E5. result_inv.
    apply hex_loop_length in E5. rewrite E5, length_take. unfold zlen in Hlen.
    change (Z.to_nat ENCODED_SECRET_SIZE) with 32. change ENCODED_SECRET_SIZE with 32%Z in Hlen. rewrite Nat.min_l by lia.
    done.
  - do 5 eexists. split_and!; eauto. lia.
Qed.

Lemma xor_bytes_length a b : length a = length b -> length (xor_bytes a b) = length a.
Proof. intros Hl. unfold xor_bytes. rewrite length_zip_with. lia. Qed.

Definition shares_text (l : list share) : bytes := concat (map (fun s => s.(sh_pspk) ++ s.(sh_encrypted)) l).

Lemma add_secrets_ok d id cid creator l seen acc msg r : get_enclave_id d = Ok id ->
  length acc = Z.to_nat SYM_KEY_LEN -> NoDup seen ->
  add_secrets d id cid creator (seen, acc, msg) l = Ok r ->
  exists shares, Forall (share_ok d cid creator) shares /\ length shares = length l /\
    NoDup (map sh_pspk shares ++ seen) /\
    r.1.2 = fold_left xor_bytes (map sh_secret shares) acc /\ r.2 = msg ++ shares_text shares /\
    length r.1.2 = Z.to_nat SYM_KEY_LEN.
Proof.
  intros Hid. revert seen acc msg. induction l as [|j l IH]; intros seen acc msg Hacc Hnd Hr; cbn [add_secrets] in Hr.
  { injection Hr as <-. exists []. split_and!; [constructor|done|done|done| |done]. by rewrite app_nil_r. }
  destruct (add_secret _ _ _ _ _ j) as [r1|e] eqn:E1; [|done]. cbn in Hr.
  destruct (add_secret_ok _ _ _ _ _ _ _ _ _ Hid Hacc E1) as (s & Hs & Hn & ->).
  assert (Hl : length (xor_bytes acc (sh_secret s)) = Z.to_nat SYM_KEY_LEN).
  { destruct Hs as [Hlen _]. rewrite xor_bytes_length by congruence. done. }
  destruct (IH _ _ _ Hl (proj2 (list.NoDup_cons _ _) (conj Hn Hnd)) Hr) as (shares & Hf & Hlen & Hnd' & Hk & Hm & Hkl).
  exists (s :: shares). split_and!; [by constructor|cbn; congruence| |done| |done].
  - cbn [map app]. by rewrite Permutation_middle.
  - rewrite Hm. unfold shares_text. cbn. by rewrite <-!app_assoc.
Qed.

Lemma fold_left_xor l acc : fold_left xor_bytes l acc = foldr xor_bytes acc l.
Proof.
  revert acc. induction l as [|x l IH]; intros acc; cbn; [done|]. rewrite IH. clear IH. revert acc.
  induction l as [|y l IH]; intros acc; cbn; [apply xor_bytes_comm|].
  by rewrite IH, !xor_bytes_assoc, (xor_bytes_comm y).
Qed.

(** C12: the state encryption key an enclave derives for a contract is the bytewise exclusive or of one
    share from each of one or more different provisioning services, each share signed by its service for
    this enclave, contract and creator; the order of the shares does not matter; and the message the
    enclave signs, once the sealed key is appended, is the message the ledger checks when the enclave is
    added to the contract. *)
Theorem state_encryption_key_correct d cid creator list key msg :
  CreateEnclaveStateEncryptionKey d cid creator list = Ok (key, msg) ->
  exists shares, shares <> [] /\ Forall (share_ok d cid creator) shares /\ NoDup (map sh_pspk shares) /\
    length key = Z.to_nat SYM_KEY_LEN /\
    (forall secrets, secrets ≡ₚ map sh_secret shares -> xor_all secrets = key) /\
    forall sealed, msg ++ sealed =
      add_enclave_message creator cid (map (fun s => ProvisioningKeysToSecretMap.mk s.(sh_pspk) s.(sh_encrypted)) shares)
        sealed.
Proof.
  intros Hc. unfold CreateEnclaveStateEncryptionKey in Hc. result_inv. destruct a3 as [[seen acc] m].
  injection Hc as <- <-. guard_facts.
  match goal with H : add_secrets _ _ _ _ _ _ = Ok _ |- _ =>
    apply add_secrets_ok in H as (shares & Hf & Hlen & Hnd & Hk & Hm & Hkl); [|done|by rewrite length_replicate|constructor] end.
  cbn in Hk, Hm, Hkl. rewrite app_nil_r in Hnd. exists shares. split_and!; try done.
  - intros ->. by destruct a1.
  - intros secrets Hp. rewrite Hp, Hk, fold_left_xor. done.
  - intros sealed. rewrite Hm. unfold add_enclave_message, shares_text. rewrite map_map. cbn. by rewrite <-!app_assoc.
Qed.

(** C17: a sealed state encryption key opens only for the contract it was sealed for. *)
Theorem sealed_key_bound_to_contract `{!SGXLaws} n cid cid' key blob :
  EncryptStateEncryptionKey n cid key = Ok blob ->
  DecryptStateEncryptionKey cid' blob =
    if decide (cid' = cid) then Ok key
    else Err (ValueError "ContractID mismatch while decrypting contract state encryption key").
Proof.
  intros He. unfold EncryptStateEncryptionKey in He. result_inv.
  unfold DecryptStateEncryptionKey, unseal. destruct (unseal_seal _ _ _ _ _ [] He) as [Hu _]. rewrite app_nil_r in Hu. rewrite Hu. cbn.
  destruct (decide (cid' = cid)) as [->|Hn]; guards; done.
Qed.
End Secrets.

(** * What the enclave signs is what the ledger verifies *)

Section Agreement.
Context `{OpenSSL, BlockStore, LibC, OpenSSLKeys, SGX, Build, CCF}.

(** The update that the submitter of a response sends to the ledger: the dependencies carry the text the
    enclave signed next to the decoded hash. *)
Definition submitted_update (r : ContractRequest) (deps : list (bytes * bytes)) (input output : bytes) : StateUpdateInfo.t :=
  StateUpdateInfo.mk r.(contract_id_) output input r.(contract_message_).(message_hash_)
    (map (fun d => ContractStateDependecy.mk d.1 (base64_decode d.2) d.2) deps).

Lemma update_text_agrees r res deps input output :
  SerializeForSigning (make_response r true res (UpdateStateResponse true deps input output)) =
  update_message r.(contract_message_).(channel_verifying_key_) r.(contract_code_).(code_hash_)
    (submitted_update r deps input output).
Proof.
  unfold SerializeForSigning, UpdateStateResponse_SerializeForSigning, ContractResponse_SerializeForSigning, update_message.
  cbn. by rewrite <-!app_assoc, map_map.
Qed.

Lemma initialize_text_agrees r res output metadata :
  SerializeForSigning (make_response r true res (InitializeStateResponse output metadata)) =
  initialize_message r.(contract_message_).(channel_verifying_key_) r.(contract_id_) output
    r.(contract_code_).(code_hash_) r.(contract_message_).(message_hash_) metadata r.(creator_id_).
Proof.
  unfold SerializeForSigning, InitializeStateResponse_SerializeForSigning, ContractResponse_SerializeForSigning, initialize_message.
  cbn. by rewrite <-!app_assoc.
Qed.

(** C9: the ledger accepts what the enclave signs.  Let an enclave sign an update response, and let the
    ledger's verifier for the enclave accept its signatures.  If the contract is registered with the code
    the enclave ran, the enclave belongs to it, the input state is its latest state, the state changed and
    the dependencies are known, then submitting the response is accepted and moves the contract to the
    output state. *)
Theorem enclave_update_accepted n i d r res deps input output rng sg c e pk :
  sign_message rng d (SerializeForSigning (make_response r true res (UpdateStateResponse true deps input output))) = Ok sg ->
  (forall m s, sign_message rng d m = Ok s -> verify pk m s = true) ->
  parse_StateUpdateInfo i.(Update_contract_state.state_update_info) = Some (submitted_update r deps input output) ->
  i.(Update_contract_state.nonce) = r.(contract_message_).(channel_verifying_key_) ->
  i.(Update_contract_state.contract_enclave_signature) = sg ->
  n.(current).(contracttable) !! r.(contract_id_) = Some c ->
  c.(ContractInfo.contract_code_hash) = r.(contract_code_).(code_hash_) ->
  c.(ContractInfo.is_active) = true -> c.(ContractInfo.current_state_hash) = input -> output <> input ->
  i.(Update_contract_state.contract_enclave_id)
    ∈ map ContractEnclaveInfo.contract_enclave_id c.(ContractInfo.enclave_info) ->
  n.(current).(enclavetable) !! i.(Update_contract_state.contract_enclave_id) = Some e ->
  n.(members).(enclave_pubk_verifier) !! e.(EnclaveInfo.verifying_key) = Some (Some pk) ->
  Forall (fun dep => is_Some (n.(current).(ccltable) !! ccl_key dep.1 (base64_decode dep.2))) deps ->
  exists n', update_contract_state i n = (Ok true, n') /\
    exists c', n'.(current).(contracttable) !! r.(contract_id_) = Some c' /\
      c'.(ContractInfo.current_state_hash) = output.
Proof.
  intros Hsg Hv Hp Hn Hs Hc Hcode Ha Hcur Hne Hm He Hpk Hdeps. set (u := submitted_update r deps input output).
  exists (set_current (updated i u c n.(current)) n). split.
  - apply update_run. split; [done|]. exists u, c, e, pk. split; [|done].
    rewrite update_text_agrees in Hsg. apply Hv in Hsg.
    split; try done; cbn; try congruence.
    + apply Forall_map. eapply list.Forall_impl; [exact Hdeps|]. done.
    + by rewrite Hn, Hs, Hcode.
  - exists (set_state output c). cbn. by rewrite lookup_insert_eq.
Qed.
End Agreement.

(** * Requests *)

Section Requests.
Context {OS : OpenSSL} {BS : BlockStore} {PA : LibC} {KE : OpenSSLKeys} {SG : SGX} {BU : Build} {I : ContractInterpreter}.

(** The message was signed by its originator, with its channel and nonce, and the request names a contract
    by the encoding of its hash. *)
Record request_authentic (r : ContractRequest) : Prop := {
  req_signed : exists vk sg v, sig_PublicKey r.(contract_message_).(originator_verifying_key_) = Ok vk /\
    sig_public_key.VerifySignature vk (invocation_text r.(contract_message_).(expression_)
      r.(contract_message_).(channel_verifying_key_) r.(contract_message_).(message_nonce_)) sg = Ok v /\ (0 < v)%Z;
  req_hash : r.(contract_message_).(message_hash_) =
    ComputeMessageHash (r.(contract_message_).(expression_) ++ r.(contract_message_).(message_nonce_));
  req_contract : r.(contract_id_hash_) = Base64EncodedStringToByteArray r.(contract_id_) /\
    zlen r.(contract_id_hash_) = SHA256_DIGEST_LENGTH;
}.

Lemma parse_common_properties_ok o r : parse_common_properties o = Ok r -> request_authentic r.
Proof.
  intros Hp. unfold parse_common_properties, message_Unpack, message_VerifySignature in Hp. result_inv. guard_facts.
  split; cbn; [|done|split; [done|by apply dec_stable]].
  do 3 eexists. split; [eassumption|]. split; [eassumption|]. apply Z.gt_lt. eassumption.
Qed.

Lemma set_code_authentic c r : request_authentic r -> request_authentic (set_code c r).
Proof. intros [? ? ?]. by split. Qed.

Lemma update_request_ok key b r ch sh : UpdateStateRequest key b = Ok (r, ch, sh) -> request_authentic r.
Proof. intros Hu. unfold UpdateStateRequest in Hu. result_inv. by eapply parse_common_properties_ok. Qed.

(** An answer to request [r], which was executed on the state [input]: it repeats the request's contract,
    creator, channel, code and message; a failure carries no state; a success names [input] as the state
    it started from, and as the state it ends in when nothing changed. *)
Definition response_for (r : ContractRequest) (input : bytes) (resp : ContractResponse) : Prop :=
  resp.(rsp_contract_id_) = r.(contract_id_) /\ resp.(rsp_creator_id_) = r.(creator_id_) /\
  resp.(rsp_channel_verifying_key_) = r.(contract_message_).(channel_verifying_key_) /\
  resp.(contract_code_hash_) = r.(contract_code_).(code_hash_) /\
  resp.(contract_message_hash_) = r.(contract_message_).(message_hash_) /\
  match resp.(kind) with
  | PlainResponse => resp.(operation_succeeded_) = false
  | InitializeStateResponse _ _ => False
  | UpdateStateResponse changed deps i o =>
      resp.(operation_succeeded_) = true /\ i = input /\ (changed = false -> o = input /\ deps = [])
  end.

Lemma in_kv_input {A} (m : M State_KV A) s : input_block_id_ (in_kv m s).2 = input_block_id_ s.
Proof. unfold in_kv, zoomM. by destruct (m (state_ s)). Qed.

Lemma Finalize_input s u s' : Finalize s = (Ok u, s') -> input_block_id_ s' = input_block_id_ s.
Proof.
  unfold Finalize. intros (id & s1 & H1 & [= _ <-])%bind_ok. cbn.
  pose proof (in_kv_input KV.Finalize s) as Hi. by rewrite H1 in Hi.
Qed.

Lemma process_request_ok r s resp s' :
  UpdateStateRequest_process_request r s = (Ok resp, s') -> response_for r (input_block_id_ s) resp.
Proof.
  unfold UpdateStateRequest_process_request, answer_errors, catchM.
  set (m := let '(code, msg) := interpreter_inputs r in _). destruct (m s) as [[a|e] s1] eqn:Hm.
  - intros [= -> ->]. unfold m, interpreter_inputs in Hm. apply bind_ok in Hm as (s0 & s2 & Hg & Hm).
    assert (s0 = s /\ s2 = s) as [-> ->] by (by injection Hg).
    apply bind_ok in Hm as ([[changed deps] res] & s2 & H1 & Hm).
    apply bind_ok in Hm as (u & s3 & H2%Finalize_input & Hm).
    pose proof (in_kv_input (send_message_to_contract r.(contract_id_) r.(creator_id_) (interpreter_inputs r).1
      (interpreter_inputs r).2 s.(input_block_id_)) s) as H1'.
    unfold interpreter_inputs in H1'. cbn [fst snd] in H1'. rewrite H1 in H1'. cbn in H1'.
    injection Hm as <- <-. unfold response_for. destruct changed; cbn; split_and!; try done; try (intros ?; split); congruence.
  - intros Hr. assert (Hf : forall txt, response_for r (input_block_id_ s) (make_response r false txt PlainResponse)) by done.
    destruct e; try done; try (by injection Hr as <- _).
    apply bind_ok in Hr as (u & s2 & _ & [= <- _]). done.
Qed.

(** The privileged entries [l], read one after another from the store [kv], are there with these values. *)
Fixpoint reads_privileged (l : list (bytes * bytes)) (kv kv' : State_KV) : Prop :=
  match l with
  | [] => kv' = kv
  | (k, v) :: l => exists kv1, IKV.PrivilegedGet k kv = (Ok v, kv1) /\ reads_privileged l kv1 kv'
  end.

Lemma reads_privileged_app l1 l2 kv kv1 kv2 :
  reads_privileged l1 kv kv1 -> reads_privileged l2 kv1 kv2 -> reads_privileged (l1 ++ l2) kv kv2.
Proof.
  revert kv. induction l1 as [|[k v] l1 IH]; intros kv; cbn; [by intros ->|].
  intros (kv0 & ? & ?) ?. eauto.
Qed.

Lemma in_kv_get k s v s' : in_kv (IKV.PrivilegedGet k) s = (Ok v, s') ->
  exists kv', s' = set_kv kv' s /\ reads_privileged [(k, v)] s.(state_) kv'.
Proof. intros (kv' & Hk & ->)%zoom_ok. exists kv'. split; [done|]. by exists kv'. Qed.

Lemma with_opened_state_ok {A} key id hash (m : M ContractState A) w a w' :
  with_opened_state key id hash m w = (Ok a, w') -> exists kv w1 mh s s',
    KV.open w id key = (Ok kv, w1) /\
    reads_privileged [(bytes_of "IdHash", hash); (bytes_of "Metadata.Hash", mh)] kv s.(state_) /\
    m s = (Ok a, s') /\ input_block_id_ s = id /\ w' = kv_world s'.(state_).
Proof.
  unfold with_opened_state, with_state. destruct (KV.open w id key) as [[kv|e] w1]; [|done].
  destruct (bindM _ _ _) as [r s'] eqn:Hb. intros [= -> <-]. apply bind_ok in Hb as (u & s & Hu & Hm).
  exists kv, w1. unfold Unpack in Hu. apply bind_ok in Hu as (u1 & s1 & [= _ <-] & Hu).
  apply bind_ok in Hu as (st & s2 & (kv2 & -> & H2)%in_kv_get & Hu).
  apply bind_ok in Hu as (u2 & s3 & H3 & Hu). unfold throw_ifM, throw_if in H3. case_bool_decide as Heq; [done|].
  injection H3 as _ <-. subst st.
  apply bind_ok in Hu as (mh & s4 & (kv4 & -> & H4)%in_kv_get & [= _ <-]).
  exists mh. do 2 eexists. split_and!; [done| |exact Hm|done|done].
  exact (reads_privileged_app [_] [_] _ _ _ H2 H4).
Qed.

Lemma fetch_nonempty_ok k msg s v s' : fetch_nonempty k msg s = (Ok v, s') ->
  exists kv', s' = set_kv kv' s /\ reads_privileged [(k, v)] s.(state_) kv'.
Proof.
  unfold fetch_nonempty. intros (x & s1 & (kv' & -> & H1)%in_kv_get & Hr)%bind_ok.
  apply bind_ok in Hr as (u & s2 & H2 & [= -> <-]). unfold throw_ifM in H2. injection H2 as _ <-. eauto.
Qed.

(** The code that the state holds, as the four entries of [FetchFromState]. *)
Definition code_entries (code name nonce hash : bytes) : list (bytes * bytes) :=
  [(bytes_of "ContractCode.Code", code); (bytes_of "ContractCode.Name", name);
   (bytes_of "ContractCode.Nonce", nonce); (bytes_of "ContractCode.Hash", hash)].

Lemma FetchFromState_ok ch s c s' : FetchFromState ch s = (Ok c, s') ->
  exists code name nonce kv', s' = set_kv kv' s /\
    c = mk_code (ByteArrayToString code) (ByteArrayToString name) (ByteArrayToString nonce) ch /\
    reads_privileged (code_entries code name nonce ch) s.(state_) kv'.
Proof.
  unfold FetchFromState. intros (c1 & s1 & (kv1 & -> & H1)%fetch_nonempty_ok & Hr)%bind_ok.
  apply bind_ok in Hr as (c2 & s2 & (kv2 & -> & H2)%fetch_nonempty_ok & Hr).
  apply bind_ok in Hr as (c3 & s3 & (kv3 & -> & H3)%fetch_nonempty_ok & Hr).
  apply bind_ok in Hr as (c4 & s4 & (kv4 & -> & H4)%fetch_nonempty_ok & Hr).
  apply bind_ok in Hr as (u & s5 & H5 & [= <- <-]).
  unfold throw_ifM, throw_if in H5. case_bool_decide as Hc; [done|]. injection H5 as _ <-.
  subst c4. exists c1, c2, c3, kv4. split_and!; [done..|].
  exact (reads_privileged_app [_] [_; _; _] _ _ _ H1
    (reads_privileged_app [_] [_; _] _ _ _ H2 (reads_privileged_app [_] [_] _ _ _ H3 H4))).
Qed.

(** The request [r], handled on the world [w] with success, opens the state it names under its key: that
    state holds the request's contract id, and a code with the hash the request names; [resp] is what
    processing the request with that code answers on that state. *)
Record executed_on_state (w : world) (r : ContractRequest) (code_hash state_hash : bytes)
    (resp : ContractResponse) : Prop := {
  executed_state : exists kv w1 mh code name nonce s s',
    KV.open w state_hash r.(request_state_encryption_key_) = (Ok kv, w1) /\
    reads_privileged ([(bytes_of "IdHash", r.(contract_id_hash_)); (bytes_of "Metadata.Hash", mh)] ++
                      code_entries code name nonce code_hash) kv s.(state_) /\
    s.(input_block_id_) = state_hash /\
    UpdateStateRequest_process_request (set_code (mk_code (ByteArrayToString code) (ByteArrayToString name)
      (ByteArrayToString nonce) code_hash) r) s = (Ok resp, s');
}.

Lemma handled_on_state w r ch sh resp w' :
  with_opened_state r.(request_state_encryption_key_) sh r.(contract_id_hash_)
    (let! code := FetchFromState ch in UpdateStateRequest_process_request (set_code code r)) w = (Ok resp, w') ->
  executed_on_state w r ch sh resp.
Proof.
  intros (kv & w1 & mh & s & s' & Ho & Hid & Hm & Hin & _)%with_opened_state_ok. split.
  apply bind_ok in Hm as (c & s1 & (code & name & nonce & kv' & -> & -> & Hcode)%FetchFromState_ok & Hp).
  exists kv, w1, mh, code, name, nonce, (set_kv kv' s), s'. split_and!; [done| |done|done].
  by apply (reads_privileged_app _ _ _ _ _ Hid).
Qed.

(** Such a response repeats the request's fields and the code hash, and a success starts from that state. *)
Lemma executed_response w r ch sh resp : executed_on_state w r ch sh resp ->
  exists code, code.(code_hash_) = ch /\ response_for (set_code code r) sh resp.
Proof.
  intros [(kv & w1 & mh & code & name & nonce & s & s' & _ & _ & <- & Hp)]. eexists. split; [|by eapply process_request_ok].
  done.
Qed.
End Requests.

Section EcallSpec.
Context {OS : OpenSSL} {BS : BlockStore} {PA : LibC} {KE : OpenSSLKeys} {SG : SGX} {BU : Build} {I : ContractInterpreter}.

(** A body that only writes the kept response as its last effect. *)
Definition keeps_result {A} (m : M enclave_state A) : Prop := forall s, last_result (m s).2 = last_result s.

Lemma keeps_result_bind {A B} (m : M enclave_state A) (f : A -> M enclave_state B) s e s' :
  keeps_result m -> (forall a s1, f a s1 = (Err e, s') -> last_result s' = last_result s1) ->
  bindM m f s = (Err e, s') -> last_result s' = last_result s.
Proof.
  intros Hm Hf. unfold bindM. specialize (Hm s). destruct (m s) as [[a|e'] s1]; cbn in Hm.
  - intros Hr. by rewrite (Hf a s1 Hr).
  - by intros [= _ <-].
Qed.

Lemma keeps_result_world {A} (m : M world A) : keeps_result (in_e_world m).
Proof. intros s. unfold in_e_world, zoomM. by destruct (m (e_world s)). Qed.
Lemma keeps_result_lift {A} (r : result A) : keeps_result (liftM r).
Proof. done. Qed.

Lemma keeps_result_session a b : keeps_result (open_session a b).
Proof.
  intros s. unfold open_session. run_monad. destruct (negb _); [done|].
  destruct (EnclaveData_unseal (Some GetInterpreterIdentity) a); [|done]. by destruct (decrypt_message _ b).
Qed.

Lemma keep_response_err k d r s e s' : keep_response k d r s = (Err e, s') -> last_result s' = last_result s.
Proof. apply keeps_result_bind; [apply keeps_result_world|]. by intros a s1 [=]. Qed.

Lemma handle_err a b c s e s' : HandleContractRequest_body a b c s = (Err e, s') -> last_result s' = last_result s.
Proof.
  apply keeps_result_bind; [apply keeps_result_session|]. intros [d k] s1.
  apply keeps_result_bind; [apply keeps_result_lift|]. intros [[r ch] sh] s2.
  apply keeps_result_bind; [apply keeps_result_world|]. intros resp s3. apply keep_response_err.
Qed.

(** C10: when the enclave handles a contract request with success, the response it keeps for the caller is
    encrypted under the caller's session key, and answers a request whose message was signed by its
    originator.  That request opens, under its own key, the state it names in the enclave's block store;
    the contract id stored in that state is the request's, the code hash stored in it is the one the
    request names, and the response is what processing the request with the code stored there answers: it
    repeats the request's contract, creator, channel, message and code hash, and, when it reports an
    executed method, starts from that state.  (The stored code hash is compared, it is not computed again
    from the stored code.)  A request that is refused leaves the kept response as it was. *)
Theorem handled_request_sound sealed esk req s c o s' :
  ecall_HandleContractRequest sealed esk req s = (Ok (c, o), s') ->
  (c <> PDO_SUCCESS -> last_result s' = last_result s) /\
  (c = PDO_SUCCESS -> exists d session_key r code_hash state_hash code resp w w',
     o = Some (zlen (last_result s')) /\ EnclaveData_unseal (Some GetInterpreterIdentity) sealed = Ok d /\
     decrypt_message d esk = Ok session_key /\
     UpdateStateRequest session_key req = Ok (r, code_hash, state_hash) /\
     request_authentic r /\ executed_on_state (e_world s) r code_hash state_hash resp /\
     code.(code_hash_) = code_hash /\ response_for (set_code code r) state_hash resp /\
     SerializeAndEncrypt session_key d resp w = (Ok (last_result s'), w')).
Proof.
  intros [(a & Hm & -> & ->)|(e & Hm & -> & ->)]%ecall_ok.
  2:{ split; [intros _; by eapply handle_err|]. intros Hc. exfalso. revert Hm Hc. destruct e; cbn; done. }
  split; [done|]. intros _.
  apply bind_ok in Hm as ([d k] & s1 & Hs & Hm). apply bind_ok in Hm as ([[r ch] sh] & s2 & Hr & Hm).
  injection Hr as Hr <-. apply bind_ok in Hm as (resp & s3 & Hw & Hm).
  apply zoom_ok in Hw as (w3 & Hw & ->). apply handled_on_state in Hw.
  apply bind_ok in Hm as (enc & s4 & He & Hm). apply zoom_ok in He as (w4 & He & ->).
  apply bind_ok in Hm as (u & s5 & [= _ <-] & [= <- <-]). cbn.
  apply bind_ok in Hs as (s0 & s00 & [= -> <-] & Hs). apply bind_ok in Hs as (u0 & s01 & H01 & Hs).
  unfold throw_ifM, throw_if in H01. injection H01 as _ <-.
  apply bind_ok in Hs as (d0 & s02 & [= Hd <-] & Hs). apply bind_ok in Hs as (k0 & s03 & [= Hk <-] & [= <- <- <-]).
  destruct (executed_response _ _ _ _ _ Hw) as (code & Hcode & Hresp).
  exists d0, k0, r, ch, sh, code, resp. do 2 eexists. split_and!; try done. by eapply update_request_ok.
Qed.
End EcallSpec.
