(* ===== verification/ProvisioningSpec.v ===== *)
(** Provisioning: what the provisioning enclave checks, that its secrets are accepted by the contract
    enclave they are made for and give its key, and the agreement of the report data computed by the three
    parties. *)
From S2P Require Import Prelude Crypto BlockStore Codec Json JsonSpec StateNode Cache DataNodeIO StateKV Ledger LedgerSpec.
From S2P Require Import Keys KeysSpec EnclaveData EnclaveDataSpec Attestation Provisioning Enclave EnclaveSpec.

(** * Hexadecimal text *)

Lemma hex_app a b : BinaryToHexString (a ++ b) = BinaryToHexString a ++ BinaryToHexString b.
Proof. unfold BinaryToHexString. by rewrite map_app, concat_app. Qed.

Lemma hex_zeros k : BinaryToHexString (replicate k Byte.x00) = replicate (2 * k) "0"%byte.
Proof.
  induction k as [|k IH]; [done|]. replace (2 * S k) with (S (S (2 * k))) by lia. cbn [replicate]. rewrite <-IH. done.
Qed.

Lemma hex_decode b : HexEncodedStringToByteArray (BinaryToHexString b) = Ok b.
Proof.
  unfold HexEncodedStringToByteArray, HexStringToBinary. rewrite BinaryToHexString_length, (Z.mul_comm 2), Z_mod_mult. cbn.
  by rewrite hex_loop_roundtrip.
Qed.

Lemma base64_no_nul b : Byte.x00 ∉ base64_encode b.
Proof.
  intros Hin. pose proof (base64_encode_text b) as Hf. rewrite List.Forall_forall in Hf.
  apply list_elem_of_In, Hf in Hin. by vm_compute in Hin.
Qed.

Section Generate.
Context {OS : OpenSSL} {LC : LibC} {LL : LibCLaws} {OK : OpenSSLKeys} {OL : OpenSSLKeysLaws} {SG : SGX} {SL : SGXLaws}.
Context {XC : X509} {PB : ProvisioningBuild}.

Lemma draw_ok {A} (f : nat -> result A) n a n' : with_draw f n = (Ok a, n') -> f n = Ok a.
Proof. unfold with_draw. by intros [= ? _]. Qed.

Lemma lift_ok {S A} (r : result A) (s : S) a s' : liftM r s = (Ok a, s') -> r = Ok a /\ s' = s.
Proof. unfold liftM. by intros [= -> ->]. Qed.

Lemma guard_ok {S} b e (s : S) u s' : throw_ifM b e s = (Ok u, s') -> b = false /\ s' = s.
Proof. unfold throw_ifM, throw_if. destruct b; [done|]. by intros [= _ ->]. Qed.

(** The secret in a sealed blob. *)
Lemma plain_secret_ok sealed aad secret n : sgx_unseal_data sealed = Some (Ok (aad, secret)) ->
  sgx_get_encrypt_txt_len sealed = Some (zlen secret) -> secret_enclave.plain_secret sealed n = (Ok secret, n).
Proof.
  intros Hu Hl. unfold secret_enclave.plain_secret, secret_enclave.ecall_UnsealSecret, secret_enclave.UnsealSecret_body.
  unfold secret_enclave.text_len, unseal, ecall, catchM. run_monad. rewrite Hl. cbn [of_option result_bind].
  rewrite bool_decide_eq_false_2 by lia. rewrite Hu. cbn. unfold fill_buffer. by rewrite Z.sub_diag, app_nil_r.
Qed.

(** A secret as the provisioning enclave sends it: the encryption for the contract enclave of the secret
    and the service's signature on it, padded. *)
Lemma generated_secret sealed_data sealed_secret cid opk info n out n' pd aad secret id ek :
  secret_enclave.ecall_GenerateEnclaveSecret sealed_data sealed_secret cid opk info 384 n = (Ok (PDO_SUCCESS, Some out), n') ->
  EnclaveData_unseal None sealed_data = Ok pd ->
  sgx_unseal_data sealed_secret = Some (Ok (aad, secret)) -> sgx_get_encrypt_txt_len sealed_secret = Some (zlen secret) ->
  secret_enclave.VerifyEnclaveInfo info = Ok (id, ek) ->
  zlen secret = SYM_KEY_LEN /\ exists i j sg pad c key,
    sign_message i pd (secret_message (BinaryToHexString secret) id (c_str cid) (c_str opk)) = Ok sg /\
    (2 * (zlen sg + Z.of_nat pad) = max_sig_size pd true)%Z /\
    pkenc_PublicKey ek = Ok key /\
    pkenc_public_key.EncryptMessage j key (BinaryToHexString secret ++ BinaryToHexString (sg ++ replicate pad Byte.x00)) = Ok c /\
    out = secret_enclave.memcpy_s 384 c.
Proof.
  intros Hg Hpd Hu Hl Hv. unfold secret_enclave.ecall_GenerateEnclaveSecret in Hg.
  apply ecall_ok in Hg as [(a & Hg & _ & [= <-])|(e & _ & _ & [=])].
  apply bind_ok in Hg as (b & n1 & Hp & Hg). rewrite (plain_secret_ok _ _ _ _ Hu Hl) in Hp. injection Hp as <- <-.
  apply bind_ok in Hg as (u1 & n2 & [G1 ->]%guard_ok & Hg). apply bind_ok in Hg as (u2 & n3 & [G2 ->]%guard_ok & Hg).
  apply bind_ok in Hg as ([id' ek'] & n4 & [E1 ->]%lift_ok & Hg). rewrite Hv in E1. injection E1 as <- <-.
  apply bind_ok in Hg as (pd' & n5 & [E2 ->]%lift_ok & Hg). rewrite Hpd in E2. injection E2 as <-.
  apply bind_ok in Hg as (sg & n6 & Hsg%draw_ok & Hg). apply bind_ok in Hg as (ss & n7 & [E3 ->]%lift_ok & Hg).
  apply bind_ok in Hg as (u3 & n8 & [G3 ->]%guard_ok & Hg). apply bind_ok in Hg as (u4 & n9 & [G4 ->]%guard_ok & Hg).
  apply bind_ok in Hg as (u5 & n10 & [G5 ->]%guard_ok & Hg). apply bind_ok in Hg as (key & n11 & [Hkey ->]%lift_ok & Hg).
  apply bind_ok in Hg as (u6 & n12 & [G6 ->]%guard_ok & Hg). apply bind_ok in Hg as (c & n13 & Hc%draw_ok & Hg).
  injection Hg as <- _. unfold ByteArrayToHexEncodedString in *. guard_facts.
  rewrite ?BinaryToHexString_length in *. change secret_enclave.ENCODED_SECRET_SIZE with 32%Z in *. change SYM_KEY_LEN with 16%Z.
  split; [lia|]. unfold secret_enclave.append_zeros in E3. result_inv. guard_facts.
  change (max_sig_size pd false) with (MaxSigSize pd.(private_signing_key_)) in *. set (ms := MaxSigSize _) in *.
  assert (Hz : replicate (Z.to_nat (2 * ms - 2 * zlen sg)) "0"%byte = BinaryToHexString (replicate (Z.to_nat (ms - zlen sg)) Byte.x00)).
  { rewrite hex_zeros. f_equal. lia. }
  rewrite Hz, <-hex_app in G3, G4, Hc. rewrite BinaryToHexString_length in G3, G4.
  do 6 eexists. split_and!; [exact Hsg| |exact Hkey|exact Hc|done].
  unfold zlen in *. rewrite length_app, length_replicate in *. lia.
Qed.
End Generate.

Section EndToEnd.
Context {OS : OpenSSL} {LC : LibC} {LL : LibCLaws} {OK : OpenSSLKeys} {OL : OpenSSLKeysLaws} {SG : SGX} {SL : SGXLaws}.
Context {XC : X509} {PB : ProvisioningBuild}.

(** The entry for a secret in the list that the contract enclave is given. *)
Definition secret_entry (pspk out : bytes) : json :=
  JObject [(bytes_of "pspk", JString pspk); (bytes_of "encrypted_secret", JString (base64_encode out))].

(** [out] is what a service with the keys [pd] made of its secret for the enclave [d], the contract [cid]
    and its creator [opk], in a buffer of 384 bytes; the signatures of the service are not shorter than those
    of the enclave. *)
Definition provisioned (d : EnclaveData) (cid opk : bytes) (pd : EnclaveData) (pspk secret out : bytes) : Prop :=
  exists sealed_data sealed_secret info n n' id ek aad,
    secret_enclave.ecall_GenerateEnclaveSecret sealed_data sealed_secret cid opk info 384 n = (Ok (PDO_SUCCESS, Some out), n') /\
    EnclaveData_unseal None sealed_data = Ok pd /\ good_data pd /\ get_enclave_id pd = Ok pspk /\
    sgx_unseal_data sealed_secret = Some (Ok (aad, secret)) /\ sgx_get_encrypt_txt_len sealed_secret = Some (zlen secret) /\
    secret_enclave.VerifyEnclaveInfo info = Ok (id, ek) /\
    get_enclave_id d = Ok id /\ get_serialized_encryption_key d = Ok ek /\
    (max_sig_size d true <= max_sig_size pd true)%Z.

Lemma entry_fields pspk out : Byte.x00 ∉ pspk ->
  get_cstring (secret_entry pspk out) (bytes_of "pspk") = Some pspk /\
  get_cstring (secret_entry pspk out) (bytes_of "encrypted_secret") = Some (base64_encode out).
Proof.
  intros Hn. split; [transitivity (Some (c_str pspk)); [reflexivity|by rewrite c_str_id]|].
  transitivity (Some (c_str (base64_encode out))); [reflexivity|]. by rewrite c_str_id by apply base64_no_nul.
Qed.

Lemma memcpy_s_exact c : zlen c = 384%Z -> secret_enclave.memcpy_s 384 c = c.
Proof.
  intros Hl. unfold secret_enclave.memcpy_s, fill_buffer. rewrite bool_decide_eq_false_2 by lia.
  rewrite Hl. by rewrite Z.sub_diag, app_nil_r.
Qed.

(** What the enclave [d] sees when it opens a secret that was made for it. *)
Lemma provisioned_share d cid opk pd pspk secret out : good_data d -> provisioned d cid opk pd pspk secret out ->
  Byte.x00 ∉ cid -> Byte.x00 ∉ opk -> exists id sg,
    get_enclave_id d = Ok id /\ zlen secret = SYM_KEY_LEN /\ (Byte.x00 ∉ pspk) /\
    decrypt_message d out = Ok (BinaryToHexString secret ++ BinaryToHexString sg) /\
    (max_sig_size d true <= 2 * zlen sg)%Z /\
    VerifySecretSignature id cid opk pspk (BinaryToHexString secret) sg = Ok tt.
Proof.
  intros Hd (sd & ss & info & n & n' & id & ek & aad & Hgen & Hpd & Hgp & Hid & Hu & Hl & Hv & Hdi & Hdk & Hms) Hcid Hopk.
  destruct (generated_secret _ _ _ _ _ _ _ _ _ _ _ _ _ Hgen Hpd Hu Hl Hv) as (Hlen & i & j & sg & pad & c & key & Hsg & Hpad & Hkey & Hc & ->).
  rewrite (c_str_id cid), (c_str_id opk) in Hsg by done.
  destruct Hd as [_ _ (k & Hk & Hepriv & Hepub)].
  unfold get_serialized_encryption_key in Hdk. rewrite Hepub in Hdk.
  destruct (pkenc_public_serialized (RSAPublicKey_dup k) _ eq_refl Hdk) as (Hr & _ & _). rewrite Hr in Hkey. injection Hkey as <-.
  destruct (rsa_encrypt_decrypt k j _ c Hk Hc) as [Hdec Hcl]. rewrite memcpy_s_exact by done.
  destruct Hgp as [Hgs [Hgv Hgpk] _].
  destruct (signature_ok _ _ _ _ (replicate pad Byte.x00) Hgs Hsg) as (vk & Hvk & _ & Hver & _).
  assert (vk = pd.(public_signing_key_)) as -> by congruence.
  destruct (sig_public_serialized _ _ Hgv Hid) as (Hp & _ & Hnul).
  exists id, (sg ++ replicate pad Byte.x00). split_and!; try done.
  - unfold decrypt_message. by rewrite Hepriv.
  - unfold zlen in *. rewrite length_app, length_replicate. lia.
  - unfold VerifySecretSignature. rewrite Hp. cbn [result_bind]. rewrite Hver. done.
Qed.

Lemma provisioned_accepted d cid opk pd pspk secret out id seen acc msg :
  good_data d -> provisioned d cid opk pd pspk secret out -> Byte.x00 ∉ cid -> Byte.x00 ∉ opk ->
  get_enclave_id d = Ok id -> pspk ∉ seen -> length acc = Z.to_nat SYM_KEY_LEN ->
  add_secret d id cid opk (seen, acc, msg) (secret_entry pspk out) =
    Ok (pspk :: seen, xor_bytes acc secret, msg ++ pspk ++ base64_encode out).
Proof.
  intros Hd Hp Hcid Hopk Hid Hseen Hacc. destruct (provisioned_share _ _ _ _ _ _ _ Hd Hp Hcid Hopk) as (id' & sg & Hid' & Hlen & Hnul & Hdec & Hms & Hver).
  assert (id' = id) as -> by congruence. destruct (entry_fields pspk out Hnul) as [F1 F2].
  unfold add_secret. cbn [json_is_object secret_entry negb throw_if result_bind]. fold (secret_entry pspk out).
  rewrite F1, F2. cbn [required of_option result_bind]. guards. unfold Base64EncodedStringToByteArray.
  rewrite base64_roundtrip_bytes, Hdec. cbn [result_bind].
  assert (Hh : length (BinaryToHexString secret) = Z.to_nat ENCODED_SECRET_SIZE).
  { pose proof (BinaryToHexString_length secret) as Hx. rewrite Hlen in Hx. unfold zlen in Hx.
    change ENCODED_SECRET_SIZE with 32%Z. change SYM_KEY_LEN with 16%Z in Hx. lia. }
  rewrite bool_decide_eq_false_2.
  2:{ rewrite zlen_app, !BinaryToHexString_length, Hlen. change ENCODED_SECRET_SIZE with 32%Z. change SYM_KEY_LEN with 16%Z. lia. }
  cbn [throw_if result_bind]. rewrite take_app_length', drop_app_length' by done. rewrite !hex_decode. cbn [result_bind].
  rewrite Hver. cbn [result_bind]. unfold xor_secret. rewrite bool_decide_eq_false_2; [done|].
  unfold zlen in *. lia.
Qed.
End EndToEnd.

Section Provisioning.
Context {OS : OpenSSL} {LC : LibC} {LL : LibCLaws} {OK : OpenSSLKeys} {OL : OpenSSLKeysLaws} {SG : SGX} {SL : SGXLaws}.
Context {XC : X509} {PB : ProvisioningBuild}.

(** One service's part: its keys, its name, its secret and what it sends. *)
Record provision := mk_provision { pv_service : EnclaveData; pv_pspk : bytes; pv_secret : bytes; pv_out : bytes }.

Definition entries (l : list provision) : json := JArray (map (fun p => secret_entry p.(pv_pspk) p.(pv_out)) l).

Lemma add_secrets_provisioned d cid opk id l : good_data d -> Byte.x00 ∉ cid -> Byte.x00 ∉ opk -> get_enclave_id d = Ok id ->
  Forall (fun p => provisioned d cid opk p.(pv_service) p.(pv_pspk) p.(pv_secret) p.(pv_out)) l ->
  forall seen acc msg, NoDup (map pv_pspk l ++ seen) -> length acc = Z.to_nat SYM_KEY_LEN ->
  exists seen', add_secrets d id cid opk (seen, acc, msg) (map (fun p => secret_entry p.(pv_pspk) p.(pv_out)) l) =
    Ok (seen', fold_left xor_bytes (map pv_secret l) acc, msg ++ concat (map (fun p => p.(pv_pspk) ++ base64_encode p.(pv_out)) l)).
Proof.
  intros Hd Hcid Hopk Hid. induction 1 as [|p l Hp Hl IH]; intros seen acc msg Hnd Hacc; cbn [map add_secrets].
  { exists seen. cbn. by rewrite app_nil_r. }
  cbn in Hnd. apply list.NoDup_cons in Hnd as [Hn Hnd]. rewrite not_elem_of_app in Hn.
  rewrite (provisioned_accepted d cid opk p.(pv_service) _ p.(pv_secret)) by (done || apply Hn). cbn [result_bind].
  destruct (IH (p.(pv_pspk) :: seen) (xor_bytes acc p.(pv_secret)) (msg ++ p.(pv_pspk) ++ base64_encode p.(pv_out))) as [seen' Hr].
  - rewrite <-Permutation_middle. apply list.NoDup_cons. by rewrite not_elem_of_app.
  - destruct (provisioned_share _ _ _ _ _ _ _ Hd Hp Hcid Hopk) as (_ & _ & _ & Hlen & _).
    rewrite xor_bytes_length; [done|]. unfold zlen in Hlen. lia.
  - exists seen'. rewrite Hr. cbn. by rewrite <-!app_assoc.
Qed.

Lemma entries_wf l : wf_json (entries l) = true /\ (json_depth (entries l) <= 2)%Z.
Proof.
  unfold entries. cbn [wf_json json_depth]. induction l as [|p l [IH1 IH2]]; [done|]. cbn [map forallb fold_right].
  split; [rewrite IH1, andb_true_r; by vm_compute|].
  assert (json_depth (secret_entry p.(pv_pspk) p.(pv_out)) = 1%Z) as -> by (by vm_compute). lia.
Qed.

(** C15: provisioning from end to end.  Let one or more different services each make, with
    ecall_GenerateEnclaveSecret and success, an encrypted secret for a contract enclave, contract and
    creator, where each service (1) wrote into an output buffer of exactly 384 bytes, the size of one RSA
    block, (2) has signatures at least as long as the enclave's (the curves' [max_sig_size]), (3) had a
    sealed secret that unseals, and (4) read the enclave's own two keys from the enclave information; keys
    of enclave and services are generated ones, and the contract id and the creator's key hold no NUL.
    Then the contract enclave accepts the list of these secrets, in either layout of the JSON text, and
    the state encryption key it derives is the exclusive or of the secrets that the services had sealed.
    (With a smaller buffer the service reports success and sends zeros; with longer enclave signatures the
    enclave refuses the share.) *)
Theorem provisioning_end_to_end d cid opk l text :
  good_data d -> l <> [] ->
  Forall (fun p => provisioned d cid opk p.(pv_service) p.(pv_pspk) p.(pv_secret) p.(pv_out)) l ->
  NoDup (map pv_pspk l) -> Byte.x00 ∉ cid -> Byte.x00 ∉ opk ->
  json_serialize (entries l) = Some text \/ json_serialize_pretty (entries l) = Some text ->
  exists msg, CreateEnclaveStateEncryptionKey d cid opk text = Ok (xor_all (map pv_secret l), msg) /\
    length (xor_all (map pv_secret l)) = Z.to_nat SYM_KEY_LEN.
Proof.
  intros Hd Hne Hl Hnd Hcid Hopk Htext.
  assert (exists id, get_enclave_id d = Ok id) as [id Hid].
  { destruct Hl as [|p l Hp _]; [done|]. destruct (provisioned_share _ _ _ _ _ _ _ Hd Hp Hcid Hopk) as (id & _ & Hid & _). by exists id. }
  destruct (entries_wf l) as [Hwf Hdepth].
  assert (Hparse : json_parse (c_str text) = Some (entries l)).
  { destruct Htext as [Ht|Ht]; apply (inj Some) in Ht; subst text; rewrite c_str_id by (by apply serialize_no_nul);
      (apply serialized_parses; [done|unfold MAX_NESTING; lia]). }
  unfold CreateEnclaveStateEncryptionKey. rewrite Hid. cbn [result_bind]. rewrite Hparse. cbn [of_option result_bind entries].
  rewrite bool_decide_eq_false_2 by (by destruct l). cbn [throw_if result_bind].
  destruct (add_secrets_provisioned d cid opk id l Hd Hcid Hopk Hid Hl [] (replicate (Z.to_nat (ENCODED_SECRET_SIZE / 2)) Byte.x00) (cid ++ opk))
    as [seen' ->]; [by rewrite app_nil_r|by rewrite length_replicate|].
  cbn [result_bind]. rewrite fold_left_xor. eexists. split; [reflexivity|]. clear Hparse Htext Hnd Hne Hwf Hdepth. unfold xor_all.
  induction Hl as [|p l Hp _ IH]; cbn [map foldr]; [by rewrite length_replicate|].
  destruct (provisioned_share _ _ _ _ _ _ _ Hd Hp Hcid Hopk) as (_ & _ & _ & Hlen & _). unfold zlen in Hlen.
  rewrite xor_bytes_length; [lia|]. rewrite IH. lia.
Qed.
End Provisioning.

(** * Attestation *)

Lemma resize_bytes_same n b : zlen b = n -> resize_bytes n b = b.
Proof. intros <-. unfold resize_bytes, zlen. by rewrite Nat2Z.id, resize_all. Qed.

Lemma resize_overwrite n h : (zlen h <= n)%Z -> overwrite (replicate (Z.to_nat n) Byte.x00) 0 h = resize_bytes n h.
Proof.
  intros Hl. unfold overwrite, resize_bytes, zlen in *. change (Z.to_nat 0) with 0. rewrite Nat.add_0_l.
  rewrite resize_ge by lia. by rewrite drop_replicate.
Qed.

Section Reports.
Context {OS : OpenSSL} {OSL : OpenSSLLaws} {LC : LibC} {OK : OpenSSLKeys} {OL : OpenSSLKeysLaws} {SG : SGX} {CC : CCF}.

(** C24: the three parties compute the same report data.  With one SHA-256 and one hexadecimal encoding up to
    case, the hash that the contract enclave puts in its report at signup, the one the provisioning enclave
    expects, and the one the ledger expects are equal, for the keys the enclave publishes and the
    originator the report names. *)
Theorem report_data_agrees d id ek owner :
  good_data d -> get_enclave_id d = Ok id -> get_serialized_encryption_key d = Ok ek ->
  (forall m, sgx_sha256_msg m = Ok (sha256 m)) -> (forall m, ccf_sha256 m = sha256 m) ->
  (forall b, map tolower (to_hex b) = map tolower (BinaryToHexString b)) ->
  let originator := map tolower (ByteArrayToHexEncodedString (ComputeMessageHash owner)) in
  signup_enclave.CreateSignupReportData originator d = Ok (user_data_hash id ek owner) /\
  secret_enclave.CreateReportData originator id ek = Ok (user_data_hash id ek owner).
Proof.
  intros [_ [Hgv _] (k & _ & _ & Hep)] Hid Hek Hsgx Hccf Hhex originator.
  assert (Ho : originator = map tolower (resize_bytes ORIGINATOR_KEY_HASH_SIZE (to_hex (ccf_sha256 owner)))).
  { unfold originator, ByteArrayToHexEncodedString, ComputeMessageHash, SHA256Hash. rewrite <-Hhex, Hccf, resize_bytes_same; [done|].
    assert (Hx : zlen (map tolower (to_hex (sha256 owner))) = zlen (map tolower (BinaryToHexString (sha256 owner)))) by (by rewrite Hhex).
    unfold zlen in Hx. rewrite !length_map in Hx. unfold zlen. rewrite Hx. fold (zlen (BinaryToHexString (sha256 owner))).
    rewrite BinaryToHexString_length, sha256_length. done. }
  assert (Hnul : c_str originator = originator).
  { apply c_str_id. unfold originator. rewrite list_elem_of_In, in_map_iff. intros (x & Hx & Hin).
    assert (Hall : forallb (fun c => negb (bool_decide (tolower c = Byte.x00))) (BinaryToHexString (sha256 owner)) = true).
    { unfold BinaryToHexString. induction (sha256 owner) as [|b l IH]; [done|]. cbn [map concat app forallb]. rewrite IH. destruct b; by vm_compute. }
    rewrite forallb_forall in Hall. apply Hall in Hin. by rewrite Hx in Hin. }
  assert (Hdata : overwrite (replicate (Z.to_nat report_data_size) Byte.x00) 0 (sha256 (id ++ ek ++ originator)) = user_data_hash id ek owner).
  { unfold user_data_hash. cbn zeta. rewrite <-Ho, Hccf. apply resize_overwrite. by rewrite sha256_length. }
  split.
  - unfold signup_enclave.CreateSignupReportData. unfold get_enclave_id in Hid. unfold get_serialized_signing_key. rewrite Hid. cbn [result_bind].
    rewrite Hek. cbn [result_bind]. rewrite Hsgx, Hnul. cbn [result_bind]. by rewrite Hdata.
  - unfold get_serialized_encryption_key in Hek. rewrite Hep in Hek.
    unfold secret_enclave.CreateReportData. destruct (sig_public_serialized _ _ Hgv Hid) as (-> & _). cbn [result_bind].
    destruct (pkenc_public_serialized (RSAPublicKey_dup k) _ eq_refl Hek) as (-> & _). cbn [result_bind].
    unfold get_enclave_id in Hid. rewrite Hid. cbn [result_bind]. rewrite Hek. cbn [result_bind]. rewrite Hsgx, Hnul. cbn [result_bind]. by rewrite Hdata.
Qed.
End Reports.

Section Verified.
Context {OS : OpenSSL} {LC : LibC} {OK : OpenSSLKeys} {SG : SGX} {XC : X509} {PB : ProvisioningBuild}.

(** The report is signed with a key whose certificate the root certificate vouches for. *)
Definition report_signed (cert report signature : bytes) : Prop := exists ca crt key sig,
  PEM_read_bio_X509 (c_str ias_report_signing_ca_cert_pem) = Some ca /\ PEM_read_bio_X509 (c_str cert) = Some crt /\
  (0 < X509_verify_cert ca crt)%Z /\ X509_get_pubkey crt = Some key /\
  EVP_DecodeBlock_wrapper signature = Ok (Some sig) /\ EVP_VerifyFinal key report sig = 1%Z.

Definition accepted_statuses : list quote_status_e :=
  [QS_OK; QS_GROUP_OUT_OF_DATE; QS_SW_HARDENING_NEEDED; QS_CONFIGURATION_AND_SW_HARDENING_NEEDED].

(** The quote of an enclave with the expected measurement and flags that holds the report data. *)
Definition quote_matches (quote report_data : bytes) : Prop := exists allowed flags,
  (quote_body_size <= zlen quote)%Z /\
  HexEncodedStringToByteArray ESERVICE_ENCLAVE_MRENCLAVE = Ok allowed /\
  subseq quote mr_enclave_offset SGX_HASH_SIZE = take (Z.to_nat SGX_HASH_SIZE) allowed /\
  subseq quote report_data_offset report_data_size = report_data /\
  flags = le_combine (subseq quote attributes_offset 8) /\
  Z.land flags SGX_FLAGS_MODE64BIT <> 0%Z /\
  (Z.land attribute_mask_flags SGX_FLAGS_DEBUG <> 0%Z ->
   Z.land flags SGX_FLAGS_DEBUG = Z.land attributes_flags SGX_FLAGS_DEBUG).

Lemma chain_verified cert : verify_ias_certificate_chain cert = Ok VERIFY_SUCCESS -> exists ca crt,
  PEM_read_bio_X509 (c_str ias_report_signing_ca_cert_pem) = Some ca /\ PEM_read_bio_X509 (c_str cert) = Some crt /\
  (0 < X509_verify_cert ca crt)%Z.
Proof.
  unfold verify_ias_certificate_chain. destruct IAS_CA_CERT_REQUIRED; [|done]. cbn [negb].
  destruct (PEM_read_bio_X509 (c_str cert)) as [crt|]; [|done]. destruct (PEM_read_bio_X509 (c_str ias_report_signing_ca_cert_pem)) as [ca|]; [|done].
  cbn [of_option result_bind]. case_bool_decide; [done|]. intros _. exists ca, crt. split_and!; [done|done|lia].
Qed.

Lemma status_verified report len : verify_enclave_quote_status report len secret_enclave.QSF_flags = VERIFY_SUCCESS ->
  get_quote_status report len ∈ accepted_statuses.
Proof.
  unfold verify_enclave_quote_status, accepted_statuses.
  destruct (get_quote_status report len); [done|set_solver|set_solver| |set_solver|set_solver].
  rewrite bool_decide_eq_true_2; [done|by vm_compute].
Qed.

Lemma check_verified_ok r msg u : secret_enclave.check_verified r msg = Ok u -> r = VERIFY_SUCCESS.
Proof. unfold secret_enclave.check_verified. intros Hc. result_inv. guard_facts. by apply dec_stable. Qed.

Lemma quote_field_ok quote off size b : quote_field quote off size = Ok b -> b = subseq quote off size.
Proof. unfold quote_field. case_bool_decide; [|done]. by intros [= <-]. Qed.

Lemma check_quote_ok body owner id ek u : (forall b, released b = b) -> secret_enclave.check_quote body owner id ek = Ok u ->
  exists rd, secret_enclave.CreateReportData (map tolower (ByteArrayToHexEncodedString (ComputeMessageHash owner))) id ek = Ok rd /\
    quote_matches (Base64EncodedStringToByteArray body) rd.
Proof.
  intros Hrel Hc. unfold secret_enclave.check_quote in Hc. cbv zeta in Hc. rewrite Hrel in Hc. result_inv.
  repeat match goal with H : quote_field _ _ _ = Ok _ |- _ => apply quote_field_ok in H; subst end. guard_facts.
  eexists. split; [reflexivity|]. unfold quote_matches. do 2 eexists.
  split_and!; [lia|exact E3| | |reflexivity|done|].
  - by apply dec_stable.
  - symmetry. by apply dec_stable.
  - intros Hm. apply dec_stable. intros Hne.
    match goal with H : _ && _ = false |- _ => apply andb_false_iff in H as [H%bool_decide_eq_false|H%bool_decide_eq_false]; done end.
Qed.

(** The enclave information [o] carries the attestation proof: the signature, the signing certificate and the
    report's text are fields of the proof, and the quote's body is a field of that same report. *)
Record proof_in (o : json) (signature cert report body : bytes) : Prop := {
  proof_fields : exists text proof certs parsed,
    get_cstring o (bytes_of "proof_data") = Some text /\ json_parse (c_str text) = Some proof /\
    get_cstring proof (bytes_of "signature") = Some signature /\
    json_object_get_array proof (bytes_of "certificates") = Some certs /\ array_get_cstring certs 0 = Some cert /\
    get_cstring proof (bytes_of "verification_report") = Some report /\ json_parse (c_str report) = Some parsed /\
    get_cstring parsed (bytes_of "isvEnclaveQuoteBody") = Some body;
}.

Lemma parse_object_ok b m1 m2 v : secret_enclave.parse_object b m1 m2 = Ok v -> json_parse (c_str b) = Some v.
Proof.
  unfold secret_enclave.parse_object.
  destruct (json_parse (c_str b)) as [x|]; [|done]. cbn. destruct (json_is_object x); [|done]. by intros [= ->].
Qed.

Lemma required_ok (x : option bytes) m v : required x m = Ok v -> x = Some v.
Proof. unfold required. destruct x; [|done]. by intros [= ->]. Qed.

Lemma parse_proof_ok o text signature cert ca report body :
  get_cstring o (bytes_of "proof_data") = Some text ->
  secret_enclave.parse_proof text = Ok (signature, cert, ca, report, body) -> proof_in o signature cert report body.
Proof.
  intros Ho Hp. unfold secret_enclave.parse_proof in Hp. result_inv.
  repeat match goal with H : secret_enclave.parse_object _ _ _ = Ok _ |- _ => apply parse_object_ok in H end.
  repeat match goal with H : required _ _ = Ok _ |- _ => apply required_ok in H end.
  match goal with H : of_option ?x _ = Ok _ |- _ => destruct x eqn:?; [|done]; injection H as -> end.
  split. do 4 eexists. by split_and!.
Qed.

Lemma report_verified cert report signature :
  verify_ias_certificate_chain cert = Ok VERIFY_SUCCESS ->
  verify_ias_report_signature cert report signature = Ok VERIFY_SUCCESS -> report_signed cert report signature.
Proof.
  intros (cac & crt & Hca & Hcrt & Hx)%chain_verified Hv. unfold verify_ias_report_signature in Hv. rewrite Hcrt in Hv.
  cbn in Hv. destruct (X509_get_pubkey crt) as [key|] eqn:Hkey; [|done]. result_inv.
  match goal with x : option bytes |- _ => destruct x as [sig|]; [|done] end. result_inv. case_bool_decide as Hsig; [|done].
  exists cac, crt, key, sig. by split_and!.
Qed.

End Verified.

(** * A secret that does not unseal *)

Section Tampered.
Context {OS : OpenSSL} {LC : LibC} {OK : OpenSSLKeys} {SG : SGX} {XC : X509} {PB : ProvisioningBuild}.

Lemma plain_secret_residue sealed msg len n : sgx_unseal_data sealed = Some (Err (SystemError msg)) ->
  sgx_get_encrypt_txt_len sealed = Some len -> secret_enclave.plain_secret sealed n = (Ok (unseal_residue len), n).
Proof.
  intros Hu Hl. unfold secret_enclave.plain_secret, secret_enclave.ecall_UnsealSecret, secret_enclave.UnsealSecret_body.
  unfold secret_enclave.text_len, unseal, ecall, catchM. run_monad. rewrite Hl. cbn [of_option result_bind].
  rewrite bool_decide_eq_false_2 by lia. rewrite Hu. done.
Qed.

(** C37: ecall_GenerateEnclaveSecret does not look at the result of unsealing the secret.  A blob that does not
    authenticate, for instance one that the host made up, is treated as if it were the sealed form of
    whatever the failed unsealing leaves in the zeroed buffer: the same signature, the same answer. *)
Theorem tampered_secret_accepted sealed_data forged genuine cid opk info alloc n msg aad len :
  sgx_unseal_data forged = Some (Err (SystemError msg)) -> sgx_get_encrypt_txt_len forged = Some len ->
  sgx_unseal_data genuine = Some (Ok (aad, unseal_residue len)) ->
  sgx_get_encrypt_txt_len genuine = Some (zlen (unseal_residue len)) ->
  secret_enclave.ecall_GenerateEnclaveSecret sealed_data forged cid opk info alloc n =
  secret_enclave.ecall_GenerateEnclaveSecret sealed_data genuine cid opk info alloc n.
Proof.
  intros H1 H2 H3 H4. unfold secret_enclave.ecall_GenerateEnclaveSecret, ecall, catchM, bindM.
  by rewrite (plain_secret_residue forged msg len n H1 H2), (plain_secret_ok genuine aad (unseal_residue len) n H3 H4).
Qed.
End Tampered.
