(* ===== verification/EnclavePlatform.v ===== *)
(** Instances of the parameters of the enclaves, [OpenSSLKeys], [SGX] and [Build], that satisfy their laws.
    They are not the real libraries: the private scalar can be read off the public point, and what is
    sealed or encrypted is not hidden.  They show that the laws can hold and let the witnesses evaluate. *)
From S2P Require Import Prelude Crypto BlockStore Codec Json JsonSpec Keys KeysSpec EnclaveData Platform.

(** * Keys *)

Definition toy_order (nid : Z) : option Z :=
  if bool_decide (nid = NID_secp256k1) then Some (2 ^ 255 + 95)%Z
  else if bool_decide (nid = NID_secp384r1) then Some (2 ^ 383 + 187)%Z
  else None.

Definition toy_s (h : bytes) (d o : Z) : Z := (1 + (checksum h + d) mod (o - 1))%Z.

Definition toy_len (r s : Z) : Z := Z.max (BN_num_bytes r) (BN_num_bytes s).

Definition ec_text (k : EC_KEY) : bytes := pos_text (encode (k.(ec_nid), k.(ec_private), k.(ec_public))).
Definition ec_of_text (t : bytes) : option EC_KEY :=
  match read_pos t with
  | Some (p, _) => (fun x : Z * option Z * option EC_POINT => mk_ec x.1.1 x.1.2 x.2) <$> decode p
  | None => None
  end.
(** The modulus as a power of two and a rest. *)
Definition rsa_text (k : RSA) : bytes :=
  pos_text (encode (Z.log2 k.(rsa_n), (k.(rsa_n) - 2 ^ Z.log2 k.(rsa_n))%Z, k.(rsa_e), k.(rsa_d))).
Definition rsa_of_text (t : bytes) : option RSA :=
  match read_pos t with
  | Some (p, _) => (fun x : Z * Z * Z * option Z => mk_rsa (2 ^ x.1.1.1 + x.1.1.2) x.1.2 x.2) <$> decode p
  | None => None
  end.

#[export] Instance toy_keys : OpenSSLKeys := {|
  PDO_DEFAULT_SIGCURVE := SECP384R1;
  EC_GROUP_get_order := toy_order;
  EC_KEY_generate_key n nid :=
    match toy_order nid with
    | Some o => let d := (1 + Z.of_nat n mod (o - 1))%Z in Some (d, Some (d, nid))
    | None => None
    end;
  EC_POINT_mul nid d := Some (Some (d, nid));
  EC_KEY_check_key _ := true;
  EC_POINT_oct2point nid b := Some (Some (le_combine b, nid));
  EC_POINT_point2oct nid p := match p with Some (d, _) => le_split 64 d | None => [] end;
  PEM_write_bio_ECPrivateKey k := Some (ec_text k);
  PEM_read_bio_ECPrivateKey := ec_of_text;
  PEM_write_bio_EC_PUBKEY k := Some (ec_text k);
  PEM_read_bio_EC_PUBKEY := ec_of_text;
  ECDSA_do_sign n h k :=
    match k.(ec_private), toy_order k.(ec_nid) with
    | Some d, Some o => Some (1%Z, toy_s h d o)
    | _, _ => None
    end;
  ECDSA_do_verify h sg k :=
    match k.(ec_public), toy_order k.(ec_nid) with
    | Some (Some (d, _)), Some o =>
        if bool_decide (sg.2 = toy_s h d o \/ sg.2 = (o - toy_s h d o)%Z) then 1%Z else 0%Z
    | _, _ => (-1)%Z
    end;
  i2d_ECDSA_SIG sg :=
    let len := toy_len sg.1 sg.2 in
    if bool_decide (0 <= sg.1 /\ 0 <= sg.2 /\ len <= 60)%Z
    then Some (byte.of_Z len :: le_split (Z.to_nat len) sg.1 ++ le_split (Z.to_nat len) sg.2) else None;
  d2i_ECDSA_SIG b :=
    match b with
    | l :: b => let len := Z.to_nat (byte.unsigned l) in
                if bool_decide (len + len <= length b) then Some (le_combine (take len b), le_combine (take len (drop len b))) else None
    | [] => None
    end;
  RSA_generate_key_ex n bits e :=
    if bool_decide (0 < bits /\ bits mod 8 = 0)%Z then Some (mk_rsa (2 ^ (bits - 1)) e (Some (Z.of_nat n))) else None;
  PEM_write_bio_RSAPrivateKey k := Some (rsa_text k);
  PEM_read_bio_RSAPrivateKey := rsa_of_text;
  PEM_write_bio_RSAPublicKey k := Some (rsa_text k);
  PEM_read_bio_RSAPublicKey := rsa_of_text;
  RSA_public_encrypt n k m :=
    if bool_decide (zlen m <= RSA_size k - 42 /\ zlen m < 2 ^ 64)%Z
    then Some (le_split 8 (zlen m) ++ m ++ replicate (Z.to_nat (RSA_size k - 8 - zlen m)) Byte.x00) else None;
  RSA_private_decrypt k c := Some (take (Z.to_nat (le_combine (take 8 c))) (drop 8 c));
|}.

Lemma pos_text_no_nul p : pos_text p <> [] /\ Byte.x00 ∉ pos_text p.
Proof.
  split; [by destruct p|]. pose proof (pos_text_digits p) as Hd. rewrite forallb_forall in Hd.
  intros Hin%list_elem_of_In%Hd. rewrite bool_decide_eq_true, !elem_of_cons in Hin. destruct Hin as [?|[?|[?|Hin]]]; [done..|by apply elem_of_nil in Hin].
Qed.

Lemma ec_text_read k : ec_of_text (ec_text k) = Some k.
Proof.
  unfold ec_of_text, ec_text. rewrite <-(app_nil_r (pos_text _)), read_pos_text, decode_encode. by destruct k.
Qed.

Lemma rsa_text_read k : rsa_of_text (rsa_text k) = Some k.
Proof.
  unfold rsa_of_text, rsa_text. rewrite <-(app_nil_r (pos_text _)), read_pos_text, decode_encode.
  destruct k as [n e d]. cbn. do 2 f_equal. lia.
Qed.

Lemma num_bytes_le n len : (0 <= len)%Z -> (n < 2 ^ (8 * len))%Z -> (BN_num_bytes n <= len)%Z.
Proof.
  intros Hl Hn. unfold BN_num_bytes. case_bool_decide; [done|].
  apply Z.log2_lt_pow2 in Hn; [|lia]. assert (Z.log2 n / 8 < len)%Z by (apply Z.div_lt_upper_bound; lia). lia.
Qed.

Lemma num_bytes_fits n : (0 <= n)%Z -> (0 <= BN_num_bytes n)%Z /\ (n < 2 ^ (8 * BN_num_bytes n))%Z.
Proof.
  intros Hn. unfold BN_num_bytes. case_bool_decide; [assert (n = 0)%Z as -> by lia; done|].
  pose proof (Z.log2_nonneg n). pose proof (Z.log2_spec n ltac:(lia)) as [_ Hs].
  assert (0 <= Z.log2 n / 8)%Z by (apply Z.div_pos; lia). split; [lia|].
  eapply Z.lt_le_trans; [exact Hs|]. apply Z.pow_le_mono_r; [lia|].
  pose proof (Z.mul_succ_div_gt (Z.log2 n) 8 ltac:(lia)). lia.
Qed.

Lemma toy_s_range h d o : (2 < o)%Z -> (0 < toy_s h d o < o)%Z.
Proof. intros Ho. unfold toy_s. pose proof (Z.mod_pos_bound (checksum h + d) (o - 1) ltac:(lia)). lia. Qed.

Lemma toy_order_big nid o : toy_order nid = Some o -> (2 < o)%Z.
Proof. unfold toy_order. repeat case_bool_decide; intros [= <-]; lia. Qed.

Lemma split_combine len n : (0 <= len)%Z -> (0 <= n < 2 ^ (8 * len))%Z -> le_combine (le_split (Z.to_nat len) n) = n.
Proof. intros Hl Hn. rewrite le_combine_split. rewrite Z2Nat.id by lia. rewrite Z.mod_small; [done|]. by rewrite Z.mul_comm. Qed.

#[export] Instance toy_keys_laws : OpenSSLKeysLaws.
Proof.
  split; cbn [PDO_DEFAULT_SIGCURVE EC_GROUP_get_order EC_KEY_generate_key EC_POINT_mul EC_KEY_check_key toy_keys
    ECDSA_do_sign ECDSA_do_verify i2d_ECDSA_SIG d2i_ECDSA_SIG PEM_write_bio_EC_PUBKEY PEM_read_bio_EC_PUBKEY
    PEM_write_bio_ECPrivateKey PEM_read_bio_ECPrivateKey RSA_generate_key_ex PEM_write_bio_RSAPublicKey
    PEM_read_bio_RSAPublicKey PEM_write_bio_RSAPrivateKey PEM_read_bio_RSAPrivateKey RSA_public_encrypt RSA_private_decrypt].
  - done.
  - intros [] Hc; [done|eexists; split; [by vm_compute|done]..].
  - intros n nid d p o Hg Ho. rewrite Ho in Hg. injection Hg as <- <-. pose proof (toy_order_big _ _ Ho).
    pose proof (Z.mod_pos_bound (Z.of_nat n) (o - 1) ltac:(lia)). split; [lia|done].
  - done.
  - intros n h k r s o Hs Ho. rewrite Ho in Hs. destruct (ec_private k) as [d|]; [|done]. injection Hs as <- <-.
    pose proof (toy_order_big _ _ Ho). pose proof (toy_s_range h d o ltac:(lia)). lia.
  - intros n h k sg (d & p & o & Hd & Hp & Ho & Hr & Hm) Hs. cbn in Ho, Hm. rewrite Hd, Ho in Hs. injection Hs as <-.
    cbn. rewrite Hp, Ho. injection Hm as <-. by rewrite bool_decide_eq_true_2 by (by left).
  - intros h r s k o Ho Hs. rewrite Ho. destruct (ec_public k) as [[[d nid]|]|]; [|done..]. cbn [snd].
    pose proof (toy_order_big _ _ Ho). pose proof (toy_s_range h d o ltac:(lia)). repeat case_bool_decide; lia || done.
  - intros r s der rest. cbn [fst snd]. case_bool_decide as Hc; [|done]. destruct Hc as (Hr & Hs & Hlen). intros [= <-]. cbn [app].
    destruct (num_bytes_fits r Hr) as [Hr0 Hrb]. destruct (num_bytes_fits s Hs) as [Hs0 Hsb].
    assert (Hl : (0 <= toy_len r s)%Z) by (unfold toy_len; lia).
    rewrite byte.unsigned_of_Z. unfold byte.wrap. rewrite Z.mod_small by lia. rewrite <-app_assoc.
    rewrite bool_decide_eq_true_2 by (rewrite !length_app, !length_le_split; lia).
    rewrite take_app_length' by (by rewrite length_le_split). rewrite drop_app_length' by (by rewrite length_le_split).
    rewrite take_app_length' by (by rewrite length_le_split).
    rewrite !split_combine; [done|done| |done|]; (split; [done|]);
      (eapply Z.lt_le_trans; [eassumption|]; apply Z.pow_le_mono_r; [lia|]; unfold toy_len; lia).
  - intros r s len der. cbn [fst snd]. case_bool_decide as Hc; [|done]. intros [= <-] Hlen Hr Hs.
    pose proof (num_bytes_le r len ltac:(lia) ltac:(lia)). pose proof (num_bytes_le s len ltac:(lia) ltac:(lia)).
    unfold zlen, der_size, toy_len. cbn [length]. rewrite length_app, !length_le_split. lia.
  - intros k t _ [= <-]. split; [apply ec_text_read|apply pos_text_no_nul].
  - intros k t _ [= <-]. split; [apply ec_text_read|apply pos_text_no_nul].
  - intros n bits e k Hb. case_bool_decide as Hc; [|done]. intros [= <-]. split; [done|].
    unfold RSA_size, BN_num_bytes. cbn [rsa_n]. assert (0 < 2 ^ (bits - 1))%Z by (apply Z.pow_pos_nonneg; lia).
    rewrite bool_decide_eq_false_2 by lia. rewrite Z.log2_pow2 by lia.
    pose proof (Z.div_mod bits 8 ltac:(lia)) as Hd. replace (bits - 1)%Z with (7 + (bits / 8 - 1) * 8)%Z by lia.
    rewrite Z.div_add by lia. change (7 / 8)%Z with 0%Z. lia.
  - intros k t _ [= <-]. split; [apply rsa_text_read|apply pos_text_no_nul].
  - intros k t _ [= <-]. split; [apply rsa_text_read|apply pos_text_no_nul].
  - intros n k m. case_bool_decide as Hc; [lia|]. by intros [? ?].
  - intros n bits e i k m c _. change (RSA_size (RSAPublicKey_dup k)) with (RSA_size k).
    case_bool_decide as Hc; [|done]. intros Hx%(inj Some). subst c. pose proof (zlen_nonneg m). split.
    + unfold zlen in *. rewrite !length_app, length_le_split, length_replicate. lia.
    + rewrite take_app_length' by (by rewrite length_le_split). rewrite drop_app_length' by (by rewrite length_le_split).
      rewrite (le_combine_split 8). rewrite Z.mod_small by lia. unfold zlen. by rewrite Nat2Z.id, take_app_length.
Qed.

(** * SGX *)

(** A blob is the two lengths, the additional data and the text. *)
#[export] Instance toy_sgx : SGX := {|
  sgx_calc_sealed_data_size a b := (16 + a + b)%Z;
  sgx_seal_data_ex _ aad d size :=
    if bool_decide (size = (16 + zlen aad + zlen d)%Z /\ (zlen aad < 2 ^ 64)%Z /\ (zlen d < 2 ^ 64)%Z)
    then Ok (le_split 8 (zlen aad) ++ le_split 8 (zlen d) ++ aad ++ d) else Err (SystemError "SGX ERROR");
  sgx_unseal_data b :=
    if bool_decide (zlen b < 16)%Z then None
    else
      let a := Z.to_nat (le_combine (take 8 b)) in
      let d := Z.to_nat (le_combine (take 8 (drop 8 b))) in
      let text := drop 8 (drop 8 b) in
      Some (Ok (take a text, take d (drop a text)));
  sgx_get_encrypt_txt_len b := if bool_decide (zlen b < 16)%Z then None else Some (le_combine (take 8 (drop 8 b)));
  sgx_create_report target data := Ok (target ++ data);
  sgx_sha256_msg m := Ok (sha256 m);
  sgx_read_rand n len := if bool_decide (0 <= len)%Z then Ok (le_split (Z.to_nat len) (Z.of_nat n)) else Err (SystemError "SGX ERROR");
  heap_after _ := bytes_of "left over";
|}.

Lemma ok_inj {A} (x y : A) : Ok x = Ok y -> x = y.
Proof. by intros [= ->]. Qed.

#[export] Instance toy_sgx_laws : SGXLaws.
Proof.
  split.
  - intros n aad d size blob rest. cbn [sgx_seal_data_ex sgx_unseal_data sgx_get_encrypt_txt_len toy_sgx].
    case_bool_decide as Hc; [|done]. intros Hx%ok_inj. subst blob. pose proof (zlen_nonneg aad). pose proof (zlen_nonneg d).
    rewrite <-!app_assoc. rewrite bool_decide_eq_false_2.
    2:{ unfold zlen. rewrite !length_app, !length_le_split. lia. }
    rewrite (take_app_length' (le_split 8 _)) by (by rewrite length_le_split).
    rewrite (drop_app_length' (le_split 8 _)) by (by rewrite length_le_split).
    rewrite (take_app_length' (le_split 8 _)) by (by rewrite length_le_split).
    rewrite (drop_app_length' (le_split 8 _)) by (by rewrite length_le_split).
    rewrite !(le_combine_split 8), !Z.mod_small by lia. unfold zlen. by rewrite !Nat2Z.id, take_app_length, drop_app_length, take_app_length.
  - intros n aad d size blob. cbn [sgx_seal_data_ex sgx_calc_sealed_data_size toy_sgx].
    case_bool_decide as Hc; [|done]. intros Hx%ok_inj. subst blob. destruct Hc as (-> & _ & _). split; [|done].
    unfold zlen. rewrite !length_app, !length_le_split. lia.
  - intros n len b. cbn. case_bool_decide; [|done]. intros [= <-]. unfold zlen. rewrite length_le_split. lia.
Qed.

#[export] Instance toy_build : Build := {| USE_WAWAKA_OPT := false |}.
