(* ===== verification/EnclaveWitnesses.v ===== *)
(** Concrete runs of the contract enclave on the platform of Platform.v, with small instances of the keys,
    of sealing and of the interpreter. *)
From S2P Require Import Prelude Codec Ledger LedgerSpec Crypto BlockStore Json JsonSpec StateNode Cache DataNodeIO StateKV.
From S2P Require Import Keys KeysSpec EnclaveData EnclaveDataSpec Attestation Provisioning Enclave EnclaveSpec ProvisioningSpec.
From S2P Require Import Platform EnclavePlatform.
From S2P Require Import LedgerWitnesses.

(** * Platform *)

Definition ok_or {A} (d : A) (r : result A) : A := match r with Ok a => a | Err _ => d end.

(** A certificate is its text and its key; a signature under it is the key and the message in base64. *)
#[export] Instance toy_x509 : X509 := {|
  certificate := bytes;
  pkey := bytes;
  PEM_read_bio_X509 := Some;
  X509_get_pubkey := Some;
  EVP_VerifyFinal k m sg := if bool_decide (sg = k ++ m) then 1%Z else 0%Z;
  X509_verify_cert ca crt := if bool_decide (ca <> crt) then 1%Z else 0%Z;
  EVP_DecodeBlock b := Some (base64_decode b ++ replicate (length b / 4 * 3 - length (base64_decode b)) Byte.x00);
  IAS_CA_CERT_REQUIRED := true;
  ias_report_signing_ca_cert_pem := bytes_of "root";
|}.

Definition mrenclave : bytes := replicate 32 "m"%byte.

(** The same build with and without the simulator. *)
Definition build (simulator : bool) : ProvisioningBuild := {|
  IS_SGX_SIMULATOR := simulator;
  ESERVICE_ENCLAVE_MRENCLAVE := BinaryToHexString mrenclave;
  attribute_mask_flags := 2;
  attributes_flags := 0;
  released b := b;
  unseal_residue n := replicate (Z.to_nat n) Byte.x00;
|}.

(** * Keys *)

(** Enclave data as [ecall_CreateEnclaveData] makes it: the contract enclave and two services. *)
Definition signup_run : result (pdo_err_t * option (created_data * bytes)) * nat :=
  signup_enclave.ecall_CreateEnclaveData (bytes_of "target") (bytes_of "owner") 4096 8191 0.
Definition signup_1 : bytes :=
  match signup_run.1 with Ok (_, Some (c, _)) => c.(outSealedEnclaveData) | _ => [] end.
Definition no_data : EnclaveData := mk_enclave_data (mk_key None (SigDetails UNDEFINED)) (mk_key None (SigDetails UNDEFINED)) None None [] [].
Definition data_1 : EnclaveData := ok_or no_data (EnclaveData_unseal (Some GetInterpreterIdentity) signup_1).

Definition service_run (n : nat) : result (pdo_err_t * option (created_data * unit)) * nat :=
  secret_enclave.ecall_CreateEnclaveData 4096 8191 n.
Definition service_sealed (n : nat) : bytes :=
  match (service_run n).1 with Ok (_, Some (c, _)) => c.(outSealedEnclaveData) | _ => [] end.
Definition service_data (n : nat) : EnclaveData := ok_or no_data (EnclaveData_unseal None (service_sealed n)).

Definition id_1 : bytes := ok_or [] (get_enclave_id data_1).
Definition ekey_1 : bytes := ok_or [] (get_serialized_encryption_key data_1).
Definition pspk (n : nat) : bytes := ok_or [] (get_enclave_id (service_data n)).

Lemma data_1_good : good_data data_1.
Proof.
  assert (H : exists c r, signup_run = (Ok (PDO_SUCCESS, Some (c, r)), 3) /\ signup_1 = c.(outSealedEnclaveData))
    by (do 2 eexists; split; vm_compute; reflexivity).
  destruct H as (c & r & Hs & Hc). unfold signup_run, signup_enclave.ecall_CreateEnclaveData in Hs.
  apply ecall_ok in Hs as [(a & Hb & _ & [= <-])|(e & _ & _ & [=])].
  destruct (created_data_ok _ _ _ _ _ _ _ _ Hb) as (d & Hgood & _ & Hun & _). unfold data_1. rewrite Hc, Hun. exact Hgood.
Qed.

Lemma service_data_good n : (exists c, service_run n = (Ok (PDO_SUCCESS, Some (c, tt)), n + 3)) ->
  good_data (service_data n) /\ EnclaveData_unseal None (service_sealed n) = Ok (service_data n).
Proof.
  intros [c Hs]. unfold service_data, service_sealed. rewrite Hs. cbn [fst].
  unfold service_run, secret_enclave.ecall_CreateEnclaveData in Hs.
  apply ecall_ok in Hs as [(a & Hb & _ & [= <-])|(e & _ & _ & [=])].
  destruct (created_data_ok _ _ _ _ _ _ _ _ Hb) as (d & Hgood & _ & Hun & _). rewrite Hun. by split.
Qed.

(** A contract that stores its message and reports a change. *)
#[local] Instance interpreter_1 : ContractInterpreter := {|
  create_initial_contract_state _ _ _ _ := IKV.UnprivilegedPut (bytes_of "k") (bytes_of "v");
  send_message_to_contract _ _ _ msg _ :=
    IKV.UnprivilegedPut (bytes_of "k") msg.(Message) ;;! retM (true, [], bytes_of "done");
|}.

(** * Requests *)

Definition id_hash_1 : bytes := replicate 32 "h"%byte.
Definition cid_1 : bytes := base64_encode id_hash_1.
Definition blob_1 : bytes := ok_or [] (EncryptStateEncryptionKey 0 cid_1 key0).
Definition session_1 : bytes := ok_or [] (encrypt_message 0 data_1 key0).

(** The originator's key. *)
Definition originator : Key := (sig_private_key.Generate 9 (sig_Key UNDEFINED)).2.
Definition originator_text : bytes := ok_or [] (let? p := sig_private_key.GetPublicKey originator in sig_public_key.Serialize p).
Definition originator_signature : bytes := ok_or [] (sig_private_key.SignMessage 0 originator (bytes_of "callchn")).

Definition message_1 : json := JObject
  [(bytes_of "InvocationRequest", JString (bytes_of "call")); (bytes_of "OriginatorVerifyingKey", JString originator_text);
   (bytes_of "ChannelVerifyingKey", JString (bytes_of "ch")); (bytes_of "Nonce", JString (bytes_of "n"));
   (bytes_of "Signature", JString (base64_encode originator_signature))].

Definition common_1 : list (bytes * json) :=
  [(bytes_of "ContractID", JString cid_1); (bytes_of "CreatorID", JString ck);
   (bytes_of "EncryptedStateEncryptionKey", JString (base64_encode blob_1)); (bytes_of "ContractMessage", message_1)].

Definition encrypted (l : list (bytes * json)) : bytes :=
  match EncryptMessage key0 (default [] (json_serialize (JObject l))) 0 with (Ok c, _) => c | (Err _, _) => [] end.

Definition init_request : bytes := encrypted (common_1 ++
  [(bytes_of "ContractCode", JObject [(bytes_of "Code", JString (bytes_of "code")); (bytes_of "Name", JString (bytes_of "name"));
                                      (bytes_of "Nonce", JString (bytes_of "nonce"))])]).

Definition enclave_0 : enclave_state := mk_estate _ world0 [] true.
Definition init_run : result (pdo_err_t * option Z) * enclave_state := ecall_InitializeContractState signup_1 session_1 init_request enclave_0.

(** The state hash in the response to the initialization. *)
Definition enclave_1 : enclave_state := init_run.2.
Definition response_0 : bytes := last_result enclave_1.
Definition state_hash_in (r : bytes) : bytes :=
  match DecryptMessage key0 r with
  | Ok b => match json_parse (c_str b) with
            | Some o => default [] (json_object_get_string o (bytes_of "StateHash"))
            | None => []
            end
  | Err _ => []
  end.
Definition state_hash_text : bytes := state_hash_in response_0.
Definition code_hash_text : bytes := base64_encode (code_ComputeHash (bytes_of "code") (bytes_of "name") (bytes_of "nonce")).

Definition update_request : bytes := encrypted (common_1 ++
  [(bytes_of "ContractCodeHash", JString code_hash_text); (bytes_of "ContractStateHash", JString state_hash_text)]).

Definition succeeded (r : result (pdo_err_t * option Z)) : bool :=
  match r with Ok (c, _) => bool_decide (c = PDO_SUCCESS) | Err _ => false end.

Lemma update_ok : succeeded (ecall_HandleContractRequest signup_1 session_1 update_request enclave_1).1 = true.
Proof. vm_compute. reflexivity. Qed.

Lemma succeeded_inv (r : result (pdo_err_t * option Z) * enclave_state) : succeeded r.1 = true ->
  exists o s', r = (Ok (PDO_SUCCESS, o), s').
Proof.
  destruct r as [[[c o]|e] s']; cbn; [|done]. intros ->%bool_decide_eq_true. eauto.
Qed.

(** * Witnesses *)

Lemma handled_request_sound_witness :
  exists c o s', ecall_HandleContractRequest signup_1 session_1 update_request enclave_1 = (Ok (c, o), s') /\
    exists session_key r code_hash state_hash,
      UpdateStateRequest session_key update_request = Ok (r, code_hash, state_hash) /\ request_authentic r /\
      exists resp, executed_on_state (e_world enclave_1) r code_hash state_hash resp.
Proof.
  destruct (succeeded_inv _ update_ok) as (o & s' & E).
  destruct (handled_request_sound signup_1 session_1 update_request enclave_1 PDO_SUCCESS o s' E) as [_ Hs].
  destruct (Hs eq_refl) as (d & k & r & ch & sh & code & resp & w & w' & _ & _ & _ & Hu & Ha & Hx & _).
  exists PDO_SUCCESS, o, s'. split; [exact E|]. exists k, r, ch, sh.
  exact (conj Hu (conj Ha (ex_intro _ resp Hx))).
Defined.

(** Two services each make a share for the enclave, the contract and its creator. *)
Definition info_1 : bytes := default [] (json_serialize (JObject
  [(bytes_of "verifying_key", JString id_1); (bytes_of "encryption_key", JString ekey_1); (bytes_of "owner_id", JString (bytes_of "owner"))])).
Definition sealed_secret (secret : bytes) : bytes := ok_or [] (sgx_seal_data_ex 0 [] secret 32).
Definition share_out (n : nat) (secret : bytes) : bytes :=
  match (@secret_enclave.ecall_GenerateEnclaveSecret _ _ _ _ _ (build true) (service_sealed n) (sealed_secret secret)
           contract_1 ck info_1 384 7).1 with
  | Ok (_, Some out) => out
  | _ => []
  end.
Definition provision_of (n : nat) (secret : bytes) : provision :=
  mk_provision (service_data n) (pspk n) secret (share_out n secret).
Definition provisions_1 : list provision := [provision_of 10 (replicate 16 "a"%byte); provision_of 20 (replicate 16 "b"%byte)].
Definition secrets_1 : bytes := default [] (json_serialize (entries provisions_1)).

Lemma secrets_1_ok : is_ok (CreateEnclaveStateEncryptionKey data_1 contract_1 ck secrets_1) = true.
Proof. vm_compute. reflexivity. Qed.

Lemma state_encryption_key_correct_witness :
  exists key msg shares, CreateEnclaveStateEncryptionKey data_1 contract_1 ck secrets_1 = Ok (key, msg) /\
    length key = 16 /\ Forall (share_ok data_1 contract_1 ck) shares /\ xor_all (map sh_secret shares) = key.
Proof.
  pose proof secrets_1_ok as Hok.
  destruct (CreateEnclaveStateEncryptionKey data_1 contract_1 ck secrets_1) as [[key msg]|e] eqn:E; [|discriminate Hok].
  destruct (state_encryption_key_correct data_1 contract_1 ck secrets_1 key msg E)
    as (shares & _ & Hf & _ & Hl & Hx & _).
  exists key, msg, shares. split; [reflexivity|]. split; [exact Hl|]. split; [exact Hf|]. exact (Hx _ (Permutation_refl _)).
Defined.

Lemma sealed_key_bound_to_contract_witness :
  exists blob, EncryptStateEncryptionKey 0 contract_1 key0 = Ok blob /\
    DecryptStateEncryptionKey contract_1 blob = Ok key0 /\ is_ok (DecryptStateEncryptionKey cid_1 blob) = false.
Proof.
  exists (ok_or [] (EncryptStateEncryptionKey 0 contract_1 key0)).
  assert (He : EncryptStateEncryptionKey 0 contract_1 key0 = Ok (ok_or [] (EncryptStateEncryptionKey 0 contract_1 key0)))
    by (vm_compute; reflexivity).
  split; [exact He|]. split.
  - rewrite (sealed_key_bound_to_contract 0 contract_1 contract_1 key0 _ He). reflexivity.
  - rewrite (sealed_key_bound_to_contract 0 contract_1 cid_1 key0 _ He). reflexivity.
Defined.

Definition request_1 : ContractRequest :=
  mk_request contract_1 ck [] [] (mk_code [] [] [] (bytes_of "code"))
    (mk_message [] [] (bytes_of "n1") [] (bytes_of "m")).

(** The ledger of LedgerWitnesses with the enclave's verifying key behind [ek]. *)
Definition ccf_2 : CCF := {|
  make_public_key := @make_public_key ccf_1;
  verify pk m sg := bool_decide (verify_signature data_1 m sg = Ok 1%Z);
  verify_rsa := @verify_rsa ccf_1;
  make_key_pair := @make_key_pair ccf_1;
  new_key_pair := @new_key_pair ccf_1;
  sign := @sign ccf_1;
  raw_from_b64 := @raw_from_b64 ccf_1;
  b64_from_raw := @b64_from_raw ccf_1;
  ccf_sha256 := sha256;
  to_hex := BinaryToHexString;
  parse_ProofData := @parse_ProofData ccf_1;
  parse_VerificationReport := @parse_VerificationReport ccf_1;
  parse_enclave_info := @parse_enclave_info ccf_1;
  parse_StateUpdateInfo := @parse_StateUpdateInfo ccf_1;
  dump_provisioning_info := @dump_provisioning_info ccf_1;
  dump_dependencies := @dump_dependencies ccf_1;
  read_quote := @read_quote ccf_1;
|}.

Definition signature_2 : bytes := ok_or [] (sign_message 0 data_1 (update_message (bytes_of "n1") (bytes_of "code") upd_1)).
Definition update_2 : Update_contract_state.In := Update_contract_state.mk (bytes_of "n1") (bytes_of "u1") ek signature_2.

Lemma enclave_update_accepted_witness :
  exists n', @update_contract_state ccf_2 update_2 (primary_node service_1) = (Ok true, n').
Proof.
  destruct (@enclave_update_accepted _ _ ccf_2 (primary_node service_1) update_2 data_1 request_1
    (bytes_of "done") [(contract_1, bytes_of "Bw==")] hash_0 hash_1 0 signature_2 contract_now (new_enclave reg_enclave) ek)
    as (n' & Hn & _).
  - vm_compute. reflexivity.
  - intros m s Hs. apply bool_decide_eq_true_2. exact (good_data_verifies data_1 0 m s data_1_good Hs).
  - vm_compute. reflexivity.
  - reflexivity.
  - reflexivity.
  - vm_compute. reflexivity.
  - reflexivity.
  - reflexivity.
  - reflexivity.
  - discriminate.
  - left.
  - vm_compute. reflexivity.
  - vm_compute. reflexivity.
  - constructor; [vm_compute; eexists; reflexivity|constructor].
  - exists n'. exact Hn.
Defined.
