(* ===== verification/ProvisioningWitnesses.v ===== *)
(** Concrete runs of the keys, of signup and of provisioning on the platform of EnclavePlatform.v. *)
From S2P Require Import Prelude Codec Ledger LedgerSpec Crypto BlockStore Json JsonSpec StateNode Cache DataNodeIO StateKV.
From S2P Require Import Keys KeysSpec EnclaveData EnclaveDataSpec Attestation Provisioning Enclave EnclaveSpec ProvisioningSpec.
From S2P Require Import Platform EnclavePlatform LedgerWitnesses EnclaveWitnesses.

(** * Keys *)

Lemma signature_roundtrip_witness : exists k sg p,
  sig_private_key.Generate 3 (sig_Key SECP256K1) = (Ok tt, k) /\ sig_private_key.SignMessage 0 k (bytes_of "m") = Ok sg /\
  sig_private_key.GetPublicKey k = Ok p /\ sig_public_key.VerifySignature p (bytes_of "m") (sg ++ [Byte.x00]) = Ok 1%Z /\
  (zlen sg <= 72)%Z.
Proof.
  eexists _, _.
  destruct (signature_roundtrip 3 SECP256K1 (sig_private_key.Generate 3 (sig_Key SECP256K1)).2 0 (bytes_of "m")
    (ok_or [] (sig_private_key.SignMessage 0 (sig_private_key.Generate 3 (sig_Key SECP256K1)).2 (bytes_of "m"))) [Byte.x00])
    as (p & Hp & Hv & Hl & _).
  - vm_compute. reflexivity.
  - vm_compute. reflexivity.
  - exists p. split; [vm_compute; reflexivity|]. split; [|split; [exact Hp|split; [exact Hv|exact Hl]]]. vm_compute. reflexivity.
Defined.

Lemma rsa_roundtrip_witness : exists k p c, pkenc_private_key.Generate 4 None = (Ok tt, k) /\
  pkenc_private_key.GetPublicKey k = Ok p /\ pkenc_public_key.EncryptMessage 1 p key0 = Ok c /\
  pkenc_private_key.DecryptMessage k c = Ok key0.
Proof.
  eexists. destruct (rsa_roundtrip 4 None (pkenc_private_key.Generate 4 None).2 1 key0) as (p & Hp & Hd & _);
    [vm_compute; reflexivity|].
  exists p, (ok_or [] (pkenc_public_key.EncryptMessage 1 p key0)). split; [vm_compute; reflexivity|]. split; [exact Hp|].
  vm_compute in Hp. injection Hp as <-. split; [vm_compute; reflexivity|]. apply Hd. vm_compute. reflexivity.
Defined.

(** * Signup *)

Lemma signup_data_roundtrip_witness : exists c report n' d,
  signup_run = (Ok (PDO_SUCCESS, Some (c, report)), n') /\ good_data d /\
  EnclaveData_unseal (Some GetInterpreterIdentity) c.(outSealedEnclaveData) = Ok d.
Proof.
  assert (H : exists c report n', signup_run = (Ok (PDO_SUCCESS, Some (c, report)), n')) by (do 3 eexists; vm_compute; reflexivity).
  destruct H as (c & report & n' & Hs). exists c, report, n'.
  destruct (signup_data_roundtrip _ _ _ _ _ _ _ _ Hs) as (d & _ & _ & _ & Hg & Hu & _).
  exists d. split; [exact Hs|]. split; [exact Hg|exact Hu].
Defined.

(** * Provisioning *)

Lemma provision_ok n secret : zlen secret = 16%Z ->
  (exists c, service_run n = (Ok (PDO_SUCCESS, Some (c, tt)), n + 3)) ->
  is_ok (get_enclave_id (service_data n)) = true ->
  sgx_seal_data_ex 0 [] secret 32 = Ok (sealed_secret secret) ->
  @secret_enclave.ecall_GenerateEnclaveSecret _ _ _ _ _ (build true) (service_sealed n) (sealed_secret secret)
    contract_1 ck info_1 384 7 = (Ok (PDO_SUCCESS, Some (share_out n secret)), 9) ->
  @secret_enclave.VerifyEnclaveInfo _ _ _ _ _ (build true) info_1 = Ok (id_1, ekey_1) ->
  get_enclave_id data_1 = Ok id_1 -> get_serialized_encryption_key data_1 = Ok ekey_1 ->
  (max_sig_size data_1 true <= max_sig_size (service_data n) true)%Z ->
  @provisioned _ _ _ _ _ (build true) data_1 contract_1 ck (service_data n) (pspk n) secret (share_out n secret).
Proof.
  intros Hl Hrun Hid Hseal Hgen Hv H1 H2 H3. destruct (service_data_good n Hrun) as [Hg Hu].
  destruct (unseal_seal 0 [] secret 32 (sealed_secret secret) [] Hseal) as [Hs Ht]. rewrite app_nil_r in Hs, Ht.
  assert (Hp : get_enclave_id (service_data n) = Ok (pspk n)).
  { unfold pspk. destruct (get_enclave_id (service_data n)) as [p|e]; [reflexivity|discriminate Hid]. }
  exists (service_sealed n), (sealed_secret secret), info_1, 7, 9, id_1, ekey_1, [].
  exact (conj Hgen (conj Hu (conj Hg (conj Hp (conj Hs (conj Ht (conj Hv (conj H1 (conj H2 H3))))))))).
Qed.

Lemma provisioning_end_to_end_witness : exists msg,
  CreateEnclaveStateEncryptionKey data_1 contract_1 ck secrets_1 =
    Ok (xor_all [replicate 16 "a"%byte; replicate 16 "b"%byte], msg).
Proof.
  destruct (provisioning_end_to_end (PB := build true) data_1 contract_1 ck provisions_1 secrets_1) as (msg & Hm & _).
  - exact data_1_good.
  - discriminate.
  - constructor; [|constructor; [|constructor]]; (apply provision_ok; [reflexivity|eexists; vm_compute; reflexivity|vm_compute; reflexivity..|]);
      vm_compute; discriminate.
  - apply (bool_decide_eq_true_1 _). vm_compute. reflexivity.
  - apply (bool_decide_eq_true_1 _). vm_compute. reflexivity.
  - apply (bool_decide_eq_true_1 _). vm_compute. reflexivity.
  - left. reflexivity.
  - exists msg. exact Hm.
Defined.

(** * Attestation *)

Lemma report_data_agrees_witness : exists rd,
  signup_enclave.CreateSignupReportData (map tolower (BinaryToHexString (sha256 ehs))) data_1 = Ok rd /\
  secret_enclave.CreateReportData (map tolower (BinaryToHexString (sha256 ehs))) id_1 ekey_1 = Ok rd.
Proof.
  exists (@user_data_hash ccf_2 id_1 ekey_1 ehs).
  apply (@report_data_agrees _ _ _ _ _ ccf_2 data_1 id_1 ekey_1 ehs).
  - exact data_1_good.
  - vm_compute. reflexivity.
  - vm_compute. reflexivity.
  - reflexivity.
  - reflexivity.
  - reflexivity.
Defined.

(** A quote of the expected enclave on the keys of [data_1], and a request that proves it. *)
Definition report_data_1 : bytes :=
  ok_or [] (secret_enclave.CreateReportData (map tolower (BinaryToHexString (sha256 ehs))) id_1 ekey_1).
Definition quote_1 : bytes :=
  replicate 96 Byte.x00 ++ le_split 8 4 ++ replicate 8 Byte.x00 ++ mrenclave ++ replicate 224 Byte.x00 ++ report_data_1.
Definition report_1 : bytes := default [] (json_serialize (JObject
  [(bytes_of "isvEnclaveQuoteBody", JString (base64_encode quote_1)); (bytes_of "epidPseudonym", JString (bytes_of "e"));
   (bytes_of "isvEnclaveQuoteStatus", JString (bytes_of "GROUP_OUT_OF_DATE"))])).
Definition proof_1 : bytes := default [] (json_serialize (JObject
  [(bytes_of "signature", JString (base64_encode (bytes_of "ias" ++ report_1)));
   (bytes_of "certificates", JArray [JString (bytes_of "ias"); JString (bytes_of "intermediate")]);
   (bytes_of "verification_report", JString report_1)])).
Definition attested_info : bytes := default [] (json_serialize (JObject
  [(bytes_of "verifying_key", JString id_1); (bytes_of "encryption_key", JString ekey_1); (bytes_of "owner_id", JString ehs);
   (bytes_of "proof_data", JString proof_1)])).


(** * A forged secret *)

(** Sealing in which a blob that ends with a mark does not authenticate. *)
Definition marked_sgx : SGX := {|
  sgx_calc_sealed_data_size := @sgx_calc_sealed_data_size toy_sgx;
  sgx_seal_data_ex := @sgx_seal_data_ex toy_sgx;
  sgx_unseal_data b := if bool_decide (head (rev b) = Some "!"%byte) then Some (Err (SystemError "SGX ERROR")) else @sgx_unseal_data toy_sgx b;
  sgx_get_encrypt_txt_len := @sgx_get_encrypt_txt_len toy_sgx;
  sgx_create_report := @sgx_create_report toy_sgx;
  sgx_sha256_msg := @sgx_sha256_msg toy_sgx;
  sgx_read_rand := @sgx_read_rand toy_sgx;
  heap_after := @heap_after toy_sgx;
|}.

Definition genuine_zero : bytes := sealed_secret (replicate 16 Byte.x00).
Definition forged : bytes := take 31 genuine_zero ++ ["!"%byte].

Lemma tampered_secret_accepted_witness :
  @sgx_unseal_data marked_sgx forged = Some (Err (SystemError "SGX ERROR")) /\
  exists out, @secret_enclave.ecall_GenerateEnclaveSecret _ _ _ marked_sgx _ (build true) (service_sealed 10) forged contract_1 ck info_1 384 7 =
    (Ok (PDO_SUCCESS, Some out), 9).
Proof.
  split; [vm_compute; reflexivity|]. eexists.
  rewrite (tampered_secret_accepted (SG := marked_sgx) (PB := build true) (service_sealed 10) forged genuine_zero contract_1 ck info_1 384 7
    "SGX ERROR" [] 16); vm_compute; reflexivity.
Defined.
