(* ===== verification/Concurrency.v ===== *)
(** The two pieces of shared state that threads of the enclave service use:
    eservice/pdo/eservice/enclave/enclave/enclave_queue.cpp (the host's pool of enclaves) and
    eservice/lib/libpdo_enclave/contract_worker.cpp (the interpreter prepared by the worker thread).
    A critical section is one step; a thread blocked on a condition variable is a state of the thread. *)
From S2P Require Import Prelude.

(** * The pool of enclaves *)

Module EnclaveQueue.
(** What a client thread is doing: nothing, in the loop of [pop] with the mutex free, blocked in
    [pthread_cond_wait], using the enclave it popped, or between the unlock and the signal of [push]. *)
Inductive thread := Idle | Popping | Waiting | Holding (index : Z) | Signalling.

#[global] Instance thread_eq_dec : EqDecision thread.
Proof. solve_decision. Defined.

Record state := mk_state { queue_ : list Z; threads : list thread }.

Definition initial (items : list Z) (n : nat) : state := mk_state items (replicate n Idle).

Inductive step : state -> state -> Prop :=
  (** [ReadyEnclave(queue)] calls [pop]. *)
  | step_call q ts t : ts !! t = Some Idle -> step (mk_state q ts) (mk_state q (<[t := Popping]> ts))
  | step_pop i q ts t : ts !! t = Some Popping ->
      step (mk_state (i :: q) ts) (mk_state q (<[t := Holding i]> ts))
  | step_wait ts t : ts !! t = Some Popping -> step (mk_state [] ts) (mk_state [] (<[t := Waiting]> ts))
  (** The destructor of [ReadyEnclave] calls [push]. *)
  | step_push i q ts t : ts !! t = Some (Holding i) ->
      step (mk_state q ts) (mk_state (q ++ [i]) (<[t := Signalling]> ts))
  | step_signal q ts t t' : ts !! t = Some Signalling -> ts !! t' = Some Waiting ->
      step (mk_state q ts) (mk_state q (<[t' := Popping]> (<[t := Idle]> ts)))
  | step_signal_nobody q ts t : ts !! t = Some Signalling -> (Waiting ∉ ts) ->
      step (mk_state q ts) (mk_state q (<[t := Idle]> ts))
  (** A wait may return without a signal. *)
  | step_spurious q ts t : ts !! t = Some Waiting -> step (mk_state q ts) (mk_state q (<[t := Popping]> ts)).

Definition held_by (x : thread) : list Z := match x with Holding i => [i] | _ => [] end.
Definition held (ts : list thread) : list Z := concat (map held_by ts).

(** The threads that will look at the queue, or wake one that will. *)
Definition is_active (x : thread) : nat := match x with Popping | Signalling => 1 | _ => 0 end.
Definition active (ts : list thread) : nat := sum_list_with is_active ts.

Lemma held_insert ts t x y : ts !! t = Some x ->
  held_by x ++ held (<[t := y]> ts) ≡ₚ held_by y ++ held ts.
Proof.
  intros Ht. unfold held.
  rewrite insert_take_drop by (by eapply lookup_lt_Some).
  rewrite <-(take_drop_middle ts t x Ht) at 3. rewrite !map_app, !concat_app. cbn [map concat]. solve_Permutation.
Qed.

Lemma active_insert ts t x y : ts !! t = Some x -> active (<[t := y]> ts) + is_active x = active ts + is_active y.
Proof.
  intros Ht. unfold active. rewrite insert_take_drop by (by eapply lookup_lt_Some).
  rewrite <-(take_drop_middle ts t x Ht) at 3. rewrite !sum_list_with_app. cbn. lia.
Qed.

(** No enclave is lost or duplicated, and no wake-up is lost: while a thread waits, there are at least as
    many threads about to look at the queue (or to wake one) as there are enclaves in it. *)
Record inv (items : list Z) (s : state) : Prop := {
  conserved : s.(queue_) ++ held s.(threads) ≡ₚ items;
  no_lost_wakeup : Waiting ∈ s.(threads) -> length s.(queue_) <= active s.(threads);
}.

Lemma waiting_insert (ts : list thread) (t : nat) y : y <> Waiting -> Waiting ∈ <[t := y]> ts -> Waiting ∈ ts.
Proof.
  intros Hy (i & Hi)%list_elem_of_lookup. apply list_elem_of_lookup. exists i.
  destruct (decide (i = t)) as [->|]; [|by rewrite list_lookup_insert_ne in Hi].
  apply list_lookup_insert_Some in Hi as [(_ & -> & _)|[? _]]; done.
Qed.

Lemma queue_initial_inv items n : inv items (initial items n).
Proof.
  split; cbn [initial queue_ threads].
  - assert (held (replicate n Idle) = []) as -> by (induction n; done). by rewrite app_nil_r.
  - by intros [? _]%elem_of_replicate.
Qed.

Lemma queue_step_inv items s s' : inv items s -> step s s' -> inv items s'.
Proof.
  intros [Hc Hw] Hs. destruct Hs as [q ts t Ht|i q ts t Ht|ts t Ht|i q ts t Ht|q ts t t' Ht Ht'|q ts t Ht Hn|q ts t Ht];
    cbn [held_by is_active app length queue_ threads] in *; pose proof (held_insert ts t) as Hh; pose proof (active_insert ts t) as Ha.
  - specialize (Hh _ Popping Ht). specialize (Ha _ Popping Ht). cbn [held_by is_active app length queue_ threads] in *. split; cbn [queue_ threads]; [by rewrite Hh|].
    intros H%waiting_insert; [|done]. apply Hw in H. lia.
  - specialize (Hh _ (Holding i) Ht). specialize (Ha _ (Holding i) Ht). cbn [held_by is_active app length queue_ threads] in *. split; cbn [queue_ threads].
    + rewrite <-Hc, Hh. solve_Permutation.
    + intros H%waiting_insert; [|done]. apply Hw in H. lia.
  - specialize (Hh _ Waiting Ht). cbn [held_by is_active app length queue_ threads] in *. split; cbn [queue_ threads]; [by rewrite Hh|cbn [length]; lia].
  - specialize (Hh _ Signalling Ht). specialize (Ha _ Signalling Ht). cbn [held_by is_active app length queue_ threads] in *. split; cbn [queue_ threads].
    + rewrite <-Hc, <-Hh. solve_Permutation.
    + rewrite length_app. cbn [length]. intros H%waiting_insert; [|done]. apply Hw in H. lia.
  - assert (t <> t') by congruence. specialize (Hh _ Idle Ht). specialize (Ha _ Idle Ht).
    assert (Ht2 : <[t := Idle]> ts !! t' = Some Waiting) by (by rewrite list_lookup_insert_ne).
    pose proof (held_insert _ _ _ Popping Ht2) as Hh2. pose proof (active_insert _ _ _ Popping Ht2) as Ha2.
    cbn [held_by is_active app length queue_ threads] in *. split; cbn [queue_ threads]; [by rewrite Hh2, Hh|].
    intros _. assert (Waiting ∈ ts) as Hl%Hw by (by eapply list_elem_of_lookup_2). lia.
  - specialize (Hh _ Idle Ht). cbn [held_by is_active app length queue_ threads] in *. split; cbn [queue_ threads]; [by rewrite Hh|]. intros H%waiting_insert; done.
  - specialize (Hh _ Popping Ht). specialize (Ha _ Popping Ht). cbn [held_by is_active app length queue_ threads] in *. split; cbn [queue_ threads]; [by rewrite Hh|].
    intros H%waiting_insert; [|done]. apply Hw in H. lia.
Qed.

Definition reachable (items : list Z) (n : nat) (s : state) : Prop := rtc step (initial items n) s.

Lemma queue_reachable_inv items n s : reachable items n s -> inv items s.
Proof.
  unfold reachable. intros Hr. assert (Hi := queue_initial_inv items n). revert Hi.
  induction Hr as [s|s1 s2 s3 Hs _ IH]; [done|]. eauto using queue_step_inv.
Qed.

Lemma active_pos ts : 0 < active ts -> Popping ∈ ts \/ Signalling ∈ ts.
Proof.
  unfold active. induction ts as [|x ts IH]; cbn; [lia|]. intros Hp.
  destruct x; cbn in Hp; try (destruct (IH Hp); [left|right]; by right); [left|right]; left.
Qed.

Lemma held_unique ts : NoDup (held ts) ->
  forall t1 t2 i, ts !! t1 = Some (Holding i) -> ts !! t2 = Some (Holding i) -> t1 = t2.
Proof.
  induction ts as [|x ts IH]; [done|]. unfold held in *. cbn [map concat].
  intros (H1 & H2 & H3)%list.NoDup_app t1 t2 i.
  assert (Hin : forall t, ts !! t = Some (Holding i) -> i ∈ concat (map held_by ts)).
  { intros t Ht. apply list_elem_of_In, in_concat. exists [i]. split; [|by left].
    apply in_map_iff. exists (Holding i). split; [done|]. apply list_elem_of_In. by eapply list_elem_of_lookup_2. }
  destruct t1 as [|t1], t2 as [|t2]; cbn; [done| | |].
  - intros [= ->] Ht2. exfalso. apply (H2 i); [by left|eauto].
  - intros Ht1 [= ->]. exfalso. apply (H2 i); [by left|eauto].
  - intros Ht1 Ht2. f_equal. eapply IH; eauto.
Qed.

(** C32: the pool hands an enclave to at most one thread at a time, whatever the interleaving: the
    enclaves in the queue and those held are exactly the ones the pool started with, so no enclave is
    lost and two threads never hold the same one; and no wake-up is lost: a thread waits while an enclave
    is available only if another thread is about to look at the queue or to signal. *)
Theorem enclave_queue_correct items n s :
  NoDup items -> reachable items n s ->
  s.(queue_) ++ held s.(threads) ≡ₚ items /\
  (forall t1 t2 i, s.(threads) !! t1 = Some (Holding i) -> s.(threads) !! t2 = Some (Holding i) -> t1 = t2) /\
  (Waiting ∈ s.(threads) -> s.(queue_) <> [] -> Popping ∈ s.(threads) \/ Signalling ∈ s.(threads)).
Proof.
  intros Hnd Hr. destruct (queue_reachable_inv _ _ _ Hr) as [Hc Hw]. split; [done|]. split.
  - rewrite <-Hc in Hnd. apply list.NoDup_app in Hnd as (_ & _ & Hh). apply (held_unique _ Hh).
  - intros Hwait Hq. specialize (Hw Hwait). apply active_pos. destruct (queue_ s); [done|cbn in Hw; lia].
Qed.

(** Two threads and one enclave: the second waits and is woken by the first. *)
Definition handover : state := mk_state [] [Idle; Holding 7].

Lemma enclave_queue_correct_witness :
  NoDup [7%Z] /\ reachable [7%Z] 2 handover /\ handover.(queue_) ++ held handover.(threads) ≡ₚ [7%Z].
Proof.
  assert (Hn : NoDup [7%Z]) by (apply NoDup_singleton).
  assert (Hr : reachable [7%Z] 2 handover).
  { unfold reachable, initial. cbn [replicate].
    eapply rtc_l; [apply (step_call _ _ 0); reflexivity|]. eapply rtc_l; [apply (step_pop 7 _ _ 0); reflexivity|].
    eapply rtc_l; [apply (step_call _ _ 1); reflexivity|]. eapply rtc_l; [apply (step_wait _ 1); reflexivity|].
    eapply rtc_l; [apply (step_push 7 _ _ 0); reflexivity|].
    eapply rtc_l; [apply (step_signal _ _ 0 1); reflexivity|].
    eapply rtc_l; [apply (step_pop 7 _ _ 1); reflexivity|]. apply rtc_refl. }
  split; [exact Hn|]. split; [exact Hr|]. exact (proj1 (enclave_queue_correct [7%Z] 2 handover Hn Hr)).
Defined.

(** ** Progress *)

(** The steps by which the threads that are in a call, or hold an enclave, go on: no new call, and no
    return of a wait without a signal. *)
Inductive serve : state -> state -> Prop :=
  | serve_pop i q ts t : ts !! t = Some Popping -> serve (mk_state (i :: q) ts) (mk_state q (<[t := Holding i]> ts))
  | serve_wait ts t : ts !! t = Some Popping -> serve (mk_state [] ts) (mk_state [] (<[t := Waiting]> ts))
  | serve_push i q ts t : ts !! t = Some (Holding i) -> serve (mk_state q ts) (mk_state (q ++ [i]) (<[t := Signalling]> ts))
  | serve_signal q ts t t' : ts !! t = Some Signalling -> ts !! t' = Some Waiting ->
      serve (mk_state q ts) (mk_state q (<[t' := Popping]> (<[t := Idle]> ts)))
  | serve_signal_nobody q ts t : ts !! t = Some Signalling -> (Waiting ∉ ts) -> serve (mk_state q ts) (mk_state q (<[t := Idle]> ts)).

Lemma serve_step s s' : serve s s' -> step s s'.
Proof. destruct 1; by econstructor. Qed.

Lemma serve_inv items s s' : inv items s -> rtc serve s s' -> inv items s'.
Proof. intros Hi Hr. induction Hr as [|s1 s2 s3 Hs _ IH]; [done|]. eauto using queue_step_inv, serve_step. Qed.

(** The work a thread may still have to do: a wait costs less than the signal that ends it. *)
Definition thread_work (x : thread) : nat :=
  match x with Idle => 0 | Signalling => 2 | Holding _ => 3 | Waiting => 4 | Popping => 5 end.
Definition work (ts : list thread) : nat := sum_list_with thread_work ts.

Lemma work_insert ts t x y : ts !! t = Some x -> work (<[t := y]> ts) + thread_work x = work ts + thread_work y.
Proof.
  intros Ht. unfold work. rewrite insert_take_drop by (by eapply lookup_lt_Some).
  rewrite <-(take_drop_middle ts t x Ht) at 3. rewrite !sum_list_with_app. cbn. lia.
Qed.

Lemma serve_work s s' : serve s s' -> work s'.(threads) < work s.(threads).
Proof.
  destruct 1 as [i q ts t Ht|ts t Ht|i q ts t Ht|q ts t t' Ht Ht'|q ts t Ht _]; cbn [threads].
  - pose proof (work_insert ts t _ (Holding i) Ht) as E. cbn in E. lia.
  - pose proof (work_insert ts t _ Waiting Ht) as E. cbn in E. lia.
  - pose proof (work_insert ts t _ Signalling Ht) as E. cbn in E. lia.
  - assert (t <> t') by congruence. assert (Ht2 : <[t := Idle]> ts !! t' = Some Waiting) by (by rewrite list_lookup_insert_ne).
    pose proof (work_insert ts t _ Idle Ht) as E1. pose proof (work_insert _ t' _ Popping Ht2) as E2. cbn in E1, E2. lia.
  - pose proof (work_insert ts t _ Idle Ht) as E. cbn in E. lia.
Qed.

Definition stuck (s : state) : Prop := forall s', ~ serve s s'.

(** A thread that can go on by itself, or wake another, does. *)
Lemma stuck_threads s t x : stuck s -> s.(threads) !! t = Some x -> x = Idle \/ x = Waiting.
Proof.
  destruct s as [q ts]. cbn [threads]. intros Hs Ht. destruct x as [| | |i|]; [by left| |by right| |]; exfalso.
  - destruct q as [|i q]; [by eapply Hs, serve_wait|by eapply Hs, serve_pop].
  - by eapply Hs, serve_push.
  - destruct (decide (Waiting ∈ ts)) as [Hw|Hw]; [|by eapply Hs, serve_signal_nobody].
    apply list_elem_of_lookup in Hw as [t' Ht']. by eapply Hs, serve_signal.
Qed.

Lemma stuck_idle items s : items <> [] -> inv items s -> stuck s -> s.(queue_) ≡ₚ items /\ Forall (eq Idle) s.(threads).
Proof.
  intros Hne [Hc Hw] Hs.
  assert (Hheld : held s.(threads) = []).
  { unfold held. apply concat_nil_Forall. apply Forall_map. apply list.Forall_forall. intros x (t & Ht)%list_elem_of_lookup.
    by destruct (stuck_threads s t x Hs Ht) as [->| ->]. }
  assert (Hact : active s.(threads) = 0).
  { unfold active. assert (Hall : forall x, x ∈ s.(threads) -> x = Idle \/ x = Waiting).
    { intros x (t & Ht)%list_elem_of_lookup. by eapply stuck_threads. }
    revert Hall. generalize (threads s). intros ts. induction ts as [|x ts IH]; intros Hall; [done|]. cbn.
    rewrite IH; [by destruct (Hall x ltac:(by left)) as [->| ->]|]. intros y Hy. apply Hall. by right. }
  rewrite Hheld, app_nil_r in Hc. split; [done|]. apply list.Forall_forall. intros x (t & Ht)%list_elem_of_lookup.
  destruct (stuck_threads s t x Hs Ht) as [->| ->]; [done|]. exfalso.
  assert (Waiting ∈ s.(threads)) as Hl%Hw by (by eapply list_elem_of_lookup_2). rewrite Hact in Hl.
  destruct (queue_ s); [by apply Permutation_nil in Hc|cbn in Hl; lia].
Qed.

Lemma serve_thread s s' t x : serve s s' -> s.(threads) !! t = Some x -> x = Popping \/ x = Waiting ->
  exists y, s'.(threads) !! t = Some y /\ (y = Popping \/ y = Waiting \/ exists i, y = Holding i).
Proof.
  assert (Hin : forall ts (t1 : nat) y, ts !! t = Some x -> (<[t1 := y]> ts : list thread) !! t = Some (if decide (t1 = t) then y else x)).
  { intros ts t1 y Ht. destruct (decide (t1 = t)) as [->|]; [|by rewrite list_lookup_insert_ne].
    apply list_lookup_insert_eq. by eapply lookup_lt_Some. }
  intros Hs Ht Hx. destruct Hs as [i q ts t1 Ht1|ts t1 Ht1|i q ts t1 Ht1|q ts t1 t2 Ht1 Ht2|q ts t1 Ht1 Hn]; cbn [threads] in *.
  - exists (if decide (t1 = t) then Holding i else x). split; [by apply Hin|]. destruct (decide (t1 = t)); [eauto|destruct Hx; auto].
  - exists (if decide (t1 = t) then Waiting else x). split; [by apply Hin|]. destruct (decide (t1 = t)); [eauto|destruct Hx; auto].
  - exists x. rewrite list_lookup_insert_ne by (destruct Hx; congruence). split; [done|destruct Hx; auto].
  - assert (t1 <> t) by (destruct Hx; congruence). exists (if decide (t2 = t) then Popping else x).
    split; [apply Hin; by rewrite list_lookup_insert_ne|]. destruct (decide (t2 = t)); [eauto|destruct Hx; auto].
  - exists x. rewrite list_lookup_insert_ne by (destruct Hx; congruence). split; [done|destruct Hx; auto].
Qed.

Lemma serve_holds s s' t x : rtc serve s s' -> s.(threads) !! t = Some x -> x = Popping \/ x = Waiting -> s'.(threads) !! t = Some Idle ->
  exists s1 i, rtc serve s s1 /\ s1.(threads) !! t = Some (Holding i) /\ rtc serve s1 s'.
Proof.
  intros Hr. revert x. induction Hr as [s|s s2 s' Hs Hr IH]; intros x Ht Hx Hi; [destruct Hx; congruence|].
  destruct (serve_thread _ _ _ _ Hs Ht Hx) as (y & Hy & Hcase). destruct Hcase as [Hc|[Hc|(i & ->)]].
  - destruct (IH y Hy ltac:(by left) Hi) as (s1 & i & H1 & H2 & H3). exists s1, i. split; [by eapply rtc_l|done].
  - destruct (IH y Hy ltac:(by right) Hi) as (s1 & i & H1 & H2 & H3). exists s1, i. split; [by eapply rtc_l|done].
  - exists s2, i. split; [by apply rtc_once|done].
Qed.

(** C33: every thread that asks for an enclave gets one: from any reachable state of a pool that has an enclave,
    whatever the interleaving, the threads stop after at most [work] steps unless somebody calls again or a
    wait returns by itself, and when they have stopped every thread has returned from its call, having held
    an enclave on the way, and all enclaves are back in the queue. *)
Theorem requests_served items n s s' k :
  items <> [] -> reachable items n s -> nsteps serve k s s' ->
  k <= work s.(threads) /\
  (stuck s' -> s'.(queue_) ≡ₚ items /\ Forall (eq Idle) s'.(threads) /\
    forall t x, s.(threads) !! t = Some x -> x = Popping \/ x = Waiting ->
    exists s1 i, rtc serve s s1 /\ s1.(threads) !! t = Some (Holding i) /\ rtc serve s1 s').
Proof.
  intros Hne Hr Hk. split.
  - clear Hr. induction Hk as [s|k s1 s2 s3 Hs _ IH]; [lia|]. apply serve_work in Hs. lia.
  - intros Hst. apply rtc_nsteps_2 in Hk. pose proof (serve_inv items _ _ (queue_reachable_inv _ _ _ Hr) Hk) as Hi.
    destruct (stuck_idle _ _ Hne Hi Hst) as [Hq Hidle]. split_and!; [done..|]. intros t x Ht Hx. apply (serve_holds s s' t x Hk Ht Hx).
    assert (Hlen : length s'.(threads) = length s.(threads)).
    { clear -Hk. induction Hk as [|s1 s2 s3 Hs _ IH]; [done|]. rewrite IH. destruct Hs; cbn; by rewrite !length_insert. }
    apply lookup_lt_Some in Ht. rewrite <-Hlen in Ht. apply lookup_lt_is_Some in Ht as [y Hy].
    rewrite list.Forall_lookup in Hidle. rewrite Hy. by rewrite <-(Hidle _ _ Hy).
Qed.

(** Two threads ask for the only enclave; one waits until the other returns it. *)
Definition asked : state := mk_state [7%Z] [Popping; Popping].
Definition served : state := mk_state [7%Z] [Idle; Idle].

Lemma requests_served_witness : reachable [7%Z] 2 asked /\ nsteps serve 7 asked served /\ stuck served /\
  7 <= work asked.(threads) /\ served.(queue_) ≡ₚ [7%Z].
Proof.
  assert (Hr : reachable [7%Z] 2 asked).
  { unfold reachable, initial. cbn [replicate]. eapply rtc_l; [apply (step_call _ _ 0); reflexivity|].
    eapply rtc_l; [apply (step_call _ _ 1); reflexivity|]. apply rtc_refl. }
  assert (Hk : nsteps serve 7 asked served).
  { unfold asked. eapply nsteps_l; [apply (serve_pop 7 _ _ 0); reflexivity|]. eapply nsteps_l; [apply (serve_wait _ 1); reflexivity|].
    eapply nsteps_l; [apply (serve_push 7 _ _ 0); reflexivity|]. eapply nsteps_l; [apply (serve_signal _ _ 0 1); reflexivity|].
    eapply nsteps_l; [apply (serve_pop 7 _ _ 1); reflexivity|]. eapply nsteps_l; [apply (serve_push 7 _ _ 1); reflexivity|].
    eapply nsteps_l; [apply (serve_signal_nobody _ _ 1); [reflexivity|by apply (bool_decide_unpack _)]|].
    apply nsteps_O. }
  assert (Hs : stuck served).
  { intros s' Hs. inversion Hs; subst; repeat match goal with H : [Idle; Idle] !! ?t = Some _ |- _ => destruct t as [|[|?]]; cbn in H; try done end. }
  destruct (requests_served [7%Z] 2 asked served 7 ltac:(discriminate) Hr Hk) as [Hw Hd]. destruct (Hd Hs) as [Hq _].
  exact (conj Hr (conj Hk (conj Hs (conj Hw Hq)))).
Defined.
End EnclaveQueue.

(** * The worker that prepares the interpreter *)

Module ContractWorker.
Inductive interpreter_state := INTERPRETER_READY | INTERPRETER_BUSY | INTERPRETER_DONE.

(** The interpreter object: not created, initialized, or finalized. *)
Inductive interpreter := Null | Initialized | Finalized.

(** The worker thread, in the loop of [ecall_CreateContractWorker], and the threads that handle requests. *)
Inductive worker_pc := AtInitializeInterpreter | AtWaitForCompletion | Exited.
Inductive handler := Idle | Getting | Using.

Record state := mk_state {
  current_state_ : interpreter_state;
  interpreter_ : interpreter;
  shutdown_worker : bool;
  pc : worker_pc;
  handlers : list handler;
}.

(** [ContractWorker(thread_id)]. *)
Definition initial (n : nat) : state :=
  mk_state INTERPRETER_DONE Null false AtInitializeInterpreter (replicate n Idle).

Definition InitializeInterpreter (s : state) : state :=
  match s.(current_state_) with
  | INTERPRETER_DONE => mk_state INTERPRETER_READY Initialized s.(shutdown_worker) AtWaitForCompletion s.(handlers)
  | c => mk_state c s.(interpreter_) s.(shutdown_worker) AtWaitForCompletion s.(handlers)
  end.

(** The end of [WaitForCompletion], once the state is done, and the test of the loop. *)
Definition WaitForCompletion (s : state) : state :=
  mk_state s.(current_state_) (match s.(interpreter_) with Null => Null | _ => Finalized end) s.(shutdown_worker)
    (if s.(shutdown_worker) then Exited else AtInitializeInterpreter) s.(handlers).

Definition set_handler (t : nat) (h : handler) (c : interpreter_state) (s : state) : state :=
  mk_state c s.(interpreter_) s.(shutdown_worker) s.(pc) (<[t := h]> s.(handlers)).

Inductive step : state -> state -> Prop :=
  | step_initialize s : s.(pc) = AtInitializeInterpreter -> step s (InitializeInterpreter s)
  | step_completed s : s.(pc) = AtWaitForCompletion -> s.(current_state_) = INTERPRETER_DONE -> step s (WaitForCompletion s)
  | step_request s t : s.(handlers) !! t = Some Idle -> step s (set_handler t Getting s.(current_state_) s)
  (** [GetInitializedInterpreter] returns. *)
  | step_get s t : s.(handlers) !! t = Some Getting -> s.(current_state_) = INTERPRETER_READY ->
      step s (set_handler t Using INTERPRETER_BUSY s)
  (** [MarkInterpreterDone], from the destructor of [InitializedInterpreter]. *)
  | step_done s t : s.(handlers) !! t = Some Using -> step s (set_handler t Idle INTERPRETER_DONE s)
  (** [ecall_ShutdownContractWorker]. *)
  | step_shutdown s : step s (mk_state INTERPRETER_DONE s.(interpreter_) true s.(pc) s.(handlers)).

Definition reachable (n : nat) (s : state) : Prop := rtc step (initial n) s.

(** Until shutdown: the state tells whether a handler uses the interpreter, and the interpreter it may use
    is initialized. *)
Definition inv (s : state) : Prop :=
  s.(shutdown_worker) = false ->
  match s.(current_state_) with
  | INTERPRETER_READY => (Using ∉ s.(handlers)) /\ s.(interpreter_) = Initialized /\ s.(pc) = AtWaitForCompletion
  | INTERPRETER_BUSY =>
      (forall t1 t2, s.(handlers) !! t1 = Some Using -> s.(handlers) !! t2 = Some Using -> t1 = t2) /\
      s.(interpreter_) = Initialized /\ s.(pc) = AtWaitForCompletion
  | INTERPRETER_DONE => Using ∉ s.(handlers)
  end.

Lemma using_insert (hs : list handler) t h : h <> Using -> (Using ∉ hs) -> Using ∉ <[t := h]> hs.
Proof.
  intros Hh Hn (i & Hi)%list_elem_of_lookup. apply Hn, list_elem_of_lookup. exists i.
  destruct (decide (i = t)) as [->|]; [|by rewrite list_lookup_insert_ne in Hi].
  apply list_lookup_insert_Some in Hi as [(_ & -> & _)|[? _]]; done.
Qed.

Lemma using_lookup (hs : list handler) t h i : h <> Using -> <[t := h]> hs !! i = Some Using -> hs !! i = Some Using /\ i <> t.
Proof. intros Hh [(_ & ? & _)|[? ?]]%list_lookup_insert_Some; [congruence|auto]. Qed.

Lemma worker_step_inv s s' : inv s -> step s s' -> inv s'.
Proof.
  intros Hi Hs Hd. destruct Hs as [s Hp|s Hp Hc|s t Ht|s t Ht Hc|s t Ht|s]; [| | | | |by cbn in Hd].
  - unfold InitializeInterpreter in *. destruct (current_state_ s) eqn:Hc; cbn in *; specialize (Hi Hd);
      rewrite Hc in Hi; [destruct Hi as (? & ? & ?); by split_and!..|by split_and!].
  - unfold WaitForCompletion in *. cbn in *. specialize (Hi Hd). by rewrite Hc in *.
  - cbn in *. specialize (Hi Hd). destruct (current_state_ s).
    + destruct Hi as (? & ? & ?). split_and!; auto using using_insert.
    + destruct Hi as (Hu & ? & ?). split_and!; [|done..].
      intros t1 t2 H1%using_lookup H2%using_lookup; [|done..]. apply Hu; [apply H1|apply H2].
    + auto using using_insert.
  - cbn in *. specialize (Hi Hd). rewrite Hc in Hi. destruct Hi as (Hn & ? & ?). split_and!; [|done..].
    assert (Hone : forall i, <[t := Using]> (handlers s) !! i = Some Using -> i = t).
    { intros i [(-> & _)|[_ Hl]]%list_lookup_insert_Some; [done|]. exfalso. apply Hn. by eapply list_elem_of_lookup_2. }
    intros t1 t2 H1%Hone H2%Hone. congruence.
  - cbn in *. specialize (Hi Hd).
    assert (Hu : forall i, handlers s !! i = Some Using -> i = t).
    { intros i Hl. destruct (current_state_ s).
      - destruct Hi as (Hn & _). exfalso. apply Hn. by eapply list_elem_of_lookup_2.
      - destruct Hi as (Hu & _). by eapply Hu.
      - exfalso. apply Hi. by eapply list_elem_of_lookup_2. }
    intros (i & [Hl Hne]%using_lookup)%list_elem_of_lookup; [|done]. by apply Hne, Hu.
Qed.

Lemma worker_reachable_inv n s : reachable n s -> inv s.
Proof.
  unfold reachable. intros Hr. assert (Hi : inv (initial n)) by (intros _; by intros [? _]%elem_of_replicate).
  revert Hi. induction Hr as [s|s1 s2 s3 Hs _ IH]; [done|]. eauto using worker_step_inv.
Qed.

(** C34: while the worker is not shut down, at most one handler uses the interpreter at any time, and
    while one does the interpreter is initialized and marked busy. *)
Theorem contract_worker_exclusive n s :
  reachable n s -> s.(shutdown_worker) = false ->
  forall t, s.(handlers) !! t = Some Using ->
  s.(current_state_) = INTERPRETER_BUSY /\ s.(interpreter_) = Initialized /\
  forall t', s.(handlers) !! t' = Some Using -> t' = t.
Proof.
  intros Hr Hd t Ht. specialize (worker_reachable_inv _ _ Hr Hd) as Hi. destruct (current_state_ s).
  - destruct Hi as (Hn & _). exfalso. apply Hn. by eapply list_elem_of_lookup_2.
  - destruct Hi as (Hu & ? & _). split_and!; [done..|]. intros t' Ht'. by eapply Hu.
  - exfalso. apply Hi. by eapply list_elem_of_lookup_2.
Qed.

Definition busy : state := mk_state INTERPRETER_BUSY Initialized false AtWaitForCompletion [Using].

Lemma busy_reachable : reachable 1 busy.
Proof.
  unfold reachable.
  eapply rtc_l; [apply step_initialize; reflexivity|]. eapply rtc_l; [apply (step_request _ 0); reflexivity|].
  eapply rtc_l; [apply (step_get _ 0); reflexivity|]. apply rtc_refl.
Defined.

Lemma contract_worker_exclusive_witness :
  reachable 1 busy /\ busy.(current_state_) = INTERPRETER_BUSY /\ busy.(interpreter_) = Initialized.
Proof.
  split; [exact busy_reachable|].
  destruct (contract_worker_exclusive 1 busy busy_reachable eq_refl 0 eq_refl) as (H1 & H2 & _). exact (conj H1 H2).
Defined.

(** Shutdown marks the interpreter done even while a handler uses it: the worker thread then finalizes the
    interpreter under the running request. *)
Theorem shutdown_finalizes_interpreter_in_use :
  exists s, reachable 1 s /\ s.(handlers) !! 0 = Some Using /\ s.(interpreter_) = Finalized.
Proof.
  exists (mk_state INTERPRETER_DONE Finalized true Exited [Using]). split; [|done].
  eapply rtc_r; [eapply rtc_r; [apply busy_reachable|apply step_shutdown]|]. by apply step_completed.
Qed.
End ContractWorker.
