(* ===== verification/Wasm.v ===== *)
(** The functions that a contract imports from the enclave: common/interpreter/wawaka_wasm/WasmUtil.cpp,
    WasmExtensions.cpp, WasmCryptoExtensions.cpp and WasmStateExtensions.cpp.  The WASM micro runtime, which
    holds the linear memory of the contract, is a parameter. *)
From S2P Require Import Prelude Crypto BlockStore Codec DataNode FreeSpace Json JsonSpec StateNode Cache DataNodeIO Trie StateKV.
From S2P Require Import Keys Attestation EnclaveData Enclave.

(** * The runtime *)

(** A module instance has a linear memory, whose bytes native code reads and writes through pointers at
    [native_base]; app addresses are offsets in it.  [in_use] are the regions (offset and size) that the
    contract or the runtime has handed out.  [wasm_runtime_module_dup_data] gives 0 when it cannot allocate. *)
Class WAMR := {
  module_inst : Type;
  app_memory : module_inst -> bytes;
  with_memory : bytes -> module_inst -> module_inst;
  native_base : module_inst -> Z;
  in_use : module_inst -> list (Z * Z);
  wasm_runtime_validate_app_addr : module_inst -> Z -> Z -> bool;
  wasm_runtime_module_dup_data : module_inst -> bytes -> Z * module_inst;
}.

Definition KV_STORE_POOL_MAX_SIZE : Z := 8.

(** What the functions work on: the instance that called them, the stores the contract has open (the first
    is the state of the contract), and the world outside the enclave. *)
Record wasm_env `{BlockStore, WAMR} := mk_env {
  env_inst : module_inst;
  kv_store_pool : list (option State_KV);
  env_world : world;
}.

Section Extensions.
Context `{OpenSSL, OpenSSLKeys, BlockStore, LibC, X509, WAMR}.

Definition set_inst (i : module_inst) (s : wasm_env) : wasm_env := mk_env _ _ i s.(kv_store_pool) s.(env_world).
Definition set_pool (p : list (option State_KV)) (s : wasm_env) : wasm_env := mk_env _ _ s.(env_inst) p s.(env_world).
Definition set_env_world (w : world) (s : wasm_env) : wasm_env := mk_env _ _ s.(env_inst) s.(kv_store_pool) w.

(** [try { m } catch (pdo::error::Error& e) { return false; } catch (...) { return false; }]. *)
Definition or_return {A} (a : A) (m : M wasm_env A) : M wasm_env A := catchM m (fun _ => retM a).

(** [if (p == NULL) return false;]. *)
Definition unless_null {A} (m : M wasm_env (option A)) (f : A -> M wasm_env bool) : M wasm_env bool :=
  let! o := m in match o with Some a => f a | None => retM false end.

(** A call that draws random bytes. *)
Definition set_rng (n : nat) (s : wasm_env) : wasm_env :=
  set_env_world (mk_world _ s.(env_world).(w_store) n s.(env_world).(w_ctx) s.(env_world).(w_evicted)) s.
Definition env_rng {A} (m : M nat A) : M wasm_env A := zoomM (fun s => s.(env_world).(w_rng)) set_rng m.

(** ** WasmUtil.cpp *)

(** A native pointer into the memory is the offset it points to; lengths are [int32] and are converted to
    [uint32] for the runtime. *)
Definition get_buffer (buffer_offset length : Z) : M wasm_env (option Z) :=
  readM (fun s => if wasm_runtime_validate_app_addr s.(env_inst) (u32 buffer_offset) (u32 length)
                  then Some (u32 buffer_offset) else None).

(** [ByteArray b(p, p + length)] and [std::string(p, length)]; a negative length is out of every range. *)
Definition byte_array (p length : Z) : M wasm_env bytes :=
  if bool_decide (length < 0)%Z then throwM (StdException "length_error")
  else readM (fun s => subseq (app_memory s.(env_inst)) p length).

(** [( *p) = v] for a pointer to a 32-bit integer. *)
Definition store32 (p v : Z) (i : module_inst) : module_inst :=
  with_memory (overwrite (app_memory i) p (le_split 4 v)) i.

(** Both pointers are taken before the allocation, which may move the memory. *)
Definition save_buffer (source : bytes) (buffer_pointer_offset length_pointer_offset : Z) : M wasm_env bool :=
  let! s := getM in
  let i := s.(env_inst) in
  if negb (wasm_runtime_validate_app_addr i (u32 buffer_pointer_offset) 8) then retM false
  else if negb (wasm_runtime_validate_app_addr i (u32 length_pointer_offset) 4) then retM false
  else
    let '(buffer, i') := wasm_runtime_module_dup_data i (subseq source 0 (u32 (zlen source))) in
    modifyM (set_inst i') ;;!
    if bool_decide (buffer = 0)%Z then retM false
    else
      throw_ifM (bool_decide (native_base i' <> native_base i)) (UndefinedBehaviour "pointer into memory that was moved") ;;!
      modifyM (set_inst (store32 (u32 length_pointer_offset) (u32 (zlen source))
                           (store32 (u32 buffer_pointer_offset) buffer i'))) ;;!
      retM true.

(** [if (! save_buffer(...)) return false; return true;]. *)
Definition return_buffer (source : bytes) (buffer_pointer_offset length_pointer_offset : Z) : M wasm_env bool :=
  let! ok := save_buffer source buffer_pointer_offset length_pointer_offset in
  if negb ok then retM false else retM true.

(** ** WasmExtensions.cpp *)

(** The position of the first [ch], which is converted to a character. *)
Fixpoint find_char (ch : byte) (b : bytes) (i : Z) : option Z :=
  match b with
  | [] => None
  | c :: b => if bool_decide (c = ch) then Some i else find_char ch b (i + 1)
  end.

Definition memchr_wrapper (src_offset ch src_size : Z) : M wasm_env Z :=
  or_return 0%Z (
    if bool_decide (src_size = 0)%Z then retM 0%Z
    else
      let! src := get_buffer src_offset src_size in
      match src with
      | None => retM 0%Z
      | Some p =>
          let! b := readM (fun s => subseq (app_memory s.(env_inst)) p src_size) in
          match find_char (byte.of_Z (ch mod 256)) b 0 with
          | None => retM 0%Z
          | Some k => retM (s32 (p + k))
          end
      end).

(** One turn of the loop, on [unsigned int]. *)
Definition simple_hash_step (result : Z) (c : byte) : Z :=
  u32 (byte.unsigned c + (Z.shiftl result 6 + Z.shiftl result 16 - result)).

(** The result as an [int]. *)
Definition simple_hash_wrapper (buffer : option bytes) : Z :=
  match buffer with
  | None => -1
  | Some b => let r := fold_left simple_hash_step b 0%Z in if bool_decide (r < 2 ^ 31)%Z then r else (r - 2 ^ 32)%Z
  end.

(** ** WasmCryptoExtensions.cpp *)

Definition b64_encode_wrapper (dec_buffer_offset dec_buffer_length enc_buffer_pointer_offset enc_length_pointer_offset : Z) :
    M wasm_env bool :=
  or_return false (
    unless_null (get_buffer dec_buffer_offset dec_buffer_length) (fun dec_buffer =>
    let! src := byte_array dec_buffer dec_buffer_length in
    return_buffer (ByteArrayToBase64EncodedString src) enc_buffer_pointer_offset enc_length_pointer_offset)).

Definition b64_decode_wrapper (enc_buffer_offset enc_buffer_length dec_buffer_pointer_offset dec_length_pointer_offset : Z) :
    M wasm_env bool :=
  or_return false (
    unless_null (get_buffer enc_buffer_offset enc_buffer_length) (fun enc_buffer =>
    let! encoded := byte_array enc_buffer enc_buffer_length in
    let decoded := Base64EncodedStringToByteArray encoded in
    if bool_decide (zlen decoded = 0)%Z then retM false
    else return_buffer decoded dec_buffer_pointer_offset dec_length_pointer_offset)).

(** Both keys of a pair are given back, the private one first. *)
Definition return_keys (encpriv encpub : bytes) (private_buffer_pointer_offset private_length_pointer_offset
    public_buffer_pointer_offset public_length_pointer_offset : Z) : M wasm_env bool :=
  let! ok := save_buffer encpriv private_buffer_pointer_offset private_length_pointer_offset in
  if negb ok then retM false
  else return_buffer encpub public_buffer_pointer_offset public_length_pointer_offset.

Definition ecdsa_create_signing_keys_wrapper (private_buffer_pointer_offset private_length_pointer_offset
    public_buffer_pointer_offset public_length_pointer_offset : Z) : M wasm_env bool :=
  or_return false (
    let! '(encpriv, encpub) := env_rng (with_draw new_signing_keys) in
    return_keys encpriv encpub private_buffer_pointer_offset private_length_pointer_offset
      public_buffer_pointer_offset public_length_pointer_offset).

Definition ecdsa_sign_message_wrapper (msg_buffer_offset msg_length key_buffer_offset key_length
    sig_buffer_pointer_offset sig_length_pointer_offset : Z) : M wasm_env bool :=
  or_return false (
    unless_null (get_buffer msg_buffer_offset msg_length) (fun msg_buffer =>
    unless_null (get_buffer key_buffer_offset key_length) (fun key_buffer =>
    let! msg := byte_array msg_buffer msg_length in
    let! key := byte_array key_buffer key_length in
    let! privkey := liftM (sig_PrivateKey key) in
    let! signature := env_rng (with_draw (fun n => sig_private_key.SignMessage n privkey msg)) in
    return_buffer signature sig_buffer_pointer_offset sig_length_pointer_offset))).

(** The test after the last [get_buffer] looks at [key_buffer] again, and the null pointer is read; the [int]
    that [VerifySignature] gives is converted to a [bool]. *)
Definition ecdsa_verify_signature_wrapper (msg_buffer_offset msg_length key_buffer_offset key_length
    sig_buffer_offset sig_length : Z) : M wasm_env bool :=
  or_return false (
    unless_null (get_buffer msg_buffer_offset msg_length) (fun msg_buffer =>
    unless_null (get_buffer key_buffer_offset key_length) (fun key_buffer =>
    let! sig_buffer := get_buffer sig_buffer_offset sig_length in
    let! msg := byte_array msg_buffer msg_length in
    let! key := byte_array key_buffer key_length in
    let! signature :=
      match sig_buffer with
      | Some p => byte_array p sig_length
      | None => if bool_decide (sig_length = 0)%Z then retM [] else throwM (UndefinedBehaviour "null signature buffer")
      end in
    let! pubkey := liftM (sig_PublicKey key) in
    let! result := liftM (sig_public_key.VerifySignature pubkey msg signature) in
    retM (bool_decide (result <> 0)%Z)))).

Definition aes_generate_key_wrapper (key_buffer_pointer_offset key_length_pointer_offset : Z) : M wasm_env bool :=
  or_return false (
    let! key := env_rng GenerateKey in
    return_buffer key key_buffer_pointer_offset key_length_pointer_offset).

(** The buffer is read as a C string, past its end when it holds no NUL. *)
Definition aes_generate_iv_wrapper (buffer_offset buffer_length iv_buffer_pointer_offset iv_length_pointer_offset : Z) :
    M wasm_env bool :=
  or_return false (
    unless_null (get_buffer buffer_offset buffer_length) (fun buffer =>
    let! m := readM (fun s => app_memory s.(env_inst)) in
    let rest := drop (Z.to_nat buffer) m in
    throw_ifM (negb (bool_decide (Byte.x00 ∈ rest))) (UndefinedBehaviour "string without a terminating NUL") ;;!
    let! iv := env_rng (GenerateIV (c_str rest)) in
    return_buffer iv iv_buffer_pointer_offset iv_length_pointer_offset)).

(** The three inputs of both AES functions. *)
Definition aes_inputs (msg_buffer_offset msg_length key_buffer_offset key_length iv_buffer_offset iv_length : Z)
    (f : bytes -> bytes -> bytes -> M wasm_env bool) : M wasm_env bool :=
  unless_null (get_buffer msg_buffer_offset msg_length) (fun msg_buffer =>
  let! msg := byte_array msg_buffer msg_length in
  unless_null (get_buffer key_buffer_offset key_length) (fun key_buffer =>
  let! key := byte_array key_buffer key_length in
  unless_null (get_buffer iv_buffer_offset iv_length) (fun iv_buffer =>
  let! iv := byte_array iv_buffer iv_length in
  f msg key iv))).

(** [if (b.empty()) return false;] and the result. *)
Definition return_nonempty (b : bytes) (buffer_pointer_offset length_pointer_offset : Z) : M wasm_env bool :=
  if bool_decide (b = []) then retM false else return_buffer b buffer_pointer_offset length_pointer_offset.

Definition aes_encrypt_message_wrapper (msg_buffer_offset msg_length key_buffer_offset key_length iv_buffer_offset iv_length
    cipher_buffer_pointer_offset cipher_length_pointer_offset : Z) : M wasm_env bool :=
  or_return false (
    aes_inputs msg_buffer_offset msg_length key_buffer_offset key_length iv_buffer_offset iv_length (fun msg key iv =>
    let! cipher := liftM (EncryptMessage_iv key iv msg) in
    return_nonempty cipher cipher_buffer_pointer_offset cipher_length_pointer_offset)).

Definition aes_decrypt_message_wrapper (cipher_buffer_offset cipher_length key_buffer_offset key_length iv_buffer_offset
    iv_length msg_buffer_pointer_offset msg_length_pointer_offset : Z) : M wasm_env bool :=
  or_return false (
    aes_inputs cipher_buffer_offset cipher_length key_buffer_offset key_length iv_buffer_offset iv_length (fun cipher key iv =>
    let! msg := liftM (DecryptMessage_iv key iv cipher) in
    return_nonempty msg msg_buffer_pointer_offset msg_length_pointer_offset)).

Definition rsa_generate_keys_wrapper (private_buffer_pointer_offset private_length_pointer_offset
    public_buffer_pointer_offset public_length_pointer_offset : Z) : M wasm_env bool :=
  or_return false (
    let! '(encpriv, encpub) := env_rng (with_draw new_encryption_keys) in
    return_keys encpriv encpub private_buffer_pointer_offset private_length_pointer_offset
      public_buffer_pointer_offset public_length_pointer_offset).

(** A message and a key in PEM form. *)
Definition rsa_inputs (msg_buffer_offset msg_length key_buffer_offset key_length : Z)
    (f : bytes -> bytes -> M wasm_env bool) : M wasm_env bool :=
  unless_null (get_buffer msg_buffer_offset msg_length) (fun msg_buffer =>
  let! msg := byte_array msg_buffer msg_length in
  unless_null (get_buffer key_buffer_offset key_length) (fun key_buffer =>
  let! key := byte_array key_buffer key_length in
  f msg key)).

Definition rsa_encrypt_message_wrapper (msg_buffer_offset msg_length key_buffer_offset key_length
    cipher_buffer_pointer_offset cipher_length_pointer_offset : Z) : M wasm_env bool :=
  or_return false (
    rsa_inputs msg_buffer_offset msg_length key_buffer_offset key_length (fun msg key =>
    let! public_key := liftM (run_method (pkenc_public_key.Deserialize key) None) in
    let! cipher := env_rng (with_draw (fun n => pkenc_public_key.EncryptMessage n public_key msg)) in
    return_nonempty cipher cipher_buffer_pointer_offset cipher_length_pointer_offset)).

Definition rsa_decrypt_message_wrapper (cipher_buffer_offset cipher_length key_buffer_offset key_length
    msg_buffer_pointer_offset msg_length_pointer_offset : Z) : M wasm_env bool :=
  or_return false (
    rsa_inputs cipher_buffer_offset cipher_length key_buffer_offset key_length (fun cipher key =>
    let! private_key := liftM (run_method (pkenc_private_key.Deserialize key) None) in
    let! msg := liftM (pkenc_private_key.DecryptMessage private_key cipher) in
    return_nonempty msg msg_buffer_pointer_offset msg_length_pointer_offset)).

(** The three hash functions differ in the hash only. *)
Definition hash_wrapper (hash_of : bytes -> bytes) (msg_buffer_offset msg_buffer_length hash_buffer_pointer_offset
    hash_length_pointer_offset : Z) : M wasm_env bool :=
  or_return false (
    unless_null (get_buffer msg_buffer_offset msg_buffer_length) (fun msg_buffer =>
    let! msg := byte_array msg_buffer msg_buffer_length in
    return_nonempty (hash_of msg) hash_buffer_pointer_offset hash_length_pointer_offset)).

Definition sha256_hash_wrapper : Z -> Z -> Z -> Z -> M wasm_env bool := hash_wrapper SHA256Hash.
Definition sha384_hash_wrapper : Z -> Z -> Z -> Z -> M wasm_env bool := hash_wrapper SHA384Hash.
Definition sha512_hash_wrapper : Z -> Z -> Z -> Z -> M wasm_env bool := hash_wrapper SHA512Hash.

Definition random_identifier_wrapper (length buffer_offset : Z) : M wasm_env bool :=
  if bool_decide (length <= 0)%Z then retM false
  else or_return false (
    let! identifier := env_rng (RandomBitString length) in
    throw_ifM (bool_decide (length <> zlen identifier)) (UndefinedBehaviour "assertion length == identifier.size()") ;;!
    unless_null (get_buffer buffer_offset length) (fun buffer =>
    modifyM (fun s => set_inst (with_memory (overwrite (app_memory s.(env_inst)) buffer identifier) s.(env_inst)) s) ;;!
    retM true)).

Definition hmac_wrapper (hmac_of : bytes -> bytes -> bytes) (msg_buffer_offset msg_buffer_length key_buffer_offset
    key_buffer_length hmac_buffer_pointer_offset hmac_length_pointer_offset : Z) : M wasm_env bool :=
  or_return false (
    rsa_inputs msg_buffer_offset msg_buffer_length key_buffer_offset key_buffer_length (fun msg key =>
    return_nonempty (hmac_of msg key) hmac_buffer_pointer_offset hmac_length_pointer_offset)).

Definition sha256_hmac_wrapper : Z -> Z -> Z -> Z -> Z -> Z -> M wasm_env bool := hmac_wrapper SHA256HMAC.
Definition sha384_hmac_wrapper : Z -> Z -> Z -> Z -> Z -> Z -> M wasm_env bool := hmac_wrapper SHA384HMAC.
Definition sha512_hmac_wrapper : Z -> Z -> Z -> Z -> Z -> Z -> M wasm_env bool := hmac_wrapper SHA512HMAC.

Definition sha512_pbkd_wrapper (pw_buffer_offset pw_length salt_buffer_offset salt_length key_buffer_pointer_offset
    key_length_pointer_offset : Z) : M wasm_env bool :=
  or_return false (
    unless_null (get_buffer pw_buffer_offset pw_length) (fun pw_buffer =>
    unless_null (get_buffer salt_buffer_offset salt_length) (fun salt_buffer =>
    let! password := byte_array pw_buffer pw_length in
    let! salt := byte_array salt_buffer salt_length in
    let! key := liftM (SHA512PasswordBasedKeyDerivation password salt) in
    return_buffer key key_buffer_pointer_offset key_length_pointer_offset))).

(** The certificate is read as a C string. *)
Definition verify_sgx_report_wrapper (signing_cert_buffer_offset signing_cert_buffer_length report_buffer_offset
    report_buffer_length signature_buffer_offset signature_buffer_length : Z) : M wasm_env bool :=
  or_return false (
    unless_null (get_buffer signing_cert_buffer_offset signing_cert_buffer_length) (fun signing_cert_buffer =>
    unless_null (get_buffer report_buffer_offset report_buffer_length) (fun report_buffer =>
    unless_null (get_buffer signature_buffer_offset signature_buffer_length) (fun signature_buffer =>
    let! m := readM (fun s => app_memory s.(env_inst)) in
    let cert := drop (Z.to_nat signing_cert_buffer) m in
    throw_ifM (negb (bool_decide (Byte.x00 ∈ cert))) (UndefinedBehaviour "string without a terminating NUL") ;;!
    let! result := liftM (verify_ias_report_signature cert
      (subseq m report_buffer (u32 report_buffer_length)) (subseq m signature_buffer (u32 signature_buffer_length))) in
    retM (bool_decide (result = VERIFY_SUCCESS)))))).

Definition ecdsa_create_signing_keys_from_extended_key_wrapper (key_buffer_offset key_buffer_length
    private_buffer_pointer_offset private_length_pointer_offset public_buffer_pointer_offset
    public_length_pointer_offset : Z) : M wasm_env bool :=
  or_return false (
    throw_ifM (bool_decide (key_buffer_length <> 48)%Z) (RuntimeError "unsupported key size") ;;!
    let! key_buffer := get_buffer key_buffer_offset key_buffer_length in
    let! key_buffer := liftM (of_option key_buffer (ValueError "allocation error")) in
    let! key := byte_array key_buffer key_buffer_length in
    let! privkey := liftM (sig_private_key.of_numeric SECP384R1 key) in
    let! pubkey := liftM (sig_private_key.PublicKey_of privkey) in
    let! encpriv := liftM (sig_private_key.Serialize privkey) in
    let! encpub := liftM (sig_public_key.Serialize pubkey) in
    return_keys encpriv encpub private_buffer_pointer_offset private_length_pointer_offset
      public_buffer_pointer_offset public_length_pointer_offset).

(** The conversion of an [unsigned] number below 2^53 to [double], as the bits of the result. *)
Definition double_bits (n : Z) : Z :=
  if bool_decide (n = 0)%Z then 0%Z
  else let e := Z.log2 n in (Z.shiftl (e + 1023) 52 + Z.shiftl (n - 2 ^ e) (52 - e))%Z.

(** [json_object_set_number] and [json_object_set_string], which fail on a value JSON has no text for. *)
Definition set_number (l : list (bytes * json)) (name : bytes) (n : Z) : option (list (bytes * json)) :=
  match json_value_init_number (double_bits n) with
  | Ok v => Some (json_object_set_value l name v)
  | Err _ => None
  end.
Definition set_string (l : list (bytes * json)) (name s : bytes) : option (list (bytes * json)) :=
  if json_valid_string (c_str s) then Some (json_object_set_value l name (JString (c_str s))) else None.

(** The offset and the size of a field of the quote, as text. *)
Definition set_field (quote : bytes) (l : list (bytes * json)) (name : bytes) (offset size : Z) : option (list (bytes * json)) :=
  set_string l name (ByteArrayToBase64EncodedString (subseq quote offset size)).

(** What the contract is told of the quote. *)
Definition quote_information (quote : bytes) : option json :=
  q ← set_number [] (bytes_of "version") (le_combine (subseq quote 0 2));
  q ← set_number q (bytes_of "sign_type") (le_combine (subseq quote 2 2));
  q ← set_field quote q (bytes_of "epid_group_id") 4 4;
  q ← set_number q (bytes_of "qe_svn") (le_combine (subseq quote 8 2));
  q ← set_number q (bytes_of "pce_svn") (le_combine (subseq quote 10 2));
  q ← set_field quote q (bytes_of "basename") 16 32;
  r ← set_field quote [] (bytes_of "cpu_svn") report_body_offset 16;
  r ← set_field quote r (bytes_of "mr_enclave") mr_enclave_offset SGX_HASH_SIZE;
  r ← set_field quote r (bytes_of "mr_signer") (report_body_offset + 128) SGX_HASH_SIZE;
  r ← set_field quote r (bytes_of "config_id") (report_body_offset + 192) 64;
  r ← set_field quote r (bytes_of "report_data") report_data_offset 64;
  Some (JObject (json_object_set_value q (bytes_of "report_body") (JObject r))).

(** A negative length makes the size of the local buffer wrap; every length the runtime accepts is positive
    or zero as an [int]. *)
Definition parse_sgx_report_wrapper (report_buffer_offset report_buffer_length msg_buffer_pointer_offset
    msg_length_pointer_offset : Z) : M wasm_env bool :=
  or_return false (
    unless_null (get_buffer report_buffer_offset report_buffer_length) (fun report_buffer =>
    throw_ifM (bool_decide (report_buffer_length < 0)%Z) (UndefinedBehaviour "array of negative size") ;;!
    let! report := byte_array report_buffer report_buffer_length in
    match (quote ← get_quote_from_report report; info ← quote_information quote; json_serialize info) with
    | None => retM false
    | Some serialized_response => return_buffer (c_str serialized_response) msg_buffer_pointer_offset msg_length_pointer_offset
    end)).

(** ** WasmStateExtensions.cpp *)

(** A method of the store with a handle, whose blocks are in the world of the enclave. *)
Definition on_store {A} (h : Z) (kv : State_KV) (m : M State_KV A) : M wasm_env A := fun s =>
  let '(r, kv') := m (set_kv_world s.(env_world) kv) in
  (r, set_env_world (kv_world kv') (set_pool (<[Z.to_nat h := Some kv']> s.(kv_store_pool)) s)).

Definition fetch_state_from_handle (kv_store_handle : Z) : M wasm_env (option State_KV) :=
  if bool_decide (kv_store_handle < 0)%Z || bool_decide (kv_store_handle >= KV_STORE_POOL_MAX_SIZE)%Z then retM None
  else let! p := readM kv_store_pool in liftM (vec_get p kv_store_handle).

(** The runtime has checked the buffers of the arguments and converted their addresses. *)
Definition key_value_set_wrapper (kv_store_handle : Z) (key_buffer : option Z) (key_buffer_length : Z)
    (val_buffer : option Z) (val_buffer_length : Z) : M wasm_env bool :=
  or_return false (
    unless_null (fetch_state_from_handle kv_store_handle) (fun state =>
    unless_null (retM key_buffer) (fun key_buffer =>
    unless_null (retM val_buffer) (fun val_buffer =>
    let! ba_key := byte_array key_buffer key_buffer_length in
    let! ba_val := byte_array val_buffer val_buffer_length in
    on_store kv_store_handle state (IKV.UnprivilegedPut ba_key ba_val) ;;!
    retM true)))).

(** The value of both get functions, which is not given back when it is empty. *)
Definition get_from (kv_store_handle : Z) (get : bytes -> M State_KV bytes) (key_buffer : option Z) (key_buffer_length : Z)
    (val_buffer_pointer_offset val_length_pointer_offset : Z) : M wasm_env bool :=
  or_return false (
    unless_null (fetch_state_from_handle kv_store_handle) (fun state =>
    unless_null (retM key_buffer) (fun key_buffer =>
    let! ba_key := byte_array key_buffer key_buffer_length in
    let! ba_val := on_store kv_store_handle state (get ba_key) in
    return_nonempty ba_val val_buffer_pointer_offset val_length_pointer_offset))).

Definition key_value_get_wrapper (kv_store_handle : Z) : option Z -> Z -> Z -> Z -> M wasm_env bool :=
  get_from kv_store_handle IKV.UnprivilegedGet.

Definition privileged_key_value_get_wrapper : option Z -> Z -> Z -> Z -> M wasm_env bool := get_from 0 IKV.PrivilegedGet.

(** The first free slot after the state of the contract. *)
Fixpoint free_slot (p : list (option State_KV)) (h : Z) (n : nat) : Z :=
  match n with
  | O => h
  | S n => match p !! Z.to_nat h with Some None => h | _ => free_slot p (h + 1) n end
  end.

(** The end of both functions that make a store: [new Interpreter_KV] in a free slot. *)
Definition new_store (make : world -> result State_KV * world) : M wasm_env Z :=
  let! p := readM kv_store_pool in
  let kv_store_handle := free_slot p 1 7 in
  if bool_decide (kv_store_handle = KV_STORE_POOL_MAX_SIZE) then retM (-1)%Z
  else
    let! state := (fun s => let '(r, w) := make s.(env_world) in (r, set_env_world w s)) in
    modifyM (set_pool (<[Z.to_nat kv_store_handle := Some state]> p)) ;;!
    retM kv_store_handle.

(** An invalid key makes the function return [false], which is the handle 0. *)
Definition key_value_create_wrapper (aes_key_buffer : option Z) (aes_key_buffer_length : Z) : M wasm_env Z :=
  or_return (-1)%Z (
    match aes_key_buffer with
    | None => retM 0%Z
    | Some aes_key_buffer =>
        if bool_decide (aes_key_buffer_length <> SYM_KEY_LEN) then retM 0%Z
        else
          let! ba_encryption_key := byte_array aes_key_buffer aes_key_buffer_length in
          new_store (fun w => KV.create w ba_encryption_key)
    end).

Definition key_value_open_wrapper (id_hash_buffer : option Z) (id_hash_buffer_length : Z) (aes_key_buffer : option Z)
    (aes_key_buffer_length : Z) : M wasm_env Z :=
  or_return (-1)%Z (
    match id_hash_buffer with
    | None => retM 0%Z
    | Some id_hash_buffer =>
        if bool_decide (id_hash_buffer_length <= 0)%Z then retM 0%Z
        else
          let! ba_id_hash := byte_array id_hash_buffer id_hash_buffer_length in
          match aes_key_buffer with
          | None => retM 0%Z
          | Some aes_key_buffer =>
              if bool_decide (aes_key_buffer_length <> SYM_KEY_LEN) then retM 0%Z
              else
                let! ba_encryption_key := byte_array aes_key_buffer aes_key_buffer_length in
                new_store (fun w => KV.open w ba_id_hash ba_encryption_key)
          end
    end).

Definition key_value_finalize_wrapper (kv_store_handle id_hash_buffer_pointer_offset id_hash_length_pointer_offset : Z) :
    M wasm_env bool :=
  or_return false (
    if bool_decide (kv_store_handle = 0)%Z then retM false
    else
      unless_null (fetch_state_from_handle kv_store_handle) (fun state =>
      let! ba_val := on_store kv_store_handle state KV.Finalize in
      if bool_decide (zlen ba_val = 0)%Z then retM false
      else
        modifyM (fun s => set_pool (<[Z.to_nat kv_store_handle := None]> s.(kv_store_pool)) s) ;;!
        return_buffer ba_val id_hash_buffer_pointer_offset id_hash_length_pointer_offset)).

(** ** The table of imported functions *)

(** [strtod] stores a native pointer of eight bytes at [endptr], of which the next line overwrites four. *)
Definition strtod_wrapper (nptr endptr : Z) : M wasm_env Z :=
  let! i := readM env_inst in
  let m := app_memory i in
  if negb (bool_decide (0 <= endptr /\ endptr + 4 <= zlen m)%Z) then retM 0%Z
  else
    throw_ifM (bool_decide (zlen m < endptr + 8)%Z) (UndefinedBehaviour "pointer stored past the memory") ;;!
    let '(num, consumed, _) := strtod (c_str (drop (Z.to_nat nptr) m)) in
    let stop := (nptr + Z.of_nat consumed)%Z in
    modifyM (fun s => set_inst (with_memory (overwrite (app_memory s.(env_inst)) endptr
                        (le_split 8 (native_base s.(env_inst) + stop))) s.(env_inst)) s) ;;!
    modifyM (fun s => set_inst (store32 endptr stop s.(env_inst)) s) ;;!
    retM num.

(** The table that [RegisterNativeFunctions] gives to the runtime, with the arguments of a call.  An argument
    with the signature [*] has been checked by the runtime together with the length that follows it and is
    a native pointer. *)
Inductive native_call :=
  | b64_encode (a b p l : Z)
  | b64_decode (a b p l : Z)
  | ecdsa_create_signing_keys (p l p' l' : Z)
  | ecdsa_create_signing_keys_from_extended_key (a b p l p' l' : Z)
  | ecdsa_sign_message (a b c d p l : Z)
  | ecdsa_verify_signature (a b c d e f : Z)
  | aes_generate_key (p l : Z)
  | aes_generate_iv (a b p l : Z)
  | aes_encrypt_message (a b c d e f p l : Z)
  | aes_decrypt_message (a b c d e f p l : Z)
  | rsa_generate_keys (p l p' l' : Z)
  | rsa_encrypt_message (a b c d p l : Z)
  | rsa_decrypt_message (a b c d p l : Z)
  | sha256_hash (a b p l : Z)
  | sha384_hash (a b p l : Z)
  | sha512_hash (a b p l : Z)
  | sha256_hmac (a b c d p l : Z)
  | sha384_hmac (a b c d p l : Z)
  | sha512_hmac (a b c d p l : Z)
  | sha512_pbkd (a b c d p l : Z)
  | random_identifier (n p : Z)
  | verify_sgx_report (a b c d e f : Z)
  | parse_sgx_report (a b p l : Z)
  | key_value_set (h : Z) (a : option Z) (b : Z) (c : option Z) (d : Z)
  | key_value_get (h : Z) (a : option Z) (b p l : Z)
  | privileged_key_value_get (a : option Z) (b p l : Z)
  | key_value_create (a : option Z) (b : Z)
  | key_value_open (a : option Z) (b : Z) (c : option Z) (d : Z)
  | key_value_finalize (h p l : Z)
  | simple_hash (a : option Z) (b : Z)
  | memchr (a b c : Z)
  | strtod_call (a b : Z).

(** [bool] as the [i32] the contract gets. *)
Definition as_i32 (m : M wasm_env bool) : M wasm_env Z := let! r := m in retM (if r : bool then 1%Z else 0%Z).

Definition run_native (c : native_call) : M wasm_env Z :=
  match c with
  | b64_encode a b p l => as_i32 (b64_encode_wrapper a b p l)
  | b64_decode a b p l => as_i32 (b64_decode_wrapper a b p l)
  | ecdsa_create_signing_keys p l p' l' => as_i32 (ecdsa_create_signing_keys_wrapper p l p' l')
  | ecdsa_create_signing_keys_from_extended_key a b p l p' l' =>
      as_i32 (ecdsa_create_signing_keys_from_extended_key_wrapper a b p l p' l')
  | ecdsa_sign_message a b c d p l => as_i32 (ecdsa_sign_message_wrapper a b c d p l)
  | ecdsa_verify_signature a b c d e f => as_i32 (ecdsa_verify_signature_wrapper a b c d e f)
  | aes_generate_key p l => as_i32 (aes_generate_key_wrapper p l)
  | aes_generate_iv a b p l => as_i32 (aes_generate_iv_wrapper a b p l)
  | aes_encrypt_message a b c d e f p l => as_i32 (aes_encrypt_message_wrapper a b c d e f p l)
  | aes_decrypt_message a b c d e f p l => as_i32 (aes_decrypt_message_wrapper a b c d e f p l)
  | rsa_generate_keys p l p' l' => as_i32 (rsa_generate_keys_wrapper p l p' l')
  | rsa_encrypt_message a b c d p l => as_i32 (rsa_encrypt_message_wrapper a b c d p l)
  | rsa_decrypt_message a b c d p l => as_i32 (rsa_decrypt_message_wrapper a b c d p l)
  | sha256_hash a b p l => as_i32 (sha256_hash_wrapper a b p l)
  | sha384_hash a b p l => as_i32 (sha384_hash_wrapper a b p l)
  | sha512_hash a b p l => as_i32 (sha512_hash_wrapper a b p l)
  | sha256_hmac a b c d p l => as_i32 (sha256_hmac_wrapper a b c d p l)
  | sha384_hmac a b c d p l => as_i32 (sha384_hmac_wrapper a b c d p l)
  | sha512_hmac a b c d p l => as_i32 (sha512_hmac_wrapper a b c d p l)
  | sha512_pbkd a b c d p l => as_i32 (sha512_pbkd_wrapper a b c d p l)
  | random_identifier n p => as_i32 (random_identifier_wrapper n p)
  | verify_sgx_report a b c d e f => as_i32 (verify_sgx_report_wrapper a b c d e f)
  | parse_sgx_report a b p l => as_i32 (parse_sgx_report_wrapper a b p l)
  | key_value_set h a b c d => as_i32 (key_value_set_wrapper h a b c d)
  | key_value_get h a b p l => as_i32 (key_value_get_wrapper h a b p l)
  | privileged_key_value_get a b p l => as_i32 (privileged_key_value_get_wrapper a b p l)
  | key_value_create a b => key_value_create_wrapper a b
  | key_value_open a b c d => key_value_open_wrapper a b c d
  | key_value_finalize h p l => as_i32 (key_value_finalize_wrapper h p l)
  | simple_hash a b => let! i := readM env_inst in
                       retM (simple_hash_wrapper ((fun p => subseq (app_memory i) p b) <$> a))
  | memchr a b c => memchr_wrapper a b c
  | strtod_call a b => strtod_wrapper a b
  end.
End Extensions.
