(* ===== verification/WasmSpec.v ===== *)
(** What a contract can do through the functions it imports: the results they give, and that they write
    nothing but the places they are told to and memory of their own. *)
From S2P Require Import Prelude Crypto BlockStore Codec DataNode FreeSpace Json JsonSpec StateNode Cache DataNodeIO Trie StateKV.
From S2P Require Import Keys Attestation EnclaveData Enclave Wasm.

Definition region : Type := Z * Z.
Definition disjoint_regions (r1 r2 : region) : Prop := (r1.1 + r1.2 <= r2.1 \/ r2.1 + r2.2 <= r1.1)%Z.

#[global] Instance disjoint_regions_dec r1 r2 : Decision (disjoint_regions r1 r2).
Proof. unfold disjoint_regions. apply _. Defined.

(** * The runtime *)

(** An address is accepted when its bytes are in the memory, the memory has at most 2^32 bytes, and memory
    that is allocated was not in use and leaves what is in use alone. *)
Class WAMRLaws (W : WAMR) : Prop := {
  in_use_disjoint (i : module_inst) r1 r2 : r1 ∈ in_use i -> r2 ∈ in_use i -> r1 = r2 \/ disjoint_regions r1 r2;
  app_with_memory (i : module_inst) m : zlen m = zlen (app_memory i) -> app_memory (with_memory m i) = m;
  in_use_with_memory (i : module_inst) m : in_use (with_memory m i) = in_use i;
  base_with_memory (i : module_inst) m : native_base (with_memory m i) = native_base i;
  memory_limit (i : module_inst) : (zlen (app_memory i) <= 2 ^ 32)%Z;
  validate_app_addr (i : module_inst) off len : (0 <= off)%Z -> (0 <= len)%Z ->
    wasm_runtime_validate_app_addr i off len = bool_decide (off + len <= zlen (app_memory i))%Z;
  dup_data_grows (i : module_inst) b : (zlen (app_memory i) <= zlen (app_memory (wasm_runtime_module_dup_data i b).2))%Z;
  dup_data_frame (i : module_inst) b r : r ∈ in_use i ->
    r ∈ in_use (wasm_runtime_module_dup_data i b).2 /\
    subseq (app_memory (wasm_runtime_module_dup_data i b).2) r.1 r.2 = subseq (app_memory i) r.1 r.2;
  dup_data_fresh (i : module_inst) b off i' : wasm_runtime_module_dup_data i b = (off, i') -> off <> 0%Z ->
    (0 < off)%Z /\ (off + zlen b <= zlen (app_memory i'))%Z /\ subseq (app_memory i') off (zlen b) = b /\
    (off, zlen b) ∈ in_use i' /\ (forall r, r ∈ in_use i -> disjoint_regions r (off, zlen b));
}.

(** * Walking through a function *)

Section Walk.
Context `{OpenSSL, OpenSSLKeys, BlockStore, LibC, X509} {W : WAMR}.
Implicit Types (s : wasm_env) (R : relation wasm_env).

(** What a computation does to the state is in the relation [R]. *)
Definition respects {A} R (m : M wasm_env A) : Prop := forall s, R s (m s).2.

(** The relations below do not look at the random numbers. *)
Class RngBlind R : Prop := rng_blind s n : R s (set_rng n s).

Context (R : relation wasm_env) `{!PreOrder R, !RngBlind R}.

Lemma respects_ret {A} (a : A) : respects R (retM a).
Proof. by intros s. Qed.
Lemma respects_throw {A} e : respects R (throwM (A := A) e).
Proof. by intros s. Qed.
Lemma respects_read {A} (f : wasm_env -> A) : respects R (readM f).
Proof. by intros s. Qed.
Lemma respects_get : respects R getM.
Proof. by intros s. Qed.
Lemma respects_lift {A} (r : result A) : respects R (liftM r).
Proof. by intros s. Qed.
Lemma respects_throw_if c e : respects R (throw_ifM c e).
Proof. by intros s. Qed.
Lemma respects_modify f : (forall s, R s (f s)) -> respects R (modifyM f).
Proof. by intros Hf s. Qed.
Lemma respects_rng {A} (m : M nat A) : respects R (env_rng m).
Proof. intros s. unfold env_rng, zoomM. destruct (m _). apply rng_blind. Qed.

Lemma respects_bind {A B'} (m : M wasm_env A) (f : A -> M wasm_env B') :
  respects R m -> (forall a, respects R (f a)) -> respects R (bindM m f).
Proof.
  intros Hm Hf s. specialize (Hm s). unfold bindM. destruct (m s) as [[a|e] s1].
  - specialize (Hf a s1). by etransitivity.
  - done.
Qed.

Lemma respects_or_return {A} (a : A) m : respects R m -> respects R (or_return a m).
Proof.
  intros Hm s. specialize (Hm s). unfold or_return, catchM. destruct (m s) as [[b|e] s1]; [done|]. by destruct e.
Qed.

Lemma respects_unless_null {A} (m : M wasm_env (option A)) f :
  respects R m -> (forall a, respects R (f a)) -> respects R (unless_null m f).
Proof. intros Hm Hf. apply respects_bind; [done|]. intros [a|]; [apply Hf|apply respects_ret]. Qed.

Lemma respects_byte_array p n : respects R (byte_array p n).
Proof. unfold byte_array. case_bool_decide; [apply respects_throw|apply respects_read]. Qed.

Lemma respects_fetch h : respects R (fetch_state_from_handle h).
Proof.
  unfold fetch_state_from_handle. destruct (_ || _); [apply respects_ret|].
  apply respects_bind; [apply respects_read|]. intros. apply respects_lift.
Qed.

Section Results.
Context (source : bytes) (p l : Z) (Hsave : forall b, respects R (save_buffer b p l)).

Lemma respects_return_buffer : respects R (return_buffer source p l).
Proof. apply respects_bind; [apply Hsave|]. intros []; apply respects_ret. Qed.

Lemma respects_return_nonempty : respects R (return_nonempty source p l).
Proof.
  unfold return_nonempty. case_bool_decide; [apply respects_ret|apply respects_return_buffer].
Qed.
End Results.

Lemma respects_return_keys k1 k2 p l p' l' :
  (forall b, respects R (save_buffer b p l)) -> (forall b, respects R (save_buffer b p' l')) ->
  respects R (return_keys k1 k2 p l p' l').
Proof.
  intros. apply respects_bind; [done|]. intros []; [by apply respects_return_buffer|apply respects_ret].
Qed.
End Walk.

Create HintDb respects.
#[export] Hint Resolve respects_ret respects_throw respects_read respects_get respects_lift respects_throw_if
  respects_rng respects_byte_array respects_fetch respects_return_buffer respects_return_nonempty respects_return_keys : respects.
#[export] Hint Extern 1 (PreOrder _) => apply _ : respects.
#[export] Hint Extern 1 (RngBlind _) => apply _ : respects.
#[export] Hint Resolve list_elem_of_here list_elem_of_further : respects.

(** Walk through a function with the rules above. *)
Ltac walk :=
  repeat first
    [ progress intros
    | solve [eauto 7 with respects]
    | apply respects_bind; [apply _|..]
    | apply respects_unless_null; [apply _|..]
    | apply respects_or_return
    | case_match ].

(** The bodies of the functions. *)
Ltac unfold_wrappers :=
  unfold b64_encode_wrapper, b64_decode_wrapper, ecdsa_create_signing_keys_wrapper, ecdsa_sign_message_wrapper,
    ecdsa_verify_signature_wrapper, aes_generate_key_wrapper, aes_generate_iv_wrapper, aes_encrypt_message_wrapper,
    aes_decrypt_message_wrapper, rsa_generate_keys_wrapper, rsa_encrypt_message_wrapper, rsa_decrypt_message_wrapper,
    sha256_hash_wrapper, sha384_hash_wrapper, sha512_hash_wrapper, sha256_hmac_wrapper, sha384_hmac_wrapper,
    sha512_hmac_wrapper, sha512_pbkd_wrapper, verify_sgx_report_wrapper, parse_sgx_report_wrapper,
    ecdsa_create_signing_keys_from_extended_key_wrapper, hash_wrapper, hmac_wrapper, aes_inputs, rsa_inputs,
    key_value_set_wrapper, key_value_get_wrapper, privileged_key_value_get_wrapper, get_from,
    key_value_create_wrapper, key_value_open_wrapper, key_value_finalize_wrapper, memchr_wrapper, get_buffer.

(** * Confinement *)

Section Confinement.
Context `{OpenSSL, OpenSSLKeys, BlockStore, LibC, X509} {W : WAMR} {WL : WAMRLaws W}.
Implicit Types (s : wasm_env) (C : list region).

(** Memory in use is still in use, and has the same bytes if it does not meet [C]. *)
Definition confined C s s' : Prop :=
  (zlen (app_memory s.(env_inst)) <= zlen (app_memory s'.(env_inst)))%Z /\
  forall r, r ∈ in_use s.(env_inst) -> r ∈ in_use s'.(env_inst) /\
    ((0 <= r.1)%Z -> Forall (disjoint_regions r) C ->
     subseq (app_memory s'.(env_inst)) r.1 r.2 = subseq (app_memory s.(env_inst)) r.1 r.2).

Lemma confined_same C s s' : s'.(env_inst) = s.(env_inst) -> confined C s s'.
Proof. intros E. unfold confined. rewrite E. split; [lia|done]. Qed.

#[export] Instance confined_preorder C : PreOrder (confined C).
Proof.
  split; [intros s; by apply confined_same|].
  intros s1 s2 s3 [L1 F1] [L2 F2]. split; [lia|]. intros r Hr. destruct (F1 r Hr) as [Hr2 E1].
  destruct (F2 r Hr2) as [Hr3 E2]. split; [done|]. intros Hp Hd. by rewrite E2, E1.
Qed.

#[export] Instance confined_blind C : RngBlind (confined C).
Proof. intros s n. by apply confined_same. Qed.

Lemma confined_same_inst {A} C (m : M wasm_env A) :
  (forall s, (m s).2.(env_inst) = s.(env_inst)) -> respects (confined C) m.
Proof. intros Hm. intros s. by apply confined_same. Qed.

Lemma confined_store {A} C h kv (m : M State_KV A) : respects (confined C) (on_store h kv m).
Proof. apply confined_same_inst. intros s. unfold on_store. by destruct (m _). Qed.

Lemma confined_new_store C make : respects (confined C) (new_store make).
Proof.
  apply confined_same_inst. intros s. unfold new_store. run_monad. case_bool_decide; [done|].
  by destruct (make _) as [[kv|e] w].
Qed.

Lemma confined_modify C f : (forall s, (f s).(env_inst) = s.(env_inst)) -> respects (confined C) (modifyM f).
Proof. intros Hf. by apply confined_same_inst. Qed.

(** Writing bytes at an address of [C]. *)
Lemma confined_write C s p n b i :
  (p, n) ∈ C -> (zlen b <= n)%Z -> (0 <= p)%Z -> (p + zlen b <= zlen (app_memory i))%Z ->
  confined C s (set_inst i s) -> confined C s (set_inst (with_memory (overwrite (app_memory i) p b) i) s).
Proof.
  intros Hin Hn Hp Hl [L F]. cbn in L, F. unfold confined; cbn. rewrite app_with_memory by (by rewrite zlen_overwrite).
  rewrite zlen_overwrite by done. split; [done|]. intros r Hr. destruct (F r Hr) as [Hr' E].
  rewrite in_use_with_memory. split; [done|]. intros H0r Hd. rewrite <-E by done. rewrite list.Forall_forall in Hd. specialize (Hd _ Hin).
  destruct Hd as [Hd|Hd]; cbn in Hd; apply subseq_overwrite_disjoint; try done; lia.
Qed.

Definition cell (offset : Z) : region := (u32 offset, 4%Z).

Lemma confined_save_buffer C source p l : cell p ∈ C -> cell l ∈ C -> respects (confined C) (save_buffer source p l).
Proof.
  intros Hp Hl s. unfold save_buffer. run_monad. pose proof (u32_range p). pose proof (u32_range l).
  rewrite !validate_app_addr by lia. case_bool_decide as Hvp; cbn [negb]; [|by apply confined_same].
  case_bool_decide as Hvl; cbn [negb]; [|by apply confined_same].
  set (b := subseq source 0 _). pose proof (dup_data_grows s.(env_inst) b) as Hg. pose proof (dup_data_frame s.(env_inst) b) as Hf.
  destruct (wasm_runtime_module_dup_data s.(env_inst) b) as [off i']. cbn [snd] in *. cbv iota beta.
  assert (Hi : confined C s (set_inst i' s)) by (split; [done|]; intros r Hr; by destruct (Hf r Hr)).
  case_bool_decide; [done|]. cbn [set_inst env_inst]. case_bool_decide; [done|]. cbn [snd].
  match goal with |- confined _ _ (set_inst ?x _) => change (confined C s (set_inst x s)) end.
  unfold store32. eapply confined_write; rewrite ?zlen_le_split; [exact Hl|lia|lia| |].
  - rewrite app_with_memory; rewrite zlen_overwrite; rewrite ?zlen_le_split; lia.
  - eapply confined_write; rewrite ?zlen_le_split; [exact Hp|lia|lia|lia|done].
Qed.

End Confinement.

#[export] Hint Resolve confined_store confined_new_store confined_save_buffer confined_modify : respects.

Section Table.
Context `{OpenSSL, OpenSSLKeys, BlockStore, LibC, X509} {W : WAMR} {WL : WAMRLaws W}.

(** The places a call is told to write to: the cells for the pointers to its results and their lengths, and the
    buffer of [random_identifier]. *)
Definition out_cells (c : native_call) : list region :=
  match c with
  | b64_encode _ _ p l | b64_decode _ _ p l | aes_generate_key p l | aes_generate_iv _ _ p l
  | sha256_hash _ _ p l | sha384_hash _ _ p l | sha512_hash _ _ p l | parse_sgx_report _ _ p l
  | ecdsa_sign_message _ _ _ _ p l | rsa_encrypt_message _ _ _ _ p l | rsa_decrypt_message _ _ _ _ p l
  | sha256_hmac _ _ _ _ p l | sha384_hmac _ _ _ _ p l | sha512_hmac _ _ _ _ p l | sha512_pbkd _ _ _ _ p l
  | aes_encrypt_message _ _ _ _ _ _ p l | aes_decrypt_message _ _ _ _ _ _ p l
  | key_value_get _ _ _ p l | privileged_key_value_get _ _ p l | key_value_finalize _ p l => [cell p; cell l]
  | ecdsa_create_signing_keys p l p' l' | rsa_generate_keys p l p' l'
  | ecdsa_create_signing_keys_from_extended_key _ _ p l p' l' => [cell p; cell l; cell p'; cell l']
  | random_identifier n p => [(u32 p, n)]
  | strtod_call _ e => [(e, 4%Z)]
  | ecdsa_verify_signature _ _ _ _ _ _ | verify_sgx_report _ _ _ _ _ _ | key_value_set _ _ _ _ _ | key_value_create _ _
  | key_value_open _ _ _ _ | simple_hash _ _ | memchr _ _ _ => []
  end.

(** What a call writes besides: [strtod] stores a native pointer of eight bytes in its four-byte cell. *)
Definition spill (c : native_call) : list region :=
  match c with strtod_call _ e => [(e + 4, 4)%Z] | _ => [] end.

(** The length is an [int]. *)
Definition int_args (c : native_call) : Prop :=
  match c with random_identifier n _ => (n < 2 ^ 31)%Z | _ => True end.

Lemma confined_random_identifier n p : (n < 2 ^ 31)%Z -> respects (confined [(u32 p, n)]) (random_identifier_wrapper n p).
Proof.
  intros Hn. unfold random_identifier_wrapper. case_bool_decide as Hpos; [apply respects_ret; apply _|]. apply respects_or_return.
  apply respects_bind; [apply _|apply respects_rng; apply _|]. intros b s. unfold throw_ifM, throw_if, bindM at 1, liftM.
  case_bool_decide as Hb; [by apply confined_same|]. revert s.
  change (respects (confined [(u32 p, n)]) (unless_null (get_buffer p n) (fun buffer =>
    modifyM (fun s => set_inst (with_memory (overwrite (app_memory s.(env_inst)) buffer b) s.(env_inst)) s) ;;! retM true))).
  intros s. unfold unless_null, get_buffer. run_monad. pose proof (u32_range p).
  rewrite (u32_small n), validate_app_addr by lia. case_bool_decide; [|by apply confined_same].
  eapply confined_write; [by apply list_elem_of_singleton|lia|lia|lia|]. by apply confined_same.
Qed.

(** Writes to adjacent places, taken together. *)
Lemma confined_adjacent a m n s s' : confined [(a, (m + n)%Z)] s s' -> confined [(a, m); ((a + m)%Z, n)] s s'.
Proof.
  intros [Hl Hc]. split; [done|]. intros r Hr. destruct (Hc r Hr) as [Hu Hs]. split; [done|]. intros Hpos Hd.
  apply list.Forall_cons in Hd as [Hd1 Hd]. apply list.Forall_cons in Hd as [Hd2 _]. unfold disjoint_regions in Hd1, Hd2. cbn in Hd1, Hd2.
  destruct (decide (r.2 <= 0)%Z) as [Hz|Hz].
  - unfold subseq. by replace (Z.to_nat r.2) with 0 by lia.
  - apply Hs; [done|]. apply list.Forall_singleton. unfold disjoint_regions. cbn. lia.
Qed.

(** The four bytes after the pointer of [strtod] get the upper half of an address of the enclave. *)
Lemma strtod_overwrites a e s :
  let m := app_memory s.(env_inst) in
  let stop := (a + Z.of_nat (strtod (c_str (drop (Z.to_nat a) m))).1.2)%Z in
  (0 <= e)%Z -> (e + 8 <= zlen m)%Z ->
  subseq (app_memory (strtod_wrapper a e s).2.(env_inst)) (e + 4) 4 = subseq (le_split 8 (native_base s.(env_inst) + stop)) 4 4.
Proof.
  cbv zeta. intros He Hl. unfold strtod_wrapper. run_monad. guards. destruct (strtod _) as [[num k] range]. cbn [fst snd set_inst env_inst].
  unfold store32.
  assert (Hm : forall v, app_memory (with_memory (overwrite (app_memory (env_inst s)) e (le_split 8 v)) (env_inst s)) =
    overwrite (app_memory (env_inst s)) e (le_split 8 v)).
  { intros v. apply app_with_memory. rewrite zlen_overwrite; rewrite ?zlen_le_split; lia. }
  assert (Hz : forall v, zlen (overwrite (app_memory (env_inst s)) e (le_split 8 v)) = zlen (app_memory (env_inst s))).
  { intros v. rewrite zlen_overwrite; rewrite ?zlen_le_split; lia. }
  rewrite app_with_memory; rewrite !Hm; [|rewrite zlen_overwrite; rewrite ?Hz, ?zlen_le_split; lia].
  rewrite subseq_overwrite_disjoint; rewrite ?Hz, ?zlen_le_split; try lia.
  set (v := le_split 8 _). assert (Hv : zlen v = 8%Z) by apply zlen_le_split.
  pose proof (subseq_overwrite_same (app_memory (env_inst s)) e v He ltac:(lia)) as E. rewrite Hv in E.
  rewrite <-E at 2. by rewrite subseq_subseq by lia.
Qed.

Lemma confined_strtod a e : respects (confined [(e, 4%Z); ((e + 4)%Z, 4%Z)]) (strtod_wrapper a e).
Proof.
  intros s. apply (confined_adjacent e 4 4). change (4 + 4)%Z with 8%Z. unfold strtod_wrapper. run_monad. case_bool_decide as He; cbn [negb]; [|by apply confined_same].
  case_bool_decide as Hl; [by apply confined_same|]. destruct (strtod _) as [[num k] range]. cbn [snd].
  match goal with |- confined _ _ (set_inst ?x _) => change (confined [(e, 8%Z)] s (set_inst x s)) end. unfold store32.
  assert (He8 : (e, 8%Z) ∈ [(e, 8%Z)]) by by apply list_elem_of_singleton.
  eapply confined_write; rewrite ?zlen_le_split; [exact He8|lia|lia| |].
  - cbn [set_inst env_inst]. rewrite app_with_memory; rewrite zlen_overwrite; rewrite ?zlen_le_split; lia.
  - eapply confined_write; rewrite ?zlen_le_split; [exact He8|lia|lia|lia|by apply confined_same].
Qed.

Lemma confined_native c : int_args c -> respects (confined (out_cells c ++ spill c)) (run_native c).
Proof.
  intros Hty. destruct c; cbn [run_native out_cells spill app]; unfold as_i32.
  all: try (apply respects_bind; [apply _| |intros; apply respects_ret; apply _]).
  all: try by apply confined_random_identifier.
  all: try by apply confined_strtod.
  all: unfold_wrappers. all: walk.
Qed.

(** C14: whatever a contract passes to a function it imports, if the call does not run into undefined behaviour
    then memory in use that is not one of the places the call is told to write its results to keeps its
    bytes, and the memory does not shrink; the one exception is [strtod], which also overwrites the four
    bytes after the four-byte cell it is given, with the upper half of a native address.  (Undefined are the
    calls that read through an address that was not checked, and [strtod] with a cell less than eight bytes
    before the end of the memory.  The length given to [random_identifier] is an [int], below 2^31.) *)
Theorem native_confinement c s r s' :
  int_args c -> run_native c s = (r, s') -> (forall w, r <> Err (UndefinedBehaviour w)) ->
  ((forall a e, c <> strtod_call a e) -> confined (out_cells c) s s') /\
  (forall a e, c = strtod_call a e -> confined [(e, 4%Z); ((e + 4)%Z, 4%Z)] s s' /\
     ((0 <= e)%Z -> (e + 8 <= zlen (app_memory s.(env_inst)))%Z ->
      subseq (app_memory s'.(env_inst)) (e + 4) 4 =
      subseq (le_split 8 (native_base s.(env_inst) + a +
        Z.of_nat (strtod (c_str (drop (Z.to_nat a) (app_memory s.(env_inst))))).1.2)) 4 4)).
Proof.
  intros Hty Hrun Hr. pose proof (confined_native c Hty s) as Hc. rewrite Hrun in Hc. split.
  - intros Hne. destruct c; cbn [out_cells spill app] in *; rewrite ?app_nil_r in Hc; try done. by edestruct Hne.
  - intros a e ->. split; [exact Hc|]. intros Hpos Hl. pose proof (strtod_overwrites a e s Hpos Hl) as Hs.
    cbn [run_native] in Hrun. rewrite Hrun in Hs. cbn [snd] in Hs. rewrite Hs. by rewrite Z.add_assoc.
Qed.
End Table.

(** * Handles and results *)

Section Handles.
Context `{OpenSSL, OpenSSLKeys, BlockStore, LibC, X509} {W : WAMR}.
Implicit Types (s : wasm_env) (K : list nat).

(** The slots outside [K] hold what they held. *)
Definition slots_kept K s s' : Prop :=
  length s'.(kv_store_pool) = length s.(kv_store_pool) /\ forall k, k ∉ K -> s'.(kv_store_pool) !! k = s.(kv_store_pool) !! k.

#[export] Instance slots_kept_preorder K : PreOrder (slots_kept K).
Proof.
  split; [done|]. intros s1 s2 s3 [L1 F1] [L2 F2]. split; [lia|]. intros k Hk. rewrite F2 by done. by apply F1.
Qed.

#[export] Instance slots_kept_blind K : RngBlind (slots_kept K).
Proof. done. Qed.

Lemma slots_kept_insert K h v s w : Z.to_nat h ∈ K ->
  slots_kept K s (set_env_world w (set_pool (<[Z.to_nat h := v]> s.(kv_store_pool)) s)).
Proof.
  intros Hh. split; cbn; [by rewrite length_insert|]. intros k Hk. rewrite list_lookup_insert_ne; [done|]. by intros <-.
Qed.

Lemma slots_kept_store {A} K h kv (m : M State_KV A) : Z.to_nat h ∈ K -> respects (slots_kept K) (on_store h kv m).
Proof. intros Hh. intros s. unfold on_store. destruct (m _). by apply slots_kept_insert. Qed.

Lemma slots_kept_free K h : Z.to_nat h ∈ K ->
  respects (slots_kept K) (modifyM (fun s => set_pool (<[Z.to_nat h := None]> s.(kv_store_pool)) s)).
Proof.
  intros Hh. intros s. by apply (slots_kept_insert K h None s s.(env_world)).
Qed.

Lemma slots_kept_inst K (f : wasm_env -> module_inst) : respects (slots_kept K) (modifyM (fun s => set_inst (f s) s)).
Proof. done. Qed.

Lemma slots_kept_save_buffer K source p l : respects (slots_kept K) (save_buffer source p l).
Proof.
  intros s. unfold save_buffer. run_monad.
  repeat (case_match; try done); simplify_eq/=; by repeat (case_match; try done).
Qed.
End Handles.

#[export] Hint Resolve slots_kept_store slots_kept_free slots_kept_inst slots_kept_save_buffer : respects.

Section Results.
Context `{OpenSSL, OpenSSLKeys, BlockStore, LibC, X509} {W : WAMR}.
Implicit Types (s : wasm_env).

(** The handle of the store a call works on. *)
Definition call_handle (c : native_call) : list nat :=
  match c with
  | key_value_set h _ _ _ _ | key_value_get h _ _ _ _ | key_value_finalize h _ _ => [Z.to_nat h]
  | privileged_key_value_get _ _ _ _ => [0]
  | _ => []
  end.

Definition makes_store (c : native_call) : bool :=
  match c with key_value_create _ _ | key_value_open _ _ _ _ => true | _ => false end.

Lemma slots_kept_native c : makes_store c = false -> respects (slots_kept (call_handle c)) (run_native c).
Proof.
  intros Hm. destruct c; try done; cbn [run_native call_handle]; unfold as_i32.
  all: try (apply respects_bind; [apply _| |intros; apply respects_ret; apply _]).
  all: unfold_wrappers; unfold random_identifier_wrapper, strtod_wrapper. all: walk.
Qed.

(** Exceptions end at the functions. *)
Definition no_exception {A} (r : result A) : bool :=
  match r with Ok _ | Err (UndefinedBehaviour _) | Err OutOfFuel => true | Err _ => false end.

Lemma or_return_no_exception {A} (a : A) m s : no_exception (or_return a m s).1 = true.
Proof. unfold or_return, catchM. by destruct (m s) as [[b|[]] s']. Qed.

Lemma free_slot_spec (p : list (option State_KV)) n h : (0 <= h)%Z ->
  (h <= free_slot p h n <= h + Z.of_nat n)%Z /\
  ((free_slot p h n < h + Z.of_nat n)%Z -> p !! Z.to_nat (free_slot p h n) = Some None).
Proof.
  revert h. induction n as [|n IH]; intros h Hh; cbn [free_slot]; [lia|].
  specialize (IH (h + 1)%Z ltac:(lia)). case_match eqn:E; [case_match|]; split; intros; try lia; try done; apply IH; lia.
Qed.

(** A new store is in a slot after the first that was free, and no other slot changes. *)
Definition new_handle s s' (z : Z) : Prop :=
  (1 <= z < KV_STORE_POOL_MAX_SIZE)%Z /\ s.(kv_store_pool) !! Z.to_nat z = Some None /\
  exists kv, s'.(kv_store_pool) = <[Z.to_nat z := Some kv]> s.(kv_store_pool).

Lemma new_store_spec make s z s' : new_store make s = (Ok z, s') ->
  (z = -1)%Z /\ s'.(kv_store_pool) = s.(kv_store_pool) \/ new_handle s s' z.
Proof.
  unfold new_store. run_monad. pose proof (free_slot_spec s.(kv_store_pool) 7 1 ltac:(lia)) as [Hr Hf].
  set (h := free_slot _ _ _) in *. case_bool_decide as Hh; [intros [= <- <-]; by left|].
  destruct (make _) as [[kv|e] w]; [|done]. intros [= <- <-]. right. unfold new_handle, KV_STORE_POOL_MAX_SIZE in *.
  split_and!; [lia|lia|apply Hf; lia|]. by exists kv.
Qed.

Lemma new_store_error make s e s' : new_store make s = (Err e, s') -> s'.(kv_store_pool) = s.(kv_store_pool).
Proof.
  unfold new_store. run_monad. case_bool_decide; [done|]. destruct (make _) as [[kv|e'] w]; [done|]. by intros [= _ <-].
Qed.

(** What the caller of a function can rely on. *)
Definition result_type (c : native_call) s s' (z : Z) : Prop :=
  match c with
  | key_value_create _ _ | key_value_open _ _ _ _ =>
      (z = -1 \/ z = 0)%Z /\ s'.(kv_store_pool) = s.(kv_store_pool) \/ new_handle s s' z
  | simple_hash _ _ => (- 2 ^ 31 <= z < 2 ^ 31)%Z
  | memchr a _ n => z = 0%Z \/ exists k, (0 <= k < n)%Z /\ z = s32 (u32 a + k)
  | strtod_call _ _ => True
  | _ => (z = 0 \/ z = 1)%Z
  end.

Lemma or_return_ok {A} (a : A) m s z s' : or_return a m s = (Ok z, s') ->
  m s = (Ok z, s') \/ exists e, m s = (Err e, s') /\ z = a.
Proof.
  unfold or_return, catchM, retM. destruct (m s) as [[b|[]] s1]; intros E; simplify_eq; eauto.
Qed.

(** Both functions that make a store check a buffer, read it, and end in [new_store] or give the handle 0. *)
Lemma open_result c s z s' : makes_store c = true -> run_native c s = (Ok z, s') -> result_type c s s' z.
Proof.
  intros Hc Hrun. destruct c as [| | | | | | | | | | | | | | | | | | | | | | | | | |a b|a b c d| | | |]; try done;
    cbn [run_native result_type] in *.
  - unfold key_value_create_wrapper, byte_array in Hrun. apply or_return_ok in Hrun as [Hrun|(e & Hrun & ->)]; revert Hrun.
    + repeat case_match; run_monad; intros E; simplify_eq/=; try (left; split; [lia|done]).
      apply new_store_spec in E as [[-> E]|E]; [left; split; [lia|done]|by right].
    + repeat case_match; run_monad; intros E; simplify_eq/=; try (left; split; [lia|done]).
      apply new_store_error in E. left; split; [lia|done].
  - unfold key_value_open_wrapper, byte_array in Hrun. apply or_return_ok in Hrun as [Hrun|(e & Hrun & ->)]; revert Hrun.
    + repeat case_match; run_monad; intros E; simplify_eq/=; try (left; split; [lia|done]).
      apply new_store_spec in E as [[-> E]|E]; [left; split; [lia|done]|by right].
    + repeat case_match; run_monad; intros E; simplify_eq/=; try (left; split; [lia|done]).
      apply new_store_error in E. left; split; [lia|done].
Qed.

Lemma as_i32_result m s z s' : as_i32 m s = (Ok z, s') -> (z = 0 \/ z = 1)%Z.
Proof. unfold as_i32. run_monad. destruct (m s) as [[[]|e] s1]; intros E; simplify_eq; auto. Qed.

Lemma find_char_range ch b i k : find_char ch b i = Some k -> (i <= k < i + zlen b)%Z.
Proof.
  revert i. induction b as [|c b IH]; intros i; [done|]. cbn [find_char]. rewrite zlen_cons. pose proof (zlen_nonneg b).
  case_bool_decide; [intros [= ->]; lia|]. intros E%IH. lia.
Qed.

Lemma memchr_result a ch n s z s' : memchr_wrapper a ch n s = (Ok z, s') ->
  z = 0%Z \/ exists k, (0 <= k < n)%Z /\ z = s32 (u32 a + k).
Proof.
  unfold memchr_wrapper, get_buffer. intros [Hrun|(e & Hrun & ->)]%or_return_ok; [|by left]. revert Hrun. run_monad.
  case_bool_decide; [intros [= <- _]; by left|]. destruct (wasm_runtime_validate_app_addr _ _ _); [|intros [= <- _]; by left].
  destruct (find_char _ _ _) as [k|] eqn:E2; intros [= <- _]; [|by left]. right. apply find_char_range in E2.
  exists k. split; [|done]. unfold subseq, zlen in E2. rewrite length_take in E2. lia.
Qed.

Lemma simple_hash_range o : (- 2 ^ 31 <= simple_hash_wrapper o < 2 ^ 31)%Z.
Proof.
  destruct o as [b|]; cbn [simple_hash_wrapper]; [|lia].
  assert (Hr : (0 <= fold_left simple_hash_step b 0 < 2 ^ 32)%Z).
  { assert (Hg : forall r, (0 <= r < 2 ^ 32)%Z -> (0 <= fold_left simple_hash_step b r < 2 ^ 32)%Z); [|apply Hg; lia].
    induction b as [|c b IH]; [done|]. intros r _. cbn [fold_left]. apply IH, u32_range. }
  case_bool_decide; lia.
Qed.

Lemma native_no_exception c s : no_exception (run_native c s).1 = true.
Proof.
  assert (Hb : forall m : M wasm_env bool, no_exception (m s).1 = true -> no_exception (as_i32 m s).1 = true).
  { intros m. unfold as_i32, bindM. by destruct (m s) as [[]]. }
  destruct c; cbn [run_native]; try apply Hb; try apply or_return_no_exception.
  - unfold random_identifier_wrapper. case_bool_decide; [done|]. apply or_return_no_exception.
  - done.
  - unfold strtod_wrapper. run_monad. by repeat case_match; simplify_eq.
Qed.

(** C23: the functions a contract imports let no exception out; a truth value is 0 or 1, the result of [memchr]
    is 0 or an address inside the buffer (as an [int32]), and a handle that is given out names a slot that was free and now holds a
    store, if it is not 0 or -1; apart from such a new slot only the slot of the handle a call names changes.
    Calls that run into undefined behaviour (reads through addresses that were not checked, [strtod] at the end
    of the memory) are excluded. *)
Theorem native_results c s r s' :
  run_native c s = (r, s') -> (forall w, r <> Err (UndefinedBehaviour w)) ->
  match r with Ok z => result_type c s s' z | Err e => e = OutOfFuel end /\
  (makes_store c = false -> slots_kept (call_handle c) s s').
Proof.
  intros Hrun Hr. split.
  - pose proof (native_no_exception c s) as Hn. rewrite Hrun in Hn. destruct r as [z|[]]; try done; [|by edestruct Hr].
    destruct c; try (by apply open_result); cbn [run_native result_type] in *; try (by eapply as_i32_result); try done.
    + revert Hrun. run_monad. intros [= <- _]. apply simple_hash_range.
    + by eapply memchr_result.
  - intros Hm. pose proof (slots_kept_native c Hm s) as Hk. by rewrite Hrun in Hk.
Qed.
End Results.

(** * Calls that do not do what they are for *)

Section Defects.
Context `{OpenSSL, OpenSSLKeys, BlockStore, LibC, X509} {W : WAMR} {WL : WAMRLaws W}.
Implicit Types (s : wasm_env).

(** A key of the wrong length gives the handle of the state of the contract. *)
Lemma wrong_key_is_the_state a n s : n <> SYM_KEY_LEN -> run_native (key_value_create a n) s = (Ok 0%Z, s).
Proof.
  intros Hn. cbn [run_native]. unfold key_value_create_wrapper, or_return, catchM. destruct a as [p|]; [|done]. by rewrite bool_decide_eq_true_2.
Qed.
End Defects.
