(* ===== verification/ContractLib.v ===== *)
(** The library that contracts are built with, as it runs in the interpreter: contracts/wawaka/common/Util.cpp,
    Cryptography.cpp, KeyValue.{h,cpp} and Attestation.cpp.  The code is WebAssembly, so its pointers are 32-bit
    offsets in the linear memory, and it calls the functions of [Wasm] through the runtime.  The allocator of the
    contract's C library is a parameter. *)
From S2P Require Import Prelude Crypto BlockStore Codec DataNode FreeSpace Json JsonSpec StateNode Cache DataNodeIO Trie StateKV.
From S2P Require Import Keys Attestation EnclaveData Enclave Wasm.

(** What the runtime does with a pointer argument whose signature is [*~] (it traps, [None], when the bytes are
    not in the memory), and the allocator: 0 when there is no memory. *)
Class Guest `{WAMR} := {
  convert_pointer : module_inst -> Z -> Z -> option (option Z);
  guest_malloc : module_inst -> Z -> Z * module_inst;
  guest_free : module_inst -> Z -> module_inst;
}.

(** [std::vector<uint8_t>] and [std::string]: where the bytes are and how many there are. *)
Record gvec := mk_gvec { v_data : Z; v_size : Z }.

Section Library.
Context `{OpenSSL, OpenSSLKeys, BlockStore, LibC, X509, G : Guest}.

Definition memory (s : wasm_env) : bytes := app_memory s.(env_inst).

Definition load32 (p : Z) : M wasm_env Z := readM (fun s => le_combine (subseq (memory s) p 4)).
Definition put32 (p v : Z) : M wasm_env unit := modifyM (fun s => set_inst (store32 p v s.(env_inst)) s).

(** ** Util.cpp *)

(** [operator new] is [malloc] and does not throw; a vector without elements has no storage. *)
Definition new_storage (n : Z) : M wasm_env Z := fun s =>
  if bool_decide (n = 0)%Z then (Ok 0%Z, s)
  else let '(p, i) := guest_malloc s.(env_inst) n in (Ok p, set_inst i s).

(** A vector of [n] elements, which are [b]. *)
Definition store_vector (n : Z) (b : bytes) : M wasm_env gvec :=
  let! q := new_storage n in
  if bool_decide (n = 0)%Z then retM (mk_gvec 0 0)
  else
    throw_ifM (bool_decide (q = 0)%Z) (UndefinedBehaviour "vector without storage") ;;!
    modifyM (fun s => set_inst (with_memory (overwrite (memory s) q b) s.(env_inst)) s) ;;!
    retM (mk_gvec q n).

(** [result.assign(pointer, pointer + size)] for a vector without storage. *)
Definition assign (p n : Z) : M wasm_env gvec :=
  let! b := readM (fun s => subseq (memory s) p n) in store_vector n b.

Definition copy_internal_pointer (pointer size : Z) : M wasm_env (option gvec) :=
  let! result := assign pointer size in retM (Some result).

(** A call of an imported function that returns a [bool]. *)
Definition import (c : native_call) : M wasm_env bool := let! z := run_native c in retM (negb (bool_decide (z = 0)%Z)).

(** The runtime converts a pointer before the function runs. *)
Definition pointer_arg (v : gvec) : M wasm_env (option Z) :=
  let! i := readM env_inst in
  match convert_pointer i v.(v_data) v.(v_size) with
  | Some p => retM p
  | None => throwM (RuntimeError "out of bounds memory access")
  end.

(** [if (data_pointer == NULL) return false; return copy_internal_pointer(result, data_pointer, data_size);], with the
    two local variables at [fp]. *)
Definition take_result (fp : Z) : M wasm_env (option gvec) :=
  let! data_pointer := load32 fp in
  if bool_decide (data_pointer = 0)%Z then retM None
  else let! data_size := load32 (fp + 4) in copy_internal_pointer data_pointer data_size.

(** [uint8_t* data_pointer = NULL; size_t data_size = 0;] at [fp], a call that is given their addresses, and the
    result. *)
Definition call_for_bytes (fp : Z) (c : Z -> Z -> native_call) : M wasm_env (option gvec) :=
  put32 fp 0 ;;!
  put32 (fp + 4) 0 ;;!
  let! ok := import (c fp (fp + 4)%Z) in
  if negb ok then retM None else take_result fp.

(** ** Cryptography.cpp *)

Definition ww_random_identifier (identifier : gvec) : M wasm_env bool :=
  let! identifier := if bool_decide (identifier.(v_size) = 0)%Z
    then store_vector 32 (replicate 32 Byte.x00)
    else retM identifier in
  import (random_identifier identifier.(v_size) identifier.(v_data)).

Definition ww_b64_encode (fp : Z) (message : gvec) : M wasm_env (option gvec) :=
  call_for_bytes fp (b64_encode message.(v_data) message.(v_size)).
Definition ww_b64_decode (fp : Z) (encoded_message : gvec) : M wasm_env (option gvec) :=
  call_for_bytes fp (b64_decode encoded_message.(v_data) encoded_message.(v_size)).

Definition ww_sha256_hash (fp : Z) (buffer : gvec) : M wasm_env (option gvec) :=
  call_for_bytes fp (sha256_hash buffer.(v_data) buffer.(v_size)).
Definition ww_sha384_hash (fp : Z) (buffer : gvec) : M wasm_env (option gvec) :=
  call_for_bytes fp (sha384_hash buffer.(v_data) buffer.(v_size)).
Definition ww_sha512_hash (fp : Z) (buffer : gvec) : M wasm_env (option gvec) :=
  call_for_bytes fp (sha512_hash buffer.(v_data) buffer.(v_size)).
Definition ww_crypto_hash (fp : Z) (buffer : gvec) : M wasm_env (option gvec) := ww_sha256_hash fp buffer.

Definition ww_sha256_hmac (fp : Z) (buffer key : gvec) : M wasm_env (option gvec) :=
  call_for_bytes fp (sha256_hmac buffer.(v_data) buffer.(v_size) key.(v_data) key.(v_size)).
Definition ww_sha384_hmac (fp : Z) (buffer key : gvec) : M wasm_env (option gvec) :=
  call_for_bytes fp (sha384_hmac buffer.(v_data) buffer.(v_size) key.(v_data) key.(v_size)).
Definition ww_sha512_hmac (fp : Z) (buffer key : gvec) : M wasm_env (option gvec) :=
  call_for_bytes fp (sha512_hmac buffer.(v_data) buffer.(v_size) key.(v_data) key.(v_size)).
Definition ww_crypto_hmac (fp : Z) (buffer key : gvec) : M wasm_env (option gvec) := ww_sha256_hmac fp buffer key.

Definition ww_crypto_pbkd (fp : Z) (password salt : gvec) : M wasm_env (option gvec) :=
  call_for_bytes fp (sha512_pbkd password.(v_data) password.(v_size) salt.(v_data) salt.(v_size)).

Definition ww_aes_generate_key (fp : Z) : M wasm_env (option gvec) := call_for_bytes fp aes_generate_key.

(** [ByteArray identifier(32)]: zeros, then random bytes. *)
Definition ww_aes_generate_iv (fp : Z) : M wasm_env (option gvec) :=
  put32 fp 0 ;;!
  put32 (fp + 4) 0 ;;!
  let! identifier := store_vector 32 (replicate 32 Byte.x00) in
  let! ok := ww_random_identifier identifier in
  if negb ok then retM None
  else
    let! ok := import (aes_generate_iv identifier.(v_data) identifier.(v_size) fp (fp + 4)) in
    if negb ok then retM None else take_result fp.

Definition ww_aes_encrypt_message (fp : Z) (message key iv : gvec) : M wasm_env (option gvec) :=
  call_for_bytes fp (aes_encrypt_message message.(v_data) message.(v_size) key.(v_data) key.(v_size) iv.(v_data) iv.(v_size)).
Definition ww_aes_decrypt_message (fp : Z) (cipher key iv : gvec) : M wasm_env (option gvec) :=
  call_for_bytes fp (aes_decrypt_message cipher.(v_data) cipher.(v_size) key.(v_data) key.(v_size) iv.(v_data) iv.(v_size)).

(** [private_key.assign(priv_data_pointer, priv_data_size - 1)], the last character taken for a NUL. *)
Definition take_key (fp : Z) : M wasm_env (option gvec) :=
  let! data_pointer := load32 fp in
  if bool_decide (data_pointer = 0)%Z then retM None
  else
    let! data_size := load32 (fp + 4) in
    throw_ifM (bool_decide (data_size = 0)%Z) (UndefinedBehaviour "string of size (size_t)-1") ;;!
    let! s := assign data_pointer (data_size - 1) in
    retM (Some s).

(** The private key and then the public key; their variables are at [fp] and at [fp + 8]. *)
Definition call_for_keys (fp : Z) (c : Z -> Z -> Z -> Z -> native_call) : M wasm_env (option (gvec * gvec)) :=
  put32 fp 0 ;;! put32 (fp + 4) 0 ;;! put32 (fp + 8) 0 ;;! put32 (fp + 12) 0 ;;!
  let! ok := import (c fp (fp + 4) (fp + 8) (fp + 12))%Z in
  if negb ok then retM None
  else
    let! private_key := take_key fp in
    match private_key with
    | None => retM None
    | Some private_key =>
        let! public_key := take_key (fp + 8) in
        match public_key with
        | None => retM None
        | Some public_key => retM (Some (private_key, public_key))
        end
    end.

Definition ww_ecdsa_generate_keys (fp : Z) : M wasm_env (option (gvec * gvec)) := call_for_keys fp ecdsa_create_signing_keys.
Definition ww_ecdsa_generate_keys_from (fp : Z) (key : gvec) : M wasm_env (option (gvec * gvec)) :=
  call_for_keys fp (ecdsa_create_signing_keys_from_extended_key key.(v_data) key.(v_size)).
Definition ww_rsa_generate_keys (fp : Z) : M wasm_env (option (gvec * gvec)) := call_for_keys fp rsa_generate_keys.

Definition ww_ecdsa_sign_message (fp : Z) (message private_key : gvec) : M wasm_env (option gvec) :=
  call_for_bytes fp (ecdsa_sign_message message.(v_data) message.(v_size) private_key.(v_data) private_key.(v_size)).
Definition ww_ecdsa_verify_signature (message public_key signature : gvec) : M wasm_env bool :=
  import (ecdsa_verify_signature message.(v_data) message.(v_size) public_key.(v_data) public_key.(v_size)
    signature.(v_data) signature.(v_size)).

Definition ww_rsa_encrypt_message (fp : Z) (message public_key : gvec) : M wasm_env (option gvec) :=
  call_for_bytes fp (rsa_encrypt_message message.(v_data) message.(v_size) public_key.(v_data) public_key.(v_size)).
Definition ww_rsa_decrypt_message (fp : Z) (cipher private_key : gvec) : M wasm_env (option gvec) :=
  call_for_bytes fp (rsa_decrypt_message cipher.(v_data) cipher.(v_size) private_key.(v_data) private_key.(v_size)).

(** ** Attestation.cpp *)

Definition ww_verify_sgx_report (certificate report signature : gvec) : M wasm_env bool :=
  import (verify_sgx_report certificate.(v_data) certificate.(v_size) report.(v_data) report.(v_size)
    signature.(v_data) signature.(v_size)).

(** The text of the answer is read as a C string: to the first NUL from its first byte on. *)
Definition ww_parse_sgx_report (fp : Z) (report : gvec) : M wasm_env (option json) :=
  put32 fp 0 ;;!
  put32 (fp + 4) 0 ;;!
  let! status := import (parse_sgx_report report.(v_data) report.(v_size) fp (fp + 4)) in
  if negb status then retM None
  else
    let! data_pointer := load32 fp in
    let! rest := readM (fun s => drop (Z.to_nat data_pointer) (memory s)) in
    throw_ifM (negb (bool_decide (Byte.x00 ∈ rest))) (UndefinedBehaviour "string without a terminating NUL") ;;!
    retM (v ← json_parse (c_str rest); if json_is_object v then Some v else None).

(** ** KeyValue.cpp *)

(** A store of the contract: the handle of the interpreter and the prefix of its keys. *)
Record KeyValueStore := mk_kvs { handle_ : Z; prefix_ : bytes }.

Definition make_key (kv : KeyValueStore) (key : bytes) : bytes :=
  if bool_decide (0 < zlen kv.(prefix_))%Z then kv.(prefix_) ++ ["#"%byte] ++ key else key.

Definition kvs_create (key : gvec) : M wasm_env Z :=
  let! p := pointer_arg key in run_native (key_value_create p key.(v_size)).

Definition kvs_open (block_hash key : gvec) : M wasm_env Z :=
  let! p := pointer_arg block_hash in
  let! q := pointer_arg key in
  run_native (key_value_open p block_hash.(v_size) q key.(v_size)).

(** The two local variables of [finalize] and of the [get] methods have no initial value. *)
Definition kvs_finalize (fp kv_store_handle : Z) : M wasm_env (option gvec) :=
  let! ok := import (key_value_finalize kv_store_handle fp (fp + 4)) in
  if negb ok then retM None else take_result fp.

(** The key is a vector of the contract, whose elements are copied into the prefixed key. *)
Definition prefixed (kv : KeyValueStore) (key : gvec) : M wasm_env gvec :=
  let! k := readM (fun s => subseq (memory s) key.(v_data) key.(v_size)) in
  store_vector (zlen (make_key kv k)) (make_key kv k).

Definition kvs_get (fp : Z) (kv : KeyValueStore) (key : gvec) : M wasm_env (option gvec) :=
  let! k := prefixed kv key in
  let! p := pointer_arg k in
  let! ok := import (key_value_get kv.(handle_) p k.(v_size) fp (fp + 4)) in
  if negb ok then retM None else take_result fp.

Definition kvs_set (kv : KeyValueStore) (key val : gvec) : M wasm_env bool :=
  let! k := prefixed kv key in
  let! p := pointer_arg k in
  let! q := pointer_arg val in
  import (key_value_set kv.(handle_) p k.(v_size) q val.(v_size)).

Definition kvs_privileged_get (fp : Z) (key : gvec) : M wasm_env (option gvec) :=
  let! p := pointer_arg key in
  let! ok := import (privileged_key_value_get p key.(v_size) fp (fp + 4)) in
  if negb ok then retM None else take_result fp.

(** The integer is read from the buffer that the interpreter allocated. *)
Definition kvs_get_uint32 (fp : Z) (kv : KeyValueStore) (key : gvec) : M wasm_env (option Z) :=
  let! k := prefixed kv key in
  let! p := pointer_arg k in
  let! ok := import (key_value_get kv.(handle_) p k.(v_size) fp (fp + 4)) in
  if negb ok then retM None
  else
    let! datap := load32 fp in
    if bool_decide (datap = 0)%Z then retM None
    else
      let! size := load32 (fp + 4) in
      let free := modifyM (fun s => set_inst (guest_free s.(env_inst) datap) s) in
      if bool_decide (size <> 4)%Z then free ;;! retM None
      else let! v := load32 datap in free ;;! retM (Some v).

(** The value is an argument of the function, here at [vp]. *)
Definition kvs_set_uint32 (kv : KeyValueStore) (key : gvec) (vp val : Z) : M wasm_env bool :=
  let! k := prefixed kv key in
  put32 vp val ;;!
  let! p := pointer_arg k in
  let! q := pointer_arg (mk_gvec vp 4) in
  import (key_value_set kv.(handle_) p k.(v_size) q 4).

Definition kvs_privileged_get_uint32 (fp : Z) (key : gvec) : M wasm_env (option Z) :=
  let! v := kvs_privileged_get fp key in
  match v with
  | None => retM None
  | Some v => if bool_decide (v.(v_size) <> 4)%Z then retM None
              else let! z := load32 v.(v_data) in retM (Some z)
  end.
End Library.
