(* ===== verification/ContractSpec.v ===== *)
(** The contract library over the interpreter: a contract that calls it gets what the enclave's own functions
    compute, in memory of its own. *)
From S2P Require Import Prelude Crypto BlockStore Codec DataNode FreeSpace Json JsonSpec StateNode Cache DataNodeIO Trie StateKV.
From S2P Require Import Keys Attestation EnclaveData Enclave Wasm WasmSpec ContractLib.

(** * The allocator *)

(** Memory the contract allocates is not in use, and leaves what is in use alone.  [room] is a number of bytes
    that can be allocated, by the contract or by the runtime, without the memory being enlarged; an
    allocation takes [overhead] bytes of it besides its own. *)
Class GuestLaws {W : WAMR} (G : @Guest W) := {
  room : module_inst -> Z;
  overhead : Z;
  overhead_nonneg : (0 <= overhead)%Z;
  room_with_memory (i : module_inst) m : room (with_memory m i) = room i;
  convert_pointer_ok (i : module_inst) off len : (0 < off)%Z -> (0 <= len)%Z -> (off + len <= zlen (app_memory i))%Z ->
    convert_pointer i off len = Some (Some off);
  dup_data_room (i : module_inst) b : (zlen b + overhead <= room i)%Z ->
    (wasm_runtime_module_dup_data i b).1 <> 0%Z /\
    native_base (wasm_runtime_module_dup_data i b).2 = native_base i /\
    (room i - (zlen b + overhead) <= room (wasm_runtime_module_dup_data i b).2)%Z;
  malloc_room (i : module_inst) n : (0 < n)%Z -> (n + overhead <= room i)%Z ->
    (guest_malloc i n).1 <> 0%Z /\ (room i - (n + overhead) <= room (guest_malloc i n).2)%Z;
  malloc_grows (i : module_inst) n : (zlen (app_memory i) <= zlen (app_memory (guest_malloc i n).2))%Z;
  malloc_frame (i : module_inst) n r : r ∈ in_use i ->
    r ∈ in_use (guest_malloc i n).2 /\ subseq (app_memory (guest_malloc i n).2) r.1 r.2 = subseq (app_memory i) r.1 r.2;
  malloc_fresh (i : module_inst) n p i' : (0 < n)%Z -> guest_malloc i n = (p, i') -> p <> 0%Z ->
    (0 < p)%Z /\ (p + n <= zlen (app_memory i'))%Z /\ (p, n) ∈ in_use i' /\
    (forall r, r ∈ in_use i -> disjoint_regions r (p, n));
}.

(** * What is in the memory *)

Section Memory.
Context `{OpenSSL, OpenSSLKeys, BlockStore, LibC, X509} {W : WAMR} {WL : WAMRLaws W} {G : @Guest W} {GL : GuestLaws G}.
Implicit Types (s : wasm_env) (b : bytes).

(** The region is in use and has these bytes. *)
Definition holds s (r : region) b : Prop :=
  r ∈ in_use s.(env_inst) /\ (0 < r.1)%Z /\ r.2 = zlen b /\ (r.1 + r.2 <= zlen (memory s))%Z /\ subseq (memory s) r.1 r.2 = b.

(** A vector with these elements, at least one, whose size fits an [int]. *)
Definition vec s v b : Prop := holds s (v.(v_data), v.(v_size)) b /\ (0 < v.(v_size) < 2 ^ 31)%Z.

(** A function's stack frame of [n] bytes. *)
Definition frame s (fp n : Z) : Prop := exists b, zlen b = n /\ holds s (fp, n) b.

(** [m] ends with a result, and [Q] holds then. *)
Definition runs {A} (m : M wasm_env A) s (Q : A -> wasm_env -> Prop) : Prop :=
  match m s with (Ok a, s') => Q a s' | _ => False end.

Lemma runs_ret {A} (a : A) s (Q : A -> wasm_env -> Prop) : Q a s -> runs (retM a) s Q.
Proof. done. Qed.

Lemma runs_bind {A B'} (m : M wasm_env A) (f : A -> M wasm_env B') s Q :
  runs m s (fun a s' => runs (f a) s' Q) -> runs (bindM m f) s Q.
Proof. unfold runs, bindM. by destruct (m s) as [[a|e] s']. Qed.

Lemma runs_conseq {A} (m : M wasm_env A) s (Q Q' : A -> wasm_env -> Prop) :
  runs m s Q -> (forall a s', Q a s' -> Q' a s') -> runs m s Q'.
Proof. unfold runs. destruct (m s) as [[a|e] s']; eauto. Qed.

Lemma runs_or_return {A} (a : A) m s Q : runs m s Q -> runs (or_return a m) s Q.
Proof. unfold runs, or_return, catchM. by destruct (m s) as [[x|e] s']. Qed.

Lemma holds_disjoint s r1 r2 b1 b2 : holds s r1 b1 -> holds s r2 b2 -> r1 = r2 \/ disjoint_regions r1 r2.
Proof. intros [Ha _] [Hb _]. by eapply in_use_disjoint. Qed.

(** What is held outside the places a step may write is still held. *)
Lemma holds_confined C s s' r b : confined C s s' -> Forall (disjoint_regions r) C -> holds s r b -> holds s' r b.
Proof.
  intros [L F] Hd (Hin & Hp & Hl & Hr & E). destruct (F r Hin) as [Hin' E'].
  unfold holds, memory in *. split_and!; [done..|lia|]. rewrite E'; [done|lia|done].
Qed.

Lemma confined_sub C C' s s' :
  (forall r, (0 <= r.1)%Z -> Forall (disjoint_regions r) C' -> Forall (disjoint_regions r) C) -> confined C s s' -> confined C' s s'.
Proof. intros Hs [L F]. split; [done|]. intros r Hr. destruct (F r Hr) as [Hr' E]. split; [done|]. intros. apply E; auto. Qed.

(** A step of the contract that writes in [C], takes [n] bytes of the room, and does not touch the stores. *)
Definition step C (n : Z) s s' : Prop :=
  confined C s s' /\ (room s.(env_inst) - n <= room s'.(env_inst))%Z /\
  s'.(kv_store_pool) = s.(kv_store_pool) /\ s'.(env_world) = s.(env_world).

Lemma step_refl C s : step C 0 s s.
Proof. split_and!; [done|lia|done|done]. Qed.

Lemma step_trans C n1 n2 s1 s2 s3 : step C n1 s1 s2 -> step C n2 s2 s3 -> step C (n1 + n2) s1 s3.
Proof.
  intros (Ca & Ra & Pa & Wa) (Cb & Rb & Pb & Wb). split_and!; [by etransitivity|lia|congruence|congruence].
Qed.

Lemma step_sub C C' n s s' :
  (forall r, (0 <= r.1)%Z -> Forall (disjoint_regions r) C' -> Forall (disjoint_regions r) C) -> step C n s s' -> step C' n s s'.
Proof. intros Hs (Hc & Hrest). split; [by eapply confined_sub|done]. Qed.

Lemma step_nil C n s s' : step [] n s s' -> step C n s s'.
Proof. apply step_sub. by intros. Qed.

Lemma vec_step C n s s' v b : step C n s s' -> Forall (disjoint_regions (v.(v_data), v.(v_size))) C -> vec s v b -> vec s' v b.
Proof. intros [Hc _] Hd [Hh Hs]. split; [by eapply holds_confined|done]. Qed.

Lemma frame_confined C s s' fp k : confined C s s' -> frame s fp k -> frame s' fp k.
Proof.
  intros (L & F) (b & Hb & Hin & Hp & Hz & Hr & _). cbn [fst snd] in *. destruct (F _ Hin) as [Hin' _].
  exists (subseq (memory s') fp k). unfold holds, memory in *. cbn [fst snd]. pose proof (zlen_nonneg b).
  rewrite zlen_subseq by lia. split_and!; try done; lia.
Qed.

Lemma frame_step C n s s' fp k : step C n s s' -> frame s fp k -> frame s' fp k.
Proof. intros [Hc _]. by eapply frame_confined. Qed.

(** ** Writing *)

Lemma put32_ok s p (v : Z) fp k :
  (fp, k) ∈ in_use s.(env_inst) -> (0 <= fp <= p)%Z -> (p + 4 <= fp + k)%Z -> (p + 4 <= zlen (memory s))%Z ->
  runs (put32 p v) s (fun _ s' => step [(fp, k)] 0 s s' /\ s'.(env_inst) = store32 p v s.(env_inst)).
Proof.
  intros Hin Hfp Hk Hl. unfold runs, put32. run_monad. split; [|done]. split_and!; try done; [|unfold store32; cbn; rewrite room_with_memory; lia].
  apply (confined_sub [(p, 4%Z)]).
  - intros r Hp [Hd _]%list.Forall_cons. apply list.Forall_singleton. unfold disjoint_regions in *. cbn in *. lia.
  - eapply (confined_write _ _ p 4); rewrite ?zlen_le_split; [by apply list_elem_of_singleton|lia|lia|unfold memory in *; lia|].
    by apply confined_same.
Qed.


Lemma store32_memory i p v : (0 <= p)%Z -> (p + 4 <= zlen (app_memory i))%Z ->
  app_memory (store32 p v i) = overwrite (app_memory i) p (le_split 4 v) /\ zlen (app_memory (store32 p v i)) = zlen (app_memory i).
Proof.
  intros Hp Hl. unfold store32. rewrite app_with_memory by (rewrite zlen_overwrite; rewrite ?zlen_le_split; lia).
  split; [done|]. rewrite zlen_overwrite; rewrite ?zlen_le_split; lia.
Qed.

Lemma read_back32 (m : bytes) p v : (0 <= v < 2 ^ 32)%Z -> (0 <= p)%Z -> (p + 4 <= zlen m)%Z ->
  le_combine (subseq (overwrite m p (le_split 4 v)) p 4) = v.
Proof.
  intros Hv Hp Hl. pose proof (subseq_overwrite_same m p (le_split 4 v) Hp) as E. rewrite zlen_le_split in E.
  change (Z.of_nat 4) with 4%Z in E. rewrite E by done. apply le_combine_split_small. done.
Qed.

(** Two cells in a frame [(fp, k)]. *)
Definition cells_in (fp k p l : Z) : Prop :=
  (fp <= p /\ p + 8 <= fp + k /\ fp <= l /\ l + 4 <= fp + k /\ (p + 4 <= l \/ l + 4 <= p))%Z.

(** What a call leaves at its two cells, and the bytes they describe. *)
Definition result_at s (p l : Z) b : Prop :=
  exists off, holds s (off, zlen b) b /\ le_combine (subseq (memory s) p 4) = off /\ le_combine (subseq (memory s) l 4) = zlen b.

Lemma save_buffer_ok s b p l fp k :
  frame s fp k -> cells_in fp k p l -> (0 < zlen b < 2 ^ 31)%Z -> (zlen b + overhead <= room s.(env_inst))%Z ->
  runs (save_buffer b p l) s (fun r s' => r = true /\ step [(fp, k)] (zlen b + overhead) s s' /\ result_at s' p l b).
Proof.
  intros (fb & Hfb & Hin & Hfp & _ & Hfl & _) (Hp1 & Hp2 & Hl1 & Hl2 & Hpl) Hb Hroom. cbn [fst snd] in *.
  pose proof (memory_limit s.(env_inst)) as Hlim. unfold memory in Hfl.
  pose proof (confined_save_buffer [(p, 4%Z); (l, 4%Z)] b p l) as Hc. unfold cell in Hc.
  rewrite !u32_small in Hc by lia. specialize (Hc ltac:(auto with respects) ltac:(auto with respects) s).
  unfold runs, save_buffer in *. rewrite !u32_small in * by lia. rewrite subseq_all in * by done. revert Hc. run_monad.
  rewrite !validate_app_addr by lia. guards.
  pose proof (dup_data_room s.(env_inst) b Hroom) as (Hne & Hbase & Hr).
  pose proof (dup_data_grows s.(env_inst) b) as Hg. pose proof (dup_data_fresh s.(env_inst) b) as Hf.
  pose proof (dup_data_frame s.(env_inst) b _ Hin) as [Hin' _].
  destruct (wasm_runtime_module_dup_data s.(env_inst) b) as [off i']. cbn [fst snd] in *. cbv iota beta.
  specialize (Hf off i' eq_refl Hne) as (Hop & Hol & Hos & Hoin & Hod). cbn [set_inst env_inst]. guards. intros Hc. split; [done|].
  destruct (store32_memory i' p off ltac:(lia) ltac:(lia)) as [E1 L1].
  destruct (store32_memory (store32 p off i') l (zlen b) ltac:(lia) ltac:(lia)) as [E2 L2].
  pose proof (memory_limit i'). pose proof (Hod _ Hin) as Hd. unfold disjoint_regions in Hd. cbn [fst snd] in Hd.
  split; [split_and!; try done|].
  - apply (confined_sub [(p, 4%Z); (l, 4%Z)]); [|done]. intros r Hrp [Hdr _]%list.Forall_cons. unfold disjoint_regions in Hdr. cbn in Hdr.
    repeat (apply list.Forall_cons; split; [unfold disjoint_regions; cbn; lia|]). done.
  - cbn [set_inst env_inst]. unfold store32. rewrite !room_with_memory. lia.
  - exists off. unfold holds, memory. cbn [set_inst env_inst fst snd]. rewrite E2, E1.
    assert (Hlen : zlen (overwrite (app_memory i') p (le_split 4 off)) = zlen (app_memory i')) by (rewrite <-E1; done).
    split_and!.
    + unfold store32. by rewrite !in_use_with_memory.
    + done.
    + done.
    + rewrite <-E1, <-E2. lia.
    + rewrite !subseq_overwrite_disjoint; rewrite ?zlen_le_split, ?Hlen; try lia. done.
    + rewrite subseq_overwrite_disjoint; rewrite ?zlen_le_split, ?Hlen; try lia. apply read_back32; lia.
    + apply read_back32; lia.
Qed.

Lemma store_vector_fresh s b :
  (0 < zlen b < 2 ^ 31)%Z -> (zlen b + overhead <= room s.(env_inst))%Z ->
  runs (store_vector (zlen b) b) s (fun v s' => vec s' v b /\ step [] (zlen b + overhead) s s' /\
    forall r, r ∈ in_use s.(env_inst) -> disjoint_regions r (v.(v_data), v.(v_size))).
Proof.
  intros Hb Hroom. unfold runs, store_vector, new_storage. run_monad. guards.
  pose proof (malloc_room s.(env_inst) (zlen b) ltac:(lia) Hroom) as (Hne & Hr).
  pose proof (malloc_grows s.(env_inst) (zlen b)) as Hg. pose proof (malloc_fresh s.(env_inst) (zlen b)) as Hf.
  pose proof (malloc_frame s.(env_inst) (zlen b)) as Hfr.
  destruct (guest_malloc s.(env_inst) (zlen b)) as [q i']. cbn [fst snd] in *. cbv iota beta. guards.
  specialize (Hf q i' ltac:(lia) eq_refl Hne) as (Hq & Hql & Hqin & Hqd).
  change (memory (set_inst i' s)) with (app_memory i').
  assert (Hm : app_memory (with_memory (overwrite (app_memory i') q b) i') = overwrite (app_memory i') q b).
  { apply app_with_memory. rewrite zlen_overwrite; lia. }
  unfold vec, holds, step, confined, memory. cbn [set_inst env_inst fst snd v_data v_size]. split_and!.
  - by rewrite in_use_with_memory.
  - done.
  - done.
  - rewrite Hm, zlen_overwrite; lia.
  - rewrite Hm. apply subseq_overwrite_same; lia.
  - lia.
  - lia.
  - rewrite Hm, zlen_overwrite; lia.
  - intros r Hrin. destruct (Hfr r Hrin) as [Hr' E].
    rewrite in_use_with_memory. split; [done|]. intros Hrp _. rewrite Hm, <-E.
    destruct (Hqd r Hrin) as [Hd|Hd]; cbn in Hd; apply subseq_overwrite_disjoint; lia.
  - cbn [set_inst env_inst]. rewrite room_with_memory. lia.
  - done.
  - done.
  - done.
Qed.

Lemma store_vector_ok s b :
  (0 < zlen b < 2 ^ 31)%Z -> (zlen b + overhead <= room s.(env_inst))%Z ->
  runs (store_vector (zlen b) b) s (fun v s' => vec s' v b /\ step [] (zlen b + overhead) s s').
Proof. intros Hb Hroom. eapply runs_conseq; [by apply store_vector_fresh|]. by intros v s' (Hv & Hs & _). Qed.

Lemma assign_ok s p b :
  holds s (p, zlen b) b -> (0 < zlen b < 2 ^ 31)%Z -> (zlen b + overhead <= room s.(env_inst))%Z ->
  runs (assign p (zlen b)) s (fun v s' => vec s' v b /\ step [] (zlen b + overhead) s s').
Proof.
  intros (_ & _ & _ & _ & Hsub) Hb Hroom. cbn [fst snd] in Hsub. apply runs_bind. unfold runs at 1, readM. rewrite Hsub.
  by apply store_vector_ok.
Qed.

(** ** Calls *)

Lemma runs_lift {A} (r : result A) a s Q : r = Ok a -> Q a s -> runs (liftM r) s Q.
Proof. by intros ->. Qed.

Lemma take_result_ok s fp b :
  result_at s fp (fp + 4) b -> (0 < zlen b < 2 ^ 31)%Z -> (zlen b + overhead <= room s.(env_inst))%Z ->
  runs (take_result fp) s (fun r s' => exists v, r = Some v /\ vec s' v b /\ step [] (zlen b + overhead) s s').
Proof.
  intros (off & Hh & Ho & Hl) Hb Hroom. unfold take_result, load32, copy_internal_pointer.
  apply runs_bind. unfold runs at 1, readM. rewrite Ho. pose proof Hh as (_ & Hpos & _). cbn in Hpos. guards.
  apply runs_bind. unfold runs at 1. rewrite Hl. apply runs_bind.
  eapply runs_conseq; [by apply assign_ok|]. intros v s' (Hv & Hs). apply runs_ret. eauto.
Qed.

Lemma return_buffer_ok s b p l fp k :
  frame s fp k -> cells_in fp k p l -> (0 < zlen b < 2 ^ 31)%Z -> (zlen b + overhead <= room s.(env_inst))%Z ->
  runs (return_buffer b p l) s (fun r s' => r = true /\ step [(fp, k)] (zlen b + overhead) s s' /\ result_at s' p l b).
Proof.
  intros. apply runs_bind. eapply runs_conseq; [by eapply save_buffer_ok|]. intros r s' (-> & Hs & Ha). by apply runs_ret.
Qed.

Lemma return_nonempty_eq b p l : (0 < zlen b)%Z -> return_nonempty b p l = return_buffer b p l.
Proof. intros Hb. unfold return_nonempty. rewrite bool_decide_eq_false_2; [done|]. by apply zlen_pos_not_nil. Qed.

(** The function [m] ends by giving back [b]. *)
Definition gives s (b : bytes) (p l : Z) (m : M wasm_env bool) : Prop :=
  forall Q, runs (return_buffer b p l) s Q -> runs m s Q.

(** The call may change the world in the relation [P] before it gives its result back. *)
Lemma call_for_bytes_core (P : relation wasm_env) s fp c b m :
  run_native (c fp (fp + 4)%Z) = as_i32 m -> (forall s1 s2, P s1 s2 -> s2.(env_inst) = s1.(env_inst)) ->
  (forall s1, step [(fp, 8%Z)] 0 s s1 -> exists s2, P s1 s2 /\ forall Q, runs (return_buffer b fp (fp + 4)) s2 Q -> runs m s1 Q) ->
  frame s fp 8 -> (0 < zlen b < 2 ^ 31)%Z -> (2 * (zlen b + overhead) <= room s.(env_inst))%Z ->
  runs (call_for_bytes fp c) s (fun r s' => exists v s1 s2, r = Some v /\ vec s' v b /\ step [(fp, 8%Z)] 0 s s1 /\ P s1 s2 /\
    step [(fp, 8%Z)] (2 * (zlen b + overhead)) s2 s').
Proof.
  intros Hc HP Hm Hfr Hb Hroom. pose proof overhead_nonneg as Hov. unfold call_for_bytes, import. rewrite Hc.
  assert (Hput : forall s1 p, step [(fp, 8%Z)] 0 s s1 -> p = fp \/ p = (fp + 4)%Z ->
    runs (put32 p 0) s1 (fun _ s2 => step [(fp, 8%Z)] 0 s s2)).
  { intros s1 p Hs Hp. destruct (frame_step _ _ _ _ _ _ Hs Hfr) as (fb & Hfb & Hin & Hfp & _ & Hfl & _). cbn [fst snd] in *.
    eapply runs_conseq; [apply (put32_ok s1 p 0 fp 8); [done|lia|lia|lia]|]. intros ? s2 [Hs2 _].
    by apply (step_trans _ 0 0 _ s1). }
  apply runs_bind. eapply runs_conseq; [apply Hput; [apply step_refl|by left]|]. intros ? s1 Hs1.
  apply runs_bind. eapply runs_conseq; [apply Hput; [exact Hs1|by right]|]. intros ? s2 Hs2.
  pose proof (frame_step _ _ _ _ _ _ Hs2 Hfr) as Hfr2. pose proof Hs2 as (_ & Hr2 & _).
  destruct (Hm s2 Hs2) as (s2' & HP2 & Hm2). pose proof (HP _ _ HP2) as Ei.
  assert (Hfr2' : frame s2' fp 8) by (revert Hfr2; unfold frame, holds, memory; by rewrite Ei).
  apply runs_bind, runs_bind. unfold as_i32. apply runs_bind, Hm2.
  eapply runs_conseq; [apply (return_buffer_ok s2' b fp (fp + 4) fp 8); [done|unfold cells_in; lia|done|rewrite Ei; lia]|].
  intros r s3 (-> & Hs3 & Hat). apply runs_ret, runs_ret. cbn. pose proof Hs3 as (_ & Hr3 & _). rewrite Ei in Hr3.
  eapply runs_conseq; [apply take_result_ok; [done|done|lia]|]. intros r s4 (v & -> & Hv & Hs4).
  exists v, s2, s2'. split_and!; try done. apply (step_nil [(fp, 8%Z)]) in Hs4. pose proof (step_trans _ _ _ _ _ _ Hs3 Hs4) as Hs.
  replace (zlen b + overhead + (zlen b + overhead))%Z with (2 * (zlen b + overhead))%Z in Hs by lia. done.
Qed.

Lemma call_for_bytes_ok s fp c b m :
  run_native (c fp (fp + 4)%Z) = as_i32 m -> (forall s1, step [(fp, 8%Z)] 0 s s1 -> gives s1 b fp (fp + 4) m) ->
  frame s fp 8 -> (0 < zlen b < 2 ^ 31)%Z -> (2 * (zlen b + overhead) <= room s.(env_inst))%Z ->
  runs (call_for_bytes fp c) s (fun r s' => exists v, r = Some v /\ vec s' v b /\ step [(fp, 8%Z)] (2 * (zlen b + overhead)) s s').
Proof.
  intros Hc Hm Hfr Hb Hroom. eapply runs_conseq.
  - apply (call_for_bytes_core eq s fp c b m Hc); [by intros s1 s2 ->| |done..]. intros s1 Hs1. exists s1. split; [done|]. apply (Hm s1 Hs1).
  - intros r s' (v & s1 & s2 & -> & Hv & Hs1 & <- & Hs2). exists v. split_and!; try done. by apply (step_trans _ 0 _ _ s1).
Qed.

(** A vector of the contract that is not its frame. *)
Definition arg s (fp : Z) v b : Prop := vec s v b /\ disjoint_regions (v.(v_data), v.(v_size)) (fp, 8%Z).

Lemma arg_step n s s1 fp v b : step [(fp, 8%Z)] n s s1 -> arg s fp v b -> vec s1 v b.
Proof. intros Hs [Hv Hd]. eapply vec_step; [done| |done]. by apply list.Forall_singleton. Qed.

(** Reading an argument in a function of the interpreter. *)
Lemma get_buffer_eq s v b : vec s v b -> get_buffer v.(v_data) v.(v_size) s = (Ok (Some v.(v_data)), s).
Proof.
  intros [(_ & Hp & Hl & Hr & _) Hs]. cbn [fst snd] in *. pose proof (zlen_nonneg b). pose proof (memory_limit s.(env_inst)).
  unfold memory in *. unfold get_buffer, readM. rewrite !u32_small by lia. rewrite validate_app_addr by lia. by guards.
Qed.

Lemma runs_get_buffer s v b f Q :
  vec s v b -> runs (f v.(v_data)) s Q -> runs (unless_null (get_buffer v.(v_data) v.(v_size)) f) s Q.
Proof. intros Hv Hf. unfold unless_null, runs, bindM. by rewrite (get_buffer_eq _ _ _ Hv). Qed.

Lemma runs_byte_array {A} s v b (f : bytes -> M wasm_env A) Q :
  vec s v b -> runs (f b) s Q -> runs (bindM (byte_array v.(v_data) v.(v_size)) f) s Q.
Proof.
  intros [(_ & _ & Hl & _ & Hs) _] Hf. cbn [fst snd] in *. pose proof (zlen_nonneg b). apply runs_bind.
  unfold byte_array, runs at 1. guards. unfold readM. fold (memory s). by rewrite Hs.
Qed.

Lemma gives_hash s v b p l hash_of : vec s v b -> (0 < zlen (hash_of b))%Z ->
  gives s (hash_of b) p l (hash_wrapper hash_of v.(v_data) v.(v_size) p l).
Proof.
  intros Hv Hh Q HQ. apply runs_or_return. eapply runs_get_buffer; [done|]. eapply runs_byte_array; [done|].
  by rewrite return_nonempty_eq.
Qed.

Lemma gives_hmac s v k b kb p l hmac_of : vec s v b -> vec s k kb -> (0 < zlen (hmac_of b kb))%Z ->
  gives s (hmac_of b kb) p l (hmac_wrapper hmac_of v.(v_data) v.(v_size) k.(v_data) k.(v_size) p l).
Proof.
  intros Hv Hk Hh Q HQ. apply runs_or_return. do 2 (eapply runs_get_buffer; [done|]; eapply runs_byte_array; [done|]).
  by rewrite return_nonempty_eq.
Qed.

Lemma gives_encrypt s m k i mb kb ib c p l : vec s m mb -> vec s k kb -> vec s i ib ->
  EncryptMessage_iv kb ib mb = Ok c -> (0 < zlen c)%Z ->
  gives s c p l (aes_encrypt_message_wrapper m.(v_data) m.(v_size) k.(v_data) k.(v_size) i.(v_data) i.(v_size) p l).
Proof.
  intros Hm Hk Hi Hc Hz Q HQ. apply runs_or_return.
  do 3 (eapply runs_get_buffer; [done|]; eapply runs_byte_array; [done|]).
  apply runs_bind. eapply runs_lift; [exact Hc|]. by rewrite return_nonempty_eq.
Qed.

Lemma gives_decrypt s c k i cb kb ib m p l : vec s c cb -> vec s k kb -> vec s i ib ->
  DecryptMessage_iv kb ib cb = Ok m -> (0 < zlen m)%Z ->
  gives s m p l (aes_decrypt_message_wrapper c.(v_data) c.(v_size) k.(v_data) k.(v_size) i.(v_data) i.(v_size) p l).
Proof.
  intros Hm Hk Hi Hc Hz Q HQ. apply runs_or_return.
  do 3 (eapply runs_get_buffer; [done|]; eapply runs_byte_array; [done|]).
  apply runs_bind. eapply runs_lift; [exact Hc|]. by rewrite return_nonempty_eq.
Qed.
End Memory.

(** * Properties *)

Section Properties.
Context {OS : OpenSSL} {OL : @OpenSSLLaws OS} {OK : @OpenSSLKeys} {BS : BlockStore} {LC : LibC} {XC : X509}.
Context {W : WAMR} {WL : WAMRLaws W} {G : @Guest W} {GL : GuestLaws G}.

(** A contract encrypts and decrypts again. *)
Definition encrypt_then_decrypt (fp : Z) (message key iv : gvec) : M wasm_env (option gvec) :=
  let! c := ww_aes_encrypt_message fp message key iv in
  match c with None => retM None | Some cipher => ww_aes_decrypt_message fp cipher key iv end.

Lemma fresh_arg s fp v b : frame s fp 8 -> vec s v b -> zlen b <> 8%Z -> arg s fp v b.
Proof.
  intros (fb & _ & Hf) Hv Hne. split; [done|]. destruct Hv as [Hh _]. pose proof Hh as (_ & _ & Hl & _). cbn in Hl.
  destruct (holds_disjoint _ _ _ _ _ Hh Hf) as [E|E]; [|done]. injection E. intros. lia.
Qed.

(** What a contract encrypts with [ww::crypto::aes] it can decrypt: both calls end with a result, and
    the second has the bytes of the message, whatever the contract keeps elsewhere in its memory. *)
Theorem contract_aes_roundtrip s fp message key iv mb kb ib :
  frame s fp 8 -> arg s fp message mb -> arg s fp key kb -> arg s fp iv ib ->
  zlen kb = SYM_KEY_LEN -> zlen ib = IV_LEN -> (zlen mb + TAG_LEN < 2 ^ 31)%Z ->
  (2 * (zlen mb + TAG_LEN + overhead) + 2 * (zlen mb + overhead) <= room s.(env_inst))%Z ->
  runs (encrypt_then_decrypt fp message key iv) s (fun r s' => exists v, r = Some v /\ vec s' v mb).
Proof.
  intros Hf Hm Hk Hi Hkl Hil Hml Hroom. pose proof Hm as [[(_ & _ & Hz & _) Hs] _]. cbn [fst snd] in Hz.
  destruct (EncryptMessage_iv_ok kb ib mb Hkl Hil ltac:(apply zlen_pos_not_nil; lia)) as (tag & ct & He & Hg & Ht & Hc).
  pose proof (DecryptMessage_iv_ok kb ib mb tag ct Hkl Hil Ht Hg) as Hd. pose proof overhead_nonneg.
  assert (Hcl : zlen (tag ++ ct) = (zlen mb + TAG_LEN)%Z) by (rewrite zlen_app; lia). unfold TAG_LEN in *.
  apply runs_bind. eapply runs_conseq; [eapply (call_for_bytes_ok s fp _ (tag ++ ct)); [reflexivity| |done|lia|lia]|].
  { intros s1 Hs1. eapply gives_encrypt; [by eapply arg_step..|done|lia]. }
  intros c s1 (cv & -> & Hcv & Hs1). pose proof Hs1 as (_ & Hr1 & _). pose proof (frame_step _ _ _ _ _ _ Hs1 Hf) as Hf1.
  pose proof (fresh_arg _ _ _ _ Hf1 Hcv ltac:(lia)) as Hca.
  eapply runs_conseq; [eapply (call_for_bytes_ok s1 fp _ mb); [reflexivity| |done|lia|lia]|].
  - intros s2 Hs2. assert (Hs12 := step_trans _ _ _ _ _ _ Hs1 Hs2).
    eapply gives_decrypt; [exact (arg_step _ _ _ _ _ _ Hs2 Hca)|exact (arg_step _ _ _ _ _ _ Hs12 Hk)|
      exact (arg_step _ _ _ _ _ _ Hs12 Hi)|done|lia].
  - intros r s2 (v & -> & Hv & _). eauto.
Qed.

Lemma verify_eq s m k g mb kb gb pubkey v :
  vec s m mb -> vec s k kb -> vec s g gb -> sig_PublicKey kb = Ok pubkey ->
  sig_public_key.VerifySignature pubkey mb gb = Ok v ->
  runs (ww_ecdsa_verify_signature m k g) s (fun r s' => r = negb (bool_decide (v = 0%Z)) /\ s' = s).
Proof.
  intros Hm Hk Hg Hp Hv. unfold ww_ecdsa_verify_signature, import, run_native, as_i32. apply runs_bind, runs_bind, runs_or_return.
  eapply runs_get_buffer; [done|]. eapply runs_get_buffer; [done|]. apply runs_bind. unfold runs at 1. rewrite (get_buffer_eq _ _ _ Hg).
  do 2 (eapply runs_byte_array; [done|]). eapply runs_byte_array; [done|]. apply runs_bind. eapply runs_lift; [done|].
  apply runs_bind. eapply runs_lift; [done|]. apply runs_ret, runs_ret, runs_ret. split; [|done].
  by repeat case_bool_decide.
Qed.

(** A signature that is not the DER encoding of anything makes [VerifySignature] return -1. *)
Lemma malformed_result kb pubkey mb gb : sig_PublicKey kb = Ok pubkey -> d2i_ECDSA_SIG gb = None ->
  sig_public_key.VerifySignature pubkey mb gb = Ok (-1)%Z.
Proof.
  unfold sig_PublicKey, sig_public_key.Deserialize, ResetKey, SetSigDetailsFromDeserializedKey, NidToSigCurveMap. run_monad.
  intros Hp Hd. unfold sig_public_key.VerifySignature. rewrite Hd.
  repeat (case_match; simplify_eq/=; try done).
Qed.

(** C38: [ecdsa::verify_signature] tells a contract that a signature is good when it cannot even be decoded: with
    any public key that loads, every byte string that is no DER encoding is accepted for every message. *)
Theorem malformed_signature_accepted s m k g mb kb gb pubkey :
  vec s m mb -> vec s k kb -> vec s g gb -> sig_PublicKey kb = Ok pubkey -> d2i_ECDSA_SIG gb = None ->
  runs (ww_ecdsa_verify_signature m k g) s (fun r s' => r = true /\ s' = s).
Proof.
  intros Hm Hk Hg Hp Hd. eapply runs_conseq; [eapply verify_eq; [done..|by eapply malformed_result]|]. by intros r s' [-> ->].
Qed.

(** The address of the signature is not checked: an invalid one is read through a null pointer. *)
Lemma null_signature s m k g mb kb :
  vec s m mb -> vec s k kb -> (0 <= g.(v_data) < 2 ^ 32)%Z -> (0 < g.(v_size) < 2 ^ 31)%Z ->
  (zlen (memory s) < g.(v_data) + g.(v_size))%Z ->
  (ww_ecdsa_verify_signature m k g s).1 = Err (UndefinedBehaviour "null signature buffer").
Proof.
  intros Hm Hk Hg Hgs Hgl. unfold ww_ecdsa_verify_signature, import, run_native, as_i32, ecdsa_verify_signature_wrapper, or_return, catchM, bindM.
  unfold unless_null, bindM. rewrite (get_buffer_eq _ _ _ Hm), (get_buffer_eq _ _ _ Hk).
  unfold get_buffer, readM. rewrite !u32_small by lia. unfold memory in Hgl. rewrite validate_app_addr by lia. guards.
  destruct Hm as [(_ & _ & Hml & _) ?]. destruct Hk as [(_ & _ & Hkl & _) ?]. unfold byte_array. guards. done.
Qed.
End Properties.
