(* ===== verification/ContractKV.v ===== *)
(** The contract's key-value stores through the interpreter: what [KeyValueStore::set] stores, [get] gives back,
    and stores with different prefixes do not meet. *)
From S2P Require Import Prelude Crypto BlockStore Codec DataNode FreeSpace Json JsonSpec StateNode Cache CacheSpec.
From S2P Require Import DataNodeIO MemorySpec Trie StateKV KVSpec Platform TrieSpec TrieHeap TrieModel TrieNodes TrieWalk TrieRefine KVRefine.
From S2P Require Import Keys Attestation EnclaveData Enclave Wasm WasmSpec ContractLib ContractSpec.

Section Stores.
Context {OS : OpenSSL} {OL : @OpenSSLLaws OS} {OK : @OpenSSLKeys} {BS : BlockStore} {BL : BlockStoreLaws BS} {LC : LibC} {XC : X509}.
Context {W : WAMR} {WL : WAMRLaws W} {G : @Guest W} {GL : GuestLaws G}.
Implicit Types (s : wasm_env).

(** * Runs without collisions *)

Definition wlog s : list bytes := s.(env_world).(w_evicted).

(** What the world may go through. *)
Definition moves_on s s' : Prop := reaches s.(env_world) s'.(env_world).

#[export] Instance moves_on_preorder : PreOrder moves_on.
Proof. split; [intros s; unfold moves_on; reflexivity|]. intros s1 s2 s3 H1 H2. unfold moves_on in *. by etransitivity. Qed.

#[export] Instance moves_on_blind : RngBlind moves_on.
Proof. intros s n. eapply reaches_rng, reaches_refl. Qed.

Lemma moves_on_log s s' : moves_on s s' -> wlog s `suffix_of` wlog s'.
Proof. apply reaches_log. Qed.

(** If the blocks written so far hash to different names, [m] ends with a result and [Q] holds. *)
Definition clean {A} (m : M wasm_env A) s (Q : A -> wasm_env -> Prop) : Prop := no_collision (wlog (m s).2) -> runs m s Q.

Lemma clean_bind {A B'} (m : M wasm_env A) (f : A -> M wasm_env B') s Q :
  runs m s (fun a s1 => clean (f a) s1 Q) -> clean (bindM m f) s Q.
Proof.
  intros Hm Hn. unfold clean, runs, bindM in *. destruct (m s) as [[a|e] s1]; [by apply Hm|done].
Qed.

Lemma clean_seq {A B'} (m : M wasm_env A) (f : A -> M wasm_env B') s Q :
  (forall a, respects moves_on (f a)) -> clean m s (fun a s1 => clean (f a) s1 Q) -> clean (bindM m f) s Q.
Proof.
  intros Hg Hm Hn. unfold clean, bindM, runs in *. destruct (m s) as [[a|e] s1]; [|by apply Hm].
  apply Hm; [|done]. eapply no_collision_suffix; [apply moves_on_log, (Hg a s1)|done].
Qed.

Lemma clean_runs {A} (m : M wasm_env A) s Q : runs m s Q -> clean m s Q.
Proof. by intros Hm _. Qed.

Lemma clean_conseq {A} (m : M wasm_env A) s (Q Q' : A -> wasm_env -> Prop) :
  clean m s Q -> (forall a s', Q a s' -> Q' a s') -> clean m s Q'.
Proof. intros Hm Hq Hn. by eapply runs_conseq; [apply Hm|]. Qed.

Lemma clean_or_return {A} (a : A) m s Q : clean m s Q -> clean (or_return a m) s Q.
Proof.
  intros Hm Hn. apply runs_or_return, Hm. revert Hn. unfold or_return, catchM, retM. by destruct (m s) as [[x|[]] s'].
Qed.

(** * The stores of the pool *)

(** The store with the handle [h] holds the map [m]. *)
Definition store_at s (h : Z) (m : gmap bytes bytes) (u : Z) : Prop :=
  exists kv, s.(kv_store_pool) !! Z.to_nat h = Some (Some kv) /\ holds_map (C.set_world s.(env_world) kv.(dn_io_)) m u.

Lemma store_at_step C n s s' h m u : step C n s s' -> store_at s h m u -> store_at s' h m u.
Proof. intros (_ & _ & Hp & Hw) (kv & Hk & Hm). exists kv. by rewrite Hp, Hw. Qed.

(** A method that is one operation on the trie. *)
Definition operation {A} (mm : M State_KV A) op k v (f : bytes -> A) : Prop :=
  forall kv, mm kv = (let! a := KV.in_io (T.operate_trie_non_recursive op k v) in retM (f a)) kv.

Lemma get_operation k : operation (IKV.UnprivilegedGet k) GET_OP (IKV.to_unprivileged_key k) [] (fun a => a).
Proof. intros kv. unfold IKV.UnprivilegedGet, KV.Get, bindM, retM. by destruct (KV.in_io _ _) as [[]]. Qed.

Lemma put_operation k v : operation (IKV.UnprivilegedPut k v) PUT_OP (IKV.to_unprivileged_key k) v (fun _ => tt).
Proof. done. Qed.

Lemma on_store_grows {A} h kv mm op k v (f : bytes -> A) : operation mm op k v f -> respects moves_on (on_store h kv mm).
Proof.
  intros Hmm s. unfold on_store. rewrite Hmm. unfold KV.in_io, zoomM, bindM, moves_on.
  pose proof (grows_operate op k v (dn_io_ (set_kv_world s.(env_world) kv))) as [Hg _].
  destruct (T.operate_trie_non_recursive _ _ _ _) as [[a|e] io]; apply Hg.
Qed.

Lemma on_store_ok {A} h kv mm op k v m u (f : bytes -> A) s : operation mm op k v f ->
  s.(kv_store_pool) !! Z.to_nat h = Some (Some kv) -> holds_map (C.set_world s.(env_world) kv.(dn_io_)) m u ->
  (zlen k < 2 ^ 32)%Z -> (u + cost op k v + block_data_len < ADDR_LIMIT)%Z -> allowed op k m ->
  clean (on_store h kv mm) s (fun r s' =>
    r = f (map_answer op k m) /\ s'.(env_inst) = s.(env_inst) /\
    exists u', store_at s' h (map_effect op k v m) u' /\ (u <= u' <= u + cost op k v)%Z).
Proof.
  intros Hmm Hk Hm Hkl Hlim Hal. pose proof (operate_ok op k v _ m u Hm Hkl Hlim Hal) as Hwp. unfold wp in Hwp.
  unfold clean, runs, on_store. rewrite Hmm. unfold KV.in_io, zoomM, bindM. cbn [set_kv_world KV.set_io dn_io_].
  destruct (T.operate_trie_non_recursive op k v _) as [[a|e] io]; cbn [fst snd] in *.
  - intros Hn. destruct (Hwp Hn) as (a' & [= <-] & -> & u' & Hm' & Hu'). cbn. split; [done|]. split; [done|].
    exists u'. split; [|done]. eexists. split.
    + cbn. rewrite list_lookup_insert_eq; [done|]. by eapply lookup_lt_Some.
    + cbn. by destruct io.
  - intros Hn. destruct (Hwp Hn) as (a' & [=] & _).
Qed.

(** What the methods do to the world. *)
Lemma moves_same {A} (m : M wasm_env A) : (forall s, (m s).2.(env_world) = s.(env_world)) -> respects moves_on m.
Proof. intros Hm s. unfold moves_on. rewrite Hm. reflexivity. Qed.

Lemma moves_save_buffer b p l : respects moves_on (save_buffer b p l).
Proof.
  apply moves_same. intros s. unfold save_buffer. run_monad.
  repeat (case_match; try done); simplify_eq/=; by repeat (case_match; try done).
Qed.

Lemma moves_store_vector n b : respects moves_on (store_vector n b).
Proof.
  apply moves_same. intros s. unfold store_vector, new_storage. run_monad. repeat (case_match; simplify_eq/=; try done).
Qed.

Lemma moves_take_result fp : respects moves_on (take_result fp).
Proof.
  pose proof moves_store_vector. unfold take_result, load32, copy_internal_pointer, assign. walk.
Qed.

Lemma moves_pointer_arg v : respects moves_on (pointer_arg v).
Proof. unfold pointer_arg. walk. Qed.

Lemma moves_get h kv k : respects moves_on (on_store h kv (IKV.UnprivilegedGet k)).
Proof. eapply on_store_grows, get_operation. Qed.

Lemma moves_put h kv k v : respects moves_on (on_store h kv (IKV.UnprivilegedPut k v)).
Proof. eapply on_store_grows, put_operation. Qed.

Lemma moves_kvs_get fp kv key : respects moves_on (kvs_get fp kv key).
Proof.
  pose proof moves_save_buffer. pose proof moves_store_vector. pose proof moves_take_result. pose proof moves_pointer_arg.
  pose proof moves_get. unfold kvs_get, prefixed, import, run_native, as_i32, key_value_get_wrapper, get_from. walk.
Qed.

(** ** The arguments of the calls *)

Lemma pointer_arg_ok {A} s v b (f : option Z -> M wasm_env A) Q :
  vec s v b -> clean (f (Some v.(v_data))) s Q -> clean (bindM (pointer_arg v) f) s Q.
Proof.
  intros [(_ & Hp & Hl & Hr & _) Hs] Hf. cbn [fst snd] in *. unfold memory in *. apply clean_bind.
  unfold pointer_arg, runs, bindM, readM. rewrite convert_pointer_ok by lia. done.
Qed.

Lemma prefixed_ok {A} s kv key kb (f : gvec -> M wasm_env A) Q :
  vec s key kb -> (zlen (make_key kv kb) < 2 ^ 31)%Z -> (zlen (make_key kv kb) + overhead <= room s.(env_inst))%Z ->
  (forall k s1, vec s1 k (make_key kv kb) -> step [] (zlen (make_key kv kb) + overhead) s s1 -> clean (f k) s1 Q) ->
  clean (bindM (prefixed kv key) f) s Q.
Proof.
  intros [(_ & _ & Hl & _ & Hsub) Hs] Hml Hroom Hf. cbn [fst snd] in *. apply clean_bind. unfold prefixed. apply runs_bind.
  unfold runs at 1, readM. rewrite Hsub. assert (0 < zlen (make_key kv kb))%Z.
  { unfold make_key. case_bool_decide; [|lia]. rewrite !zlen_app, zlen_cons, zlen_nil. lia. }
  eapply runs_conseq; [apply store_vector_ok; [lia|done]|]. intros k s1 [Hk Hs1]. by apply Hf.
Qed.

Definition map_key (kv : KeyValueStore) (k : bytes) : bytes := IKV.to_unprivileged_key (make_key kv k).

Lemma fetch_ok s h (kv : State_KV) (f : State_KV -> M wasm_env bool) Q :
  (0 <= h < KV_STORE_POOL_MAX_SIZE)%Z -> s.(kv_store_pool) !! Z.to_nat h = Some (Some kv) ->
  clean (f kv) s Q -> clean (unless_null (fetch_state_from_handle h) f) s Q.
Proof.
  intros Hh Hk Hf. unfold KV_STORE_POOL_MAX_SIZE in *. apply clean_bind. unfold fetch_state_from_handle, runs, bindM, readM, liftM, vec_get.
  unfold KV_STORE_POOL_MAX_SIZE. guards. by rewrite Hk.
Qed.

Lemma clean_byte_array {A} s v b (f : bytes -> M wasm_env A) Q :
  vec s v b -> clean (f b) s Q -> clean (bindM (byte_array v.(v_data) v.(v_size)) f) s Q.
Proof.
  intros [(_ & _ & Hl & _ & Hs) _] Hf. cbn [fst snd] in *. pose proof (zlen_nonneg b). apply clean_bind.
  unfold byte_array, runs. guards. unfold readM. fold (memory s). by rewrite Hs.
Qed.

Lemma vec_inst s s' v b : s'.(env_inst) = s.(env_inst) -> vec s v b -> vec s' v b.
Proof. intros E. unfold vec, holds, memory. by rewrite E. Qed.

Lemma frame_inst s s' fp n : s'.(env_inst) = s.(env_inst) -> frame s fp n -> frame s' fp n.
Proof. intros E. unfold frame, holds, memory. by rewrite E. Qed.

Lemma map_key_length kv kb : zlen (map_key kv kb) = (1 + zlen (make_key kv kb))%Z.
Proof. apply zlen_cons. Qed.

(** The memory and the room after a call that may also have changed the stores. *)
Definition uses C (n : Z) s s' : Prop := confined C s s' /\ (room s.(env_inst) - n <= room s'.(env_inst))%Z.

Lemma uses_step C n s s' : step C n s s' -> uses C n s s'.
Proof. by intros (Hc & Hr & _). Qed.

Lemma uses_inst C n s s1 s2 : s2.(env_inst) = s1.(env_inst) -> uses C n s s1 -> uses C n s s2.
Proof. intros E. unfold uses, confined. by rewrite E. Qed.

Lemma kvs_set_ok s kv key val kb vb m u :
  (0 <= kv.(handle_) < KV_STORE_POOL_MAX_SIZE)%Z -> store_at s kv.(handle_) m u -> vec s key kb -> vec s val vb ->
  (zlen (make_key kv kb) < 2 ^ 31)%Z -> (zlen (make_key kv kb) + overhead <= room s.(env_inst))%Z ->
  (u + cost PUT_OP (map_key kv kb) vb + block_data_len < ADDR_LIMIT)%Z -> m !! map_key kv kb <> Some [] ->
  clean (kvs_set kv key val) s (fun r s' => r = true /\ uses [] (zlen (make_key kv kb) + overhead) s s' /\
    exists u', store_at s' kv.(handle_) (<[map_key kv kb := vb]> m) u' /\ (u <= u' <= u + cost PUT_OP (map_key kv kb) vb)%Z).
Proof.
  intros Hh Hst Hk Hv Hml Hroom Hlim Hal. eapply prefixed_ok; [done..|]. intros k s1 Hk1 Hs1.
  eapply pointer_arg_ok; [done|]. pose proof (vec_step _ _ _ _ _ _ Hs1 (list.Forall_nil_2 _) Hv) as Hv1.
  eapply pointer_arg_ok; [done|]. destruct (store_at_step _ _ _ _ _ _ _ Hs1 Hst) as (st & Hpool & Hm).
  unfold import, run_native, as_i32, key_value_set_wrapper. pose proof moves_put as Hlp.
  apply clean_seq; [walk|]. apply clean_seq; [walk|]. apply clean_or_return.
  eapply fetch_ok; [done|done|]. apply clean_bind, runs_ret, clean_bind, runs_ret.
  eapply clean_byte_array; [done|]. eapply clean_byte_array; [done|]. apply clean_seq; [walk|].
  eapply clean_conseq; [apply (on_store_ok _ _ _ _ _ _ m u _ s1 (put_operation _ vb) Hpool Hm)|].
  - fold (map_key kv kb). rewrite map_key_length. lia.
  - done.
  - done.
  - intros ? s2 (_ & Ei & u' & Hst' & Hu'). do 3 (apply clean_runs, runs_ret). split; [done|]. split; [|by exists u'].
    eapply uses_inst; [done|]. by apply uses_step.
Qed.

(** What [get] gives back of the value that is stored: nothing of an empty one. *)
Definition answers (r : option gvec) s (v : bytes) : Prop :=
  match v with [] => r = None | _ => exists g, r = Some g /\ vec s g v end.

Lemma uses_trans C n1 n2 s1 s2 s3 : uses C n1 s1 s2 -> uses C n2 s2 s3 -> uses C (n1 + n2) s1 s3.
Proof. intros [Ca Ra] [Cb Rb]. split; [by etransitivity|lia]. Qed.

Lemma uses_le C n n' s s' : (n <= n')%Z -> uses C n s s' -> uses C n' s s'.
Proof. intros Hn [Hc Hr]. split; [done|lia]. Qed.

Lemma store_at_world s s' h m u : s'.(kv_store_pool) = s.(kv_store_pool) -> s'.(env_world) = s.(env_world) -> store_at s h m u -> store_at s' h m u.
Proof. intros Hp Hw (kv & Hk & Hm). exists kv. by rewrite Hp, Hw. Qed.

(** A [get] of the interpreter, called with a key in the memory of the contract, and the copy of its result. *)
Definition get_and_take (fp h : Z) (get : bytes -> M State_KV bytes) (key : gvec) : M wasm_env (option gvec) :=
  let! ok := let! z := as_i32 (get_from h get (Some key.(v_data)) key.(v_size) fp (fp + 4)) in retM (negb (bool_decide (z = 0)%Z)) in
  if negb ok then retM None else take_result fp.

Lemma get_and_take_ok s fp h get key kb kk m u :
  (0 <= h < KV_STORE_POOL_MAX_SIZE)%Z -> store_at s h m u -> vec s key kb -> frame s fp 8 ->
  operation (get kb) GET_OP kk [] (fun a => a) -> (zlen kk < 2 ^ 32)%Z ->
  let vb := default [] (m !! kk) in
  (zlen vb < 2 ^ 31)%Z -> (2 * (zlen vb + overhead) <= room s.(env_inst))%Z -> (u + block_data_len < ADDR_LIMIT)%Z ->
  (forall kv b, respects moves_on (on_store h kv (get b))) ->
  clean (get_and_take fp h get key) s (fun r s' => answers r s' vb /\
    uses [(fp, 8%Z)] (2 * (zlen vb + overhead)) s s' /\ store_at s' h m u).
Proof.
  intros Hh (st & Hpool & Hm) Hk Hf Hop Hkl vb Hvl Hroom Hlim Hlg. pose proof overhead_nonneg. pose proof (zlen_nonneg vb).
  pose proof moves_save_buffer as Hls. pose proof moves_take_result as Hlt. unfold get_and_take, as_i32, get_from.
  apply clean_seq; [walk|]. apply clean_seq; [walk|]. apply clean_seq; [walk|]. apply clean_or_return.
  eapply fetch_ok; [done|done|]. apply clean_bind, runs_ret. eapply clean_byte_array; [done|]. apply clean_seq; [walk|].
  eapply clean_conseq; [apply (on_store_ok _ _ _ _ _ _ m u _ s Hop Hpool Hm); [done|cbn; lia|done]|].
  intros b s2 (-> & Ei & u' & Hst2 & Hu'). cbn [map_answer map_effect cost] in *. assert (u' = u) as -> by lia. fold vb. apply clean_runs.
  assert (Hu2 : uses [(fp, 8%Z)] 0 s s2) by (eapply uses_inst; [done|]; by apply uses_step, step_refl).
  destruct (decide (vb = [])) as [Ev|Ev].
  { rewrite Ev. apply runs_ret. do 3 (apply clean_runs, runs_ret). split_and!; [done| |done]. eapply uses_le; [|exact Hu2]. rewrite zlen_nil. lia. }
  pose proof (zlen_not_nil_pos _ Ev). rewrite return_nonempty_eq by done. apply (frame_inst _ s2) in Hf; [|done].
  eapply runs_conseq; [apply (return_buffer_ok s2 vb fp (fp + 4) fp 8); [done|unfold cells_in; lia|lia|rewrite Ei; lia]|].
  intros r s3 (-> & Hs3 & Hat). do 2 (apply clean_runs, runs_ret). apply clean_runs. pose proof Hs3 as (_ & Hr3 & _).
  rewrite Ei in Hr3. eapply runs_conseq; [apply take_result_ok; [done|lia|lia]|]. intros r s4 (g & -> & Hg & Hs4).
  apply (step_nil [(fp, 8%Z)]) in Hs4. split_and!; [unfold answers; destruct vb; [done|by exists g]| |].
  - eapply uses_le; [|eapply uses_trans; [exact Hu2|eapply uses_trans; apply uses_step; [exact Hs3|exact Hs4]]]. lia.
  - by eapply store_at_step, store_at_step.
Qed.

Lemma kvs_get_ok s fp kv key kb m u :
  (0 <= kv.(handle_) < KV_STORE_POOL_MAX_SIZE)%Z -> store_at s kv.(handle_) m u -> vec s key kb -> frame s fp 8 ->
  let vb := default [] (m !! map_key kv kb) in
  (zlen (make_key kv kb) < 2 ^ 31)%Z -> (zlen vb < 2 ^ 31)%Z ->
  (zlen (make_key kv kb) + overhead + 2 * (zlen vb + overhead) <= room s.(env_inst))%Z -> (u + block_data_len < ADDR_LIMIT)%Z ->
  clean (kvs_get fp kv key) s (fun r s' => answers r s' vb /\
    uses [(fp, 8%Z)] (zlen (make_key kv kb) + overhead + 2 * (zlen vb + overhead)) s s' /\ store_at s' kv.(handle_) m u).
Proof.
  intros Hh Hst Hk Hf vb Hml Hvl Hroom Hlim. pose proof overhead_nonneg. pose proof (zlen_nonneg vb).
  eapply prefixed_ok; [done|done|lia|]. intros k s1 Hk1 Hs1. eapply pointer_arg_ok; [done|]. pose proof Hs1 as (_ & Hr1 & _).
  eapply clean_conseq; [apply (get_and_take_ok s1 fp _ _ k (make_key kv kb) (map_key kv kb) m u Hh);
    [by eapply store_at_step|done|by eapply frame_step|apply get_operation|rewrite map_key_length; lia|done|fold vb; lia|done|intros; apply moves_get]|].
  intros r s2 (Ha & Hu & Hst2). split_and!; [done| |done]. eapply uses_trans; [|exact Hu]. by apply uses_step, step_nil.
Qed.

Lemma kvs_privileged_get_ok s fp key kb m u :
  store_at s 0 m u -> vec s key kb -> frame s fp 8 ->
  let vb := default [] (m !! IKV.to_privileged_key kb) in
  (zlen kb < 2 ^ 31)%Z -> (zlen vb < 2 ^ 31)%Z -> (2 * (zlen vb + overhead) <= room s.(env_inst))%Z -> (u + block_data_len < ADDR_LIMIT)%Z ->
  clean (kvs_privileged_get fp key) s (fun r s' => answers r s' vb /\
    uses [(fp, 8%Z)] (2 * (zlen vb + overhead)) s s' /\ store_at s' 0 m u).
Proof.
  intros Hst Hk Hf vb Hkl Hvl Hroom Hlim. eapply pointer_arg_ok; [done|].
  assert (Hop : forall b, operation (IKV.PrivilegedGet b) GET_OP (IKV.to_privileged_key b) [] (fun a => a)).
  { intros b kv. unfold IKV.PrivilegedGet, KV.Get, bindM, retM. by destruct (KV.in_io _ _) as [[]]. }
  assert (Hkk : (zlen (IKV.to_privileged_key kb) < 2 ^ 32)%Z) by (unfold IKV.to_privileged_key; rewrite zlen_cons; lia).
  exact (get_and_take_ok s fp 0 IKV.PrivilegedGet key kb (IKV.to_privileged_key kb) m u ltac:(done) Hst Hk Hf (Hop kb) Hkk Hvl Hroom Hlim
    (fun kv b => on_store_grows _ _ _ _ _ _ _ (Hop b))).
Qed.
End Stores.

(** A new store in the pool holds nothing. *)
Lemma new_store_at {OS : OpenSSL} {OL : @OpenSSLLaws OS} {BS : BlockStore} {BL : BlockStoreLaws BS} {LC : LibC} {W : WAMR}
    w key kv w' (i : module_inst) pool h :
  zlen key = SYM_KEY_LEN -> KV.create w key = (Ok kv, w') -> no_collision w'.(w_evicted) -> pool !! Z.to_nat h = Some (Some kv) ->
  store_at (mk_env _ _ i pool w') h ∅ T.sizeof_node.
Proof.
  intros Hk Hc Hn Hp. exists kv. split; [done|]. pose proof (create_ok w key Hk) as Hok. rewrite Hc in Hok.
  destruct Hok as (kv' & [= <-] & Hcr & _); [done|]. cbn [env_world]. rewrite (create_world _ _ _ _ Hc).
  replace (C.set_world _ _) with kv.(dn_io_) by (by destruct (dn_io_ kv)). by eapply created_holds.
Qed.

(** * Properties *)

(** The prefix ends at the first [#] when it has none of its own. *)
Lemma make_key_inj kv kv' k k' :
  kv.(prefix_) <> [] -> kv'.(prefix_) <> [] -> "#"%byte ∉ kv.(prefix_) -> "#"%byte ∉ kv'.(prefix_) ->
  make_key kv k = make_key kv' k' -> kv.(prefix_) = kv'.(prefix_) /\ k = k'.
Proof.
  intros Hp Hp' Hh Hh'. unfold make_key.
  rewrite !bool_decide_eq_true_2 by (by apply zlen_not_nil_pos). generalize dependent (prefix_ kv'). generalize dependent (prefix_ kv).
  intros p _ Hh p' _ Hh' E. revert p' Hh' E. induction p as [|a p IH]; intros [|a' p'] Hh' E; cbn in E.
  - by injection E.
  - injection E as <- _. destruct Hh'. apply list_elem_of_here.
  - injection E as -> _. destruct Hh. apply list_elem_of_here.
  - injection E as -> E. rewrite elem_of_cons in Hh, Hh'. destruct (IH ltac:(tauto) p' ltac:(tauto) E) as [-> ->]. done.
Qed.

(** A prefix with a [#] meets the keys of another store. *)
Lemma make_key_ambiguous h :
  make_key (mk_kvs h (bytes_of "a")) (bytes_of "b#c") = make_key (mk_kvs h (bytes_of "a#b")) (bytes_of "c").
Proof. reflexivity. Qed.

(** A contract stores a value and then asks a store for a key. *)
Definition set_then_get `{OpenSSL, OpenSSLKeys, BlockStore, LibC, X509, Guest} (fp : Z) (kv : KeyValueStore) (key val : gvec)
    (kv' : KeyValueStore) (key' : gvec) : M wasm_env (option gvec) :=
  let! ok := kvs_set kv key val in if ok : bool then kvs_get fp kv' key' else retM None.

Section Properties.
Context {OS : OpenSSL} {OL : @OpenSSLLaws OS} {OK : @OpenSSLKeys} {BS : BlockStore} {BL : BlockStoreLaws BS} {LC : LibC} {XC : X509}.
Context {W : WAMR} {WL : WAMRLaws W} {G : @Guest W} {GL : GuestLaws G}.

(** C13: a contract's stores keep what it puts in them, through the linear memory, the interpreter and the
    blocks.  After [set] of a key under which the store does not hold an empty value, [get] of any key of
    the same handle gives the new value if the two keys are the same after prefixing and else what the
    store held before, in fresh memory of the contract; an empty value is given back as none.  The calls
    end with a result when the memory has room for the keys and the value, each shorter than 2^31 bytes,
    and the store for the new record within 4 GB.  A [set] over a stored empty value is excluded: it
    overwrites a byte of a neighbouring record (C28). *)
Theorem contract_set_get s fp kv key val kv' key' kb vb kb' m u r s' :
  (0 <= kv.(handle_) < KV_STORE_POOL_MAX_SIZE)%Z -> kv'.(handle_) = kv.(handle_) -> store_at s kv.(handle_) m u ->
  vec s key kb -> vec s val vb -> vec s key' kb' -> frame s fp 8 ->
  let held := if bool_decide (make_key kv' kb' = make_key kv kb) then vb else default [] (m !! map_key kv' kb') in
  (zlen (make_key kv kb) < 2 ^ 31)%Z -> (zlen (make_key kv' kb') < 2 ^ 31)%Z -> (zlen held < 2 ^ 31)%Z ->
  (zlen (make_key kv kb) + zlen (make_key kv' kb') + 2 * zlen held + 4 * overhead <= room s.(env_inst))%Z ->
  (u + cost PUT_OP (map_key kv kb) vb + block_data_len < ADDR_LIMIT)%Z -> m !! map_key kv kb <> Some [] ->
  set_then_get fp kv key val kv' key' s = (r, s') -> no_collision (wlog s') ->
  exists o, r = Ok o /\ answers o s' held.
Proof.
  intros Hh Hh' Hst Hk Hv Hk' Hf held Hml Hml' Hhl Hroom Hlim Hal Hrun Hn.
  assert (Hheld : default [] (<[map_key kv kb := vb]> m !! map_key kv' kb') = held).
  { subst held. case_bool_decide as E; [unfold map_key; rewrite E, lookup_insert_eq; done|].
    rewrite lookup_insert_ne; [done|]. unfold map_key, IKV.to_unprivileged_key. congruence. }
  pose proof overhead_nonneg. pose proof (zlen_nonneg (make_key kv kb)). pose proof (zlen_nonneg (make_key kv' kb')).
  pose proof (zlen_nonneg held).
  assert (Hc : clean (set_then_get fp kv key val kv' key') s (fun o s' => answers o s' held)).
  { apply clean_seq. { pose proof (moves_kvs_get fp kv' key'). walk. }
    eapply clean_conseq; [eapply (kvs_set_ok s kv key val kb vb m u); try done; lia|].
    intros ok s1 (-> & (Hcf & Hr1) & u1 & Hst1 & Hu1). rewrite <-Hh' in Hh, Hst1. cbv iota.
    eapply clean_conseq; [eapply (kvs_get_ok s1 fp kv' key' kb' _ u1); try done; rewrite ?Hheld; try done; try lia|].
    - destruct Hk' as [Hh1 Hs1]. split; [|done]. eapply holds_confined; [done|by apply list.Forall_nil_2|done].
    - by eapply (frame_confined []).
    - intros o s2 [Ho _]. by rewrite Hheld in Ho. }
  unfold clean in Hc. rewrite Hrun in Hc. specialize (Hc Hn). unfold runs in Hc. rewrite Hrun in Hc.
  destruct r as [o|e]; [by exists o|done].
Qed.
End Properties.
