(* ===== verification/Interpreter.v ===== *)
(** The interpreter: common/interpreter/InvocationHelpers.cpp, the validation of JSON by an example in
    parson.cpp, and common/interpreter/wawaka_wasm/WawakaInterpreter.cpp, which discharges the interface
    [ContractInterpreter] of the enclave.  Loading a module and running its code are parameters. *)
From S2P Require Import Prelude Crypto BlockStore Codec DataNode FreeSpace Json JsonSpec StateNode Cache DataNodeIO Trie StateKV.
From S2P Require Import Keys Attestation EnclaveData Enclave Wasm.

(** * json_validate *)

(** The first element of an array is the example for all; an empty array or object allows everything of its
    kind, and null allows every value. *)
Fixpoint json_validate (schema value : json) {struct schema} : bool :=
  match schema, value with
  | JNull, _ => true
  | JBool _, JBool _ | JNumber _, JNumber _ | JString _, JString _ => true
  | JArray [], JArray _ => true
  | JArray (example :: _), JArray l => forallb (json_validate example) l
  | JObject fields, JObject l =>
      if bool_decide (fields = []) then true
      else if bool_decide (length l < length fields) then false
      else forallb (fun f => match json_object_get value f.1 with Some v => json_validate f.2 v | None => false end) fields
  | _, _ => false
  end.

(** * InvocationHelpers.cpp *)

(** The texts of the two examples, by the macros of the source. *)
Definition quoted (s : string) : bytes := [Byte.x22] ++ bytes_of s ++ [Byte.x22].
Definition KW (kw : string) (v : bytes) : bytes := quoted kw ++ bytes_of ":" ++ v.
Definition DEPENDENCIES_text : bytes :=
  KW "Dependencies" (bytes_of "[{" ++ KW "ContractID" (quoted EmptyString) ++ bytes_of "," ++ KW "StateHash" (quoted EmptyString) ++ bytes_of "}]").
Definition INVOCATION_REQUEST_text : bytes :=
  bytes_of "{" ++ KW "Method" (quoted EmptyString) ++ bytes_of "," ++ KW "PositionalParameters" (bytes_of "[]") ++ bytes_of "," ++
  KW "KeywordParameters" (bytes_of "{}") ++ bytes_of "}".
Definition INVOCATION_RESPONSE_text : bytes :=
  bytes_of "{" ++ KW "Status" (bytes_of "true") ++ bytes_of "," ++ KW "Response" (bytes_of "null") ++ bytes_of "," ++
  KW "StateChanged" (bytes_of "true") ++ bytes_of "," ++ DEPENDENCIES_text ++ bytes_of "}".

(** The two examples, as these texts parse. *)
Definition INVOCATION_REQUEST_SCHEMA : json := JObject
  [(bytes_of "Method", JString []); (bytes_of "PositionalParameters", JArray []); (bytes_of "KeywordParameters", JObject [])].
Definition DEPENDENCY : json := JArray [JObject [(bytes_of "ContractID", JString []); (bytes_of "StateHash", JString [])]].
Definition INVOCATION_RESPONSE_SCHEMA : json := JObject
  [(bytes_of "Status", JBool true); (bytes_of "Response", JNull); (bytes_of "StateChanged", JBool true);
   (bytes_of "Dependencies", DEPENDENCY)].

(** The order of the keys of a [std::map<std::string, std::string>]. *)
Fixpoint bytes_lt (a b : bytes) : bool :=
  match a, b with
  | _, [] => false
  | [], _ :: _ => true
  | x :: a, y :: b =>
      if bool_decide (byte.unsigned x < byte.unsigned y)%Z then true
      else if bool_decide (byte.unsigned y < byte.unsigned x)%Z then false
      else bytes_lt a b
  end.

(** [m[k] = v]. *)
Fixpoint std_map_set (m : list (bytes * bytes)) (k v : bytes) : list (bytes * bytes) :=
  match m with
  | [] => [(k, v)]
  | kv :: m => if bytes_lt k kv.1 then (k, v) :: kv :: m
               else if bool_decide (k = kv.1) then (k, v) :: m
               else kv :: std_map_set m k v
  end.

Section Helpers.
Context `{LibC}.

Definition validate_invocation_request (request : bytes) : result unit :=
  let valid := match json_parse (c_str request) with
               | Some parsed => json_validate INVOCATION_REQUEST_SCHEMA parsed
               | None => false
               end in
  throw_if (negb valid) (RuntimeError "invalid invocation request; does not match required format").

(** [json_object_dotget_boolean(o, name) == 1]. *)
Definition is_true_field (o : json) (name : bytes) : bool :=
  match json_object_get o name with Some (JBool b) => b | _ => false end.

(** [outDependencies[contract_id] = state_hash] for every element; a missing member is a null pointer. *)
Fixpoint collect_dependencies (l : list json) (deps : list (bytes * bytes)) : result (list (bytes * bytes)) :=
  match l with
  | [] => Ok deps
  | d :: l =>
      let? contract_id := of_option (get_cstring d (bytes_of "ContractID")) (UndefinedBehaviour "string from a null pointer") in
      let? state_hash := of_option (get_cstring d (bytes_of "StateHash")) (UndefinedBehaviour "string from a null pointer") in
      collect_dependencies l (std_map_set deps contract_id state_hash)
  end.

Record invocation_response := mk_iresp {
  outResponse : bytes;
  outStatus : bool;
  outStateChanged : bool;
  outDependencies : list (bytes * bytes);
}.

(** The text of a successful response has the NUL that the size of the serialization counts. *)
Definition parse_invocation_response (response : bytes) : result invocation_response :=
  let? parsed := of_option (json_parse (c_str response)) (ValueError "invalid response string; invalid JSON") in
  throw_if (negb (json_validate INVOCATION_RESPONSE_SCHEMA parsed))
    (RuntimeError "invalid invocation response; does not match required format") ;;?
  throw_if (negb (json_is_object parsed)) (ValueError "invalid result pointer; missing result object") ;;?
  let? response_value := of_option (json_object_get parsed (bytes_of "Response"))
    (ValueError "invalid response string; missing Response field") in
  if negb (is_true_field parsed (bytes_of "Status"))
  then
    match response_value with
    | JString s => Ok (mk_iresp (c_str s) false false [])
    | _ => Err (RuntimeError "invalid invocation response; failure result must be a string")
    end
  else
    let? text := of_option (json_serialize response_value) (RuntimeError "failed to serialize result") in
    let? dependency_array := of_option (json_object_get_array parsed (bytes_of "Dependencies"))
      (ValueError "invalid response string; missing Dependencies field") in
    let? deps := collect_dependencies dependency_array [] in
    Ok (mk_iresp (text ++ [Byte.x00]) true (is_true_field parsed (bytes_of "StateChanged")) deps).

(** The seven members of the environment, in this order. *)
Definition create_invocation_environment (ContractID CreatorID : bytes) (inContractCode : interpreter_code)
    (inMessage : interpreter_message) (inContractStateHash : bytes) : result bytes :=
  let set l name value msg := of_option (json_object_dotset_string l [bytes_of name] (c_str value)) (RuntimeError msg) in
  let? l := set [] "ContractID" ContractID "failed to serialize the ContractID" in
  let? l := set l "CreatorID" CreatorID "failed to serialize the CreatorID" in
  let? l := set l "OriginatorID" inMessage.(OriginatorID) "failed to serialize the OriginatorID" in
  let? l := set l "StateHash" (ByteArrayToBase64EncodedString inContractStateHash) "failed to serialize the StateHash" in
  let? l := set l "MessageHash" inMessage.(MessageHash) "failed to serialize the MessageHash" in
  let? l := set l "ContractCodeName" inContractCode.(Name) "failed to serialize the ContractCodeName" in
  let? l := set l "ContractCodeHash" inContractCode.(CodeHash) "failed to serialize the ContractCodeName" in
  let? text := of_option (json_serialize (JObject l)) (RuntimeError "contract response serialization failed") in
  Ok (c_str text).
End Helpers.

(** * WawakaInterpreter.cpp *)

(** The rest of what the code uses of the runtime.  [wasm_runtime_call_wasm] runs a function of the contract, which
    may call the imported functions; it gives [None] when the contract traps.  Allocation in the module gives
    the offset, 0 when it fails. *)
Class WasmEngine `{BlockStore, W : WAMR} := {
  wasm_module : Type;
  wasm_function : Type;
  wasm_runtime_load : bytes -> option wasm_module;
  wasm_runtime_instantiate : wasm_module -> option module_inst;
  wasm_runtime_create_exec_env : module_inst -> bool;
  wasm_runtime_lookup_function : module_inst -> bytes -> option wasm_function;
  wasm_runtime_module_malloc : module_inst -> Z -> Z * module_inst;
  wasm_runtime_module_free : module_inst -> Z -> module_inst;
  wasm_runtime_get_app_addr_range : module_inst -> Z -> option (Z * Z);
  wasm_runtime_call_wasm : wasm_function -> list Z -> M wasm_env (option Z);
}.

Section Wawaka.
Context `{OpenSSL, BlockStore, LibC, W : WAMR, E : !WasmEngine}.

Definition report_interpreter_error (message : string) (error : bytes) : string :=
  String.append message (String.append "; " (String.string_of_list_byte error)).

Definition load_contract_code (code : bytes) : result module_inst :=
  let binary_code := Base64EncodedStringToByteArray code in
  let? m := of_option (wasm_runtime_load binary_code) (ValueError "module load failed") in
  let? i := of_option (wasm_runtime_instantiate m) (ValueError "failed to instantiate the module") in
  throw_if (negb (wasm_runtime_create_exec_env i)) (ValueError "failed to create the wasm execution environment") ;;?
  Ok i.

(** [wasm_runtime_lookup_function] under the name and under the name with an underscore. *)
Definition lookup_function (name : string) (msg : string) : M wasm_env wasm_function :=
  let! i := readM env_inst in
  match wasm_runtime_lookup_function i (bytes_of name) with
  | Some f => retM f
  | None => liftM (of_option (wasm_runtime_lookup_function i (bytes_of (String.append "_" name))) (ValueError msg))
  end.

(** A string of the enclave, copied with its NUL into the memory of the contract; 0 when that fails. *)
Definition copy_in (text : bytes) : M wasm_env Z := fun s =>
  let '(p, i) := wasm_runtime_module_malloc s.(env_inst) (zlen text + 1) in
  if bool_decide (p = 0)%Z then (Ok 0%Z, set_inst i s)
  else (Ok p, set_inst (with_memory (overwrite (app_memory i) p (text ++ [Byte.x00])) i) s).

Definition free_in (p : Z) : M wasm_env unit :=
  whenM (bool_decide (p <> 0)%Z) (modifyM (fun s => set_inst (wasm_runtime_module_free s.(env_inst) p) s)).

(** The [try] block of both functions: only a [RuntimeError] is caught, and makes the result 0. *)
Definition result_or_zero (m : M wasm_env Z) : M wasm_env Z :=
  catchM m (fun e => match e with RuntimeError _ => retM 0%Z | _ => throwM e end).

Definition call (f : wasm_function) (args : list Z) : M wasm_env Z :=
  let! r := wasm_runtime_call_wasm f args in
  match r with Some z => retM z | None => throwM (RuntimeError "execution failed for some reason") end.

Definition initialize_contract (env : bytes) : M wasm_env Z :=
  let! wasm_func := lookup_function "ww_initialize" "Unable to locate the initialize function" in
  let! buf_offset := copy_in env in
  let! result := result_or_zero (
    throw_ifM (bool_decide (buf_offset = 0)%Z) (RuntimeError "module malloc failed for some reason") ;;!
    call wasm_func [buf_offset]) in
  free_in buf_offset ;;! retM result.

Definition evaluate_function (args env : bytes) : M wasm_env Z :=
  liftM (validate_invocation_request args) ;;!
  let! wasm_func := lookup_function "ww_dispatch" "Unable to locate the dispatch function" in
  let! buf_offset0 := copy_in args in
  if bool_decide (buf_offset0 = 0)%Z then retM 0%Z
  else
    let! buf_offset1 := copy_in env in
    let! result := result_or_zero (
      throw_ifM (bool_decide (buf_offset1 = 0)%Z) (RuntimeError "module malloc failed for some reason") ;;!
      call wasm_func [buf_offset0; buf_offset1]) in
    free_in buf_offset0 ;;! free_in buf_offset1 ;;! retM result.

(** The walk to the NUL looks at a character before it compares the position with the end, so it reads one past
    the memory when there is none. *)
Definition parse_response_string (response_app : Z) : M wasm_env invocation_response :=
  throw_ifM (bool_decide (response_app = 0)%Z)
    (RuntimeError (report_interpreter_error "invalid result pointer" (bytes_of "no response"))) ;;!
  let! i := readM env_inst in
  let! '(response_app_beg, response_app_end) := liftM (of_option (wasm_runtime_get_app_addr_range i response_app)
    (RuntimeError (report_interpreter_error "invalid result pointer" (bytes_of "out of range")))) in
  throw_ifM (bool_decide (response_app_beg = response_app_end))
    (RuntimeError (report_interpreter_error "invalid result pointer" (bytes_of "empty response"))) ;;!
  let result := subseq (app_memory i) response_app (response_app_end - response_app) in
  throw_ifM (negb (bool_decide (Byte.x00 ∈ result))) (UndefinedBehaviour "read past the memory") ;;!
  let! r := liftM (parse_invocation_response (c_str result)) in
  throw_ifM (negb r.(outStatus)) (ValueError (report_interpreter_error "method evaluation failed" (c_str r.(outResponse)))) ;;!
  retM r.

(** The stores other than the state of the contract must be closed. *)
Definition check_closed : M wasm_env unit :=
  let! p := readM kv_store_pool in
  throw_ifM (existsb (fun o => match o with Some _ => true | None => false end) (drop 1 p))
    (RuntimeError "failed to close contract KV store").

(** A contract run on a state: the pool has the state in its first slot. *)
Definition with_contract {A} (code : bytes) (m : M wasm_env A) : M State_KV A := fun kv =>
  match load_contract_code code with
  | Err e => (Err e, kv)
  | Ok i =>
      let '(r, s) := m (mk_env _ _ i (Some kv :: replicate 7 None) (kv_world kv)) in
      (r, match s.(kv_store_pool) with Some kv' :: _ => set_kv_world s.(env_world) kv' | _ => kv end)
  end.

(** [initialStateHash] is empty. *)
Definition wawaka_create_initial_contract_state (ContractID CreatorID : bytes) (inContractCode : interpreter_code)
    (inMessage : interpreter_message) : M State_KV unit :=
  with_contract inContractCode.(Code) (
    let! env := liftM (create_invocation_environment ContractID CreatorID inContractCode inMessage []) in
    let! response_app := initialize_contract env in
    let! _ := parse_response_string response_app in
    check_closed).

Definition wawaka_send_message_to_contract (ContractID CreatorID : bytes) (inContractCode : interpreter_code)
    (inMessage : interpreter_message) (inContractStateHash : bytes) : M State_KV (bool * list (bytes * bytes) * bytes) :=
  with_contract inContractCode.(Code) (
    let! env := liftM (create_invocation_environment ContractID CreatorID inContractCode inMessage inContractStateHash) in
    let! response_app := evaluate_function inMessage.(Message) env in
    let! r := parse_response_string response_app in
    check_closed ;;!
    retM (r.(outStateChanged), r.(outDependencies), r.(outResponse))).

(** [CreateInterpreter]. *)
#[export] Instance WawakaInterpreter : ContractInterpreter := {|
  create_initial_contract_state := wawaka_create_initial_contract_state;
  send_message_to_contract := wawaka_send_message_to_contract;
|}.
End Wawaka.
