(* ===== verification/InterpreterSpec.v ===== *)
(** What the interpreter accepts from outside: the requests it passes on to a contract, and the answers of a
    contract, which it never reads past what was validated. *)
From S2P Require Import Prelude Crypto BlockStore Codec Json JsonSpec StateKV Keys Attestation EnclaveData Enclave Wasm Interpreter.

(** * Validation *)

Lemma schemas_parse `{LibC} :
  json_parse INVOCATION_REQUEST_text = Some INVOCATION_REQUEST_SCHEMA /\ json_parse INVOCATION_RESPONSE_text = Some INVOCATION_RESPONSE_SCHEMA.
Proof. split; vm_compute; reflexivity. Qed.

Lemma get_In (l : list (bytes * json)) k v : json_object_get (JObject l) k = Some v -> k ∈ map fst l.
Proof.
  cbn. destruct (list_find _ l) as [[i kv]|] eqn:E; [|done]. intros _. apply list_find_Some in E as (Hi & <- & _).
  apply list_elem_of_fmap. exists kv. split; [done|]. by eapply list_elem_of_lookup_2.
Qed.

Lemma NoDup_check {A} `{EqDecision A} (l : list A) : bool_decide (NoDup l) = true -> NoDup l.
Proof. apply bool_decide_eq_true_1. Qed.

(** An object with the members of the example has as many members. *)
Lemma validate_fields fields l : NoDup (map fst fields) ->
  forallb (fun f => match json_object_get (JObject l) f.1 with Some v => json_validate f.2 v | None => false end) fields = true ->
  length fields <= length l.
Proof.
  intros Hnd Hall. rewrite <-(length_map fst fields), <-(length_map fst l). apply submseteq_length.
  apply NoDup_submseteq; [done|]. intros k Hk. apply list_elem_of_fmap in Hk as (f & -> & Hf).
  rewrite forallb_forall in Hall. specialize (Hall f). rewrite <-list_elem_of_In in Hall. specialize (Hall Hf).
  destruct (json_object_get _ _) eqn:E; [|done]. by eapply get_In.
Qed.

Lemma validate_object fields l : fields <> [] -> NoDup (map fst fields) ->
  json_validate (JObject fields) (JObject l) =
  forallb (fun f => match json_object_get (JObject l) f.1 with Some v => json_validate f.2 v | None => false end) fields.
Proof.
  intros Hne Hnd. cbn [json_validate]. rewrite bool_decide_eq_false_2 by done. case_bool_decide as Hlt; [|done].
  symmetry. apply not_true_iff_false. intros Hall. apply validate_fields in Hall; [lia|done].
Qed.

Lemma validate_object_inv fields v : json_validate (JObject fields) v = true -> exists l, v = JObject l.
Proof. destruct v; cbn [json_validate]; intros Hv; try done. by eexists. Qed.

(** The shape of a value at a member. *)
Definition member_is (P : json -> bool) (v : json) (k : string) : Prop :=
  exists x, json_object_get v (bytes_of k) = Some x /\ P x = true.

Definition is_string (j : json) : bool := match j with JString _ => true | _ => false end.
Definition is_array (j : json) : bool := match j with JArray _ => true | _ => false end.
Definition is_bool (j : json) : bool := match j with JBool _ => true | _ => false end.

Lemma validate_string s j : json_validate (JString s) j = is_string j.
Proof. by destruct j. Qed.
Lemma validate_bool b j : json_validate (JBool b) j = is_bool j.
Proof. by destruct j. Qed.
Lemma validate_null j : json_validate JNull j = true.
Proof. by destruct j. Qed.
Lemma validate_any_array j : json_validate (JArray []) j = is_array j.
Proof. by destruct j. Qed.
Lemma validate_any_object j : json_validate (JObject []) j = json_is_object j.
Proof. by destruct j. Qed.

Lemma member_iff P v k : match json_object_get v (bytes_of k) with Some x => P x | None => false end = true <-> member_is P v k.
Proof.
  unfold member_is. destruct (json_object_get v (bytes_of k)) as [x|]; split; [by eexists| |done|by intros (x & ? & _)].
  by intros (y & [= <-] & Hy).
Qed.

Lemma member_ext P Q v k : (forall j, P j = Q j) -> member_is P v k <-> member_is Q v k.
Proof. intros Hpq. unfold member_is. by setoid_rewrite Hpq. Qed.

(** * The map of the dependencies *)

Lemma bytes_lt_irrefl a : bytes_lt a a = false.
Proof. induction a as [|x a IH]; [done|]. cbn. by rewrite bool_decide_eq_false_2 by lia. Qed.

Lemma bytes_lt_trans a b c : bytes_lt a b = true -> bytes_lt b c = true -> bytes_lt a c = true.
Proof.
  revert b c. induction a as [|x a IH]; intros [|y b] [|z c]; cbn; try done.
  repeat case_bool_decide; try done; try lia. apply IH.
Qed.

Lemma bytes_lt_total a b : bytes_lt a b = false -> a = b \/ bytes_lt b a = true.
Proof.
  revert b. induction a as [|x a IH]; intros [|y b]; cbn; [by left|done|by right|].
  case_bool_decide; [done|]. case_bool_decide; [by right|]. intros Hb. destruct (IH b Hb) as [->|Hlt]; [|by right].
  left. f_equal. apply byte.unsigned_inj. lia.
Qed.

Definition keys_sorted (m : list (bytes * bytes)) : Prop := StronglySorted (fun a b => bytes_lt a b = true) (map fst m).

Lemma std_map_set_keys m k v x : x ∈ map fst (std_map_set m k v) -> x = k \/ x ∈ map fst m.
Proof.
  induction m as [|[k0 v0] m IH]; cbn [std_map_set map fst]; [rewrite !elem_of_cons; tauto|].
  destruct (bytes_lt k k0); [cbn [map fst]; rewrite !elem_of_cons; tauto|].
  case_bool_decide; cbn [map fst]; rewrite !elem_of_cons; [intros [->|Hx]; tauto|]. intros [->|Hx]; [tauto|]. destruct (IH Hx); tauto.
Qed.

Lemma std_map_set_sorted m k v : keys_sorted m -> keys_sorted (std_map_set m k v).
Proof.
  unfold keys_sorted. induction m as [|[k0 v0] m IH]; cbn [std_map_set map fst]; intros Hs; [repeat constructor|].
  inversion_clear Hs as [|? ? Hs' Hall]. destruct (bytes_lt k k0) eqn:E1.
  - constructor; [by constructor|]. constructor; [done|]. eapply list.Forall_impl; [exact Hall|]. intros x. by apply bytes_lt_trans.
  - case_bool_decide as E2; cbn [map fst]; [subst; by constructor|]. constructor; [by apply IH|].
    destruct (bytes_lt_total _ _ E1) as [->|Hlt]; [done|]. apply list.Forall_forall. intros x Hx.
    destruct (std_map_set_keys _ _ _ _ Hx) as [->|Hx']; [done|]. rewrite list.Forall_forall in Hall. by apply Hall.
Qed.

Lemma std_map_set_map m k v : keys_sorted m ->
  (list_to_map (std_map_set m k v) : gmap bytes bytes) = <[k := v]> (list_to_map m).
Proof.
  unfold keys_sorted. induction m as [|[k0 v0] m IH]; cbn [std_map_set map fst]; intros Hs; [done|].
  inversion_clear Hs as [|? ? Hs' Hall]. destruct (bytes_lt k k0) eqn:E1; [done|].
  case_bool_decide as E2; [subst; cbn; by rewrite insert_insert_eq|]. cbn. rewrite IH by done. by apply insert_insert_ne.
Qed.

(** What the array of the dependencies says. *)
Definition dependency (d : json) : option (bytes * bytes) :=
  i ← get_cstring d (bytes_of "ContractID"); h ← get_cstring d (bytes_of "StateHash"); Some (i, h).
Definition dependency_map (l : list json) (m : gmap bytes bytes) : gmap bytes bytes :=
  fold_left (fun m d => match dependency d with Some (i, h) => <[i := h]> m | None => m end) l m.

Lemma collect_dependencies_ok l deps : Forall (fun d => is_Some (dependency d)) l -> keys_sorted deps ->
  exists deps', collect_dependencies l deps = Ok deps' /\ keys_sorted deps' /\
    list_to_map deps' = dependency_map l (list_to_map deps).
Proof.
  intros Hl. revert deps. induction Hl as [|d l [[i h] Hd] _ IH]; intros deps Hs; cbn [collect_dependencies]; [by exists deps|].
  unfold dependency_map. cbn [fold_left]. rewrite Hd. unfold dependency in Hd.
  destruct (get_cstring d (bytes_of "ContractID")) as [i'|]; [|done]. destruct (get_cstring d (bytes_of "StateHash")) as [h'|]; [|done].
  injection Hd as -> ->. cbn [of_option result_bind].
  destruct (IH (std_map_set deps i h) (std_map_set_sorted _ _ _ Hs)) as (deps' & E & Hs' & Hm). exists deps'. split; [done|].
  split; [done|]. rewrite Hm, std_map_set_map by done. done.
Qed.

Lemma string_member v k : member_is is_string v k -> is_Some (get_cstring v (bytes_of k)).
Proof.
  intros (x & Hx & Hs). unfold get_cstring, json_object_get_string. rewrite Hx. by destruct x.
Qed.

Lemma validate_dependency d : json_validate (JObject [(bytes_of "ContractID", JString []); (bytes_of "StateHash", JString [])]) d = true ->
  is_Some (dependency d).
Proof.
  intros Hv. destruct (validate_object_inv _ _ Hv) as [l ->]. revert Hv. rewrite validate_object by (done || by apply NoDup_check).
  cbn [forallb fst snd]. rewrite !andb_true_iff, !(member_iff (json_validate _)), !(member_ext _ _ _ _ (validate_string _)). intros (H1 & H2 & _).
  destruct (string_member _ _ H1) as [i Hi]. destruct (string_member _ _ H2) as [h Hh]. unfold dependency. rewrite Hi, Hh. by eexists.
Qed.

(** * Properties *)

Section Properties.
Context `{LibC}.

(** Exactly the texts of JSON objects with a string Method, an array PositionalParameters and an object
    KeywordParameters are passed on to a contract; everything else is refused. *)
Theorem request_accepted request :
  validate_invocation_request request = Ok tt <->
  exists v, json_parse (c_str request) = Some v /\ json_is_object v = true /\ member_is is_string v "Method" /\
    member_is is_array v "PositionalParameters" /\ member_is json_is_object v "KeywordParameters".
Proof.
  unfold validate_invocation_request. destruct (json_parse (c_str request)) as [v|]; cbn [throw_if negb].
  2: { split; [done|by intros (v & ? & _)]. }
  assert (Hv : json_validate INVOCATION_REQUEST_SCHEMA v = true <-> json_is_object v = true /\ member_is is_string v "Method" /\
    member_is is_array v "PositionalParameters" /\ member_is json_is_object v "KeywordParameters").
  { unfold INVOCATION_REQUEST_SCHEMA. destruct v as [| | | | |l]; try (split; [done|by intros [? _]]).
    rewrite validate_object by (done || by apply NoDup_check). cbn [forallb fst snd].
    rewrite !andb_true_iff, !(member_iff (json_validate _)), (member_ext _ _ _ _ (validate_string _)),
      (member_ext _ _ _ _ validate_any_array), (member_ext _ _ _ _ validate_any_object). cbn [json_is_object]. tauto. }
  destruct (json_validate INVOCATION_REQUEST_SCHEMA v); cbn [negb throw_if].
  - split; [|done]. intros _. exists v. split; [done|]. by apply Hv.
  - split; [done|]. intros (v' & [= <-] & Hrest). by apply Hv in Hrest.
Qed.

(** C22: the answer of a contract is read safely: whatever text it returns, the interpreter refuses it with an error it
    reports or takes from it the validated status, flag and dependencies, without a null pointer.  A failed call
    changes nothing and has no dependencies; the dependencies of a successful one are a sorted map in which the last
    entry for a contract counts.  (The text of the response itself is not stated here.) *)
Theorem response_read text :
  match parse_invocation_response text with
  | Ok r => exists v l, json_parse (c_str text) = Some v /\ r.(outStatus) = is_true_field v (bytes_of "Status") /\
      json_object_get_array v (bytes_of "Dependencies") = Some l /\
      (if r.(outStatus)
       then r.(outStateChanged) = is_true_field v (bytes_of "StateChanged") /\ keys_sorted r.(outDependencies) /\
         list_to_map r.(outDependencies) = dependency_map l ∅
       else r.(outStateChanged) = false /\ r.(outDependencies) = [])
  | Err (ValueError _) | Err (RuntimeError _) => True
  | Err _ => False
  end.
Proof.
  unfold parse_invocation_response. destruct (json_parse (c_str text)) as [v|]; [|done]. cbn [of_option result_bind].
  destruct (json_validate INVOCATION_RESPONSE_SCHEMA v) eqn:Hv; [|done]. cbn [throw_if negb result_bind].
  destruct (validate_object_inv _ _ Hv) as [l ->]. cbn [json_is_object negb throw_if result_bind].
  unfold INVOCATION_RESPONSE_SCHEMA in Hv. rewrite validate_object in Hv by (done || by apply NoDup_check).
  cbn [forallb fst snd] in Hv. rewrite !andb_true_iff, !(member_iff (json_validate _)) in Hv.
  destruct Hv as (_ & (x & Hx & _) & _ & (y & Hy & Hyv) & _). rewrite Hx. cbn [of_option result_bind].
  assert (Hd : exists ds, y = JArray ds /\ Forall (fun d => is_Some (dependency d)) ds).
  { unfold DEPENDENCY in Hyv. destruct y as [| | | |ds|]; try done. exists ds. split; [done|]. cbn [json_validate] in Hyv.
    rewrite forallb_forall in Hyv. apply list.Forall_forall. intros d Hd. apply validate_dependency, Hyv. by apply list_elem_of_In. }
  destruct Hd as (ds & -> & Hds). unfold json_object_get_array. rewrite Hy.
  destruct (is_true_field (JObject l) (bytes_of "Status")) eqn:Hst; cbn [negb].
  - unfold json_serialize. cbn [of_option result_bind].
    destruct (collect_dependencies_ok ds [] Hds) as (deps & -> & Hs & Hm); [constructor|]. cbn [result_bind].
    exists (JObject l), ds. by rewrite Hy.
  - destruct x; try done. exists (JObject l), ds. by rewrite Hy.
Qed.
End Properties.
