(* ===== verification/Isolation.v ===== *)
(** A contract cannot touch what the enclave keeps in the state: whatever functions it calls, the privileged entries
    of its state are after a message what they were before. *)
From S2P Require Import Prelude Crypto BlockStore Codec DataNode FreeSpace Json JsonSpec StateNode Cache CacheSpec.
From S2P Require Import DataNodeIO MemorySpec Trie StateKV KVSpec Platform TrieSpec TrieHeap TrieModel TrieNodes TrieWalk TrieRefine KVRefine.
From S2P Require Import Keys Attestation EnclaveData Enclave Wasm WasmSpec ContractLib ContractSpec ContractKV Interpreter.

(** * What stores do to the world *)

Section Moves.
Context {OS : OpenSSL} {OL : @OpenSSLLaws OS} {B : BlockStore} {BL : BlockStoreLaws B} {P : LibC}.

Definition dmoves {A} (m : M dn_io A) : Prop := forall s, reaches s.(io_world) (m s).2.(io_world).
Definition kmoves {A} (m : M State_KV A) : Prop := forall kv, reaches kv.(dn_io_).(io_world) (m kv).2.(dn_io_).(io_world).

Lemma dmoves_grows {A} (m : M dn_io A) : grows m -> dmoves m.
Proof. intros Hm s. apply (ev_world _ _ (Hm s)). Qed.

Lemma dmoves_bind {A C'} (m : M dn_io A) (f : A -> M dn_io C') : dmoves m -> (forall a, dmoves (f a)) -> dmoves (bindM m f).
Proof.
  intros Hm Hf s. specialize (Hm s). unfold bindM. destruct (m s) as [[a|e] s1]; [|done]. etransitivity; [done|apply Hf].
Qed.

Lemma kmoves_bind {A C'} (m : M State_KV A) (f : A -> M State_KV C') : kmoves m -> (forall a, kmoves (f a)) -> kmoves (bindM m f).
Proof.
  intros Hm Hf s. specialize (Hm s). unfold bindM. destruct (m s) as [[a|e] s1]; [|done]. etransitivity; [done|apply Hf].
Qed.

Lemma kmoves_in_io {A} (m : M dn_io A) : dmoves m -> kmoves (KV.in_io m).
Proof. intros Hm kv. specialize (Hm kv.(dn_io_)). unfold KV.in_io, zoomM. by destruct (m kv.(dn_io_)) as [r s]. Qed.

Lemma kmoves_same {A} (m : M State_KV A) : (forall kv, (m kv).2.(dn_io_) = kv.(dn_io_)) -> kmoves m.
Proof. intros Hm kv. rewrite Hm. constructor. Qed.

Lemma grows_lift_id k : dmoves (IO.lift_bw (fun b => BW.remove_block_id_from_datablock_num b k)).
Proof. apply dmoves_grows, grows_remove_id. Qed.

Lemma dmoves_initialize root : dmoves (IO.initialize root).
Proof.
  pose proof grows_last as Hl. pose proof grows_init_append as Hi. pose proof (fun A => grows_lift_fsc (A := A)) as Hf.
  unfold IO.initialize. apply dmoves_bind; [by intros s; constructor|]. intros s.
  apply dmoves_bind; [by intros s'; constructor|]. intros [bw node].
  apply dmoves_bind; [intros s'; by constructor|]. intros _.
  repeat (apply dmoves_bind; [first [apply dmoves_grows; solve [grows] | apply grows_lift_id | intros s'; by constructor]|]; intros).
  intros s'; by constructor.
Qed.

Lemma kmoves_create key : kmoves (KV.create_body key).
Proof.
  apply kmoves_in_io, dmoves_grows. pose proof grows_init_append. pose proof grows_init_root. pose proof grows_add_id. grows.
Qed.

Lemma kmoves_open id key : kmoves (KV.open_body id key).
Proof.
  pose proof (fun r => kmoves_in_io _ (dmoves_initialize r)) as Hi. unfold KV.open_body.
  apply kmoves_bind; [by apply kmoves_same|]. intros kv.
  apply kmoves_bind; [apply kmoves_in_io, dmoves_grows; grows|]. intros [ret block].
  repeat (apply kmoves_bind; [first [apply Hi | by apply kmoves_same]|]; intros). by apply kmoves_same.
Qed.

Lemma reaches_construct m mode kv w' r : kmoves m -> KV.construct m mode kv = (r, w') -> reaches kv.(dn_io_).(io_world) w'.
Proof.
  intros Hm. specialize (Hm kv). unfold KV.construct. destruct (m kv) as [[u|e] kv']; by intros [= <- <-].
Qed.

Lemma kmoves_finalize : kmoves KV.Finalize.
Proof.
  unfold KV.Finalize. pose proof grows_add. pose proof grows_append_node. pose proof grows_add_id. pose proof (fun A => grows_lift_fsc (A := A)).
  apply kmoves_bind; [by apply kmoves_same|]. intros kv. apply kmoves_bind; [by apply kmoves_same|]. intros _.
  apply kmoves_bind; [apply kmoves_in_io, dmoves_grows; grows|]. intros _.
  apply kmoves_bind; [apply kmoves_in_io, dmoves_grows; grows|]. intros _.
  apply kmoves_bind; [by apply kmoves_same|]. intros kv'. apply kmoves_bind; [|intros; by apply kmoves_same].
  unfold whenM. case_match; [|by apply kmoves_same].
  apply kmoves_bind; [by apply kmoves_same|]. intros root. apply kmoves_bind; [by apply kmoves_same|]. intros _.
  apply kmoves_bind; [apply kmoves_in_io, dmoves_grows; grows|]. intros [ret id].
  apply kmoves_bind; intros; by apply kmoves_same.
Qed.
End Moves.

(** * The world around a store *)

(** The blocks handed to the store hash to different names, and their sizes fit a [size_t]. *)
Definition ordinary `{OpenSSL} (l : list bytes) : Prop := no_collision l /\ Forall (fun b => zlen b < 2 ^ 64)%Z l.

Lemma ordinary_suffix `{OpenSSL} l1 l2 : l1 `suffix_of` l2 -> ordinary l2 -> ordinary l1.
Proof.
  intros Hs [Hn Hl]. split; [by eapply no_collision_suffix|]. destruct Hs as [k ->]. by apply Forall_app in Hl as [_ ?].
Qed.

Section World.
Context {OS : OpenSSL} {OL : @OpenSSLLaws OS} {B : BlockStore} {BL : BlockStoreLaws B} {P : LibC}.

(** Blocks stay in the store. *)
Lemma reaches_keeps w w' b : reaches w w' -> ordinary w'.(w_evicted) -> b ∈ w.(w_evicted) ->
  BlockStoreGet w.(w_store) (ComputeMessageHash b) = Ok (PDO_SUCCESS, b) ->
  BlockStoreGet w'.(w_store) (ComputeMessageHash b) = Ok (PDO_SUCCESS, b).
Proof.
  induction 1 as [w|w b0 w' Hr IH|w n w' Hr IH]; intros Ho Hin Hg; [done| |by apply IH].
  pose proof (ordinary_suffix _ _ (reaches_log _ _ Hr) Ho) as [Hn1 Hl1]. rewrite w_put_log in Hl1.
  apply list.Forall_cons in Hl1 as [Hl1 _]. destruct (w_put_ok (ComputeMessageHash b0) b0 w Hl1) as (w1 & Hp & Hst & _).
  rewrite Hp in *. cbn [snd] in *. apply IH; [done| |by eapply put_keeps].
  destruct Hst as (_ & _ & -> & _). apply elem_of_cons. by right.
Qed.

(** A store holds its map whatever others do in the meantime. *)
Lemma holds_map_world io w w' m u : reaches w w' -> ordinary w'.(w_evicted) ->
  holds_map (C.set_world w io) m u -> holds_map (C.set_world w' io) m u.
Proof.
  intros Hr Ho (c & t & Hl & Hc & Hw & (V & free & Hh) & Hm). exists c, t. do 3 (split; [done|]). split; [|done]. exists V, free.
  destruct Hh as [((fr & Hci & Hfr) & Hap & Hun & Hfree) H2 H3 H4 H5 H6]. split; try done. split; [|done].
  exists fr. split; [|done]. destruct Hci as [K1 K2 K3 K4 K5 K6 K7].
  split; try done; [by destruct K4|]. intros k v Hk Hv He.
  specialize (K7 k v Hk Hv He). revert K7. apply stored_mono; try done; [by apply reaches_log|].
  intros b Hb Hg. by eapply reaches_keeps.
Qed.
End World.

(** * The functions a contract imports *)

Section Calls.
Context {OS : OpenSSL} {OL : @OpenSSLLaws OS} {OK : @OpenSSLKeys} {BS : BlockStore} {BL : BlockStoreLaws BS} {LC : LibC} {XC : X509}.
Context {W : WAMR}.
Implicit Types (s : wasm_env).

Lemma moves_store {A} h kv (mm : M State_KV A) : kmoves mm -> respects moves_on (on_store h kv mm).
Proof.
  intros Hm s. specialize (Hm (set_kv_world s.(env_world) kv)). unfold on_store, moves_on. by destruct (mm _) as [r kv'].
Qed.

Lemma kmoves_operation {A} (mm : M State_KV A) op k v f : operation mm op k v f -> kmoves mm.
Proof.
  intros Hmm kv. rewrite Hmm. unfold KV.in_io, zoomM, bindM.
  pose proof (ev_world _ _ (grows_operate op k v kv.(dn_io_))) as Hg.
  by destruct (T.operate_trie_non_recursive _ _ _ _) as [[a|e] io].
Qed.

Lemma privileged_get_operation k : operation (IKV.PrivilegedGet k) GET_OP (IKV.to_privileged_key k) [] (fun a => a).
Proof. intros kv. unfold IKV.PrivilegedGet, KV.Get, bindM, retM. by destruct (KV.in_io _ _) as [[]]. Qed.

Lemma moves_new_store make : (forall w, reaches w (make w).2) -> respects moves_on (new_store make).
Proof.
  intros Hm s. unfold new_store. run_monad. case_bool_decide; [constructor|]. specialize (Hm s.(env_world)).
  by destruct (make s.(env_world)) as [[kv|e] w].
Qed.

Lemma moves_create key : respects moves_on (new_store (fun w => KV.create w key)).
Proof.
  apply moves_new_store. intros w. destruct (KV.create w key) as [r w'] eqn:E.
  by apply (reaches_construct _ _ _ _ _ (kmoves_create key)) in E.
Qed.

Lemma moves_open id key : respects moves_on (new_store (fun w => KV.open w id key)).
Proof.
  apply moves_new_store. intros w. destruct (KV.open w id key) as [r w'] eqn:E.
  by apply (reaches_construct _ _ _ _ _ (kmoves_open id key)) in E.
Qed.

Lemma moves_inst (f : wasm_env -> module_inst) : respects moves_on (modifyM (fun s => set_inst (f s) s)).
Proof. by apply moves_same. Qed.
Lemma moves_pool (f : wasm_env -> list (option State_KV)) : respects moves_on (modifyM (fun s => set_pool (f s) s)).
Proof. by apply moves_same. Qed.

Lemma moves_native c : respects moves_on (run_native c).
Proof.
  pose proof moves_save_buffer. pose proof moves_create. pose proof moves_open. pose proof moves_inst. pose proof moves_pool.
  pose proof (fun h kv k => moves_store h kv _ (kmoves_operation _ _ _ _ _ (get_operation k))).
  pose proof (fun h kv k v => moves_store h kv _ (kmoves_operation _ _ _ _ _ (put_operation k v))).
  pose proof (fun h kv k => moves_store h kv _ (kmoves_operation _ _ _ _ _ (privileged_get_operation k))).
  pose proof (fun h kv => moves_store h kv _ kmoves_finalize).
  destruct c; cbn [run_native]; unfold as_i32.
  all: try (apply respects_bind; [apply _| |intros; apply respects_ret; apply _]).
  all: unfold_wrappers; unfold random_identifier_wrapper, strtod_wrapper. all: walk.
Qed.

(** The stores of two states are the same. *)
Definition same_stores s s' : Prop := s'.(kv_store_pool) = s.(kv_store_pool) /\ s'.(env_world) = s.(env_world).

#[export] Instance same_stores_preorder : PreOrder same_stores.
Proof. split; [done|]. intros s1 s2 s3 [P1 W1] [P2 W2]. split; congruence. Qed.

Lemma same_save_buffer b p l : respects same_stores (save_buffer b p l).
Proof.
  intros s. unfold save_buffer. run_monad.
  repeat (case_match; try done); simplify_eq/=; by repeat (case_match; try done).
Qed.

Lemma store_at_same s s' h m u : same_stores s s' -> store_at s h m u -> store_at s' h m u.
Proof. intros [Hp Hw] (kv & Hk & Hm). exists kv. by rewrite Hp, Hw. Qed.

(** Going back through a computation that ended somehow. *)
Lemma or_return_state {A} (a : A) (m : M wasm_env A) s : (or_return a m s).2 = (m s).2.
Proof. unfold or_return, catchM. by destruct (m s) as [[x|[]] s']. Qed.

Lemma fetch_cases h s :
  (exists kv, fetch_state_from_handle h s = (Ok (Some kv), s) /\ s.(kv_store_pool) !! Z.to_nat h = Some (Some kv)) \/
  (exists e, fetch_state_from_handle h s = (e, s) /\ forall kv, e <> Ok (Some kv)).
Proof.
  unfold fetch_state_from_handle. run_monad. destruct (_ || _) eqn:Eb; [right; eexists; split; [reflexivity|intros; discriminate]|]. unfold vec_get.
  destruct (bool_decide (0 <= h)%Z); cbn [of_option]; [|right; eexists; split; [reflexivity|intros; discriminate]].
  destruct (kv_store_pool s !! Z.to_nat h) as [[kv|]|] eqn:E; cbn [of_option].
  - left. by exists kv.
  - right. eexists. split; [reflexivity|intros; discriminate].
  - right. eexists. split; [reflexivity|intros; discriminate].
Qed.

(** A call that reads a key and works on a store ends with the stores as they were, or as the operation left them. *)
Lemma with_store_cases h (f : State_KV -> M wasm_env bool) s :
  same_stores s (unless_null (fetch_state_from_handle h) f s).2 \/
  exists kv, s.(kv_store_pool) !! Z.to_nat h = Some (Some kv) /\ (unless_null (fetch_state_from_handle h) f s).2 = (f kv s).2.
Proof.
  unfold unless_null, bindM. destruct (fetch_cases h s) as [(kv & -> & Hk)|(e & -> & He)]; [right; by exists kv|left].
  destruct e as [[kv|]|]; [by edestruct He|done|done].
Qed.

Lemma set_cases h a b c d s :
  let s' := (key_value_set_wrapper h a b c d s).2 in
  same_stores s s' \/ exists kv p q, s.(kv_store_pool) !! Z.to_nat h = Some (Some kv) /\ a = Some p /\ c = Some q /\
    (0 <= b)%Z /\ (0 <= d)%Z /\
    same_stores (on_store h kv (IKV.UnprivilegedPut (subseq (memory s) p b) (subseq (memory s) q d)) s).2 s'.
Proof.
  cbv zeta. unfold key_value_set_wrapper. rewrite or_return_state.
  edestruct (with_store_cases h) as [Hs|(kv & Hk & ->)]; [left; exact Hs|].
  destruct a as [p|]; [|by left]. destruct c as [q|]; [|by left]. unfold unless_null, byte_array. run_monad.
  case_bool_decide; [by left|]. case_bool_decide; [by left|]. right. exists kv, p, q. split_and!; try done; try lia.
  by destruct (on_store _ _ _ _) as [[u|e] s1].
Qed.

Lemma get_cases h get a b p l s :
  let s' := (get_from h get a b p l s).2 in
  same_stores s s' \/ exists kv q, s.(kv_store_pool) !! Z.to_nat h = Some (Some kv) /\ a = Some q /\ (0 <= b)%Z /\
    same_stores (on_store h kv (get (subseq (memory s) q b)) s).2 s'.
Proof.
  cbv zeta. unfold get_from. rewrite or_return_state.
  edestruct (with_store_cases h) as [Hs|(kv & Hk & ->)]; [left; exact Hs|].
  destruct a as [q|]; [|by left]. unfold unless_null, byte_array. run_monad.
  case_bool_decide; [by left|]. right. exists kv, q. split_and!; try done; try lia.
  destruct (on_store _ _ _ _) as [[v|e] s1]; [|done]. cbn [snd].
  assert (Hr : respects same_stores (return_nonempty v p l)); [|apply (Hr s1)].
  apply respects_return_nonempty; [apply _|]. intros. apply same_save_buffer.
Qed.

(** ** Calls and the state of the contract *)

(** The conditions on a call: lengths are [int], the runtime has checked the value of [key_value_set], and the
    value is not empty. *)
Definition good_call (c : native_call) s : Prop :=
  match c with
  | key_value_set _ _ b (Some q) d => (b < 2 ^ 31 /\ 0 < d < 2 ^ 31 /\ 0 <= q /\ q + d <= zlen (memory s))%Z
  | key_value_get _ _ b _ _ | privileged_key_value_get _ b _ _ => (b < 2 ^ 31)%Z
  | _ => True
  end.

(** The space a call takes in the state. *)
Definition call_cost (c : native_call) : Z :=
  match c with key_value_set _ _ b _ d => Z.max 0 (9 + d + 32 * (1 + b + 3)) | _ => 0 end.

(** The state holds a map with the privileged entries of [m0] and without empty values of the contract. *)
Definition guarded (m0 : gmap bytes bytes) s (u : Z) : Prop :=
  exists m u', store_at s 0 m u' /\ (u' <= u)%Z /\
    (forall k, m !! IKV.to_privileged_key k = m0 !! IKV.to_privileged_key k) /\
    (forall k, m !! IKV.to_unprivileged_key k <> Some []).

Lemma guarded_same m0 s s' u : same_stores s s' -> guarded m0 s u -> guarded m0 s' u.
Proof. intros Hs (m & u' & Hst & Hrest). exists m, u'. split; [by eapply store_at_same|done]. Qed.

(** An operation on the state with a key of the contract, or a privileged get. *)
Lemma guarded_operation {A} m0 s u kv (mm : M State_KV A) op k v f :
  guarded m0 s u -> s.(kv_store_pool) !! 0 = Some (Some kv) -> operation mm op k v f ->
  no_collision (wlog (on_store 0 kv mm s).2) -> (zlen k < 2 ^ 32)%Z -> (u + cost op k v + block_data_len < ADDR_LIMIT)%Z ->
  (op = GET_OP \/ op = PUT_OP /\ v <> [] /\ exists k', k = IKV.to_unprivileged_key k') ->
  guarded m0 (on_store 0 kv mm s).2 (u + cost op k v).
Proof.
  intros (m & u' & (kv' & Hk' & Hm) & Hu & Hpriv & Hne) Hk Hop Hn Hkl Hlim Hcase. change (Z.to_nat 0) with 0 in Hk'.
  rewrite Hk in Hk'. injection Hk' as <-.
  pose proof (on_store_ok 0 kv mm op k v m u' f s Hop Hk Hm Hkl ltac:(lia)) as Hc.
  assert (Hal : allowed op k m) by (destruct Hcase as [->|(-> & _ & k' & ->)]; [done|apply Hne]).
  specialize (Hc Hal Hn). unfold runs in Hc. destruct (on_store 0 kv mm s) as [[r|e] s1]; [|done].
  destruct Hc as (_ & _ & u1 & Hst & Hu1). cbn [snd]. exists (map_effect op k v m), u1. split; [done|]. split; [lia|].
  destruct Hcase as [->|(-> & Hv & k' & ->)]; [done|]. cbn [map_effect]. split; intros k1.
  - rewrite lookup_insert_ne by done. apply Hpriv.
  - rewrite lookup_insert_Some. intros [[_ ?]|[_ Hk1]]; [done|]. by apply Hne in Hk1.
Qed.

Lemma subseq_short (b : bytes) p n : (0 <= n)%Z -> (zlen (subseq b p n) <= n)%Z.
Proof. intros. unfold subseq, zlen. rewrite length_take. lia. Qed.

(** The slot of the state. *)
Definition slot0_kept s s' : Prop := s'.(kv_store_pool) !! 0 = s.(kv_store_pool) !! 0.

#[export] Instance slot0_kept_preorder : PreOrder slot0_kept.
Proof. split; [done|]. intros s1 s2 s3 H12 H23. unfold slot0_kept in *. congruence. Qed.

Lemma slot0_new_store make : respects slot0_kept (new_store make).
Proof.
  intros s. unfold new_store. run_monad. pose proof (free_slot_spec s.(kv_store_pool) 7 1 ltac:(lia)) as [Hr _].
  case_bool_decide; [done|]. destruct (make _) as [[kv|e] w]; [|done]. unfold slot0_kept. cbn [snd set_pool kv_store_pool set_env_world].
  rewrite list_lookup_insert_ne; [done|]. lia.
Qed.

Lemma slot0_native c s : 0 ∉ call_handle c -> slot0_kept s (run_native c s).2.
Proof.
  intros Hc. destruct (makes_store c) eqn:Em; [|by apply (slots_kept_native c Em)].
  pose proof slot0_new_store. assert (Hr : respects slot0_kept (run_native c)); [|apply Hr].
  destruct c; try done; cbn [run_native]; unfold_wrappers; walk.
Qed.

Lemma guarded_apart m0 s s' u :
  slot0_kept s s' -> moves_on s s' -> ordinary (wlog s') -> guarded m0 s u -> guarded m0 s' u.
Proof.
  intros Hs Hm Ho (m & u' & (kv & Hk & Hh) & Hrest). exists m, u'. split; [|done]. exists kv.
  change (Z.to_nat 0) with 0 in *. rewrite Hs. split; [done|]. by eapply holds_map_world.
Qed.

Lemma on_store_zero {A} h kv (mm : M State_KV A) : Z.to_nat h = 0 -> on_store h kv mm = on_store 0 kv mm.
Proof. intros E. unfold on_store. by rewrite E. Qed.

Lemma same_stores_log s s' : same_stores s s' -> wlog s' = wlog s.
Proof. intros [_ E]. unfold wlog. by rewrite E. Qed.

Lemma guarded_weaken m0 s u u' : (u <= u')%Z -> guarded m0 s u -> guarded m0 s u'.
Proof. intros Hu (m & u1 & Hst & Hu1 & Hrest). exists m, u1. split; [done|]. split; [lia|done]. Qed.

Lemma guarded_set m0 s u h a b c d :
  guarded m0 s u -> good_call (key_value_set h a b c d) s -> Z.to_nat h = 0 ->
  let s' := (key_value_set_wrapper h a b c d s).2 in
  ordinary (wlog s') -> (u + call_cost (key_value_set h a b c d) + block_data_len < ADDR_LIMIT)%Z ->
  guarded m0 s' (u + call_cost (key_value_set h a b c d)).
Proof.
  intros Hg Hgood Hh s' [Hn _] Hlim. cbn [call_cost] in *.
  destruct (set_cases h a b c d s) as [Hs|(kv & p & q & Hk & -> & -> & Hb & Hd & Hs)]; fold s' in Hs.
  { eapply guarded_weaken; [|by eapply guarded_same]. lia. }
  cbn [good_call] in Hgood. destruct Hgood as (Hb' & Hd' & Hq & Hqd). rewrite Hh in Hk.
  rewrite (on_store_zero h) in Hs by done. rewrite (same_stores_log _ _ Hs) in Hn.
  pose proof (subseq_short (memory s) p b Hb) as Hkl. pose proof (subseq_short (memory s) q d Hd) as Hvl.
  assert (Hcost : (cost PUT_OP (IKV.to_unprivileged_key (subseq (memory s) p b)) (subseq (memory s) q d) <=
    Z.max 0 (9 + d + 32 * (1 + b + 3)))%Z) by (unfold IKV.to_unprivileged_key; cbn [cost]; rewrite zlen_cons; lia).
  eapply guarded_weaken; [|eapply guarded_same; [exact Hs|]; eapply guarded_operation; [done|done|apply put_operation|done|..]].
  - lia.
  - unfold IKV.to_unprivileged_key. rewrite zlen_cons. lia.
  - lia.
  - right. split; [done|]. split; [|by eexists]. apply zlen_pos_not_nil. rewrite zlen_subseq; lia.
Qed.

Lemma guarded_get m0 s u h get a b p l f :
  guarded m0 s u -> Z.to_nat h = 0 -> (b < 2 ^ 31)%Z -> (forall k, exists c, operation (get k) GET_OP (c :: k) [] f) ->
  let s' := (get_from h get a b p l s).2 in
  ordinary (wlog s') -> (u + block_data_len < ADDR_LIMIT)%Z -> guarded m0 s' u.
Proof.
  intros Hg Hh Hb' Hop s' [Hn _] Hlim.
  destruct (get_cases h get a b p l s) as [Hs|(kv & q & Hk & -> & Hb & Hs)]; fold s' in Hs; [by eapply guarded_same|].
  rewrite Hh in Hk. rewrite (on_store_zero h) in Hs by done. rewrite (same_stores_log _ _ Hs) in Hn.
  destruct (Hop (subseq (memory s) q b)) as [c Hc]. pose proof (subseq_short (memory s) q b Hb).
  eapply guarded_weaken; [|eapply guarded_same; [exact Hs|]; eapply guarded_operation; [done|done|exact Hc|done|..]].
  - cbn. lia.
  - rewrite zlen_cons. lia.
  - cbn. lia.
  - by left.
Qed.

Lemma as_i32_state m s : (as_i32 m s).2 = (m s).2.
Proof. unfold as_i32, bindM. by destruct (m s) as [[]]. Qed.

(** The state is never closed. *)
Definition state_open s : Prop := exists kv, s.(kv_store_pool) !! 0 = Some (Some kv).

Lemma open_same s s' : same_stores s s' -> state_open s -> state_open s'.
Proof. intros [Hp _] [kv Hk]. exists kv. by rewrite Hp. Qed.

Lemma open_on_store {A} h kv (mm : M State_KV A) s : Z.to_nat h = 0 -> state_open s -> state_open (on_store h kv mm s).2.
Proof.
  intros Hh [kv0 Hk]. unfold on_store. destruct (mm _) as [r kv']. exists kv'. cbn. rewrite Hh.
  apply list_lookup_insert_eq. by eapply lookup_lt_Some.
Qed.

Lemma finalize_state h p l s : Z.to_nat h = 0 -> (key_value_finalize_wrapper h p l s).2 = s.
Proof.
  intros Hh. unfold key_value_finalize_wrapper. rewrite or_return_state.
  case_bool_decide; [done|]. unfold unless_null, fetch_state_from_handle. run_monad.
  by rewrite (bool_decide_eq_true_2 (h < 0)%Z) by lia.
Qed.

Lemma open_native c s : state_open s -> state_open (run_native c s).2.
Proof.
  intros Ho. destruct (decide (0 ∈ call_handle c)) as [Hin|Hout].
  - destruct c; cbn [call_handle] in Hin; try (by apply elem_of_nil in Hin); apply list_elem_of_singleton in Hin; symmetry in Hin;
      cbn [run_native]; rewrite as_i32_state.
    + destruct (set_cases h a b c d s) as [Hs|(kv & q & q' & _ & _ & _ & _ & _ & Hs)]; eapply open_same; try exact Hs; [done|].
      by apply open_on_store.
    + destruct (get_cases h IKV.UnprivilegedGet a b p l s) as [Hs|(kv & q & _ & _ & _ & Hs)]; eapply open_same; try exact Hs; [done|].
      by apply open_on_store.
    + destruct (get_cases 0 IKV.PrivilegedGet a b p l s) as [Hs|(kv & q & _ & _ & _ & Hs)]; eapply open_same; try exact Hs; [done|].
      by apply open_on_store.
    + by rewrite finalize_state.
  - destruct Ho as [kv Hk]. exists kv. by rewrite (slot0_native c s Hout).
Qed.

Lemma guarded_native c s m0 u :
  guarded m0 s u -> good_call c s -> ordinary (wlog (run_native c s).2) ->
  (u + call_cost c + block_data_len < ADDR_LIMIT)%Z -> guarded m0 (run_native c s).2 (u + call_cost c).
Proof.
  intros Hg Hgood Ho Hlim. assert (Hc : (0 <= call_cost c)%Z) by (destruct c; cbn; lia).
  destruct (decide (0 ∈ call_handle c)) as [Hin|Hout].
  - destruct c; cbn [call_handle] in Hin; try (by apply elem_of_nil in Hin); apply list_elem_of_singleton in Hin; symmetry in Hin.
    + cbn [run_native] in *. rewrite as_i32_state in *. by apply guarded_set.
    + cbn [run_native call_cost] in *. rewrite as_i32_state in *. rewrite Z.add_0_r in *.
      eapply guarded_get; try done. intros k. eexists. apply get_operation.
    + cbn [run_native call_cost] in *. rewrite as_i32_state in *. rewrite Z.add_0_r in *.
      eapply guarded_get; try done. intros k. eexists. apply privileged_get_operation.
    + cbn [run_native call_cost] in *. rewrite as_i32_state in *. rewrite Z.add_0_r in *. eapply guarded_same; [|exact Hg].
      by rewrite finalize_state.
  - eapply guarded_weaken; [|eapply guarded_apart; [by apply slot0_native|apply moves_native|done|exact Hg]]. lia.
Qed.
End Calls.

(** * A contract *)

Section Contract.
Context {OS : OpenSSL} {OL : @OpenSSLLaws OS} {OK : @OpenSSLKeys} {BS : BlockStore} {BL : BlockStoreLaws BS} {LC : LibC} {XC : X509}.
Context {W : WAMR} {E : WasmEngine}.
Implicit Types (s : wasm_env).

(** What a contract can do while it runs: change its own memory, and call the imported functions.  The number is the
    space its calls take in the state. *)
Inductive guest_run : Z -> wasm_env -> wasm_env -> Prop :=
  | gr_done s : guest_run 0 s s
  | gr_memory n s i s' : guest_run n (set_inst i s) s' -> guest_run n s s'
  | gr_call n c s s' : good_call c s -> guest_run n (run_native c s).2 s' -> guest_run (call_cost c + n) s s'.

Lemma guest_run_moves n s s' : guest_run n s s' -> moves_on s s' /\ (0 <= n)%Z.
Proof.
  induction 1 as [s|n s i s' _ [IH Hn]|n c s s' _ _ [IH Hn]]; [by split|done|]. split.
  - etransitivity; [apply moves_native|done].
  - assert (0 <= call_cost c)%Z by (destruct c; cbn; lia). lia.
Qed.

Lemma guest_run_guarded n s s' m0 u :
  guest_run n s s' -> guarded m0 s u -> ordinary (wlog s') -> (u + n + block_data_len < ADDR_LIMIT)%Z -> guarded m0 s' (u + n).
Proof.
  intros Hrun. revert u. induction Hrun as [s|n s i s' _ IH|n c s s' Hgood Hrun IH]; intros u Hg Ho Hlim.
  - by rewrite Z.add_0_r.
  - apply IH; [|done|done]. by eapply guarded_same.
  - destruct (guest_run_moves _ _ _ Hrun) as [Hm Hn]. rewrite Z.add_assoc.
    apply IH; [|done|lia]. apply guarded_native; [done|done| |lia].
    eapply ordinary_suffix; [by apply moves_on_log|done].
Qed.

Lemma guest_run_open n s s' : guest_run n s s' -> state_open s -> state_open s'.
Proof. induction 1 as [|? ? ? ? _ IH|? ? ? ? _ _ IH]; intros Ho; [done|by apply IH|by apply IH, open_native]. Qed.

(** The code of a contract runs as above, and takes at most [limit] bytes of the state. *)
Context (limit : Z).
Hypothesis limit_nonneg : (0 <= limit)%Z.
Hypothesis code_runs : forall f args s, exists n, guest_run n s (wasm_runtime_call_wasm f args s).2 /\ (n <= limit)%Z.

Lemma stores_copy_in text s : same_stores s (copy_in text s).2.
Proof. unfold copy_in. destruct (wasm_runtime_module_malloc _ _) as [p i]. by case_bool_decide. Qed.

Lemma stores_lookup name msg : respects same_stores (lookup_function name msg).
Proof. unfold lookup_function. walk. Qed.

Lemma stores_free p : respects same_stores (free_in p).
Proof. intros s. unfold free_in, whenM. by case_bool_decide. Qed.

Lemma stores_parse_response p : respects same_stores (parse_response_string p).
Proof. unfold parse_response_string. walk. Qed.

Lemma stores_check_closed : respects same_stores check_closed.
Proof. unfold check_closed. walk. Qed.

Lemma guest_run_same s s' : same_stores s s' -> guest_run 0 s s'.
Proof.
  intros [Hp Hw]. apply (gr_memory 0 s s'.(env_inst)). replace (set_inst (env_inst s') s) with s'; [constructor|].
  destruct s, s'. unfold set_inst. cbn in *. by subst.
Qed.

Lemma guest_run_trans n1 n2 s1 s2 s3 : guest_run n1 s1 s2 -> guest_run n2 s2 s3 -> guest_run (n1 + n2) s1 s3.
Proof.
  intros H12 H23. induction H12 as [s|n s i s' _ IH|n c s s' Hg _ IH]; [done|by apply (gr_memory _ _ i), IH|].
  rewrite <-Z.add_assoc. constructor; [done|by apply IH].
Qed.

(** The computation runs the contract at most once. *)
Definition runs_code {A} (m : M wasm_env A) : Prop := forall s, exists n, guest_run n s (m s).2 /\ (n <= limit)%Z.

Lemma runs_code_same {A} (m : M wasm_env A) : respects same_stores m -> runs_code m.
Proof. intros Hm s. exists 0%Z. split; [by apply guest_run_same|done]. Qed.

Lemma runs_code_before {A B'} (m : M wasm_env A) (f : A -> M wasm_env B') :
  respects same_stores m -> (forall a, runs_code (f a)) -> runs_code (bindM m f).
Proof.
  intros Hm Hf s. specialize (Hm s). unfold bindM. destruct (m s) as [[a|e] s1]; cbn [snd] in *.
  - destruct (Hf a s1) as (n & Hn & Hl). exists n. split; [|done]. apply (guest_run_trans 0 n _ s1); [by apply guest_run_same|done].
  - exists 0%Z. split; [by apply guest_run_same|done].
Qed.

Lemma runs_code_after {A B'} (m : M wasm_env A) (f : A -> M wasm_env B') :
  runs_code m -> (forall a, respects same_stores (f a)) -> runs_code (bindM m f).
Proof.
  intros Hm Hf s. destruct (Hm s) as (n & Hn & Hl). unfold bindM. destruct (m s) as [[a|e] s1]; cbn [snd] in *; [|by exists n].
  exists n. split; [|done]. rewrite <-(Z.add_0_r n). eapply guest_run_trans; [done|]. apply guest_run_same, Hf.
Qed.

Lemma runs_code_call f args : runs_code (call f args).
Proof. apply runs_code_after; [exact (code_runs f args)|]. intros [z|]; walk. Qed.

Lemma runs_code_or_zero m : runs_code m -> runs_code (result_or_zero m).
Proof.
  intros Hm s. destruct (Hm s) as (n & Hn & Hl). exists n. split; [|done]. unfold result_or_zero, catchM.
  by destruct (m s) as [[z|[]] s1].
Qed.

Lemma runs_code_evaluate args env : runs_code (evaluate_function args env).
Proof.
  pose proof stores_copy_in as Hc. pose proof stores_lookup. pose proof stores_free. unfold evaluate_function.
  apply runs_code_before; [walk|]. intros _. apply runs_code_before; [done|]. intros f.
  apply runs_code_before; [intros s; apply Hc|]. intros p0. case_bool_decide; [apply runs_code_same; walk|].
  apply runs_code_before; [intros s; apply Hc|]. intros p1. apply runs_code_after; [|intros; walk].
  apply runs_code_or_zero, runs_code_before; [walk|]. intros _. apply runs_code_call.
Qed.

Lemma runs_code_initialize env : runs_code (initialize_contract env).
Proof.
  pose proof stores_copy_in as Hc. pose proof stores_lookup. pose proof stores_free. unfold initialize_contract.
  apply runs_code_before; [done|]. intros f. apply runs_code_before; [intros s; apply Hc|]. intros p.
  apply runs_code_after; [|intros; walk].
  apply runs_code_or_zero, runs_code_before; [walk|]. intros _. apply runs_code_call.
Qed.

(** The state of the contract after a run. *)
Lemma with_contract_guarded {A} code (m : M wasm_env A) kv m0 u :
  runs_code m -> holds_map kv.(dn_io_) m0 u -> (forall k, m0 !! IKV.to_unprivileged_key k <> Some []) ->
  (u + limit + block_data_len < ADDR_LIMIT)%Z ->
  let kv' := (with_contract code m kv).2 in
  ordinary (log kv'.(dn_io_)) ->
  exists m' u', holds_map kv'.(dn_io_) m' u' /\ (u' <= u + limit)%Z /\
    (forall k, m' !! IKV.to_privileged_key k = m0 !! IKV.to_privileged_key k) /\
    (forall k, m' !! IKV.to_unprivileged_key k <> Some []).
Proof.
  intros Hrun Hm Hne Hlim kv' Ho. unfold kv', with_contract in *. destruct (load_contract_code code) as [i|e].
  2: { cbn [snd]. exists m0, u. split; [done|]. split; [lia|done]. }
  set (s0 := mk_env _ _ i _ _) in *. destruct (Hrun s0) as (n & Hn & Hl).
  assert (Hg : guarded m0 s0 u).
  { exists m0, u. split; [|split; [lia|done]]. exists kv. split; [done|]. cbn [env_world s0].
    unfold kv_world. replace (C.set_world _ _) with kv.(dn_io_) by (by destruct (dn_io_ kv)). done. }
  destruct (m s0) as [r s] eqn:Em. cbn [snd] in *.
  assert (Hk : exists kv1 pool', s.(kv_store_pool) = Some kv1 :: pool').
  { destruct (guest_run_open _ _ _ Hn) as [kv1 Hk1]; [by exists kv|]. destruct (kv_store_pool s) as [|o pool']; [done|].
    injection Hk1 as ->. by exists kv1, pool'. }
  destruct Hk as (kv1 & pool' & Hp). rewrite Hp in *.
  assert (Hgs : guarded m0 s (u + n)).
  { eapply guest_run_guarded; [done|done| |lia]. apply Ho. }
  destruct Hgs as (m' & u' & (kv2 & Hk2 & Hm2) & Hu & Hpriv & Hun). rewrite Hp in Hk2. injection Hk2 as ->.
  exists m', u'. split; [done|]. split; [lia|done].
Qed.
End Contract.

(** * Properties *)

(** C8: a message cannot change what the enclave keeps in the contract's state.  Whatever the code of the contract does
    with its memory and with the imported functions, over its state and over other stores it opens, and
    whether the message succeeds or fails, the state holds a map afterwards in which every privileged entry
    (the code, the identity and the keys of the contract) is what it was.  The contract may not store empty
    values, and its run must fit in the 4 GB of a store. *)
Theorem message_keeps_privileged {OS : OpenSSL} {OL : @OpenSSLLaws OS} {OK : @OpenSSLKeys} {BS : BlockStore}
    {BL : BlockStoreLaws BS} {LC : LibC} {XC : X509} {W : WAMR} {E : WasmEngine}
    limit ContractID CreatorID code msg hash kv m u r kv' :
  (0 <= limit)%Z ->
  (forall f args s, exists n, guest_run n s (wasm_runtime_call_wasm f args s).2 /\ (n <= limit)%Z) ->
  holds_map kv.(dn_io_) m u -> (forall k, m !! IKV.to_unprivileged_key k <> Some []) ->
  (u + limit + block_data_len < ADDR_LIMIT)%Z ->
  send_message_to_contract (ContractInterpreter := WawakaInterpreter) ContractID CreatorID code msg hash kv = (r, kv') ->
  ordinary (log kv'.(dn_io_)) ->
  exists m' u', holds_map kv'.(dn_io_) m' u' /\ (u' <= u + limit)%Z /\
    (forall k, m' !! IKV.to_privileged_key k = m !! IKV.to_privileged_key k) /\
    (forall k, m' !! IKV.to_unprivileged_key k <> Some []).
Proof.
  intros Hl Hcode Hm Hne Hlim Hrun Ho. cbn [send_message_to_contract WawakaInterpreter] in Hrun.
  unfold wawaka_send_message_to_contract in Hrun.
  match type of Hrun with with_contract ?c ?b kv = _ =>
    pose proof (with_contract_guarded limit Hl c b kv m u) as Hg end.
  rewrite Hrun in Hg. apply Hg; try done.
  pose proof stores_parse_response. pose proof stores_check_closed.
  apply (runs_code_before limit Hl); [walk|]. intros env. apply (runs_code_after limit); [by apply runs_code_evaluate|].
  intros p. walk.
Qed.
