(* ===== verification/WasmPlatform.v ===== *)
(** Instances of the WASM runtime and of the contract's allocator that satisfy their laws: one page of memory in
    which allocations follow each other and are never moved.  They show that the laws can hold and let
    the witnesses evaluate. *)
From S2P Require Import Prelude Crypto BlockStore Codec Json Keys Attestation Wasm WasmSpec ContractLib ContractSpec.

Definition page_size : Z := 4096.
Definition first_offset : Z := 16.

(** The bytes that were written, and the sizes of the allocations in their order. *)
Record toy_inst := mk_toy { toy_bytes : bytes; toy_sizes : list nat }.

(** The page, filled up with zeros. *)
Definition toy_memory (i : toy_inst) : bytes :=
  take (Z.to_nat page_size) (i.(toy_bytes) ++ replicate (Z.to_nat page_size - length i.(toy_bytes)) Byte.x00).

Fixpoint regions_from (off : Z) (sizes : list nat) : list region :=
  match sizes with [] => [] | n :: sizes => (off, Z.of_nat n) :: regions_from (off + Z.of_nat n) sizes end.

Fixpoint total (sizes : list nat) : Z := match sizes with [] => 0 | n :: sizes => Z.of_nat n + total sizes end.

Definition toy_break (i : toy_inst) : Z := first_offset + total i.(toy_sizes).

Definition toy_alloc (i : toy_inst) (b : bytes) : Z * toy_inst :=
  if bool_decide (toy_break i + zlen b <= page_size)%Z
  then (toy_break i, mk_toy (overwrite (toy_memory i) (toy_break i) b) (i.(toy_sizes) ++ [length b]))
  else (0%Z, i).

#[export] Instance toy_wamr : WAMR := {|
  module_inst := toy_inst;
  app_memory := toy_memory;
  with_memory m i := mk_toy m i.(toy_sizes);
  native_base _ := 4096%Z;
  in_use i := regions_from first_offset i.(toy_sizes);
  wasm_runtime_validate_app_addr _ off len := bool_decide (off + len <= page_size)%Z;
  wasm_runtime_module_dup_data := toy_alloc;
|}.

#[export] Instance toy_guest : Guest := {|
  convert_pointer _ off len := if bool_decide (off + len <= page_size)%Z then Some (Some off) else None;
  guest_malloc i n := toy_alloc i (replicate (Z.to_nat n) Byte.x00);
  guest_free i _ := i;
|}.

Lemma toy_memory_length i : zlen (toy_memory i) = page_size.
Proof.
  unfold toy_memory, zlen. rewrite length_take, length_app, length_replicate. unfold page_size. lia.
Qed.

Lemma toy_memory_write m sizes : zlen m = page_size -> toy_memory (mk_toy m sizes) = m.
Proof.
  intros Hm. unfold toy_memory, zlen in *. cbn [toy_bytes]. rewrite take_app_length'; [done|]. lia.
Qed.

Lemma regions_range off sizes r : r ∈ regions_from off sizes ->
  (off <= r.1 /\ 0 <= r.2 /\ r.1 + r.2 <= off + total sizes)%Z.
Proof.
  revert off. induction sizes as [|n sizes IH]; intros off; cbn [regions_from total]; [by rewrite elem_of_nil|].
  assert (Ht : (0 <= total sizes)%Z) by (clear; induction sizes; cbn; lia).
  rewrite elem_of_cons. intros [->|Hr]; cbn; [lia|]. specialize (IH _ Hr). lia.
Qed.

Lemma regions_disjoint off sizes r1 r2 : r1 ∈ regions_from off sizes -> r2 ∈ regions_from off sizes ->
  r1 = r2 \/ disjoint_regions r1 r2.
Proof.
  revert off. induction sizes as [|n sizes IH]; intros off; cbn [regions_from]; [by rewrite elem_of_nil|].
  rewrite !elem_of_cons. unfold disjoint_regions. intros [->|H1] [->|H2].
  - by left.
  - apply regions_range in H2. right. cbn. lia.
  - apply regions_range in H1. right. cbn. lia.
  - by eapply IH.
Qed.

Lemma regions_app off s1 n : regions_from off (s1 ++ [n]) = regions_from off s1 ++ [((off + total s1)%Z, Z.of_nat n)].
Proof.
  revert off. induction s1 as [|k s1 IH]; intros off; cbn [regions_from total app]; [by rewrite Z.add_0_r|].
  rewrite IH. do 4 f_equal. lia.
Qed.

Lemma total_app s1 n : total (s1 ++ [n]) = (total s1 + Z.of_nat n)%Z.
Proof. induction s1; cbn; lia. Qed.

Lemma toy_break_range i : (first_offset <= toy_break i)%Z.
Proof. unfold toy_break. assert (forall l, 0 <= total l)%Z by (intros l; induction l; cbn; lia). specialize (H (toy_sizes i)). lia. Qed.

(** What an allocation does, when there is room and when there is none. *)
Lemma toy_alloc_cases i b :
  (toy_break i + zlen b <= page_size)%Z /\ (toy_alloc i b).1 = toy_break i /\
    toy_memory (toy_alloc i b).2 = overwrite (toy_memory i) (toy_break i) b /\
    in_use (toy_alloc i b).2 = in_use i ++ [(toy_break i, zlen b)] /\ toy_break (toy_alloc i b).2 = (toy_break i + zlen b)%Z
  \/ (page_size < toy_break i + zlen b)%Z /\ toy_alloc i b = (0%Z, i).
Proof.
  unfold toy_alloc. pose proof (toy_break_range i). unfold first_offset in *. case_bool_decide as Hb; [left|right; split; [lia|done]].
  cbn [fst snd]. split_and!; try done.
  - apply toy_memory_write. rewrite zlen_overwrite; rewrite ?toy_memory_length; [done|lia|done].
  - cbn [in_use toy_wamr toy_sizes]. by rewrite regions_app.
  - unfold toy_break. cbn [toy_sizes]. rewrite total_app. unfold zlen. lia.
Qed.

Lemma toy_frame i b r : r ∈ in_use i ->
  r ∈ in_use (toy_alloc i b).2 /\ subseq (toy_memory (toy_alloc i b).2) r.1 r.2 = subseq (toy_memory i) r.1 r.2.
Proof.
  intros Hr. destruct (toy_alloc_cases i b) as [(Hl & _ & Hm & Hu & _)|(_ & ->)]; [|done].
  rewrite Hu, Hm. split; [apply elem_of_app; by left|]. pose proof (toy_break_range i). 
  apply regions_range in Hr. unfold toy_break, first_offset in *.
  apply subseq_overwrite_disjoint; rewrite ?toy_memory_length; lia.
Qed.

Lemma toy_fresh i b off i' : toy_alloc i b = (off, i') -> off <> 0%Z ->
  (0 < off)%Z /\ (off + zlen b <= zlen (toy_memory i'))%Z /\ subseq (toy_memory i') off (zlen b) = b /\
  (off, zlen b) ∈ in_use i' /\ (forall r, r ∈ in_use i -> disjoint_regions r (off, zlen b)).
Proof.
  intros E Hne. pose proof (toy_break_range i). unfold first_offset in *.
  destruct (toy_alloc_cases i b) as [(Hl & Ho & Hm & Hu & _)|(_ & E')]; rewrite E in *; [|congruence].
  cbn [fst snd] in *. subst off. rewrite Hm, Hu, toy_memory_length || rewrite Hu, toy_memory_length, Hm.
  split_and!; [lia|lia|apply subseq_overwrite_same; rewrite ?toy_memory_length; lia|apply elem_of_app; right; by apply list_elem_of_singleton|].
  intros r Hr%regions_range. unfold disjoint_regions, toy_break, first_offset in *. cbn in *. lia.
Qed.

#[export] Instance toy_wamr_laws : WAMRLaws toy_wamr.
Proof.
  split; cbn [module_inst app_memory with_memory native_base wasm_runtime_validate_app_addr wasm_runtime_module_dup_data toy_wamr].
  - intros i r1 r2. apply regions_disjoint.
  - intros i m Hm. apply toy_memory_write. by rewrite Hm, toy_memory_length.
  - done.
  - done.
  - intros i. rewrite toy_memory_length. unfold page_size. lia.
  - intros i off len _ _. by rewrite toy_memory_length.
  - intros i b. rewrite !toy_memory_length. lia.
  - intros i b r. apply toy_frame.
  - intros i b off i'. apply toy_fresh.
Qed.

#[export] Instance toy_guest_laws : GuestLaws toy_guest.
Proof.
  refine {| room i := (page_size - toy_break i)%Z; overhead := 0%Z |};
    cbn [module_inst app_memory with_memory native_base wasm_runtime_module_dup_data toy_wamr convert_pointer guest_malloc toy_guest].
  - lia.
  - done.
  - intros i off len _ _. rewrite toy_memory_length. intros. by rewrite bool_decide_eq_true_2.
  - intros i b Hb. pose proof (toy_break_range i). unfold first_offset in *.
    destruct (toy_alloc_cases i b) as [(Hl & Ho & _ & _ & Hk)|(Hl & _)]; [|lia]. rewrite Ho, Hk. split_and!; [lia|done|lia].
  - intros i n Hn Hb. pose proof (toy_break_range i). unfold first_offset in *.
    destruct (toy_alloc_cases i (replicate (Z.to_nat n) Byte.x00)) as [(Hl & Ho & _ & _ & Hk)|(Hl & _)];
      rewrite zlen_replicate in Hl; [|lia]. rewrite Ho, Hk, zlen_replicate. split; lia.
  - intros i n. rewrite !toy_memory_length. lia.
  - intros i n r. apply toy_frame.
  - intros i n p i' Hn E Hp. pose proof (toy_fresh _ _ _ _ E Hp) as (H1 & H2 & _ & H3 & H4).
    rewrite zlen_replicate, Z2Nat.id in H2, H3, H4 by lia. done.
Defined.
