(* ===== verification/WasmWitnesses.v ===== *)
(** Concrete contracts on the platforms of the other files: the witnesses of the theorems about the interpreter
    and the contract library. *)
From S2P Require Import Prelude Crypto BlockStore Codec DataNode FreeSpace Json JsonSpec StateNode Cache CacheSpec.
From S2P Require Import DataNodeIO MemorySpec Trie StateKV KVSpec Platform TrieSpec TrieHeap TrieModel TrieNodes TrieWalk TrieRefine KVRefine Persist KVWitnesses.
From S2P Require Import Keys KeysSpec Attestation EnclaveData Enclave EnclavePlatform EnclaveWitnesses Wasm WasmSpec ContractLib ContractSpec ContractKV Interpreter Isolation WasmPlatform.

(** * A contract's memory *)

(** A frame of eight bytes and then some vectors. *)
Definition toy_load (l : list bytes) : toy_inst := fold_left (fun i b => (toy_alloc i b).2) (replicate 8 Byte.x00 :: l) (mk_toy [] []).
Definition fp_w : Z := 16.

Definition env_of (l : list bytes) (pool : list (option State_KV)) (w : world) : wasm_env := mk_env _ _ (toy_load l) pool w.

Definition vec_b (s : wasm_env) (v : gvec) (b : bytes) : bool :=
  bool_decide ((v.(v_data), v.(v_size)) ∈ in_use s.(env_inst)) && bool_decide (0 < v.(v_data))%Z &&
  bool_decide (v.(v_size) = zlen b) && bool_decide (v.(v_data) + v.(v_size) <= zlen (memory s))%Z &&
  bool_decide (subseq (memory s) v.(v_data) v.(v_size) = b) && bool_decide (0 < v.(v_size) < 2 ^ 31)%Z.

Lemma vec_check s v b : vec_b s v b = true -> vec s v b.
Proof. unfold vec_b, vec, holds. rewrite !andb_true_iff, !bool_decide_eq_true. cbn [fst snd]. tauto. Qed.

Lemma frame_check s fp n : vec_b s (mk_gvec fp n) (subseq (memory s) fp n) = true -> frame s fp n.
Proof.
  intros (Hh & _)%vec_check. exists (subseq (memory s) fp n). cbn [v_data v_size] in Hh. split; [by destruct Hh as (_ & _ & ? & _)|done].
Qed.

(** The bytes of a vector of the result. *)
Definition vec_bytes (s : wasm_env) (v : gvec) : bytes := subseq (memory s) v.(v_data) v.(v_size).

Definition iv_w : bytes := replicate 12 "i"%byte.
Definition msg_w : bytes := bytes_of "secret".
Definition aes_env : wasm_env := env_of [msg_w; key0; iv_w] [] world0.

(** Decide a proposition by computation. *)
Ltac computes := lazymatch goal with
  | |- _ = true => vm_cast_no_check (eq_refl true)
  | |- ?P => apply (bool_decide_eq_true_1 P); vm_cast_no_check (eq_refl true)
  end.

Lemma contract_aes_roundtrip_witness :
  runs (encrypt_then_decrypt fp_w (mk_gvec 24 6) (mk_gvec 30 16) (mk_gvec 46 12)) aes_env
    (fun r s' => exists v, r = Some v /\ vec s' v msg_w).
Proof.
  apply (contract_aes_roundtrip aes_env fp_w (mk_gvec 24 6) (mk_gvec 30 16) (mk_gvec 46 12) msg_w key0 iv_w).
  - apply frame_check. computes.
  - split; [apply vec_check; computes|computes].
  - split; [apply vec_check; computes|computes].
  - split; [apply vec_check; computes|computes].
  - reflexivity.
  - reflexivity.
  - computes.
  - computes.
Defined.

(** Two bytes that promise a signature of 120 bytes. *)
Definition bad_signature : bytes := [byte.of_Z 60; Byte.x00].
Definition sig_env : wasm_env := env_of [msg_w; originator_text; bad_signature] [] world0.
Definition key_vec : gvec := mk_gvec 30 (zlen originator_text).
Definition sig_vec : gvec := mk_gvec (30 + zlen originator_text) 2.

Lemma malformed_signature_accepted_witness :
  runs (ww_ecdsa_verify_signature (mk_gvec 24 6) key_vec sig_vec) sig_env (fun r s' => r = true /\ s' = sig_env).
Proof.
  assert (Hk : exists pubkey, sig_PublicKey originator_text = Ok pubkey) by (eexists; vm_compute; reflexivity).
  destruct Hk as [pubkey Hk].
  apply (malformed_signature_accepted sig_env (mk_gvec 24 6) key_vec sig_vec msg_w originator_text bad_signature pubkey).
  - apply vec_check. computes.
  - apply vec_check. computes.
  - apply vec_check. computes.
  - exact Hk.
  - reflexivity.
Defined.

Lemma native_confinement_witness :
  confined (out_cells (sha256_hash 24 6 16 20)) aes_env (run_native (sha256_hash 24 6 16 20) aes_env).2.
Proof.
  apply (native_confinement (sha256_hash 24 6 16 20) aes_env (run_native (sha256_hash 24 6 16 20) aes_env).1).
  - exact I.
  - apply surjective_pairing.
  - intros w. vm_compute. discriminate.
  - discriminate.
Defined.

Definition pool_w : list (option State_KV) := Some kv0 :: replicate 7 None.
Definition store_env (l : list bytes) : wasm_env := env_of l pool_w world1.

Definition create_call : native_call := key_value_create (Some 24%Z) 16.

Lemma native_results_witness :
  result_type create_call (store_env [key0]) (run_native create_call (store_env [key0])).2 1.
Proof.
  assert (E : (run_native create_call (store_env [key0])).1 = Ok 1%Z) by computes.
  destruct (native_results create_call (store_env [key0]) (Ok 1%Z) (run_native create_call (store_env [key0])).2) as [H _].
  - rewrite <-E. apply surjective_pairing.
  - discriminate.
  - exact H.
Defined.

(** Two stores of the contract on its state, with different prefixes. *)
Definition set_env : wasm_env := store_env [bytes_of "k"; bytes_of "value"].
Definition kvs_w : KeyValueStore := mk_kvs 0 (bytes_of "token").

Lemma kv0_holds : store_at set_env 0 ∅ T.sizeof_node.
Proof.
  assert (Hn : hashes_distinct world1.(w_evicted) = true) by computes.
  exact (new_store_at world0 key0 kv0 world1 _ pool_w 0 eq_refl create_kv0 (no_collision_check _ Hn) eq_refl).
Qed.

Definition set_get_run : result (option gvec) * wasm_env :=
  set_then_get fp_w kvs_w (mk_gvec 24 1) (mk_gvec 25 5) kvs_w (mk_gvec 24 1) set_env.

Lemma contract_set_get_witness : exists o, set_get_run.1 = Ok o /\ answers o set_get_run.2 (bytes_of "value").
Proof.
  assert (Hn : hashes_distinct (wlog set_get_run.2) = true) by computes.
  apply (contract_set_get set_env fp_w kvs_w (mk_gvec 24 1) (mk_gvec 25 5) kvs_w (mk_gvec 24 1) (bytes_of "k") (bytes_of "value")
    (bytes_of "k") ∅ T.sizeof_node set_get_run.1 set_get_run.2).
  - computes.
  - reflexivity.
  - exact kv0_holds.
  - apply vec_check. computes.
  - apply vec_check. computes.
  - apply vec_check. computes.
  - apply frame_check. computes.
  - computes.
  - computes.
  - computes.
  - computes.
  - computes.
  - computes.
  - unfold set_get_run. apply surjective_pairing.
  - exact (no_collision_check _ Hn).
Defined.

(** * A contract that stores a value *)

Definition answer_text : bytes :=
  default [] (json_serialize (JObject [(bytes_of "Status", JBool true); (bytes_of "Response", JString (bytes_of "done"));
    (bytes_of "StateChanged", JBool true); (bytes_of "Dependencies", JArray [])])) ++ [Byte.x00].
Definition store_call : native_call := key_value_set 0 (Some 24%Z) 1 (Some 25%Z) 5.

(** The module has the key, the value and the answer in its memory; both of its functions store the value. *)
#[export] Instance toy_engine : WasmEngine := {|
  wasm_module := unit;
  wasm_function := unit;
  wasm_runtime_load _ := Some tt;
  wasm_runtime_instantiate _ := Some (toy_load [bytes_of "k"; bytes_of "value"; answer_text]);
  wasm_runtime_create_exec_env _ := true;
  wasm_runtime_lookup_function _ _ := Some tt;
  wasm_runtime_module_malloc i n := toy_alloc i (replicate (Z.to_nat n) Byte.x00);
  wasm_runtime_module_free i _ := i;
  wasm_runtime_get_app_addr_range _ _ := Some (0%Z, page_size);
  wasm_runtime_call_wasm _ _ := let! _ := run_native store_call in retM (Some 30%Z);
|}.

Lemma toy_code_runs f args (s : wasm_env) :
  exists n, guest_run n s (wasm_runtime_call_wasm f args s).2 /\ (n <= 174)%Z.
Proof.
  exists (call_cost store_call + 0)%Z. split; [|vm_compute; discriminate].
  assert (E : (wasm_runtime_call_wasm f args s).2 = (run_native store_call s).2).
  { cbn [wasm_runtime_call_wasm toy_engine]. unfold bindM. by destruct (run_native store_call s) as [[z|e] s1]. }
  rewrite E. apply gr_call; [|constructor]. cbn [good_call store_call]. change (memory s) with (toy_memory s.(env_inst)).
  rewrite toy_memory_length. unfold page_size. lia.
Qed.

Definition message_w : interpreter_message := mk_imsg INVOCATION_REQUEST_text (bytes_of "originator") (bytes_of "hash").
Definition message_run : result (bool * list (bytes * bytes) * bytes) * State_KV :=
  send_message_to_contract (ContractInterpreter := WawakaInterpreter) (bytes_of "id") (bytes_of "creator") (mk_icode [] [] [])
    message_w [] kv1.

Lemma message_run_ok : message_run.1 = Ok (true, [], [Byte.x22] ++ bytes_of "done" ++ [Byte.x22; Byte.x00]).
Proof. vm_cast_no_check (eq_refl message_run.1). Qed.

Lemma kv1_holds : exists u, holds_map kv1.(dn_io_) (map_after run1 ∅) u /\ (u <= 1500)%Z.
Proof.
  destruct run1_checks as (Ha & Hn & _).
  destruct (created_run world0 key0 kv0 world1 run1 (submit_all run1 kv0).1 kv1 eq_refl create_kv0 (all_allowed_check _ _ Ha)) as (_ & u & Hm & Hu).
  - vm_compute. reflexivity.
  - apply surjective_pairing.
  - exact (no_collision_check _ Hn).
  - exists u. split; [done|]. etransitivity; [exact Hu|]. vm_compute. discriminate.
Qed.

Lemma message_keeps_privileged_witness :
  exists m' u', holds_map message_run.2.(dn_io_) m' u' /\ m' !! IKV.to_privileged_key (bytes_of "meta") = Some (bytes_of "code").
Proof.
  destruct kv1_holds as (u & Hm & Hu).
  assert (Hlog : hashes_distinct (log message_run.2.(dn_io_)) && bool_decide (Forall (fun b => zlen b < 2 ^ 64)%Z (log message_run.2.(dn_io_))) = true)
    by computes.
  apply andb_true_iff in Hlog as [Hn Hl].
  assert (Hne : bool_decide (map_Forall (fun _ v => v <> []) (map_after run1 ∅)) = true) by computes.
  destruct (message_keeps_privileged 174 (bytes_of "id") (bytes_of "creator") (mk_icode [] [] []) message_w [] kv1
    (map_after run1 ∅) u message_run.1 message_run.2) as (m' & u' & Hm' & _ & Hp & _).
  - lia.
  - exact toy_code_runs.
  - exact Hm.
  - intros k Hk. apply bool_decide_eq_true in Hne. exact (Hne _ _ Hk eq_refl).
  - assert (Hlim : (1500 + 174 + block_data_len < ADDR_LIMIT)%Z) by computes. lia.
  - unfold message_run. apply surjective_pairing.
  - split; [exact (no_collision_check _ Hn)|by apply bool_decide_eq_true in Hl].
  - exists m', u'. split; [exact Hm'|]. rewrite Hp. reflexivity.
Defined.
