(* ===== verification/Values.v ===== *)
(** The JSON values of a contract: contracts/wawaka/common/Value.cpp with the rest of parson it uses,
    Response.cpp, Environment.cpp, StateReference.cpp, and Dispatch.cpp, through which the interpreter enters a
    contract.  A value owns its JSON and copies what it is given, so an object of these classes is the
    content it owns; allocations of parson succeed, as in Json. *)
From S2P Require Import Prelude Codec Json Interpreter.

(** * parson *)

Inductive JSON_Value_Type := JSONError | JSONNull | JSONString | JSONNumber | JSONObject | JSONArray | JSONBoolean.

#[global] Instance JSON_Value_Type_eq_dec : EqDecision JSON_Value_Type.
Proof. solve_decision. Defined.

(** [None] is a null pointer. *)
Definition json_value_get_type (v : option json) : JSON_Value_Type :=
  match v with
  | None => JSONError
  | Some JNull => JSONNull
  | Some (JBool _) => JSONBoolean
  | Some (JNumber _) => JSONNumber
  | Some (JString _) => JSONString
  | Some (JArray _) => JSONArray
  | Some (JObject _) => JSONObject
  end.

Definition json_object (v : option json) : option (list (bytes * json)) :=
  match v with Some (JObject l) => Some l | _ => None end.
Definition json_array (v : option json) : option (list json) :=
  match v with Some (JArray l) => Some l | _ => None end.
Definition json_string (v : option json) : option bytes :=
  match v with Some (JString s) => Some (c_str s) | _ => None end.
Definition json_number (v : option json) : Z := match v with Some (JNumber n) => n | _ => 0%Z end.
Definition json_boolean (v : option json) : Z :=
  match v with Some (JBool b) => if b then 1%Z else 0%Z | _ => (-1)%Z end.

(** The argument is a pointer to a C string, or null. *)
Definition json_value_init_string (s : option bytes) : option json :=
  match s with
  | Some s => if json_valid_string (c_str s) then Some (JString (c_str s)) else None
  | None => None
  end.

Definition init_number (bits : Z) : option json :=
  match json_value_init_number bits with Ok v => Some v | Err _ => None end.

(** The members of an object are copied in their order; a member is looked up by its name, which is that of no
    other member. *)
Fixpoint json_value_deep_copy (v : json) : option json :=
  match v with
  | JArray l => JArray <$> (fix copy (l : list json) : option (list json) :=
      match l with
      | [] => Some []
      | x :: l => c ← json_value_deep_copy x; cs ← copy l; Some (c :: cs)
      end) l
  | JObject l => JObject <$> (fix copy (l acc : list (bytes * json)) : option (list (bytes * json)) :=
      match l with
      | [] => Some acc
      | (k, x) :: l => c ← json_value_deep_copy x; acc ← json_object_add acc k c; copy l acc
      end) l []
  | JNumber n => init_number n
  | JBool _ | JString _ | JNull => Some v
  end.

(** The names between the dots of a name. *)
Fixpoint split_dots (name : bytes) : list bytes :=
  match name with
  | [] => [[]]
  | c :: name =>
      if bool_decide (c = "."%byte) then [] :: split_dots name
      else match split_dots name with n :: ns => (c :: n) :: ns | [] => [[c]] end
  end.

Fixpoint dotget (v : option json) (path : list bytes) : option json :=
  match path with
  | [] => None
  | [name] => l ← json_object v; json_object_get (JObject l) name
  | name :: path => dotget (l ← json_object v; json_object_get (JObject l) name) path
  end.
Definition json_object_dotget_value (v : option json) (name : bytes) : option json := dotget v (split_dots name).

Definition json_array_get_value (v : option json) (index : Z) : option json :=
  l ← json_array v; if bool_decide (0 <= index)%Z then l !! Z.to_nat index else None.

(** [json_array_replace_value] and [json_array_append_value], on a value of their own. *)
Definition json_array_replace_value (v : option json) (index : Z) (x : json) : option json :=
  l ← json_array v;
  if bool_decide (0 <= index < zlen l)%Z then Some (JArray (<[Z.to_nat index := x]> l)) else None.
Definition json_array_append_value (v : option json) (x : json) : option json :=
  l ← json_array v; Some (JArray (l ++ [x])).

(** * Value.cpp *)

Module Value.
Record t := mk { expected_value_type_ : JSON_Value_Type; value_ : option json }.

(** [value_ = v; expected_value_type_ = (value_ == NULL ? JSONError : json_value_get_type(value_))]. *)
Definition own (v : option json) : t := mk (json_value_get_type v) v.

Definition new : t := own (Some JNull).
Definition get_type (self : t) : JSON_Value_Type := self.(expected_value_type_).
Definition is_null (self : t) : bool := match self.(value_) with None => true | Some _ => false end.

Definition set (value : option json) : t :=
  match value with
  | None => own (Some JNull)
  | Some v => own (json_value_deep_copy v)
  end.

Section Text.
Context `{LibC}.

(** [clear_value] frees the old value only once the new one is accepted. *)
Definition deserialize (value : option bytes) (self : t) : bool * t :=
  match (text ← value; json_parse (c_str text)) with
  | None => (false, self)
  | Some v => if bool_decide (json_value_get_type (Some v) = self.(expected_value_type_)) then (true, own (Some v))
              else (false, self)
  end.

Definition serialize (self : t) : option bytes := v ← self.(value_); json_serialize v.
End Text.
End Value.

Module Boolean.
Definition new (value : bool) : Value.t := Value.own (Some (JBool value)).
(** The -1 of a value that is no boolean is true. *)
Definition get (self : Value.t) : bool := negb (bool_decide (json_boolean self.(Value.value_) = 0)%Z).
Definition set (value : bool) : bool * Value.t := (get (new value), new value).
End Boolean.

Module Str.
Definition new (value : option bytes) : Value.t := Value.own (json_value_init_string value).
Definition get (self : Value.t) : option bytes := json_string self.(Value.value_).
Definition set (value : option bytes) : option bytes * Value.t := (get (new value), new value).
End Str.

Module Number.
Definition new (value : Z) : Value.t := Value.own (init_number value).
Definition get (self : Value.t) : Z := json_number self.(Value.value_).
Definition set (value : Z) : Z * Value.t := (get (new value), new value).
End Number.

Module Object.
Definition new : Value.t := Value.own (Some (JObject [])).
(** The copy constructor. *)
Definition copy (source : Value.t) : Value.t := Value.own (v ← source.(Value.value_); json_value_deep_copy v).

Definition get_string (key : bytes) (self : Value.t) : option bytes := json_string (json_object_dotget_value self.(Value.value_) key).
Definition get_number (key : bytes) (self : Value.t) : Z := json_number (json_object_dotget_value self.(Value.value_) key).
Definition get_boolean (key : bytes) (self : Value.t) : Z := json_boolean (json_object_dotget_value self.(Value.value_) key).

(** The value that is passed in decides which type is expected. *)
Definition get_value (name : bytes) (self value : Value.t) : bool * Value.t :=
  match json_object_dotget_value self.(Value.value_) name with
  | None => (false, value)
  | Some v => if bool_decide (json_value_get_type (Some v) = Value.get_type value) then (true, Value.set (Some v))
              else (false, value)
  end.

Definition set_value (name : bytes) (value self : Value.t) : bool * Value.t :=
  match (v ← value.(Value.value_); c ← json_value_deep_copy v; l ← json_object self.(Value.value_);
         json_object_dotset_value l (split_dots name) c) with
  | Some l => (true, Value.mk self.(Value.expected_value_type_) (Some (JObject l)))
  | None => (false, self)
  end.

Definition set_string (key : bytes) (value : option bytes) : Value.t -> bool * Value.t := set_value key (Str.new value).
Definition set_number (key : bytes) (value : Z) : Value.t -> bool * Value.t := set_value key (Number.new value).
Definition set_boolean (key : bytes) (value : bool) : Value.t -> bool * Value.t := set_value key (Boolean.new value).

Definition validate_schema (schema self : Value.t) : bool :=
  match schema.(Value.value_), self.(Value.value_) with
  | Some s, Some v => json_validate s v
  | _, _ => false
  end.
Definition validate_schema_text `{LibC} (schema : bytes) (self : Value.t) : bool :=
  let '(ok, parsed_schema) := Value.deserialize (Some schema) new in
  if ok : bool then validate_schema parsed_schema self else false.
End Object.

(** [Structure] hides [set_value] only: the other setters are those of [Object], which call the [set_value] of [Object]. *)
Module Structure.
Definition new `{LibC} (schema : bytes) : Value.t := (Value.deserialize (Some schema) (Value.mk JSONObject None)).2.

Definition set_value (name : bytes) (value self : Value.t) : bool * Value.t :=
  match json_object_dotget_value self.(Value.value_) name with
  | None => (false, self)
  | Some v => if bool_decide (json_value_get_type (Some v) = Value.get_type value) then Object.set_value name value self
              else (false, self)
  end.
End Structure.

Module Arr.
Definition new : Value.t := Value.own (Some (JArray [])).
Definition get_count (self : Value.t) : Z := match json_array self.(Value.value_) with Some l => zlen l | None => 0%Z end.

Definition get_string (index : Z) (self : Value.t) : option bytes := json_string (json_array_get_value self.(Value.value_) index).
Definition get_number (index : Z) (self : Value.t) : Z := json_number (json_array_get_value self.(Value.value_) index).
Definition get_boolean (index : Z) (self : Value.t) : Z := json_boolean (json_array_get_value self.(Value.value_) index).

Definition get_value (index : Z) (self value : Value.t) : bool * Value.t :=
  match json_array_get_value self.(Value.value_) index with
  | None => (false, value)
  | Some v => if bool_decide (json_value_get_type (Some v) = Value.get_type value) then (true, Value.set (Some v))
              else (false, value)
  end.

Definition update (self : Value.t) (v : option json) : bool * Value.t :=
  match v with
  | Some v => (true, Value.mk self.(Value.expected_value_type_) (Some v))
  | None => (false, self)
  end.

Definition set_value (index : Z) (value self : Value.t) : bool * Value.t :=
  update self (v ← value.(Value.value_); c ← json_value_deep_copy v; json_array_replace_value self.(Value.value_) index c).
Definition set_string (index : Z) (value : option bytes) : Value.t -> bool * Value.t := set_value index (Str.new value).
Definition set_number (index : Z) (value : Z) : Value.t -> bool * Value.t := set_value index (Number.new value).
Definition set_boolean (index : Z) (value : bool) : Value.t -> bool * Value.t := set_value index (Boolean.new value).

Definition append_value (value self : Value.t) : bool * Value.t :=
  update self (v ← value.(Value.value_); c ← json_value_deep_copy v; json_array_append_value self.(Value.value_) c).
Definition append_string (value : option bytes) : Value.t -> bool * Value.t := append_value (Str.new value).
Definition append_number (value : Z) : Value.t -> bool * Value.t := append_value (Number.new value).
Definition append_boolean (value : bool) : Value.t -> bool * Value.t := append_value (Boolean.new value).
End Arr.

(** * Response.cpp *)

Module Response.
Definition new : Value.t :=
  let r := Object.new in
  let r := (Object.set_value (bytes_of "Status") (Boolean.new true) r).2 in
  let r := (Object.set_value (bytes_of "Response") (Boolean.new true) r).2 in
  let r := (Object.set_value (bytes_of "StateChanged") (Boolean.new false) r).2 in
  (Object.set_value (bytes_of "Dependencies") Arr.new r).2.

Section Setters.
Context `{LibC}.

Definition set_response (response self : Value.t) : bool * Value.t :=
  match Value.serialize response with
  | None => (false, self)
  | Some serialized_response => Object.set_value (bytes_of "Response") (Str.new (Some serialized_response)) self
  end.
Definition set_state_changed (state_changed : bool) (self : Value.t) : bool * Value.t :=
  Object.set_value (bytes_of "StateChanged") (Boolean.new state_changed) self.
Definition set_status (status : bool) (self : Value.t) : bool * Value.t :=
  Object.set_value (bytes_of "Status") (Boolean.new status) self.

Definition add_dependency (contract_id state_hash : option bytes) (self : Value.t) : bool * Value.t :=
  let d := Object.new in
  let d := (Object.set_value (bytes_of "ContractID") (Str.new contract_id) d).2 in
  let d := (Object.set_value (bytes_of "StateHash") (Str.new state_hash) d).2 in
  let '(found, a) := Object.get_value (bytes_of "Dependencies") self Arr.new in
  if found : bool then Object.set_value (bytes_of "Dependencies") (Arr.append_value d a).2 self
  else (false, self).

Definition value (v : Value.t) (changed : bool) (self : Value.t) : bool * Value.t :=
  (true, (set_response v (set_state_changed changed (set_status true self).2).2).2).
Definition success (changed : bool) (self : Value.t) : bool * Value.t := (true, (value (Boolean.new true) changed self).2).
Definition error (msg : option bytes) (self : Value.t) : bool * Value.t :=
  (false, (set_response (Str.new msg) (set_state_changed false (set_status false self).2).2).2).
End Setters.
End Response.

(** * Environment.cpp *)

Record Environment := mk_Environment {
  contract_id_ : bytes;
  creator_id_ : bytes;
  originator_id_ : bytes;
  state_hash_ : bytes;
  message_hash_ : bytes;
  contract_code_name_ : bytes;
  contract_code_hash_ : bytes;
}.

(** The fields that were read before a failure are not used by the caller. *)
Definition Environment_deserialize `{LibC} (contract_environment : bytes) : option Environment :=
  parsed ← json_parse (c_str contract_environment);
  l ← json_object (Some parsed);
  let get k := json_string (json_object_dotget_value (Some (JObject l)) (bytes_of k)) in
  id ← get "ContractID"; creator ← get "CreatorID"; originator ← get "OriginatorID"; state ← get "StateHash";
  message ← get "MessageHash"; name ← get "ContractCodeName"; hash ← get "ContractCodeHash";
  Some (mk_Environment id creator originator state message name hash).

(** * StateReference.cpp *)

Module StateReference.
Record t := mk { contract_id_ : bytes; state_hash_ : bytes }.

Definition STATE_REFERENCE_SCHEMA : bytes :=
  bytes_of "{" ++ KW "contract_id" (quoted EmptyString) ++ bytes_of "," ++ KW "state_hash" (quoted EmptyString) ++ bytes_of "}".

(** [set_from_environment]. *)
Definition of_environment (env : Environment) : t := mk env.(Values.contract_id_) env.(Values.state_hash_).

Section Text.
Context `{LibC}.

(** A string assigned from the null pointer [get_string] gives for a missing member. *)
Definition deserialize (reference : Value.t) : result (option t) :=
  if Object.validate_schema_text STATE_REFERENCE_SCHEMA reference
  then
    let? id := of_option (Object.get_string (bytes_of "contract_id") reference) (UndefinedBehaviour "string from a null pointer") in
    let? hash := of_option (Object.get_string (bytes_of "state_hash") reference) (UndefinedBehaviour "string from a null pointer") in
    Ok (Some (mk id hash))
  else Ok None.

(** What [serialized_reference] is set to. *)
Definition serialize (self : t) : option Value.t :=
  let reference := Structure.new STATE_REFERENCE_SCHEMA in
  let '(ok, reference) := Object.set_string (bytes_of "contract_id") (Some self.(contract_id_)) reference in
  if negb ok then None
  else
    let '(ok, reference) := Object.set_string (bytes_of "state_hash") (Some self.(state_hash_)) reference in
    if negb ok then None else Some (Value.set reference.(Value.value_)).

Definition add_to_response (self : t) (rsp : Value.t) : bool * Value.t :=
  Response.add_dependency (Some (c_str self.(contract_id_))) (Some (c_str self.(state_hash_))) rsp.
End Text.
End StateReference.

(** * Dispatch.cpp *)

Section Dispatch.
Context `{LibC} {S : Type}.

(** The methods of a contract run on the rest of its state, [S]. *)
Definition contract_method_t : Type := Value.t -> Environment -> Value.t -> M S (bool * Value.t).

Fixpoint find_method (method_name : bytes) (table : list (bytes * contract_method_t)) : option contract_method_t :=
  match table with
  | [] => None
  | (name, code) :: table => if bool_decide (method_name = name) then Some code else find_method method_name table
  end.

(** [rsp.error(msg); return rsp.serialize()]. *)
Definition error_response (msg : bytes) (rsp : Value.t) : option bytes := Value.serialize (Response.error (Some msg) rsp).2.

Definition dispatch_wrapper (contract_method_dispatch_table : list (bytes * contract_method_t)) (message environment : bytes) :
    M S (option bytes) :=
  let '(ok, msg) := Value.deserialize (Some message) Object.new in
  if negb ok then retM None
  else match Environment_deserialize environment with
  | None => retM None
  | Some env =>
      let rsp := Response.new in
      match Object.get_string (bytes_of "Method") msg with
      | None => retM (error_response (bytes_of "no function specified") rsp)
      | Some method_name =>
          let '(ok, kparams) := Object.get_value (bytes_of "KeywordParameters") msg Object.new in
          if negb ok then retM (error_response (bytes_of "missing required parameter, KeywordParameters") rsp)
          else
            let '(ok, pparams) := Object.get_value (bytes_of "PositionalParameters") msg Arr.new in
            if negb ok then retM (error_response (bytes_of "missing required parameter, PositionalParameters") rsp)
            else match find_method method_name contract_method_dispatch_table with
            | Some method_code => let! '(_, rsp) := method_code kparams env rsp in retM (Value.serialize rsp)
            | None => retM (error_response method_name rsp)
            end
      end
  end.

Definition initialize_wrapper (initialize_contract : Environment -> Value.t -> M S (bool * Value.t)) (environment : bytes) :
    M S (option bytes) :=
  match Environment_deserialize environment with
  | None => retM None
  | Some env => let! '(_, rsp) := initialize_contract env Response.new in retM (Value.serialize rsp)
  end.
End Dispatch.
