(* ===== verification/ValuesSpec.v ===== *)
(** What contracts can rely on of their JSON values, and that the two ends of a call agree: the environment and
    the message reach the method of the contract as the enclave sent them, and the enclave reads from the
    response what the contract put in it. *)
From S2P Require Import Prelude Codec Json JsonSpec StateKV EnclaveData Enclave Interpreter InterpreterSpec Values.

(** * Values that come from the parser *)

Section Parsed.
Context `{LibC}.

Definition all_wf (f : bytes -> result (json * bytes)) : Prop := forall s v rest, f s = Ok (v, rest) -> wf_json v = true.

Lemma close_wf c v s v' rest : close_with c v s = Ok (v', rest) -> v' = v.
Proof. unfold close_with. case_match; [|done]. by intros [= -> _]. Qed.

Lemma scalars_wf : all_wf parse_string_value /\ all_wf parse_boolean_value /\ all_wf parse_number_value /\ all_wf parse_null_value.
Proof.
  split_and!; intros s v rest.
  - unfold parse_string_value. destruct (get_quoted_string s) as [[x r]|]; [|done]. by intros [= <- _].
  - unfold parse_boolean_value. repeat case_match; try done; by intros [= <- _].
  - unfold parse_number_value, json_value_init_number. repeat case_match; cbn; try done; intros; simplify_eq/=; done.
  - unfold parse_null_value. case_match; [|done]. by intros [= <- _].
Qed.

Lemma wf_object_snoc l k v : wf_json (JObject l) = true -> k ∉ member_names l -> Byte.x00 ∉ k -> wf_json v = true ->
  wf_json (JObject (l ++ [(k, v)])) = true.
Proof.
  cbn [wf_json]. rewrite !andb_true_iff, !bool_decide_eq_true. intros [Hn Hl] Hk H0 Hv. split.
  - unfold member_names in *. rewrite map_app. cbn [map fst]. apply list.NoDup_app. split_and!; [done| |apply NoDup_singleton].
    intros x Hx ->%list_elem_of_singleton. done.
  - rewrite forallb_app, Hl. cbn [forallb fst snd]. by rewrite Hv, bool_decide_eq_true_2.
Qed.

Lemma wf_array_snoc l v : wf_json (JArray l) = true -> wf_json v = true -> wf_json (JArray (l ++ [v])) = true.
Proof. cbn [wf_json]. intros Hl Hv. rewrite forallb_app, Hl. cbn [forallb]. by rewrite Hv. Qed.

Lemma parsers_wf fuel :
  (forall n, all_wf (parse_value fuel n)) /\ (forall n m, wf_json (JObject m) = true -> all_wf (parse_members fuel n m)) /\
  (forall n l, wf_json (JArray l) = true -> all_wf (parse_items fuel n l)).
Proof.
  induction fuel as [|fuel (IHv & IHm & IHi)]; [by split_and!|]. destruct scalars_wf as (S1 & S2 & S3 & S4). split_and!.
  - intros n s v rest. cbn [parse_value]. repeat case_match; try done; try (by intros [= <- _]); intros Hr;
      first [by eapply IHm, Hr|by eapply IHi, Hr|by eapply S1, Hr|by eapply S2, Hr|by eapply S3, Hr|by eapply S4, Hr].
  - intros n m Hm s v rest. cbn [parse_members]. destruct (char_is Byte.x00 s); [done|].
    destruct (get_quoted_string s) as [[key s1]|]; [|done]. cbn [result_bind]. case_bool_decide as H0; [done|].
    cbn [throw_if result_bind]. destruct (negb _); [done|]. cbn [throw_if result_bind].
    destruct (parse_value fuel n _) as [[x s2]|] eqn:Hx; [|done]. cbn [result_bind]. apply IHv in Hx.
    unfold json_object_add. case_bool_decide as Hk; [done|]. cbn [result_bind].
    pose proof (wf_object_snoc _ _ _ Hm Hk H0 Hx) as Hw. repeat case_match; try (by apply IHm); by intros ->%close_wf.
  - intros n l Hl s v rest. cbn [parse_items]. destruct (char_is Byte.x00 s); [done|].
    destruct (parse_value fuel n s) as [[x s2]|] eqn:Hx; [|done]. cbn [result_bind]. apply IHv in Hx.
    pose proof (wf_array_snoc _ _ Hl Hx) as Hw. repeat case_match; try (by apply IHi); by intros ->%close_wf.
Qed.

Lemma parsed_wf s v : json_parse s = Some v -> wf_json v = true.
Proof.
  unfold json_parse, json_parse_string. destruct (parse_value _ _ _) as [[x r]|] eqn:E; [|done]. intros [= <-].
  by eapply (proj1 (parsers_wf _)).
Qed.
End Parsed.

(** * Copies *)

Lemma add_all_members l : forall acc, Forall (fun kv => json_value_deep_copy kv.2 = Some kv.2) l -> NoDup (member_names (acc ++ l)) ->
  (fix copy (l acc : list (bytes * json)) : option (list (bytes * json)) :=
      match l with
      | [] => Some acc
      | (k, x) :: l => c ← json_value_deep_copy x; acc ← json_object_add acc k c; copy l acc
      end) l acc = Some (acc ++ l).
Proof.
  induction l as [|[k x] l IH]; intros acc Hl Hn; [by rewrite app_nil_r|].
  inversion_clear Hl as [|? ? Hx Hl']. cbn [snd] in Hx. rewrite Hx. cbn [mbind option_bind].
  rewrite json_object_add_fresh; [cbn [mbind option_bind]|].
  - rewrite (IH (acc ++ [(k, x)])); [by rewrite <-app_assoc|done|by rewrite <-app_assoc].
  - unfold member_names in *. rewrite map_app in Hn. apply list.NoDup_app in Hn as (_ & Hd & _).
    intros Hk. apply (Hd k Hk). cbn. by left.
Qed.

(** A copy has the content of the value. *)
Lemma deep_copy_wf v : wf_json v = true -> json_value_deep_copy v = Some v.
Proof.
  induction v as [| | n | |l IH|l IH] using json_induction; cbn [wf_json]; try done.
  - intros Hn. cbn. unfold init_number, json_value_init_number. by rewrite Hn.
  - intros Hl. cbn [json_value_deep_copy]. change (Some (JArray l)) with (JArray <$> Some l). f_equal.
    induction IH as [|x l Hx _ IHl]; [done|]. cbn [forallb] in Hl. apply andb_true_iff in Hl as [Hwx Hwl].
    rewrite (Hx Hwx). cbn [mbind option_bind]. by rewrite (IHl Hwl).
  - rewrite andb_true_iff, bool_decide_eq_true. intros [Hn Hl]. cbn [json_value_deep_copy].
    rewrite add_all_members; [done| |done]. rewrite forallb_forall in Hl. apply list.Forall_forall. intros kv Hkv.
    rewrite list.Forall_forall in IH. apply (IH _ Hkv). apply list_elem_of_In in Hkv. specialize (Hl _ Hkv).
    by apply andb_true_iff in Hl as [_ Hl].
Qed.

Lemma wf_member l k v : wf_json (JObject l) = true -> json_object_get (JObject l) k = Some v -> wf_json v = true.
Proof.
  cbn [wf_json]. rewrite andb_true_iff. intros [_ Hl]. cbn. destruct (list_find _ l) as [[i kv]|] eqn:E; [|done]. intros [= <-].
  apply list_find_Some in E as (Hi & _). rewrite forallb_forall in Hl. apply list_elem_of_lookup_2, list_elem_of_In in Hi.
  specialize (Hl _ Hi). by apply andb_true_iff in Hl as [_ Hl].
Qed.

(** * Members by dotted names *)

Lemma member_set_get l k v : json_object_get (JObject (json_object_set_value l k v)) k = Some v.
Proof.
  induction l as [|[k0 v0] l IH]; cbn [json_object_set_value fst]; [apply json_object_get_head|].
  case_bool_decide as E; [apply json_object_get_head|]. by rewrite json_object_get_tail.
Qed.

Lemma member_set_other l k k' v : k' <> k -> json_object_get (JObject (json_object_set_value l k v)) k' = json_object_get (JObject l) k'.
Proof.
  intros Hne. induction l as [|[k0 v0] l IH]; cbn [json_object_set_value fst]; [by rewrite json_object_get_tail|].
  case_bool_decide as E; [subst; by rewrite !json_object_get_tail|].
  destruct (decide (k0 = k')) as [->|]; [by rewrite !json_object_get_head|]. by rewrite !json_object_get_tail.
Qed.

Lemma member_snoc l k v k' : json_object_get (JObject l) k = None ->
  json_object_get (JObject (l ++ [(k, v)])) k' = if bool_decide (k' = k) then Some v else json_object_get (JObject l) k'.
Proof.
  induction l as [|[k0 v0] l IH]; cbn [app]; intros Hk.
  - case_bool_decide; [subst; apply json_object_get_head|by rewrite json_object_get_tail].
  - destruct (decide (k0 = k)) as [->|Hne]; [by rewrite json_object_get_head in Hk|]. rewrite json_object_get_tail in Hk by done.
    destruct (decide (k0 = k')) as [->|]; [rewrite bool_decide_eq_false_2 by done; by rewrite !json_object_get_head|].
    rewrite !json_object_get_tail by done. by apply IH.
Qed.

(** Two paths that part at some name: neither is the beginning of the other. *)
Fixpoint diverge (p q : list bytes) : bool :=
  match p, q with
  | x :: p, y :: q => if bool_decide (x = y) then diverge p q else true
  | _, _ => false
  end.

(** A path on which every value that is there and is not the last is an object. *)
Fixpoint open_path (v : option json) (path : list bytes) : bool :=
  match path, json_object v with
  | [], _ | _, None => false
  | [_], Some _ => true
  | name :: path, Some l =>
      match json_object_get (JObject l) name with None => true | Some x => open_path (Some x) path end
  end.

Lemma dotget_cons v name n path : dotget v (name :: n :: path) = dotget (l ← json_object v; json_object_get (JObject l) name) (n :: path).
Proof. done. Qed.

Lemma dotget_None path : dotget None path = None.
Proof. induction path as [|n [|m path] IH]; [done..|]. by rewrite dotget_cons. Qed.

Lemma dotget_empty path : dotget (Some (JObject [])) path = None.
Proof. destruct path as [|n [|m path]]; [done..|]. rewrite dotget_cons. apply dotget_None. Qed.

Lemma dotset_cons l name n path v : json_object_dotset_value l (name :: n :: path) v =
  match json_object_get (JObject l) name with
  | None => sub ← json_object_dotset_value [] (n :: path) v; Some (l ++ [(name, JObject sub)])
  | Some (JObject sub) => sub ← json_object_dotset_value sub (n :: path) v; Some (json_object_set_value l name (JObject sub))
  | Some _ => None
  end.
Proof. done. Qed.

Lemma dotset_empty path v : path <> [] -> is_Some (json_object_dotset_value [] path v).
Proof.
  induction path as [|n [|m path] IH]; intros Hp; [done|by eexists|]. rewrite dotset_cons. cbn [json_object_get list_find].
  destruct (IH ltac:(done)) as [sub ->]. by eexists.
Qed.

Lemma open_cons l name n path : open_path (Some (JObject l)) (name :: n :: path) =
  match json_object_get (JObject l) name with None => true | Some x => open_path (Some x) (n :: path) end.
Proof. done. Qed.

Lemma dotset_open l path v : open_path (Some (JObject l)) path = true <-> is_Some (json_object_dotset_value l path v).
Proof.
  revert l. induction path as [|n [|m path] IH]; intros l.
  - split; [done|by intros []].
  - split; [by eexists|done].
  - rewrite open_cons, dotset_cons. destruct (json_object_get (JObject l) n) as [x|].
    + destruct x as [| | | | |sub]; try (split; [by destruct path|by intros []]).
      rewrite IH. destruct (json_object_dotset_value sub (m :: path) v); cbn; split; intros []; done || by eexists.
    + split; [|done]. intros _. destruct (dotset_empty (m :: path) v ltac:(done)) as [sub ->]. by eexists.
Qed.

Lemma dotset_get l path v l' : json_object_dotset_value l path v = Some l' -> dotget (Some (JObject l')) path = Some v.
Proof.
  revert l l'. induction path as [|n [|m path] IH]; intros l l'; [done| |].
  - intros [= <-]. cbn [dotget json_object mbind option_bind]. apply member_set_get.
  - rewrite dotset_cons, dotget_cons. cbn [json_object mbind option_bind].
    destruct (json_object_get (JObject l) n) as [[| | | | |sub]|] eqn:E; try done.
    + destruct (json_object_dotset_value sub (m :: path) v) as [sub'|] eqn:Es; [|done]. intros [= <-]. rewrite member_set_get. by eapply IH.
    + destruct (json_object_dotset_value [] (m :: path) v) as [sub'|] eqn:Es; [|done]. intros [= <-].
      rewrite member_snoc, bool_decide_eq_true_2 by done. by eapply IH.
Qed.

Lemma dotset_other l path v l' q : json_object_dotset_value l path v = Some l' -> diverge path q = true ->
  dotget (Some (JObject l')) q = dotget (Some (JObject l)) q.
Proof.
  assert (Hstep : forall l l' n q, json_object_get (JObject l') n = json_object_get (JObject l) n ->
    dotget (Some (JObject l')) (n :: q) = dotget (Some (JObject l)) (n :: q)).
  { intros l1 l2 n [|m q'] E; cbn [dotget json_object mbind option_bind]; by rewrite E. }
  revert l l' q. induction path as [|n [|m path] IH]; intros l l' [|y q] Hs; try done; cbn [diverge]; case_bool_decide as E; try done.
  - intros _. apply Hstep. injection Hs as <-. by apply member_set_other.
  - subst y. destruct q as [|z q]; [done|]. intros Hd. rewrite dotset_cons in Hs. rewrite !dotget_cons. cbn [json_object mbind option_bind].
    destruct (json_object_get (JObject l) n) as [[| | | | |sub]|] eqn:E; try done.
    + destruct (json_object_dotset_value sub (m :: path) v) as [sub'|] eqn:Es; [|done]. injection Hs as <-.
      rewrite member_set_get. by apply IH.
    + destruct (json_object_dotset_value [] (m :: path) v) as [sub'|] eqn:Es; [|done]. injection Hs as <-.
      rewrite member_snoc, bool_decide_eq_true_2 by done. rewrite dotget_None, <-(dotget_empty (z :: q)). by eapply IH.
  - intros _. apply Hstep. rewrite dotset_cons in Hs. destruct (json_object_get (JObject l) n) as [[| | | | |sub]|] eqn:En; try done.
    + destruct (json_object_dotset_value sub (m :: path) v) as [sub'|]; [|done]. injection Hs as <-. by apply member_set_other.
    + destruct (json_object_dotset_value [] (m :: path) v) as [sub'|]; [|done]. injection Hs as <-.
      by rewrite member_snoc, bool_decide_eq_false_2.
Qed.

(** * Objects *)

Definition wf_value (x : Value.t) : Prop := match x.(Value.value_) with Some v => wf_json v = true | None => True end.

Lemma member_names_set l k v : member_names (json_object_set_value l k v) = member_names l \/
  ((k ∉ member_names l) /\ member_names (json_object_set_value l k v) = member_names l ++ [k]).
Proof.
  unfold member_names. induction l as [|[k0 v0] l IH]; cbn [json_object_set_value map fst]; [right; split; [set_solver|done]|].
  case_bool_decide as E; cbn [map fst] in *; [left; by subst|]. destruct IH as [->|[Hk ->]]; [by left|right].
  split; [|done]. rewrite not_elem_of_cons. by split; [intros ->|].
Qed.

Lemma wf_set l k v : wf_json (JObject l) = true -> Byte.x00 ∉ k -> wf_json v = true -> wf_json (JObject (json_object_set_value l k v)) = true.
Proof.
  cbn [wf_json]. rewrite !andb_true_iff, !bool_decide_eq_true. intros [Hn Hl] H0 Hv. split.
  - destruct (member_names_set l k v) as [->|[Hk ->]]; [done|]. apply list.NoDup_app. split_and!; [done| |apply NoDup_singleton].
    intros x Hx ->%list_elem_of_singleton. done.
  - clear Hn. induction l as [|[k0 v0] l IH]; cbn [json_object_set_value forallb fst snd]; [by rewrite Hv, bool_decide_eq_true_2|].
    cbn [forallb fst snd] in Hl. apply andb_true_iff in Hl as [Hkv Hl].
    destruct (bool_decide (k0 = k)); cbn [forallb fst snd]; [by rewrite Hv, Hl, bool_decide_eq_true_2|]. by rewrite Hkv, IH.
Qed.

Lemma wf_dotset l path v l' : wf_json (JObject l) = true -> Forall (fun n => Byte.x00 ∉ n) path -> wf_json v = true ->
  json_object_dotset_value l path v = Some l' -> wf_json (JObject l') = true.
Proof.
  intros Hl Hp Hv. revert l l' Hl. induction Hp as [|n path Hn Hp IH]; intros l l' Hl; [done|].
  destruct path as [|m path]; [intros [= <-]; by apply wf_set|]. rewrite dotset_cons.
  destruct (json_object_get (JObject l) n) as [[| | | | |sub]|] eqn:E; try done.
  - destruct (json_object_dotset_value sub (m :: path) v) as [sub'|] eqn:Es; [|done]. intros [= <-]. apply wf_set; [done..|].
    apply (IH _ _ (wf_member _ _ _ Hl E) Es).
  - destruct (json_object_dotset_value [] (m :: path) v) as [sub'|] eqn:Es; [|done]. intros [= <-]. apply wf_object_snoc; [done| |done|].
    + intros Hin. apply list_elem_of_fmap in Hin as ([k x] & -> & Hk). apply list_elem_of_lookup in Hk as [i Hi]. cbn in E.
      destruct (list_find _ l) as [[j y]|] eqn:Ef; [done|]. apply list_find_None in Ef. rewrite list.Forall_lookup in Ef. by apply (Ef i (k, x)).
    + apply (IH [] _ eq_refl Es).
Qed.

Lemma split_dots_no_nul name : Byte.x00 ∉ name -> Forall (fun n => Byte.x00 ∉ n) (split_dots name).
Proof.
  induction name as [|c name IH]; cbn [split_dots]; [by repeat constructor|]. rewrite not_elem_of_cons. intros [Hc Hn]. specialize (IH Hn).
  case_bool_decide; [constructor; [apply not_elem_of_nil|done]|].
  destruct (split_dots name) as [|n ns]; [apply list.Forall_singleton, not_elem_of_cons; split; [done|apply not_elem_of_nil]|].
  apply list.Forall_cons in IH as [Hn1 Hns]. constructor; [by apply not_elem_of_cons|done].
Qed.

(** What [set_value] does, in every case. *)
Lemma set_value_cases name value self : wf_value value ->
  Object.set_value name value self =
  match value.(Value.value_), self.(Value.value_) with
  | Some v, Some (JObject l) =>
      match json_object_dotset_value l (split_dots name) v with
      | Some l' => (true, Value.mk self.(Value.expected_value_type_) (Some (JObject l')))
      | None => (false, self)
      end
  | _, _ => (false, self)
  end.
Proof.
  unfold wf_value, Object.set_value. destruct (Value.value_ value) as [v|]; [|done]. intros Hv. cbn [mbind option_bind].
  rewrite (deep_copy_wf _ Hv). cbn [mbind option_bind]. by destruct (Value.value_ self) as [[| | | | |l]|].
Qed.

(** The members of an object are variables named by paths: setting one succeeds exactly when there is a value and
    no value on the way is something else than an object, it is then read back, at its own type, as a
    copy, every name that parts from it keeps its value, and a failure changes nothing. *)
Theorem object_set_get name value self ok self' :
  wf_value value -> wf_value self -> Byte.x00 ∉ name -> Object.set_value name value self = (ok, self') ->
  ok = negb (Value.is_null value) && open_path self.(Value.value_) (split_dots name) /\
  wf_value self' /\ Value.get_type self' = Value.get_type self /\
  if ok then
    (forall target, Value.get_type target = json_value_get_type value.(Value.value_) ->
      Object.get_value name self' target = (true, Value.own value.(Value.value_))) /\
    (forall other, diverge (split_dots name) (split_dots other) = true ->
      json_object_dotget_value self'.(Value.value_) other = json_object_dotget_value self.(Value.value_) other)
  else self' = self.
Proof.
  intros Hv Hs H0. rewrite (set_value_cases _ _ _ Hv). unfold wf_value in Hv, Hs. unfold Value.is_null, Object.get_value, json_object_dotget_value.
  destruct (Value.value_ value) as [v|]; [|by intros [= <- <-]]. cbn [negb andb].
  assert (Hno : forall self1, json_object self1.(Value.value_) = None -> open_path self1.(Value.value_) (split_dots name) = false).
  { intros self1. destruct (split_dots name) as [|n [|m p]]; cbn [open_path]; [done| |]; by intros ->. }
  destruct (Value.value_ self) as [[| | | | |l]|] eqn:Es; try (intros [= <- <-]; pose proof (Hno self) as Hn; rewrite Es in Hn;
    rewrite Hn by done; unfold wf_value; by rewrite Es).
  pose proof (dotset_open l (split_dots name) v) as Ho. destruct (json_object_dotset_value l (split_dots name) v) as [l'|] eqn:El.
  - intros [= <- <-]. rewrite (proj2 Ho) by (by eexists). split; [done|]. unfold wf_value. cbn [Value.value_].
    split; [apply (wf_dotset _ _ _ _ Hs (split_dots_no_nul _ H0) Hv El)|]. split; [done|]. split.
    + intros target ->. rewrite (dotset_get _ _ _ _ El), bool_decide_eq_true_2 by done. cbn [Value.set]. by rewrite deep_copy_wf.
    + intros other. by apply (dotset_other _ _ _ _ _ El).
  - intros [= <- <-]. destruct (open_path (Some (JObject l)) (split_dots name)); [destruct (proj1 Ho eq_refl); done|].
    unfold wf_value. by rewrite Es.
Qed.

(** The setters of a [Structure] other than [set_value] add members its schema does not have. *)
Lemma structure_setters_unchecked `{LibC} : exists name,
  json_object_dotget_value (Structure.new StateReference.STATE_REFERENCE_SCHEMA).(Value.value_) name = None /\
  (Object.set_string name (Some []) (Structure.new StateReference.STATE_REFERENCE_SCHEMA)).1 = true /\
  (Structure.set_value name (Str.new (Some [])) (Structure.new StateReference.STATE_REFERENCE_SCHEMA)).1 = false.
Proof. exists (bytes_of "owner"). split; [|split]; vm_compute; reflexivity. Qed.

(** * The response, from the contract to the enclave *)

(** What a response says. *)
Record answer := mk_answer {
  a_status : bool;
  a_response : json;
  a_changed : bool;
  a_dependencies : list (bytes * bytes);
}.

Definition dependency_json (d : bytes * bytes) : json :=
  JObject [(bytes_of "ContractID", JString d.1); (bytes_of "StateHash", JString d.2)].
Definition answer_json (a : answer) : json := JObject
  [(bytes_of "Status", JBool a.(a_status)); (bytes_of "Response", a.(a_response)); (bytes_of "StateChanged", JBool a.(a_changed));
   (bytes_of "Dependencies", JArray (map dependency_json a.(a_dependencies)))].
Definition scalar (j : json) : Prop := match j with JBool _ | JString _ => True | _ => False end.
Definition says (a : answer) (r : Value.t) : Prop := r = Value.own (Some (answer_json a)) /\ scalar a.(a_response).

(** The operations of a response, on what it says.  A text that is not valid UTF-8 leaves the old response. *)
Inductive response_op :=
  | op_set_response (v : json)
  | op_set_state_changed (b : bool)
  | op_set_status (b : bool)
  | op_add_dependency (contract_id state_hash : bytes)
  | op_value (v : json) (changed : bool)
  | op_success (changed : bool)
  | op_error (msg : bytes).

Definition op_ok (o : response_op) : Prop :=
  match o with
  | op_set_response v | op_value v _ => wf_json v = true
  | op_add_dependency i h => json_valid_string (c_str i) = true /\ json_valid_string (c_str h) = true
  | _ => True
  end.

Section Responses.
Context `{LL : LibCLaws}.

Definition run_op (o : response_op) (r : Value.t) : Value.t :=
  match o with
  | op_set_response v => (Response.set_response (Value.own (Some v)) r).2
  | op_set_state_changed b => (Response.set_state_changed b r).2
  | op_set_status b => (Response.set_status b r).2
  | op_add_dependency i h => (Response.add_dependency (Some i) (Some h) r).2
  | op_value v b => (Response.value (Value.own (Some v)) b r).2
  | op_success b => (Response.success b r).2
  | op_error m => (Response.error (Some m) r).2
  end.

Definition text_of (v : json) : bytes := json_serialize_to_buffer_r false 0 v.
Definition respond (v : json) (a : answer) : answer :=
  if json_valid_string (text_of v) then mk_answer a.(a_status) (JString (text_of v)) a.(a_changed) a.(a_dependencies) else a.
Definition with_flags (status changed : bool) (a : answer) : answer := mk_answer status a.(a_response) changed a.(a_dependencies).

Definition do_op (o : response_op) (a : answer) : answer :=
  match o with
  | op_set_response v => respond v a
  | op_set_state_changed b => with_flags a.(a_status) b a
  | op_set_status b => with_flags b a.(a_changed) a
  | op_add_dependency i h => mk_answer a.(a_status) a.(a_response) a.(a_changed) (a.(a_dependencies) ++ [(c_str i, c_str h)])
  | op_value v b => respond v (with_flags true b a)
  | op_success b => respond (JBool true) (with_flags true b a)
  | op_error m => if json_valid_string (c_str m) then respond (JString (c_str m)) (with_flags false false a) else with_flags false false a
  end.

Lemma wf_dependencies ds : forallb wf_json (map dependency_json ds) = true.
Proof. induction ds as [|d ds IH]; [done|]. cbn [map forallb]. by rewrite IH. Qed.

Lemma wf_answer a : scalar a.(a_response) -> wf_json (answer_json a) = true.
Proof.
  intros Hs. unfold answer_json. cbn [wf_json forallb fst snd].
  assert (wf_json (a_response a) = true) as -> by (by destruct (a_response a)). rewrite wf_dependencies. vm_compute. reflexivity.
Qed.

Lemma answer_depth a : scalar a.(a_response) -> (json_depth (answer_json a) <= MAX_NESTING)%Z.
Proof.
  intros Hs. unfold answer_json. cbn [json_depth map snd fold_right].
  assert (json_depth (a_response a) = 0%Z) as -> by (by destruct (a_response a)).
  assert (fold_right Z.max 0 (map json_depth (map dependency_json (a_dependencies a))) <= 1)%Z.
  { induction (a_dependencies a) as [|d ds IH]; [done|]. cbn [map fold_right]. change (json_depth (dependency_json d)) with 1%Z. lia. }
  unfold MAX_NESTING. lia.
Qed.

Lemma c_str_text v : wf_json v = true -> c_str (text_of v) = text_of v.
Proof. intros Hw. apply c_str_id. by apply serialize_no_nul. Qed.

(** Setting one of the four members. *)
Lemma set_member_own name v l : split_dots name = [name] -> wf_json v = true ->
  Object.set_value name (Value.own (Some v)) (Value.own (Some (JObject l))) =
  (true, Value.own (Some (JObject (json_object_set_value l name v)))).
Proof. intros Hn Hv. rewrite set_value_cases by done. cbn [Value.value_ Value.own]. by rewrite Hn. Qed.

Lemma set_response_says v a : wf_json v = true -> says a (Value.own (Some (answer_json a))) ->
  says (respond v a) (Response.set_response (Value.own (Some v)) (Value.own (Some (answer_json a)))).2.
Proof.
  intros Hv [_ Hw]. unfold Response.set_response, Value.serialize, json_serialize. cbn [Value.value_ Value.own mbind option_bind].
  unfold Str.new, json_value_init_string. fold (text_of v). rewrite c_str_text by done. unfold respond.
  destruct (json_valid_string (text_of v)); [|by rewrite set_value_cases by done].
  unfold answer_json. rewrite set_member_own by (done || vm_compute; reflexivity). split; [|done]. reflexivity.
Qed.

Lemma set_flags_says st ch a :
  (Response.set_state_changed ch (Response.set_status st (Value.own (Some (answer_json a)))).2).2 =
  Value.own (Some (answer_json (with_flags st ch a))).
Proof.
  unfold Response.set_status, Response.set_state_changed, Boolean.new, answer_json.
  rewrite set_member_own by (done || vm_compute; reflexivity). cbn [snd].
  rewrite set_member_own by (done || vm_compute; reflexivity). reflexivity.
Qed.

Lemma dependency_value i h : json_valid_string (c_str i) = true -> json_valid_string (c_str h) = true ->
  (Object.set_value (bytes_of "StateHash") (Str.new (Some h)) (Object.set_value (bytes_of "ContractID") (Str.new (Some i)) Object.new).2).2 =
  Value.own (Some (dependency_json (c_str i, c_str h))).
Proof.
  intros Hi Hh. unfold Str.new, json_value_init_string, Object.new. rewrite Hi, Hh.
  rewrite set_member_own by (done || vm_compute; reflexivity). cbn [snd].
  rewrite set_member_own by (done || vm_compute; reflexivity). reflexivity.
Qed.

Lemma add_dependency_says i h a : json_valid_string (c_str i) = true -> json_valid_string (c_str h) = true ->
  says a (Value.own (Some (answer_json a))) ->
  says (do_op (op_add_dependency i h) a) (Response.add_dependency (Some i) (Some h) (Value.own (Some (answer_json a)))).2.
Proof.
  intros Hi Hh [_ Hw]. unfold Response.add_dependency. rewrite dependency_value by done.
  unfold Object.get_value. cbn [Value.value_ Value.own].
  change (json_object_dotget_value (Some (answer_json a)) (bytes_of "Dependencies")) with (Some (JArray (map dependency_json a.(a_dependencies)))).
  cbn [json_value_get_type]. rewrite bool_decide_eq_true_2 by done. cbn [Value.set].
  rewrite deep_copy_wf by apply wf_dependencies. unfold Arr.append_value. cbn [Value.value_ Value.own mbind option_bind].
  rewrite deep_copy_wf by done. cbn [mbind option_bind json_array_append_value json_array Arr.update snd Value.expected_value_type_ json_value_get_type].
  set (ds := map dependency_json (a_dependencies a) ++ _).
  change (Value.mk _ (Some (JArray ds))) with (Value.own (Some (JArray ds))).
  subst ds. cbn beta iota. unfold answer_json. rewrite set_member_own; [|vm_compute; reflexivity|cbn [wf_json]; by rewrite forallb_app, wf_dependencies].
  split; [|done]. unfold answer_json. cbn [do_op a_status a_response a_changed a_dependencies]. rewrite map_app. reflexivity.
Qed.

Lemma op_says o a r : op_ok o -> says a r -> says (do_op o a) (run_op o r).
Proof.
  intros Ho [-> Hw]. assert (Hs : forall st ch, says (with_flags st ch a) (Value.own (Some (answer_json (with_flags st ch a))))) by done.
  destruct o as [v|b|b|i h|v b|b|m]; cbn [op_ok do_op run_op Response.value Response.success Response.error snd] in *.
  - by apply set_response_says.
  - split; [|done]. unfold Response.set_state_changed, Boolean.new, answer_json.
    rewrite set_member_own by (done || vm_compute; reflexivity). reflexivity.
  - split; [|done]. unfold Response.set_status, Boolean.new, answer_json.
    rewrite set_member_own by (done || vm_compute; reflexivity). reflexivity.
  - destruct Ho. by apply add_dependency_says.
  - rewrite set_flags_says. by apply set_response_says.
  - rewrite set_flags_says. by apply set_response_says.
  - rewrite set_flags_says. unfold Str.new, json_value_init_string. destruct (json_valid_string (c_str m)); [by apply set_response_says|done].
Qed.

Definition initial_answer : answer := mk_answer true (JBool true) false [].

Lemma new_says : says initial_answer Response.new.
Proof. split; vm_compute; reflexivity. Qed.

Lemma ops_say ops a r : Forall op_ok ops -> says a r -> says (fold_left (fun a o => do_op o a) ops a) (fold_left (fun r o => run_op o r) ops r).
Proof. intros Ho. revert a r. induction Ho as [|o ops H1 _ IH]; [done|]. intros a r Hs. cbn [fold_left]. apply IH. by apply op_says. Qed.

(** What the enclave makes of an answer. *)
Definition understood (a : answer) : result invocation_response :=
  if a.(a_status)
  then Ok (mk_iresp (text_of a.(a_response) ++ [Byte.x00]) true a.(a_changed)
    (fold_left (fun m d => std_map_set m d.1 d.2) a.(a_dependencies) []))
  else match a.(a_response) with
       | JString s => Ok (mk_iresp (c_str s) false false [])
       | _ => Err (RuntimeError "invalid invocation response; failure result must be a string")
       end.

Lemma answer_members a :
  json_object_get (answer_json a) (bytes_of "Status") = Some (JBool a.(a_status)) /\
  json_object_get (answer_json a) (bytes_of "Response") = Some a.(a_response) /\
  json_object_get (answer_json a) (bytes_of "StateChanged") = Some (JBool a.(a_changed)) /\
  json_object_get (answer_json a) (bytes_of "Dependencies") = Some (JArray (map dependency_json a.(a_dependencies))).
Proof. split_and!; reflexivity. Qed.

Lemma validate_dependencies ds : json_validate DEPENDENCY (JArray (map dependency_json ds)) = true.
Proof.
  unfold DEPENDENCY. change (forallb (json_validate (dependency_json ([], []))) (map dependency_json ds) = true).
  apply forallb_forall. intros x (d & <- & _)%in_map_iff. reflexivity.
Qed.

Lemma validate_answer a : json_validate INVOCATION_RESPONSE_SCHEMA (answer_json a) = true.
Proof.
  destruct (answer_members a) as (H1 & H2 & H3 & H4). unfold INVOCATION_RESPONSE_SCHEMA, answer_json.
  rewrite validate_object by (done || by apply NoDup_check). fold (answer_json a). cbn [forallb fst snd].
  rewrite H1, H2, H3, H4. cbn [json_validate]. by rewrite validate_dependencies.
Qed.

Lemma c_str_clean b : Byte.x00 ∉ c_str b.
Proof.
  induction b as [|x b IH]; [apply not_elem_of_nil|]. cbn [c_str]. case_bool_decide; [apply not_elem_of_nil|]. by apply not_elem_of_cons.
Qed.

Definition no_nuls (ds : list (bytes * bytes)) : Prop := Forall (fun d => (Byte.x00 ∉ d.1) /\ (Byte.x00 ∉ d.2)) ds.

Lemma collect_answer ds : no_nuls ds -> forall acc,
  collect_dependencies (map dependency_json ds) acc = Ok (fold_left (fun m d => std_map_set m d.1 d.2) ds acc).
Proof.
  induction 1 as [|d ds [H1 H2] _ IH]; intros acc; [done|]. cbn [map collect_dependencies fold_left].
  change (get_cstring (dependency_json d) (bytes_of "ContractID")) with (Some (c_str d.1)).
  change (get_cstring (dependency_json d) (bytes_of "StateHash")) with (Some (c_str d.2)). cbn [of_option result_bind].
  rewrite !c_str_id by done. apply IH.
Qed.

Lemma parse_answer a : scalar a.(a_response) -> no_nuls a.(a_dependencies) ->
  parse_invocation_response (text_of (answer_json a)) = understood a.
Proof.
  intros Hs Hd. unfold parse_invocation_response. rewrite c_str_text by auto using wf_answer.
  unfold text_of. rewrite serialized_parses by auto using wf_answer, answer_depth.
  cbn [of_option result_bind]. rewrite validate_answer. destruct (answer_members a) as (H1 & H2 & H3 & H4).
  cbn [throw_if negb result_bind]. change (json_is_object (answer_json a)) with true. cbn [throw_if negb result_bind].
  unfold is_true_field, json_object_get_array. rewrite H1, H2, H3, H4. cbn [of_option result_bind]. unfold understood.
  destruct (a_status a); cbn [negb]; [|by destruct (a_response a)]. unfold json_serialize. cbn [of_option result_bind].
  by rewrite collect_answer.
Qed.

Lemma op_clean o a : no_nuls a.(a_dependencies) ->
  no_nuls (do_op o a).(a_dependencies).
Proof.
  intros Ha. destruct o as [v|b|b|i h|v b|b|m]; cbn [do_op with_flags a_dependencies]; try done; unfold respond; repeat case_match; try done.
  apply list.Forall_app. split; [done|]. apply list.Forall_singleton. split; apply c_str_clean.
Qed.

(** C20: the enclave understands what a contract answers.  Whatever sequence of its operations made the
    response, as long as the values given as responses are well-formed and the texts of dependencies are
    valid UTF-8, the response serializes, and what the interpreter reads from the text is determined by
    what the operations set.  When the last status is success: the response, the changed flag and the
    dependencies, the last dependency on a contract counting.  When it is failure: the text of the
    response and no more, the flag is false and the dependencies are dropped; and if the response is no
    string then (for instance after [set_status false] on a new response, which holds a boolean), the
    interpreter refuses the answer with an error. *)
Theorem response_understood ops : Forall op_ok ops ->
  exists text, Value.serialize (fold_left (fun r o => run_op o r) ops Response.new) = Some text /\
    parse_invocation_response text = understood (fold_left (fun a o => do_op o a) ops initial_answer).
Proof.
  intros Ho. destruct (ops_say ops _ _ Ho new_says) as [-> Hs]. eexists. split; [reflexivity|]. apply parse_answer; [done|].
  assert (Hc : no_nuls initial_answer.(a_dependencies)) by constructor.
  clear Ho Hs. revert Hc. generalize initial_answer. induction ops as [|o ops IH]; [done|]. intros a Hc. apply IH. by apply op_clean.
Qed.

(** * The environment and the message, from the enclave to the contract *)

(** The environment a contract gets. *)
Definition environment_of (ContractID CreatorID : bytes) (code : interpreter_code) (msg : interpreter_message) (hash : bytes) : Environment :=
  mk_Environment (c_str ContractID) (c_str CreatorID) (c_str msg.(OriginatorID)) (c_str (ByteArrayToBase64EncodedString hash))
    (c_str msg.(MessageHash)) (c_str code.(Name)) (c_str code.(CodeHash)).

Definition environment_json (e : Environment) : json := JObject
  [(bytes_of "ContractID", JString e.(contract_id_)); (bytes_of "CreatorID", JString e.(creator_id_));
   (bytes_of "OriginatorID", JString e.(originator_id_)); (bytes_of "StateHash", JString e.(state_hash_));
   (bytes_of "MessageHash", JString e.(message_hash_)); (bytes_of "ContractCodeName", JString e.(contract_code_name_));
   (bytes_of "ContractCodeHash", JString e.(contract_code_hash_))].

Lemma create_environment_text ContractID CreatorID code msg hash text :
  create_invocation_environment ContractID CreatorID code msg hash = Ok text ->
  text = text_of (environment_json (environment_of ContractID CreatorID code msg hash)).
Proof.
  unfold create_invocation_environment, json_object_dotset_string, json_serialize. intros Ht.
  repeat match type of Ht with
  | context [json_valid_string ?s] => destruct (json_valid_string s); cbn [of_option result_bind] in Ht; [|done]
  end.
  set (v := environment_json _). assert (Hw : wf_json v = true) by (vm_compute; reflexivity).
  change (Ok (c_str (text_of v)) = Ok text) in Ht. rewrite (c_str_text v Hw) in Ht. congruence.
Qed.

Lemma environment_read e : Environment_deserialize (text_of (environment_json e)) =
  Some (mk_Environment (c_str e.(contract_id_)) (c_str e.(creator_id_)) (c_str e.(originator_id_)) (c_str e.(state_hash_))
    (c_str e.(message_hash_)) (c_str e.(contract_code_name_)) (c_str e.(contract_code_hash_))).
Proof.
  assert (Hw : wf_json (environment_json e) = true) by (vm_compute; reflexivity).
  unfold Environment_deserialize. rewrite c_str_text by done. unfold text_of. rewrite serialized_parses by (done || vm_compute; done).
  vm_compute. reflexivity.
Qed.

Lemma environment_roundtrip ContractID CreatorID code msg hash text :
  create_invocation_environment ContractID CreatorID code msg hash = Ok text ->
  Environment_deserialize text = Some (environment_of ContractID CreatorID code msg hash).
Proof.
  intros ->%create_environment_text. rewrite environment_read. unfold environment_of.
  cbn [contract_id_ creator_id_ originator_id_ state_hash_ message_hash_ contract_code_name_ contract_code_hash_].
  by rewrite !(c_str_id (c_str _)) by apply c_str_clean.
Qed.

(** A plain name is a path of one name. *)
Lemma dotget_member l name : split_dots name = [name] -> json_object_dotget_value (Some (JObject l)) name = json_object_get (JObject l) name.
Proof. unfold json_object_dotget_value. by intros ->. Qed.

Lemma get_value_member l name v target : split_dots name = [name] -> wf_json (JObject l) = true ->
  json_object_get (JObject l) name = Some v -> Value.get_type target = json_value_get_type (Some v) ->
  Object.get_value name (Value.own (Some (JObject l))) target = (true, Value.own (Some v)).
Proof.
  intros Hn Hw Hv Ht. unfold Object.get_value. cbn [Value.value_ Value.own]. rewrite dotget_member, Hv, Ht, bool_decide_eq_true_2 by done.
  cbn [Value.set]. by rewrite deep_copy_wf by (by eapply wf_member).
Qed.

(** C21: a request the interpreter lets through runs the method it names: the contract finds the method in its table,
    passes it the keyword parameters of the request and the environment the enclave built, field by field,
    and returns the response the method leaves; only a name that is not in the table is answered
    by an error, which carries the name. *)
Theorem dispatch_runs_method {S : Type} (table : list (bytes * contract_method_t)) request environment
    ContractID CreatorID code msg hash (s : S) :
  validate_invocation_request request = Ok tt ->
  create_invocation_environment ContractID CreatorID code msg hash = Ok environment ->
  exists v method_name kparams, json_parse (c_str request) = Some v /\ get_cstring v (bytes_of "Method") = Some method_name /\
    json_object_get v (bytes_of "KeywordParameters") = Some kparams /\
    dispatch_wrapper table request environment s =
    match find_method method_name table with
    | Some method_code =>
        (let! '(_, rsp) := method_code (Value.own (Some kparams)) (environment_of ContractID CreatorID code msg hash) Response.new in
         retM (Value.serialize rsp)) s
    | None => (Ok (error_response method_name Response.new), s)
    end.
Proof.
  intros Hr He. apply environment_roundtrip in He. unfold validate_invocation_request in Hr.
  destruct (json_parse (c_str request)) as [v|] eqn:Hp; [|done]. pose proof (parsed_wf _ _ Hp) as Hw.
  destruct (json_validate INVOCATION_REQUEST_SCHEMA v) eqn:Hv; [|done].
  destruct (validate_object_inv _ _ Hv) as [l ->]. unfold INVOCATION_REQUEST_SCHEMA in Hv.
  rewrite validate_object in Hv by (done || by apply NoDup_check). cbn [forallb fst snd] in Hv.
  rewrite !andb_true_iff, !(member_iff (json_validate _)) in Hv. destruct Hv as ((m & Hm & Hms) & (p & Hpp & Hps) & (k & Hk & Hks) & _).
  rewrite validate_string in Hms. rewrite validate_any_array in Hps. rewrite validate_any_object in Hks.
  destruct m as [| | |m| |]; try done. destruct p as [| | | |p|]; try done. destruct k as [| | | | |k]; try done.
  exists (JObject l), (c_str m), (JObject k). split; [done|]. unfold get_cstring, json_object_get_string. rewrite Hm. split; [done|]. split; [done|].
  unfold dispatch_wrapper, Value.deserialize. cbn [mbind option_bind]. rewrite Hp. cbn [json_value_get_type Object.new Value.own Value.expected_value_type_].
  rewrite bool_decide_eq_true_2 by done. cbn [negb]. rewrite He. unfold Object.get_string. cbn [Value.value_].
  change (Value.mk JSONObject (Some (JObject l))) with (Value.own (Some (JObject l))).
  change (json_object_dotget_value (Value.value_ (Value.own (Some (JObject l)))) (bytes_of "Method"))
    with (json_object_get (JObject l) (bytes_of "Method")). rewrite Hm. cbn [json_string].
  rewrite (get_value_member l _ (JObject k)) by (done || vm_compute; reflexivity). cbn [negb].
  rewrite (get_value_member l _ (JArray p)) by (done || vm_compute; reflexivity). cbn [negb]. by destruct (find_method (c_str m) table).
Qed.
End Responses.
