(* ===== verification/ValuesWitnesses.v ===== *)
(** Concrete values, responses and requests: the witnesses of the theorems about the values of a contract. *)
From S2P Require Import Prelude Codec Json JsonSpec Platform EnclaveData Enclave Interpreter InterpreterSpec Values ValuesSpec.

(** An object with a number inside an object. *)
Definition settings : Value.t := (Object.set_number (bytes_of "limits.upper") 0 Object.new).2.
Definition renamed : Value.t := (Object.set_string (bytes_of "owner.name") (Some (bytes_of "alice")) settings).2.

Lemma object_set_get_witness :
  Object.set_value (bytes_of "owner.name") (Str.new (Some (bytes_of "alice"))) settings = (true, renamed) /\
  Object.get_value (bytes_of "owner.name") renamed (Str.new (Some [])) = (true, Str.new (Some (bytes_of "alice"))) /\
  json_object_dotget_value renamed.(Value.value_) (bytes_of "limits.upper") = Some (JNumber 0).
Proof.
  assert (Hn : Byte.x00 ∉ bytes_of "owner.name") by (apply (bool_decide_unpack _); vm_compute; exact I).
  destruct (object_set_get (bytes_of "owner.name") (Str.new (Some (bytes_of "alice"))) settings true renamed
    ltac:(vm_compute; reflexivity) ltac:(vm_compute; reflexivity) Hn ltac:(vm_compute; reflexivity)) as (_ & _ & _ & Hget & Hother).
  split; [vm_compute; reflexivity|]. split.
  - exact (Hget (Str.new (Some [])) eq_refl).
  - rewrite (Hother (bytes_of "limits.upper") ltac:(vm_compute; reflexivity)). vm_compute. reflexivity.
Defined.

(** A method that returns a value after it has named the states it depends on. *)
Definition answer_ops : list response_op :=
  [op_add_dependency (bytes_of "b") (bytes_of "1"); op_add_dependency (bytes_of "a") (bytes_of "2");
   op_add_dependency (bytes_of "b") (bytes_of "3"); op_value (JArray [JNull]) true].

Lemma response_understood_witness :
  exists text, Value.serialize (fold_left (fun r o => run_op o r) answer_ops Response.new) = Some text /\
    parse_invocation_response text =
    Ok (mk_iresp (json_serialize_string (bytes_of "[null]") ++ [Byte.x00]) true true
      [(bytes_of "a", bytes_of "2"); (bytes_of "b", bytes_of "3")]).
Proof.
  destruct (response_understood answer_ops) as (text & Ht & Hp).
  - repeat constructor.
  - exists text. split; [exact Ht|]. rewrite Hp. vm_compute. reflexivity.
Defined.

(** A contract with one method, which returns its parameters. *)
Definition echo_table : list (bytes * @contract_method_t unit) :=
  [(bytes_of "echo", fun kparams env rsp => retM (Response.value kparams false rsp))].
Definition echo_request : bytes :=
  bytes_of "{" ++ KW "Method" (quoted "echo") ++ bytes_of "," ++ KW "PositionalParameters" (bytes_of "[]") ++ bytes_of "," ++
  KW "KeywordParameters" (bytes_of "{" ++ KW "k" (quoted "v") ++ bytes_of "}") ++ bytes_of "}".
Definition echo_code : interpreter_code := mk_icode (bytes_of "code") (bytes_of "name") (bytes_of "hash").
Definition echo_message : interpreter_message := mk_imsg echo_request (bytes_of "originator") (bytes_of "hash").

Lemma dispatch_runs_method_witness : exists environment,
  create_invocation_environment (bytes_of "id") (bytes_of "creator") echo_code echo_message [] = Ok environment /\
  (dispatch_wrapper echo_table echo_request environment tt).1 =
  Ok (Value.serialize (Response.value (Value.own (Some (JObject [(bytes_of "k", JString (bytes_of "v"))]))) false Response.new).2).
Proof.
  eexists. split; [vm_compute; reflexivity|].
  match goal with |- (dispatch_wrapper _ _ ?e _).1 = _ =>
    destruct (dispatch_runs_method echo_table echo_request e (bytes_of "id") (bytes_of "creator") echo_code echo_message [] tt
      ltac:(vm_compute; reflexivity) ltac:(vm_compute; reflexivity)) as (v & m & k & Hv & Hm & Hk & Hd) end.
  rewrite Hd. vm_compute in Hv. injection Hv as <-. vm_compute in Hm. injection Hm as <-. vm_compute in Hk. injection Hk as <-.
  vm_compute. reflexivity.
Defined.
