(* ===== verification/ContractBase.v ===== *)
(** The contract code that comes with the library: contracts/wawaka/common/Secret.cpp, contract/base.cpp and
    contract/attestation.cpp.  They are written against what Cryptography.cpp and KeyValue.cpp promise, the class
    [ContractServices]; ContractServices.v shows that the library over the interpreter keeps the promise.
    [S] is the state of the contract and of what it reaches through the interpreter. *)
From S2P Require Import Prelude Codec Json Interpreter Values.

(** The methods of a [KeyValueStore] of the contract's own state take its prefix first.  A [None] is a call that
    returned false. *)
Class ContractServices (S : Type) := {
  kv_get : bytes -> bytes -> M S (option bytes);
  kv_set : bytes -> bytes -> bytes -> M S bool;
  kv_get_uint32 : bytes -> bytes -> M S (option Z);
  kv_set_uint32 : bytes -> bytes -> Z -> M S bool;
  privileged_get : bytes -> M S (option bytes);
  sv_b64_encode : bytes -> M S (option bytes);
  sv_b64_decode : bytes -> M S (option bytes);
  sv_crypto_hash : bytes -> M S (option bytes);
  sv_aes_generate_key : M S (option bytes);
  sv_aes_generate_iv : M S (option bytes);
  sv_aes_encrypt : bytes -> bytes -> bytes -> M S (option bytes);
  sv_aes_decrypt : bytes -> bytes -> bytes -> M S (option bytes);
  sv_rsa_encrypt : bytes -> bytes -> M S (option bytes);
  sv_rsa_decrypt : bytes -> bytes -> M S (option bytes);
  sv_ecdsa_verify : bytes -> bytes -> bytes -> M S bool;
}.

Section Contracts.
Context {S : Type} `{CS : ContractServices S} `{LibC}.

(** [if (! call(..., result)) return b;]. *)
Definition or_give {A B} (call : M S (option A)) (b : B) (k : A -> M S B) : M S B :=
  let! o := call in match o with Some a => k a | None => retM b end.
Definition or_fail {B} (call : M S bool) (b : B) (k : M S B) : M S B :=
  let! ok := call in if ok : bool then k else retM b.

(** [std::string s(object.get_string(key))]. *)
Definition string_of_member (o : Value.t) (key : string) : M S bytes :=
  liftM (of_option (Object.get_string (bytes_of key) o) (UndefinedBehaviour "string from a null pointer")).

(** A schema: the names of the members, each with the text of an example. *)
Fixpoint schema_text (members : list (string * bytes)) : bytes :=
  match members with
  | [] => []
  | [(name, v)] => KW name v
  | (name, v) :: members => KW name v ++ bytes_of "," ++ schema_text members
  end.
Definition schema (members : list (string * bytes)) : bytes := bytes_of "{" ++ schema_text members ++ bytes_of "}".
Definition a_string : bytes := quoted EmptyString.

(** * Secret.cpp *)

Definition CONTRACT_SECRET_SCHEMA : bytes :=
  schema [("encrypted_session_key", a_string); ("session_key_iv", a_string); ("encrypted_message", a_string)].

(** The object that carries a secret. *)
Definition secret_members (encoded_session_key encoded_iv encoded_cipher : bytes) (secret_object : Value.t) : Value.t :=
  let o := (Object.set_string (bytes_of "encrypted_session_key") (Some encoded_session_key) secret_object).2 in
  let o := (Object.set_string (bytes_of "session_key_iv") (Some encoded_iv) o).2 in
  (Object.set_string (bytes_of "encrypted_message") (Some encoded_cipher) o).2.

Definition send_secret (encryption_key message_string : bytes) (secret_object : Value.t) : M S (bool * Value.t) :=
  let failed := (false, secret_object) in
  or_give sv_aes_generate_key failed (fun session_key =>
  or_give sv_aes_generate_iv failed (fun iv =>
  or_give (sv_aes_encrypt message_string session_key iv) failed (fun cipher =>
  or_give (sv_b64_encode cipher) failed (fun encoded_cipher =>
  or_give (sv_rsa_encrypt session_key encryption_key) failed (fun encrypted_session_key =>
  or_give (sv_b64_encode encrypted_session_key) failed (fun encoded_session_key =>
  or_give (sv_b64_encode iv) failed (fun encoded_iv =>
  retM (true, secret_members encoded_session_key encoded_iv encoded_cipher secret_object)))))))).

Definition send_secret_text (encryption_key message_string : bytes) : M S (option bytes) :=
  let! '(ok, secret_object) := send_secret encryption_key message_string Object.new in
  if negb ok then retM None else retM (c_str <$> Value.serialize secret_object).

Definition recv_secret (decryption_key : bytes) (secret_object : Value.t) : M S (option bytes) :=
  if negb (Object.validate_schema_text CONTRACT_SECRET_SCHEMA secret_object) then retM None
  else
    let! encoded_session_key := string_of_member secret_object "encrypted_session_key" in
    let! encoded_iv := string_of_member secret_object "session_key_iv" in
    let! encoded_cipher := string_of_member secret_object "encrypted_message" in
    or_give (sv_b64_decode encoded_iv) None (fun iv =>
    or_give (sv_b64_decode encoded_session_key) None (fun encrypted_session_key =>
    or_give (sv_rsa_decrypt encrypted_session_key decryption_key) None (fun session_key =>
    or_give (sv_b64_decode encoded_cipher) None (fun cipher =>
    or_give (sv_aes_decrypt cipher session_key iv) None (fun message => retM (Some message)))))).

Definition recv_secret_text (decryption_key encrypted_message_string : bytes) : M S (option bytes) :=
  let '(ok, secret_object) := Value.deserialize (Some encrypted_message_string) Object.new in
  if negb ok then retM None else recv_secret decryption_key secret_object.

(** * contract/base.cpp *)

Definition contract_base_store : bytes := bytes_of "contract_base".
Definition md_owner_key : bytes := bytes_of "owner".
Definition md_initialized_key : bytes := bytes_of "initialized".

Definition set_owner (owner : bytes) : M S bool := kv_set contract_base_store md_owner_key owner.
Definition get_owner : M S (option bytes) := kv_get contract_base_store md_owner_key.

Definition base_initialize_contract (env : Environment) : M S bool :=
  or_fail (kv_set_uint32 contract_base_store md_initialized_key 0) false (
  or_fail (set_owner env.(creator_id_)) false (retM true)).

Definition mark_initialized : M S bool :=
  or_fail (kv_set_uint32 contract_base_store md_initialized_key 1) false (retM true).
Definition is_initialized : M S bool :=
  let! o := kv_get_uint32 contract_base_store md_initialized_key in
  retM (match o with Some initialized => bool_decide (initialized = 1)%Z | None => false end).

Definition get_verifying_key : M S (option bytes) := privileged_get (bytes_of "ContractKeys.Verifying").
Definition get_signing_key : M S (option bytes) := privileged_get (bytes_of "ContractKeys.Signing").
Definition get_encryption_key : M S (option bytes) := privileged_get (bytes_of "ContractKeys.Encryption").
Definition get_decryption_key : M S (option bytes) := privileged_get (bytes_of "ContractKeys.Decryption").

(** The methods that give a key to a caller. *)
Definition method_get_verifying_key : contract_method_t := fun msg env rsp =>
  or_give get_verifying_key (Response.error (Some (bytes_of "corrupted state; verifying key not found")) rsp)
    (fun k => retM (Response.value (Str.new (Some k)) false rsp)).
Definition method_get_encryption_key : contract_method_t := fun msg env rsp =>
  or_give get_encryption_key (Response.error (Some (bytes_of "corrupted state; encryption key not found")) rsp)
    (fun k => retM (Response.value (Str.new (Some k)) false rsp)).

(** * contract/attestation.cpp *)

Definition contract_attestation_store : bytes := bytes_of "meta".
Definition contract_endpoint_store : bytes := bytes_of "endpoint".
Definition code_hash_key : bytes := bytes_of "code-hash".
Definition ledger_key : bytes := bytes_of "ledger-key".

Definition LEDGER_ATTESTATION_SCHEMA : bytes :=
  schema [("contract_code_hash", a_string); ("metadata_hash", a_string); ("signature", a_string)].
Definition CONTRACT_METADATA_SCHEMA : bytes := schema [("verifying_key", a_string); ("encryption_key", a_string)].
Definition CONTRACT_CODE_METADATA_SCHEMA : bytes := schema [("code_hash", a_string); ("code_nonce", a_string)].
Definition SET_LEDGER_KEY_PARAM_SCHEMA : bytes := schema [("ledger_verifying_key", a_string)].
Definition ADD_ENDPOINT_PARAM_SCHEMA : bytes :=
  schema [("contract_id", a_string); ("ledger_attestation", LEDGER_ATTESTATION_SCHEMA);
    ("contract_metadata", CONTRACT_METADATA_SCHEMA); ("contract_code_metadata", CONTRACT_CODE_METADATA_SCHEMA)].

Definition set_ledger_key (ledger_verifying_key : bytes) : M S bool := kv_set contract_attestation_store ledger_key ledger_verifying_key.
Definition get_ledger_key : M S (option bytes) := kv_get contract_attestation_store ledger_key.
Definition set_code_hash (code_hash : bytes) : M S bool := kv_set contract_attestation_store code_hash_key code_hash.
Definition get_code_hash : M S (option bytes) := kv_get contract_attestation_store code_hash_key.

Definition compute_code_hash : M S (option bytes) :=
  or_give (privileged_get (bytes_of "ContractCode.Code")) None (fun code_buffer =>
  or_give (privileged_get (bytes_of "ContractCode.Name")) None (fun name => sv_crypto_hash (code_buffer ++ name))).

Definition attestation_initialize_contract (env : Environment) : M S bool :=
  or_fail (set_ledger_key []) false (or_fail (set_code_hash []) false (retM true)).

(** [rsp.error(msg)] as the result of a method. *)
Definition refuse_with (msg : string) (rsp : Value.t) : M S (bool * Value.t) := retM (Response.error (Some (bytes_of msg)) rsp).
(** [if (! condition) return rsp.error(msg);], also [ASSERT_SUCCESS]. *)
Definition require (condition : bool) (msg : string) (rsp : Value.t) (k : M S (bool * Value.t)) : M S (bool * Value.t) :=
  if condition then k else refuse_with msg rsp.
Definition or_refuse {A} (call : M S (option A)) (msg : string) (rsp : Value.t) (k : A -> M S (bool * Value.t)) : M S (bool * Value.t) :=
  or_give call (Response.error (Some (bytes_of msg)) rsp) k.
(** [ASSERT_SENDER_IS_CREATOR]. *)
Definition sender_is_creator (env : Environment) (rsp : Value.t) (k : M S (bool * Value.t)) : M S (bool * Value.t) :=
  require (bool_decide (env.(creator_id_) = env.(originator_id_))) "only the owner may invoke this method" rsp k.

(** [ASSERT_INITIALIZED], [ASSERT_UNINITIALIZED] and [ASSERT_SENDER_IS_OWNER]. *)
Definition assert_initialized (rsp : Value.t) (k : M S (bool * Value.t)) : M S (bool * Value.t) :=
  let! initialized := is_initialized in require initialized "contract is not initialized" rsp k.
Definition assert_uninitialized (rsp : Value.t) (k : M S (bool * Value.t)) : M S (bool * Value.t) :=
  let! initialized := is_initialized in require (negb initialized) "contract is already initialized" rsp k.
Definition sender_is_owner (env : Environment) (rsp : Value.t) (k : M S (bool * Value.t)) : M S (bool * Value.t) :=
  or_refuse get_owner "failed to retrieve owner" rsp (fun owner =>
  require (bool_decide (env.(originator_id_) = owner)) "only the owner may invoke this method" rsp k).

Definition method_set_ledger_key : contract_method_t := fun msg env rsp =>
  sender_is_creator env rsp (
  require (Object.validate_schema_text SET_LEDGER_KEY_PARAM_SCHEMA msg) "invalid request, missing required parameters" rsp (
  let! ledger_verifying_key := string_of_member msg "ledger_verifying_key" in
  let! ok := set_ledger_key ledger_verifying_key in
  require ok "failed to save the ledger verifying key" rsp (retM (Response.success true rsp)))).

Definition method_get_ledger_key : contract_method_t := fun msg env rsp =>
  or_refuse get_ledger_key "failed to get the ledger verifying key" rsp
    (fun k => retM (Response.value (Str.new (Some k)) false rsp)).

Definition method_get_contract_metadata : contract_method_t := fun msg env rsp =>
  or_refuse get_verifying_key "failed to retreive privileged value for ContractKeys.Verifying" rsp (fun verifying_key =>
  or_refuse get_encryption_key "failed to retreive privileged value for ContractKeys.Encryption" rsp (fun encryption_key =>
  let result := Structure.new CONTRACT_METADATA_SCHEMA in
  let result := (Object.set_string (bytes_of "verifying_key") (Some verifying_key) result).2 in
  let result := (Object.set_string (bytes_of "encryption_key") (Some encryption_key) result).2 in
  retM (Response.value result false rsp))).

Definition method_get_contract_code_metadata : contract_method_t := fun msg env rsp =>
  sender_is_creator env rsp (
  or_refuse (privileged_get (bytes_of "ContractCode.Nonce")) "unexpected error: failed to retreive code nonce" rsp (fun code_nonce =>
  or_refuse compute_code_hash "unexpected error: failed to retrieve code hash" rsp (fun code_hash =>
  or_refuse (sv_b64_encode code_hash) "unexpected error: failed to encode code hash" rsp (fun encoded_code_hash =>
  let result := Structure.new CONTRACT_CODE_METADATA_SCHEMA in
  let result := (Object.set_string (bytes_of "code_nonce") (Some code_nonce) result).2 in
  let result := (Object.set_string (bytes_of "code_hash") (Some encoded_code_hash) result).2 in
  retM (Response.value result false rsp))))).

Definition add_endpoint (contract_id verifying_key encryption_key : bytes) : M S bool :=
  let e := Object.new in
  let e := (Object.set_string (bytes_of "verifying_key") (Some verifying_key) e).2 in
  let e := (Object.set_string (bytes_of "encryption_key") (Some encryption_key) e).2 in
  match Value.serialize e with
  | None => retM false
  | Some text => or_fail (kv_set contract_endpoint_store contract_id (c_str text)) false (retM true)
  end.

Definition get_endpoint (contract_id : bytes) : M S (option (bytes * bytes)) :=
  or_give (kv_get contract_endpoint_store contract_id) None (fun text =>
  let '(ok, e) := Value.deserialize (Some text) Object.new in
  if negb ok then retM None
  else
    let! verifying_key := string_of_member e "verifying_key" in
    let! encryption_key := string_of_member e "encryption_key" in
    retM (Some (verifying_key, encryption_key))).

(** The three blocks of [add_endpoint]; each goes on with [k] when its check passes. *)
Definition check_ledger_signature (key contract_id creator ledger_code_hash ledger_meta_hash ledger_signature : bytes) (rsp : Value.t)
    (k : M S (bool * Value.t)) : M S (bool * Value.t) :=
  or_refuse (sv_b64_decode ledger_signature) "failed to decode ledger signature" rsp (fun signature =>
  let! ok := sv_ecdsa_verify (contract_id ++ creator ++ ledger_code_hash ++ ledger_meta_hash) key signature in
  require ok "failed to verify ledger signature" rsp k).

Definition check_code_hash (code_nonce ledger_code_hash : bytes) (rsp : Value.t) (k : M S (bool * Value.t)) : M S (bool * Value.t) :=
  or_refuse get_code_hash "failed to retrieve code hash" rsp (fun decoded_code_hash =>
  or_refuse (sv_crypto_hash code_nonce) "failed to hash code nonce" rsp (fun decoded_nonce_hash =>
  or_refuse (sv_crypto_hash (decoded_code_hash ++ decoded_nonce_hash)) "failed to create the code hash root" rsp (fun root =>
  or_refuse (sv_b64_decode ledger_code_hash) "failed to decoded ledger code hash" rsp (fun decoded_ledger_code_hash =>
  require (bool_decide (decoded_ledger_code_hash = root)) "attestation of code hash failed" rsp k)))).

Definition check_metadata_hash (contract_id verifying_key encryption_key ledger_meta_hash : bytes) (rsp : Value.t)
    (k : M S (bool * Value.t)) : M S (bool * Value.t) :=
  or_refuse (sv_b64_decode contract_id) "failed to decode the contract id" rsp (fun idhash =>
  or_refuse (sv_crypto_hash (idhash ++ verifying_key ++ encryption_key)) "failed to compute the hash for metadata comparison" rsp (fun computed_hash =>
  or_refuse (sv_b64_decode ledger_meta_hash) "failed to decoded ledger code hash" rsp (fun decoded_ledger_meta_hash =>
  require (bool_decide (computed_hash = decoded_ledger_meta_hash)) "computed metadata hash not the same as the stored hash" rsp k))).

(** The first test can only be true of a key that was read, and is never true. *)
Definition method_add_endpoint : contract_method_t := fun msg env rsp =>
  let! o := get_ledger_key in
  let key := default [] o in
  require (negb (bool_decide (o = None) && bool_decide (0 < zlen key)%Z)) "contract has not been initialized" rsp (
  require (Object.validate_schema_text ADD_ENDPOINT_PARAM_SCHEMA msg) "invalid request, missing required parameters" rsp (
  let! contract_id := string_of_member msg "contract_id" in
  let! ledger_code_hash := string_of_member msg "ledger_attestation.contract_code_hash" in
  let! ledger_meta_hash := string_of_member msg "ledger_attestation.metadata_hash" in
  let! ledger_signature := string_of_member msg "ledger_attestation.signature" in
  let! verifying_key := string_of_member msg "contract_metadata.verifying_key" in
  let! encryption_key := string_of_member msg "contract_metadata.encryption_key" in
  let! code_nonce := string_of_member msg "contract_code_metadata.code_nonce" in
  let creator := env.(originator_id_) in
  check_ledger_signature key contract_id creator ledger_code_hash ledger_meta_hash ledger_signature rsp (
  check_code_hash code_nonce ledger_code_hash rsp (
  check_metadata_hash contract_id verifying_key encryption_key ledger_meta_hash rsp (
  let! ok := add_endpoint contract_id verifying_key encryption_key in
  require ok "unexpected error, failed to store endpoint information" rsp (retM (Response.success true rsp))))))).
End Contracts.
