(* ===== verification/ContractServices.v ===== *)
(** What Cryptography.cpp and KeyValue.cpp promise to the code of a contract, as laws of [ContractServices], and
    that the library over the interpreter keeps the promise: the instance [wasm_services] runs the functions of
    ContractLib on the linear memory of the contract. *)
From S2P Require Import Prelude Crypto BlockStore Codec DataNode FreeSpace Json JsonSpec StateNode Cache CacheSpec.
From S2P Require Import DataNodeIO MemorySpec Trie StateKV KVSpec Platform TrieSpec TrieHeap TrieModel TrieNodes TrieWalk TrieRefine KVRefine.
From S2P Require Import Keys Attestation EnclaveData Enclave Wasm WasmSpec ContractLib ContractSpec ContractKV Interpreter Isolation Values ContractBase.

(** * The laws *)

Section Runs.
Context {S : Type} (sound : S -> Prop).

(** If nothing has gone wrong in the block store when [m] is done, [m] has returned, and [Q] holds. *)
Definition completes {A} (m : M S A) (s : S) (Q : A -> S -> Prop) : Prop :=
  sound (m s).2 -> match m s with (Ok a, s') => Q a s' | _ => False end.

(** What has gone wrong is not undone. *)
Definition keeps {A} (m : M S A) : Prop := forall s, sound (m s).2 -> sound s.

Lemma sound_ret {A} (a : A) : keeps (retM a).
Proof. by intros s. Qed.
Lemma sound_lift {A} (r : result A) : keeps (liftM r).
Proof. by intros s. Qed.
Lemma sound_bind {A B} (m : M S A) (f : A -> M S B) : keeps m -> (forall a, keeps (f a)) -> keeps (bindM m f).
Proof.
  intros Hm Hf s. unfold bindM. intros Hs. apply Hm. destruct (m s) as [[a|e] s1]; [by apply (Hf a)|done].
Qed.

Lemma completes_ret {A} (a : A) s (Q : A -> S -> Prop) : Q a s -> completes (retM a) s Q.
Proof. by intros HQ _. Qed.
Lemma completes_lift {A} (r : result A) a s (Q : A -> S -> Prop) : r = Ok a -> Q a s -> completes (liftM r) s Q.
Proof. by intros -> HQ _. Qed.
Lemma completes_bind {A B} (m : M S A) (f : A -> M S B) s Q :
  (forall a, keeps (f a)) -> completes m s (fun a s1 => completes (f a) s1 Q) -> completes (bindM m f) s Q.
Proof.
  intros Hk Hm. unfold completes, bindM in *. destruct (m s) as [[a|e] s1]; cbn [fst snd] in *; [|done].
  intros Hs. apply Hm; [by apply (Hk a)|done].
Qed.
Lemma completes_conseq {A} (m : M S A) s (Q Q' : A -> S -> Prop) :
  completes m s Q -> (forall a s', Q a s' -> Q' a s') -> completes m s Q'.
Proof. unfold completes. intros Hm HQ Hs. specialize (Hm Hs). destruct (m s) as [[a|e] s1]; eauto. Qed.
End Runs.

Create HintDb keeps.
#[export] Hint Resolve sound_ret sound_lift : keeps.

(** A string that fits in the memory of a contract. *)
Definition fits (b : bytes) : Prop := (0 < zlen b < 2 ^ 31)%Z.

(** The entry of a store of the contract's own state. *)
Definition entry (prefix key : bytes) : bytes := map_key (mk_kvs 0 prefix) key.

(** [room] is the memory a contract may still allocate; a vector takes [overhead] bytes besides its own.  [store]
    tells what the state of the contract holds and how much of its space is used. *)
Class ServicesLaws `{OpenSSL, OpenSSLKeys} {S} (CS : ContractServices S) := {
  sv_sound : S -> Prop;
  sv_room : S -> Z;
  sv_overhead : Z;
  sv_store : S -> gmap bytes bytes -> Z -> Prop;
  sv_overhead_nonneg : (0 <= sv_overhead)%Z;
  keeps_kv_get p k : keeps sv_sound (kv_get p k);
  keeps_kv_set p k v : keeps sv_sound (kv_set p k v);
  keeps_b64_decode b : keeps sv_sound (sv_b64_decode b);
  keeps_hash b : keeps sv_sound (sv_crypto_hash b);
  keeps_aes_decrypt c k i : keeps sv_sound (sv_aes_decrypt c k i);
  keeps_rsa_decrypt c k : keeps sv_sound (sv_rsa_decrypt c k);
  keeps_verify m k g : keeps sv_sound (sv_ecdsa_verify m k g);
  law_b64_decode s m u b : sv_store s m u -> fits b ->
    let r := Base64EncodedStringToByteArray b in
    fits r -> (zlen b + 2 * zlen r + 3 * sv_overhead <= sv_room s)%Z ->
    completes sv_sound (sv_b64_decode b) s (fun o s' => o = Some r /\ sv_store s' m u /\
      (sv_room s - (zlen b + 2 * zlen r + 3 * sv_overhead) <= sv_room s')%Z);
  law_hash s m u b : sv_store s m u -> fits b -> (zlen b + 64 + 3 * sv_overhead <= sv_room s)%Z ->
    completes sv_sound (sv_crypto_hash b) s (fun o s' => o = Some (SHA256Hash b) /\ sv_store s' m u /\
      (sv_room s - (zlen b + 64 + 3 * sv_overhead) <= sv_room s')%Z);
  law_aes_decrypt s m u c k i r : sv_store s m u -> fits c -> fits k -> fits i -> fits r -> DecryptMessage_iv k i c = Ok r ->
    (zlen c + zlen k + zlen i + 2 * zlen r + 5 * sv_overhead <= sv_room s)%Z ->
    completes sv_sound (sv_aes_decrypt c k i) s (fun o s' => o = Some r /\ sv_store s' m u /\
      (sv_room s - (zlen c + zlen k + zlen i + 2 * zlen r + 5 * sv_overhead) <= sv_room s')%Z);
  law_rsa_decrypt s m u c k key r : sv_store s m u -> fits c -> fits k -> fits r ->
    run_method (pkenc_private_key.Deserialize k) None = Ok key -> pkenc_private_key.DecryptMessage key c = Ok r ->
    (zlen c + zlen k + 2 * zlen r + 4 * sv_overhead <= sv_room s)%Z ->
    completes sv_sound (sv_rsa_decrypt c k) s (fun o s' => o = Some r /\ sv_store s' m u /\
      (sv_room s - (zlen c + zlen k + 2 * zlen r + 4 * sv_overhead) <= sv_room s')%Z);
  law_verify s m u msg k g pubkey v : sv_store s m u -> fits msg -> fits k -> fits g ->
    sig_PublicKey k = Ok pubkey -> sig_public_key.VerifySignature pubkey msg g = Ok v ->
    (zlen msg + zlen k + zlen g + 3 * sv_overhead <= sv_room s)%Z ->
    completes sv_sound (sv_ecdsa_verify msg k g) s (fun r s' => r = negb (bool_decide (v = 0)%Z) /\ sv_store s' m u /\
      (sv_room s - (zlen msg + zlen k + zlen g + 3 * sv_overhead) <= sv_room s')%Z);
  law_kv_get s m u p k : sv_store s m u -> fits k -> fits (make_key (mk_kvs 0 p) k) ->
    let v := default [] (m !! entry p k) in
    (zlen v < 2 ^ 31)%Z -> (u + block_data_len < ADDR_LIMIT)%Z ->
    (zlen k + zlen (make_key (mk_kvs 0 p) k) + 2 * zlen v + 4 * sv_overhead <= sv_room s)%Z ->
    completes sv_sound (kv_get p k) s (fun o s' => o = (if bool_decide (v = []) then None else Some v) /\ sv_store s' m u /\
      (sv_room s - (zlen k + zlen (make_key (mk_kvs 0 p) k) + 2 * zlen v + 4 * sv_overhead) <= sv_room s')%Z);
  law_kv_set s m u p k v : sv_store s m u -> fits k -> fits v -> fits (make_key (mk_kvs 0 p) k) ->
    m !! entry p k <> Some [] -> (u + cost PUT_OP (entry p k) v + block_data_len < ADDR_LIMIT)%Z ->
    (zlen k + zlen v + zlen (make_key (mk_kvs 0 p) k) + 3 * sv_overhead <= sv_room s)%Z ->
    completes sv_sound (kv_set p k v) s (fun r s' => r = true /\
      (exists u', sv_store s' (<[entry p k := v]> m) u' /\ (u' <= u + cost PUT_OP (entry p k) v)%Z) /\
      (sv_room s - (zlen k + zlen v + zlen (make_key (mk_kvs 0 p) k) + 3 * sv_overhead) <= sv_room s')%Z);
}.
#[export] Hint Resolve keeps_kv_get keeps_kv_set keeps_b64_decode keeps_hash keeps_aes_decrypt keeps_rsa_decrypt keeps_verify : keeps.

(** Soundness is kept by everything that is made of the services. *)
#[export] Hint Resolve sound_bind : keeps.
#[export] Hint Extern 1 (keeps _ (match ?x with _ => _ end)) => destruct x : keeps.
Ltac keep := intros; solve [auto 60 with keeps].

(** * The library over the interpreter *)

Section Wasm.
Context {OS : OpenSSL} {OL : @OpenSSLLaws OS} {OK : @OpenSSLKeys} {BS : BlockStore} {BL : BlockStoreLaws BS} {LC : LibC} {XC : X509}.
Context {W : WAMR} {WL : WAMRLaws W} {G : @Guest W} {GL : GuestLaws G} (fp : Z).
Implicit Types (s : wasm_env).

(** A string of the contract, in storage of its own. *)
Definition with_vec {A} (b : bytes) (k : gvec -> M wasm_env A) : M wasm_env A := let! v := store_vector (zlen b) b in k v.
Definition content (o : option gvec) : M wasm_env (option bytes) :=
  match o with
  | None => retM None
  | Some v => readM (fun s => Some (subseq (memory s) v.(v_data) v.(v_size)))
  end.

Definition wasm_services : ContractServices wasm_env := {|
  kv_get p k := with_vec k (fun kv => let! o := kvs_get fp (mk_kvs 0 p) kv in content o);
  kv_set p k v := with_vec k (fun kv => with_vec v (fun vv => kvs_set (mk_kvs 0 p) kv vv));
  kv_get_uint32 p k := with_vec k (fun kv => kvs_get_uint32 fp (mk_kvs 0 p) kv);
  kv_set_uint32 p k z := with_vec k (fun kv => kvs_set_uint32 (mk_kvs 0 p) kv fp z);
  privileged_get k := with_vec k (fun kv => let! o := kvs_privileged_get fp kv in content o);
  sv_b64_encode b := with_vec b (fun v => let! o := ww_b64_encode fp v in content o);
  sv_b64_decode b := with_vec b (fun v => let! o := ww_b64_decode fp v in content o);
  sv_crypto_hash b := with_vec b (fun v => let! o := ww_crypto_hash fp v in content o);
  sv_aes_generate_key := let! o := ww_aes_generate_key fp in content o;
  sv_aes_generate_iv := let! o := ww_aes_generate_iv fp in content o;
  sv_aes_encrypt b k i := with_vec b (fun v => with_vec k (fun kv => with_vec i (fun iv =>
    let! o := ww_aes_encrypt_message fp v kv iv in content o)));
  sv_aes_decrypt c k i := with_vec c (fun v => with_vec k (fun kv => with_vec i (fun iv =>
    let! o := ww_aes_decrypt_message fp v kv iv in content o)));
  sv_rsa_encrypt b k := with_vec b (fun v => with_vec k (fun kv => let! o := ww_rsa_encrypt_message fp v kv in content o));
  sv_rsa_decrypt c k := with_vec c (fun v => with_vec k (fun kv => let! o := ww_rsa_decrypt_message fp v kv in content o));
  sv_ecdsa_verify b k g := with_vec b (fun v => with_vec k (fun kv => with_vec g (fun gv => ww_ecdsa_verify_signature v kv gv)));
|}.

(** ** The invariant between two calls *)

(** The frame of the functions and the state of the contract. *)
Definition at_rest s (m : gmap bytes bytes) (u : Z) : Prop := frame s fp 8 /\ store_at s 0 m u.
Definition no_collisions s : Prop := no_collision (wlog s).

Lemma rest_step n s s' m u : step [(fp, 8%Z)] n s s' -> at_rest s m u -> at_rest s' m u.
Proof. intros Hs [Hf Hst]. split; [by eapply frame_step|by eapply store_at_step]. Qed.

(** ** Nothing is undone *)

Lemma moves_keeps {A} (m : M wasm_env A) : respects moves_on m -> keeps no_collisions m.
Proof. intros Hm s. apply no_collision_suffix, moves_on_log, Hm. Qed.

Lemma moves_with_vec {A} b (k : gvec -> M wasm_env A) : (forall v, respects moves_on (k v)) -> respects moves_on (with_vec b k).
Proof. intros Hk. apply respects_bind; [apply _|apply moves_store_vector|done]. Qed.

Lemma moves_content o : respects moves_on (content o).
Proof. unfold content. walk. Qed.

Lemma moves_put32 p z : respects moves_on (put32 p z).
Proof. by apply moves_same. Qed.

Lemma moves_call c : respects moves_on (call_for_bytes fp c).
Proof.
  pose proof moves_put32. pose proof moves_native. pose proof moves_take_result. unfold call_for_bytes, import. walk.
Qed.

Lemma moves_kvs_set kv k v : respects moves_on (kvs_set kv k v).
Proof.
  pose proof moves_native. pose proof moves_store_vector. pose proof moves_pointer_arg. unfold kvs_set, prefixed, import. walk.
Qed.

Lemma moves_verify m k g : respects moves_on (ww_ecdsa_verify_signature m k g).
Proof. pose proof moves_native. unfold ww_ecdsa_verify_signature, import. walk. Qed.

(** ** Arguments and results *)

Definition uses_room (n : Z) s s' : Prop := (room s.(env_inst) - n <= room s'.(env_inst))%Z.

(** A string is put in the memory; what is at rest, and the strings that are there, stay. *)
Lemma vec_made s b m u (vs : list (gvec * bytes)) :
  at_rest s m u -> Forall (fun vb => arg s fp vb.1 vb.2) vs -> fits b -> (zlen b + overhead <= room s.(env_inst))%Z ->
  runs (store_vector (zlen b) b) s (fun v s1 => at_rest s1 m u /\ Forall (fun vb => arg s1 fp vb.1 vb.2) ((v, b) :: vs) /\
    uses_room (zlen b + overhead) s s1).
Proof.
  intros [Hf Hst] Hvs Hb Hroom. eapply runs_conseq; [by apply store_vector_fresh|]. intros v s1 (Hv & Hs & Hfresh).
  pose proof Hf as (fb & _ & Hin & _). pose proof Hs as (_ & Hr & _). split; [|split; [constructor|done]].
  - split; [by eapply frame_step|by eapply store_at_step].
  - split; [done|]. cbn [fst]. specialize (Hfresh _ Hin). unfold disjoint_regions in *. cbn [fst snd] in *. lia.
  - eapply list.Forall_impl; [exact Hvs|]. intros [v1 b1] [Hv1 Hd1]. split; [|done]. by eapply vec_step.
Qed.

Lemma with_vec_ok {A} s b m u vs (k : gvec -> M wasm_env A) Q :
  at_rest s m u -> Forall (fun vb => arg s fp vb.1 vb.2) vs -> fits b -> (zlen b + overhead <= room s.(env_inst))%Z ->
  (forall v s1, at_rest s1 m u -> Forall (fun vb => arg s1 fp vb.1 vb.2) ((v, b) :: vs) -> uses_room (zlen b + overhead) s s1 ->
    clean (k v) s1 Q) ->
  clean (with_vec b k) s Q.
Proof.
  intros Hr Hvs Hb Hroom Hk. apply clean_bind. eapply runs_conseq; [by apply (vec_made s b m u vs)|]. intros v s1 (H1 & H2 & H3). by apply Hk.
Qed.

Lemma content_ok s v b (Q : option bytes -> wasm_env -> Prop) : vec s v b -> Q (Some b) s -> runs (content (Some v)) s Q.
Proof. intros [(_ & _ & _ & _ & Hsub) _] HQ. unfold content, runs, readM. cbn [fst snd] in Hsub. by rewrite Hsub. Qed.

Lemma content_answers s o b (Q : option bytes -> wasm_env -> Prop) : answers o s b ->
  Q (if bool_decide (b = []) then None else Some b) s -> runs (content o) s Q.
Proof.
  intros Ha HQ. destruct b as [|x b]; cbn [answers] in Ha; [subst; by apply runs_ret|]. destruct Ha as (g & -> & Hg).
  eapply content_ok; [done|]. by rewrite bool_decide_eq_false_2 in HQ.
Qed.

(** A call that takes strings from the memory and gives back [b]. *)
Lemma call_content_ok s c b mm m u :
  run_native (c fp (fp + 4)%Z) = as_i32 mm -> at_rest s m u ->
  (forall s1, step [(fp, 8%Z)] 0 s s1 -> gives s1 b fp (fp + 4) mm) -> fits b -> (2 * (zlen b + overhead) <= room s.(env_inst))%Z ->
  runs (let! o := call_for_bytes fp c in content o) s (fun o s' => o = Some b /\ at_rest s' m u /\ uses_room (2 * (zlen b + overhead)) s s').
Proof.
  intros Hc Hr Hm Hb Hroom. pose proof Hr as [Hf _]. apply runs_bind.
  eapply runs_conseq; [by apply (call_for_bytes_ok s fp c b mm)|]. intros o s1 (v & -> & Hv & Hs).
  eapply content_ok; [done|]. split; [done|]. split; [by eapply rest_step|]. by destruct Hs as (_ & Hr1 & _).
Qed.

Lemma arg_gives vs s s1 : Forall (fun vb => arg s fp vb.1 vb.2) vs -> step [(fp, 8%Z)] 0 s s1 -> Forall (fun vb => vec s1 vb.1 vb.2) vs.
Proof. intros Hvs Hs. eapply list.Forall_impl; [exact Hvs|]. intros [v b] Ha. by eapply arg_step. Qed.

Lemma gives_b64_decode s v b p l : vec s v b -> (0 < zlen (Base64EncodedStringToByteArray b))%Z ->
  gives s (Base64EncodedStringToByteArray b) p l (b64_decode_wrapper v.(v_data) v.(v_size) p l).
Proof.
  intros Hv Hb Q HQ. apply runs_or_return. eapply runs_get_buffer; [done|]. eapply runs_byte_array; [done|].
  cbv beta zeta. rewrite bool_decide_eq_false_2; [exact HQ|]. lia.
Qed.

Lemma gives_rsa_decrypt s c k cb kb key r p l : vec s c cb -> vec s k kb ->
  run_method (pkenc_private_key.Deserialize kb) None = Ok key -> pkenc_private_key.DecryptMessage key cb = Ok r -> (0 < zlen r)%Z ->
  gives s r p l (rsa_decrypt_message_wrapper c.(v_data) c.(v_size) k.(v_data) k.(v_size) p l).
Proof.
  intros Hc Hk Hkey Hr Hz Q HQ. apply runs_or_return.
  do 2 (eapply runs_get_buffer; [done|]; eapply runs_byte_array; [done|]).
  apply runs_bind. eapply runs_lift; [exact Hkey|]. apply runs_bind. eapply runs_lift; [exact Hr|]. by rewrite return_nonempty_eq.
Qed.

(** ** The laws *)

Lemma wasm_b64_decode s m u b : at_rest s m u -> fits b ->
  let r := Base64EncodedStringToByteArray b in
  fits r -> (zlen b + 2 * zlen r + 3 * overhead <= room s.(env_inst))%Z ->
  clean (sv_b64_decode (ContractServices := wasm_services) b) s (fun o s' => o = Some r /\ at_rest s' m u /\
    uses_room (zlen b + 2 * zlen r + 3 * overhead) s s').
Proof.
  intros Hr Hb r Hfr Hroom. pose proof overhead_nonneg. pose proof (zlen_nonneg r).
  eapply (with_vec_ok s b m u []); [done|constructor|done|lia|]. intros v s1 H1 Hv Hu. unfold uses_room in *.
  apply clean_runs. eapply runs_conseq; [eapply (call_content_ok s1 _ r _ m u); [reflexivity|exact H1| |done|lia]|].
  - intros s2 Hs2. pose proof (arg_gives _ _ _ Hv Hs2) as Hvs. apply list.Forall_cons in Hvs as [Hv1 _]. apply gives_b64_decode; [done|apply Hfr].
  - intros o s2 (-> & H2 & Hu2). split; [done|]. split; [done|]. unfold uses_room in *. lia.
Qed.

Lemma wasm_hash s m u b : at_rest s m u -> fits b -> (zlen b + 64 + 3 * overhead <= room s.(env_inst))%Z ->
  clean (sv_crypto_hash (ContractServices := wasm_services) b) s (fun o s' => o = Some (SHA256Hash b) /\ at_rest s' m u /\
    uses_room (zlen b + 64 + 3 * overhead) s s').
Proof.
  intros Hr Hb Hroom. pose proof overhead_nonneg. assert (Hl : zlen (SHA256Hash b) = 32%Z) by apply sha256_length.
  eapply (with_vec_ok s b m u []); [done|constructor|done|lia|]. intros v s1 H1 Hv Hu. unfold uses_room in *.
  apply clean_runs. eapply runs_conseq; [eapply (call_content_ok s1 _ (SHA256Hash b) _ m u); [reflexivity|exact H1| |unfold fits; lia|lia]|].
  - intros s2 Hs2. pose proof (arg_gives _ _ _ Hv Hs2) as Hvs. apply list.Forall_cons in Hvs as [Hv1 _]. apply gives_hash; [done|lia].
  - intros o s2 (-> & H2 & Hu2). split; [done|]. split; [done|]. unfold uses_room in *. lia.
Qed.

Lemma wasm_aes_decrypt s m u c k i r : at_rest s m u -> fits c -> fits k -> fits i -> fits r -> DecryptMessage_iv k i c = Ok r ->
  (zlen c + zlen k + zlen i + 2 * zlen r + 5 * overhead <= room s.(env_inst))%Z ->
  clean (sv_aes_decrypt (ContractServices := wasm_services) c k i) s (fun o s' => o = Some r /\ at_rest s' m u /\
    uses_room (zlen c + zlen k + zlen i + 2 * zlen r + 5 * overhead) s s').
Proof.
  intros Hr Hc Hk Hi Hfr Hd Hroom. unfold fits in *. pose proof overhead_nonneg.
  eapply (with_vec_ok s c m u []); [done|constructor|done|lia|]. intros v1 s1 H1 Hv1 Hu1. unfold uses_room in Hu1.
  eapply (with_vec_ok s1 k m u [(v1, c)]); [done|done|done|lia|]. intros v2 s2 H2 Hv2 Hu2. unfold uses_room in Hu2.
  eapply (with_vec_ok s2 i m u [(v2, k); (v1, c)]); [done|done|done|lia|]. intros v3 s3 H3 Hv3 Hu3. unfold uses_room in Hu3.
  apply clean_runs. eapply runs_conseq; [eapply (call_content_ok s3 _ r _ m u); [reflexivity|exact H3| |done|lia]|].
  - intros s4 Hs4. pose proof (arg_gives _ _ _ Hv3 Hs4) as Hvs. rewrite !list.Forall_cons in Hvs. destruct Hvs as (Hi4 & Hk4 & Hc4 & _).
    by eapply (gives_decrypt s4 v1 v2 v3 c k i); [..|lia].
  - intros o s4 (-> & H4 & Hu4). split; [done|]. split; [done|]. unfold uses_room in *. lia.
Qed.

Lemma wasm_rsa_decrypt s m u c k key r : at_rest s m u -> fits c -> fits k -> fits r ->
  run_method (pkenc_private_key.Deserialize k) None = Ok key -> pkenc_private_key.DecryptMessage key c = Ok r ->
  (zlen c + zlen k + 2 * zlen r + 4 * overhead <= room s.(env_inst))%Z ->
  clean (sv_rsa_decrypt (ContractServices := wasm_services) c k) s (fun o s' => o = Some r /\ at_rest s' m u /\
    uses_room (zlen c + zlen k + 2 * zlen r + 4 * overhead) s s').
Proof.
  intros Hr Hc Hk Hfr Hkey Hd Hroom. unfold fits in *. pose proof overhead_nonneg.
  eapply (with_vec_ok s c m u []); [done|constructor|done|lia|]. intros v1 s1 H1 Hv1 Hu1. unfold uses_room in Hu1.
  eapply (with_vec_ok s1 k m u [(v1, c)]); [done|done|done|lia|]. intros v2 s2 H2 Hv2 Hu2. unfold uses_room in Hu2.
  apply clean_runs. eapply runs_conseq; [eapply (call_content_ok s2 _ r _ m u); [reflexivity|exact H2| |done|lia]|].
  - intros s4 Hs4. pose proof (arg_gives _ _ _ Hv2 Hs4) as Hvs. rewrite !list.Forall_cons in Hvs. destruct Hvs as (Hk4 & Hc4 & _).
    by eapply (gives_rsa_decrypt s4 v1 v2 c k); [..|lia].
  - intros o s4 (-> & H4 & Hu4). split; [done|]. split; [done|]. unfold uses_room in *. lia.
Qed.

Lemma wasm_verify s m u msg k g pubkey v : at_rest s m u -> fits msg -> fits k -> fits g ->
  sig_PublicKey k = Ok pubkey -> sig_public_key.VerifySignature pubkey msg g = Ok v ->
  (zlen msg + zlen k + zlen g + 3 * overhead <= room s.(env_inst))%Z ->
  clean (sv_ecdsa_verify (ContractServices := wasm_services) msg k g) s (fun r s' => r = negb (bool_decide (v = 0)%Z) /\ at_rest s' m u /\
    uses_room (zlen msg + zlen k + zlen g + 3 * overhead) s s').
Proof.
  intros Hr Hc Hk Hi Hp Hv Hroom. unfold fits in *. pose proof overhead_nonneg.
  eapply (with_vec_ok s msg m u []); [done|constructor|done|lia|]. intros v1 s1 H1 Hv1 Hu1. unfold uses_room in Hu1.
  eapply (with_vec_ok s1 k m u [(v1, msg)]); [done|done|done|lia|]. intros v2 s2 H2 Hv2 Hu2. unfold uses_room in Hu2.
  eapply (with_vec_ok s2 g m u [(v2, k); (v1, msg)]); [done|done|done|lia|]. intros v3 s3 H3 Hv3 Hu3. unfold uses_room in Hu3.
  rewrite !list.Forall_cons in Hv3. destruct Hv3 as ([Hg _] & [Hk3 _] & [Hm3 _] & _).
  apply clean_runs. eapply runs_conseq; [by apply (verify_eq s3 v1 v2 v3 msg k g pubkey v)|].
  intros r s4 [-> ->]. split; [done|]. split; [done|]. unfold uses_room. lia.
Qed.

Lemma rest_uses n s s' m u m' u' : uses [(fp, 8%Z)] n s s' -> at_rest s m u -> store_at s' 0 m' u' -> at_rest s' m' u'.
Proof. intros [Hc _] [Hf _] Hst. split; [by eapply frame_confined|done]. Qed.

Lemma wasm_kv_get s m u p k : at_rest s m u -> fits k -> fits (make_key (mk_kvs 0 p) k) ->
  let v := default [] (m !! entry p k) in
  (zlen v < 2 ^ 31)%Z -> (u + block_data_len < ADDR_LIMIT)%Z ->
  (zlen k + zlen (make_key (mk_kvs 0 p) k) + 2 * zlen v + 4 * overhead <= room s.(env_inst))%Z ->
  clean (kv_get (ContractServices := wasm_services) p k) s (fun o s' => o = (if bool_decide (v = []) then None else Some v) /\ at_rest s' m u /\
    uses_room (zlen k + zlen (make_key (mk_kvs 0 p) k) + 2 * zlen v + 4 * overhead) s s').
Proof.
  intros Hr Hk Hmk v Hv Hlim Hroom. unfold fits in *. pose proof overhead_nonneg. pose proof (zlen_nonneg v).
  eapply (with_vec_ok s k m u []); [done|constructor|done|lia|]. intros v1 s1 H1 Hv1 Hu1. unfold uses_room in Hu1.
  apply list.Forall_cons in Hv1 as [[Hk1 _] _]. apply clean_seq; [apply moves_content|]. pose proof H1 as [Hf1 Hst1].
  eapply clean_conseq; [apply (kvs_get_ok s1 fp (mk_kvs 0 p) v1 k m u ltac:(done) Hst1 Hk1 Hf1 ltac:(lia) Hv); [|done]|].
  { fold (entry p k). fold v. lia. }
  fold (entry p k). fold v. intros o s2 (Ha & Hu2 & Hst2). apply clean_runs. eapply content_answers; [exact Ha|]. split; [done|].
  split; [by eapply rest_uses|]. destruct Hu2 as [_ Hu2]. unfold uses_room. lia.
Qed.

Lemma wasm_kv_set s m u p k v : at_rest s m u -> fits k -> fits v -> fits (make_key (mk_kvs 0 p) k) ->
  m !! entry p k <> Some [] -> (u + cost PUT_OP (entry p k) v + block_data_len < ADDR_LIMIT)%Z ->
  (zlen k + zlen v + zlen (make_key (mk_kvs 0 p) k) + 3 * overhead <= room s.(env_inst))%Z ->
  clean (kv_set (ContractServices := wasm_services) p k v) s (fun r s' => r = true /\
    (exists u', at_rest s' (<[entry p k := v]> m) u' /\ (u' <= u + cost PUT_OP (entry p k) v)%Z) /\
    uses_room (zlen k + zlen v + zlen (make_key (mk_kvs 0 p) k) + 3 * overhead) s s').
Proof.
  intros Hr Hk Hv Hmk Hal Hlim Hroom. unfold fits in *. pose proof overhead_nonneg.
  eapply (with_vec_ok s k m u []); [done|constructor|done|lia|]. intros v1 s1 H1 Hv1 Hu1. unfold uses_room in Hu1.
  eapply (with_vec_ok s1 v m u [(v1, k)]); [done|done|done|lia|]. intros v2 s2 H2 Hv2 Hu2. unfold uses_room in Hu2.
  rewrite !list.Forall_cons in Hv2. destruct Hv2 as ([Hv3 _] & [Hk3 _] & _). pose proof H2 as [Hf2 Hst2].
  eapply clean_conseq; [apply (kvs_set_ok s2 (mk_kvs 0 p) v1 v2 k v m u ltac:(done) Hst2 Hk3 Hv3 ltac:(lia)); [lia|done|done]|].
  intros r s3 (-> & [Hc3 Hu3] & u' & Hst3 & Hu'). split; [done|]. split.
  - exists u'. split; [|apply Hu']. split; [by eapply (frame_confined [])|done].
  - unfold uses_room. lia.
Qed.

#[local] Ltac moves := apply moves_keeps;
  cbn [kv_get kv_set sv_b64_decode sv_crypto_hash sv_aes_decrypt sv_rsa_decrypt sv_ecdsa_verify wasm_services]; repeat (apply moves_with_vec; intros ?);
  first [apply moves_verify | apply moves_kvs_set |
    apply respects_bind; [apply _|first [apply moves_call | apply moves_kvs_get]|intros ?; apply moves_content]].

Lemma wasm_keeps_kv_get p k : keeps no_collisions (kv_get (ContractServices := wasm_services) p k).
Proof. moves. Qed.
Lemma wasm_keeps_kv_set p k v : keeps no_collisions (kv_set (ContractServices := wasm_services) p k v).
Proof. moves. Qed.
Lemma wasm_keeps_b64_decode b : keeps no_collisions (sv_b64_decode (ContractServices := wasm_services) b).
Proof. moves. Qed.
Lemma wasm_keeps_hash b : keeps no_collisions (sv_crypto_hash (ContractServices := wasm_services) b).
Proof. moves. Qed.
Lemma wasm_keeps_aes_decrypt c k i : keeps no_collisions (sv_aes_decrypt (ContractServices := wasm_services) c k i).
Proof. moves. Qed.
Lemma wasm_keeps_rsa_decrypt c k : keeps no_collisions (sv_rsa_decrypt (ContractServices := wasm_services) c k).
Proof. moves. Qed.
Lemma wasm_keeps_verify m k g : keeps no_collisions (sv_ecdsa_verify (ContractServices := wasm_services) m k g).
Proof. moves. Qed.

(** The library over the interpreter gives what the code of a contract asks of it. *)
#[export] Instance wasm_services_laws : ServicesLaws wasm_services := {|
  sv_sound := no_collisions;
  sv_room s := room s.(env_inst);
  sv_overhead := overhead;
  sv_store := at_rest;
  sv_overhead_nonneg := overhead_nonneg;
  keeps_kv_get := wasm_keeps_kv_get;
  keeps_kv_set := wasm_keeps_kv_set;
  keeps_b64_decode := wasm_keeps_b64_decode;
  keeps_hash := wasm_keeps_hash;
  keeps_aes_decrypt := wasm_keeps_aes_decrypt;
  keeps_rsa_decrypt := wasm_keeps_rsa_decrypt;
  keeps_verify := wasm_keeps_verify;
  law_b64_decode := wasm_b64_decode;
  law_hash := wasm_hash;
  law_aes_decrypt := wasm_aes_decrypt;
  law_rsa_decrypt := wasm_rsa_decrypt;
  law_verify := wasm_verify;
  law_kv_get := wasm_kv_get;
  law_kv_set := wasm_kv_set;
|}.
End Wasm.
