(* ===== verification/ContractBaseSpec.v ===== *)
(** What the contract code of ContractBase does, proved against the laws of its services: a secret that was encrypted
    for a contract is received, and a peer is admitted as an endpoint exactly when the ledger vouches for it. *)
From S2P Require Import Prelude Crypto BlockStore Codec DataNode FreeSpace Json JsonSpec StateNode Cache CacheSpec.
From S2P Require Import DataNodeIO MemorySpec Trie StateKV KVSpec TrieSpec TrieHeap TrieModel TrieNodes TrieWalk TrieRefine KVRefine.
From S2P Require Import Keys KeysSpec EnclaveData ProvisioningSpec Wasm ContractLib ContractKV Values ValuesSpec ContractBase ContractServices.

(** * JSON objects of strings *)

Lemma ascii_valid s : Forall (fun c => base64_text c = true) s -> json_valid_string s = true.
Proof.
  unfold json_valid_string, is_valid_utf8. induction s as [|c s IH]; [done|]. intros [Hc Hs]%list.Forall_cons.
  cbn [is_valid_utf8_loop length].
  assert (Hl : num_bytes_in_utf8_sequence c = 1%Z /\ (0 <= byte.unsigned c < 128)%Z).
  { revert Hc. apply (all_bytes (fun c => base64_text c = true -> num_bytes_in_utf8_sequence c = 1%Z /\ (0 <= byte.unsigned c < 128)%Z)).
    vm_compute. intuition congruence. }
  destruct Hl as [Hl Hr]. unfold verify_utf8_sequence. cbn [nth]. rewrite Hl. cbn [mbind option_bind].
  rewrite bool_decide_eq_true_2 by done. cbn [mbind option_bind]. rewrite !bool_decide_eq_false_2 by lia. cbn [Z.to_nat Pos.to_nat Pos.iter_op drop].
  by apply IH.
Qed.

Lemma str_new v : json_valid_string v = true -> Byte.x00 ∉ v -> Str.new (Some v) = Value.own (Some (JString v)).
Proof. intros Hv Hn. unfold Str.new, json_value_init_string. by rewrite c_str_id, Hv. Qed.

Lemma set_string_own name v l : split_dots name = [name] -> json_valid_string v = true -> Byte.x00 ∉ v ->
  Object.set_string name (Some v) (Value.own (Some (JObject l))) =
  (true, Value.own (Some (JObject (json_object_set_value l name (JString v))))).
Proof. intros Hn Hv Hz. unfold Object.set_string. rewrite str_new by done. by apply set_member_own. Qed.

Lemma get_string_clean key o v : Object.get_string key o = Some v -> Byte.x00 ∉ v.
Proof.
  unfold Object.get_string, json_string. destruct (json_object_dotget_value _ _) as [[]|]; try done. intros [= <-]. apply c_str_clean.
Qed.

Section Texts.
Context `{LCL : LibCLaws}.

Lemma object_text_read l : wf_json (JObject l) = true -> (json_depth (JObject l) <= MAX_NESTING)%Z ->
  Value.deserialize (Some (text_of (JObject l))) Object.new = (true, Value.own (Some (JObject l))).
Proof.
  intros Hw Hd. unfold Value.deserialize. cbn [mbind option_bind]. rewrite c_str_text by done. unfold text_of. by rewrite serialized_parses.
Qed.
End Texts.

(** * Calls in sequence *)

Section Calls.
Context {OS : OpenSSL} {OK : @OpenSSLKeys} {S : Type} {CS : ContractServices S} {SL : ServicesLaws CS}.

Lemma keeps_or_give {A B} (call : M S (option A)) (b : B) k :
  keeps sv_sound call -> (forall a, keeps sv_sound (k a)) -> keeps sv_sound (or_give call b k).
Proof. intros Hc Hk. apply sound_bind; [done|]. intros [a|]; [done|apply sound_ret]. Qed.

Lemma keeps_or_fail {B} (call : M S bool) (b : B) k : keeps sv_sound call -> keeps sv_sound k -> keeps sv_sound (or_fail call b k).
Proof. intros Hc Hk. apply sound_bind; [done|]. intros []; [done|apply sound_ret]. Qed.

Lemma keeps_member o key : keeps sv_sound (string_of_member (S := S) o key).
Proof. apply sound_lift. Qed.

Lemma keeps_require `{LibC} c msg rsp (k : M S (bool * Value.t)) : keeps sv_sound k -> keeps sv_sound (require c msg rsp k).
Proof. intros Hk. unfold require. destruct c; [done|apply sound_ret]. Qed.

Lemma keeps_or_refuse `{LibC} {A} (call : M S (option A)) msg rsp k :
  keeps sv_sound call -> (forall a, keeps sv_sound (k a)) -> keeps sv_sound (or_refuse call msg rsp k).
Proof. apply keeps_or_give. Qed.

(** A call that gives a result is followed by what is done with it. *)
Lemma give_step {A B} (call : M S (option A)) a (b : B) k s Q (P : S -> Prop) :
  completes sv_sound call s (fun o s' => o = Some a /\ P s') -> (forall a, keeps sv_sound (k a)) ->
  (forall s', P s' -> completes sv_sound (k a) s' Q) -> completes sv_sound (or_give call b k) s Q.
Proof.
  intros Hc Hkeep Hk. apply completes_bind; [intros [a'|]; [done|apply sound_ret]|].
  eapply completes_conseq; [exact Hc|]. intros o s' [-> HP]. by apply Hk.
Qed.

Lemma member_step {B} o key v (k : bytes -> M S B) s Q : Object.get_string (bytes_of key) o = Some v ->
  completes sv_sound (k v) s Q -> completes sv_sound (let! x := string_of_member o key in k x) s Q.
Proof. intros Hv Hk. unfold string_of_member, completes, bindM. by rewrite Hv. Qed.

Lemma require_step `{LibC} c msg rsp (k : M S (bool * Value.t)) s Q :
  (c = true -> completes sv_sound k s Q) -> (c = false -> Q (Response.error (Some (bytes_of msg)) rsp) s) ->
  completes sv_sound (require c msg rsp k) s Q.
Proof. intros Ht Hf. unfold require. destruct c; [by apply Ht|]. apply completes_ret. by apply Hf. Qed.
End Calls.
#[export] Hint Resolve keeps_or_give keeps_or_fail keeps_member keeps_require keeps_or_refuse : keeps.

(** * Secrets *)

Section Secrets.
Context {OS : OpenSSL} {OL : @OpenSSLLaws OS} {OK : @OpenSSLKeys} {OKL : OpenSSLKeysLaws} {LC : LibC} {LCL : LibCLaws}.
Context {S : Type} {CS : ContractServices S} {SL : ServicesLaws CS}.

Lemma base64_valid b : json_valid_string (base64_encode b) = true.
Proof. apply ascii_valid, base64_encode_text. Qed.

Lemma base64_bounds b : (0 < zlen b -> 0 < zlen (base64_encode b) <= 2 * zlen b + 2)%Z.
Proof. intros Hb. rewrite base64_encode_length. Z.div_mod_to_equations. lia. Qed.

Lemma decode_step {B} s m u b (d : B) k Q : sv_store s m u -> (0 < zlen b < 2 ^ 29)%Z -> (4 * zlen b + 2 + 3 * sv_overhead <= sv_room s)%Z ->
  (forall a, keeps sv_sound (k a)) ->
  (forall s', sv_store s' m u -> (sv_room s - (4 * zlen b + 2 + 3 * sv_overhead) <= sv_room s')%Z -> completes sv_sound (k b) s' Q) ->
  completes sv_sound (or_give (sv_b64_decode (base64_encode b)) d k) s Q.
Proof.
  intros Hst Hb Hroom Hkeep Hk. pose proof (base64_bounds b) as Hl. pose proof sv_overhead_nonneg.
  eapply give_step; [eapply law_b64_decode; [exact Hst|..]|done|]; unfold fits, Base64EncodedStringToByteArray;
    rewrite ?base64_roundtrip_bytes; [lia..|]. intros s' [Hst' Hr]. apply Hk; [done|lia].
Qed.

Definition secret_json (session_key iv cipher : bytes) : json := JObject
  [(bytes_of "encrypted_session_key", JString session_key); (bytes_of "session_key_iv", JString iv);
   (bytes_of "encrypted_message", JString cipher)].

Lemma secret_members_json x y z :
  secret_members (base64_encode x) (base64_encode y) (base64_encode z) Object.new =
  Value.own (Some (secret_json (base64_encode x) (base64_encode y) (base64_encode z))).
Proof.
  pose proof base64_valid. pose proof base64_no_nul. unfold secret_members, Object.new. rewrite set_string_own by done. cbn [snd].
  rewrite set_string_own by done. cbn [snd]. rewrite set_string_own by done. reflexivity.
Qed.

Lemma secret_text_read x y z : Value.deserialize (Some (text_of (secret_json x y z))) Object.new = (true, Value.own (Some (secret_json x y z))).
Proof. apply object_text_read; by vm_compute. Qed.

Lemma secret_json_valid x y z : Object.validate_schema_text CONTRACT_SECRET_SCHEMA (Value.own (Some (secret_json x y z))) = true.
Proof. vm_compute. reflexivity. Qed.

Lemma secret_json_members x y z (o := Value.own (Some (secret_json (base64_encode x) (base64_encode y) (base64_encode z)))) :
  Object.get_string (bytes_of "encrypted_session_key") o = Some (base64_encode x) /\
  Object.get_string (bytes_of "session_key_iv") o = Some (base64_encode y) /\
  Object.get_string (bytes_of "encrypted_message") o = Some (base64_encode z).
Proof.
  rewrite <- (c_str_id (base64_encode x)), <- (c_str_id (base64_encode y)), <- (c_str_id (base64_encode z)) by apply base64_no_nul. done.
Qed.

Lemma encrypted_iv_ok key iv m c : EncryptMessage_iv key iv m = Ok c ->
  zlen key = 16%Z /\ zlen iv = 12%Z /\ m <> [] /\ zlen c = (16 + zlen m)%Z /\ DecryptMessage_iv key iv c = Ok m.
Proof.
  intros He. assert (Hs : zlen key = SYM_KEY_LEN /\ zlen iv = IV_LEN /\ m <> []).
  { unfold EncryptMessage_iv in He. result_inv. guard_facts. intuition (subst; done || lia). }
  destruct Hs as (Hk & Hi & Hm). destruct (EncryptMessage_iv_ok _ _ _ Hk Hi Hm) as (tag & ct & He' & Hg & Ht & Hc).
  rewrite He in He'. injection He' as ->. rewrite zlen_app. split_and!; [done..| |by eapply DecryptMessage_iv_ok]. unfold TAG_LEN in Ht. lia.
Qed.

(** C19: a contract that is sent a secret gets the message: from the text of the object that carries an AES session key
    encrypted for its RSA key, the IV and the ciphertext, [recv_secret] recovers what was encrypted, whatever the
    random padding, and leaves the state of the contract as it was.  The key is a generated one whose text is
    shorter than 2^31 bytes, the message is shorter than 2^28 bytes, and the linear memory has room for the
    decoded parts: seven times the message, the key's text, 2200 bytes and the overhead of 18 allocations. *)
Theorem secret_received s m u k t i session_key iv message cipher encrypted_key text :
  generated_rsa k -> pkenc_private_key.Serialize (Some k) = Ok t -> (zlen t < 2 ^ 31)%Z -> (zlen message < 2 ^ 28)%Z ->
  EncryptMessage_iv session_key iv message = Ok cipher ->
  pkenc_public_key.EncryptMessage i (Some (RSAPublicKey_dup k)) session_key = Ok encrypted_key ->
  c_str <$> Value.serialize (secret_members (ByteArrayToBase64EncodedString encrypted_key) (ByteArrayToBase64EncodedString iv)
    (ByteArrayToBase64EncodedString cipher) Object.new) = Some text ->
  sv_store s m u -> (7 * zlen message + zlen t + 2200 + 18 * sv_overhead <= sv_room s)%Z ->
  completes sv_sound (recv_secret_text t text) s (fun o s' => o = Some message /\ sv_store s' m u).
Proof.
  intros Hg Ht Htl Hml He Hr Hx Hst Hroom. destruct (encrypted_iv_ok _ _ _ _ He) as (Hk & Hi & Hm & Hc & Hd).
  destruct (rsa_encrypt_decrypt _ _ _ _ Hg Hr) as [Hrd Hel]. apply zlen_not_nil_pos in Hm.
  destruct (pkenc_private_serialized k t (proj1 (generated_rsa_size k Hg)) Ht) as (Hkey & Htn & _). apply zlen_not_nil_pos in Htn.
  unfold ByteArrayToBase64EncodedString in Hx. rewrite secret_members_json in Hx. cbn [Value.serialize Value.own Value.value_ mbind option_bind] in Hx.
  set (v := secret_json _ _ _) in Hx.
  assert (Hw : wf_json v = true) by (vm_compute; reflexivity).
  change (Some (c_str (text_of v)) = Some text) in Hx. rewrite c_str_text in Hx by done. injection Hx as <-.
  unfold recv_secret_text, v. rewrite secret_text_read. cbn [negb]. unfold recv_secret. rewrite secret_json_valid. cbn [negb].
  destruct (secret_json_members encrypted_key iv cipher) as (H1 & H2 & H3). do 3 (eapply member_step; [eassumption|]).
  pose proof sv_overhead_nonneg as Ho.
  eapply decode_step; [exact Hst|lia|lia|keep|]. intros s1 Hst1 Hr1.
  eapply decode_step; [exact Hst1|lia|lia|keep|]. intros s2 Hst2 Hr2.
  eapply give_step; [eapply (law_rsa_decrypt s2 m u encrypted_key t (Some k) session_key); [exact Hst2|unfold fits; lia..| |exact Hrd|lia]|keep|].
  { unfold pkenc_private_key.Deserialize, pkenc_PrivateKey in *. destruct (pkenc_private_key.deserializeRSAPrivateKey t); [by injection Hkey as ->|done]. }
  intros s3 [Hst3 Hr3].
  eapply decode_step; [exact Hst3|lia|lia|keep|]. intros s4 Hst4 Hr4.
  eapply give_step; [eapply (law_aes_decrypt s4 m u cipher session_key iv message); [exact Hst4|unfold fits; lia..|exact Hd|lia]|keep|].
  intros s5 [Hst5 _]. by apply completes_ret.
Qed.
End Secrets.

(** * Endpoints *)

Section Endpoints.
Context {OS : OpenSSL} {OL : @OpenSSLLaws OS} {OK : @OpenSSLKeys} {LC : LibC} {LCL : LibCLaws}.
Context {S : Type} {CS : ContractServices S} {SL : ServicesLaws CS}.
#[local] Abbreviation decode := Base64EncodedStringToByteArray.

(** What a request to [add_endpoint] holds. *)
Record endpoint_request := mk_endpoint_request {
  er_id : bytes; er_code_hash : bytes; er_meta_hash : bytes; er_signature : bytes; er_vk : bytes; er_ek : bytes; er_nonce : bytes
}.
Definition request_of (msg : Value.t) : option endpoint_request :=
  let get key := Object.get_string (bytes_of key) msg in
  id ← get "contract_id"; ch ← get "ledger_attestation.contract_code_hash"; mh ← get "ledger_attestation.metadata_hash";
  sg ← get "ledger_attestation.signature"; vk ← get "contract_metadata.verifying_key"; ek ← get "contract_metadata.encryption_key";
  nonce ← get "contract_code_metadata.code_nonce"; Some (mk_endpoint_request id ch mh sg vk ek nonce).

(** What the ledger signs, and the two hash checks on a peer that runs the code with the hash [own]. *)
Definition statement (creator : bytes) (r : endpoint_request) : bytes := r.(er_id) ++ creator ++ r.(er_code_hash) ++ r.(er_meta_hash).
Definition same_code (own : bytes) (r : endpoint_request) : bool :=
  bool_decide (decode r.(er_code_hash) = SHA256Hash (own ++ SHA256Hash r.(er_nonce))).
Definition same_keys (r : endpoint_request) : bool :=
  bool_decide (SHA256Hash (decode r.(er_id) ++ r.(er_vk) ++ r.(er_ek)) = decode r.(er_meta_hash)).
Definition hashes_match (own : bytes) (r : endpoint_request) : bool := same_code own r && same_keys r.

Definition endpoint_json (vk ek : bytes) : json := JObject [(bytes_of "verifying_key", JString vk); (bytes_of "encryption_key", JString ek)].
Definition endpoint_text (vk ek : bytes) : bytes := text_of (endpoint_json vk ek).

(** Calls of the services with the results they give. *)
Lemma get_step s m u p k v : sv_store s m u -> m !! entry p k = Some v -> v <> [] -> fits k -> fits (make_key (mk_kvs 0 p) k) ->
  (zlen v < 2 ^ 31)%Z -> (u + block_data_len < ADDR_LIMIT)%Z ->
  (zlen k + zlen (make_key (mk_kvs 0 p) k) + 2 * zlen v + 4 * sv_overhead <= sv_room s)%Z ->
  completes sv_sound (kv_get p k) s (fun o s' => o = Some v /\ sv_store s' m u /\
    (sv_room s - (zlen k + zlen (make_key (mk_kvs 0 p) k) + 2 * zlen v + 4 * sv_overhead) <= sv_room s')%Z).
Proof.
  intros Hst Hv Hn Hk Hmk Hl Hu Hroom. pose proof (law_kv_get s m u p k Hst Hk Hmk) as Hg. rewrite Hv in Hg. cbn [default] in Hg.
  eapply completes_conseq; [by apply Hg|]. intros o s'. cbv beta. by rewrite bool_decide_eq_false_2.
Qed.

Lemma hash_length b : zlen (SHA256Hash b) = 32%Z.
Proof. apply sha256_length. Qed.

Lemma keeps_check_signature key id creator ch mh sg rsp (k : M S (bool * Value.t)) :
  keeps sv_sound k -> keeps sv_sound (check_ledger_signature key id creator ch mh sg rsp k).
Proof. unfold check_ledger_signature. keep. Qed.
Lemma keeps_check_code nonce ch rsp (k : M S (bool * Value.t)) : keeps sv_sound k -> keeps sv_sound (check_code_hash nonce ch rsp k).
Proof. unfold check_code_hash, get_code_hash. keep. Qed.
Lemma keeps_check_metadata id vk ek mh rsp (k : M S (bool * Value.t)) : keeps sv_sound k -> keeps sv_sound (check_metadata_hash id vk ek mh rsp k).
Proof. unfold check_metadata_hash. keep. Qed.
Lemma keeps_add_endpoint id vk ek : keeps sv_sound (add_endpoint (S := S) id vk ek).
Proof. unfold add_endpoint. keep. Qed.
#[local] Hint Resolve keeps_check_signature keeps_check_code keeps_check_metadata keeps_add_endpoint : keeps.

(** The three checks of [method_add_endpoint]: each goes on, with less room, exactly when it passes. *)
Lemma signature_step key creator r pubkey verdict rsp k s m u Q (n := zlen (statement creator r)) (c := zlen (decode r.(er_signature))) :
  sv_store s m u -> fits key -> fits (statement creator r) -> fits r.(er_signature) -> fits (decode r.(er_signature)) ->
  sig_PublicKey key = Ok pubkey -> sig_public_key.VerifySignature pubkey (statement creator r) (decode r.(er_signature)) = Ok verdict ->
  (zlen r.(er_signature) + 3 * c + n + zlen key + 6 * sv_overhead <= sv_room s)%Z -> keeps sv_sound k ->
  (verdict <> 0%Z -> forall s', sv_store s' m u ->
    (sv_room s - (zlen r.(er_signature) + 3 * c + n + zlen key + 6 * sv_overhead) <= sv_room s')%Z -> completes sv_sound k s' Q) ->
  (verdict = 0%Z -> forall e s', sv_store s' m u -> Q (Response.error e rsp) s') ->
  completes sv_sound (check_ledger_signature key r.(er_id) creator r.(er_code_hash) r.(er_meta_hash) r.(er_signature) rsp k) s Q.
Proof.
  intros Hst Hk Hn Hsg Hd Hp Hv Hroom Hkeep Hyes Hno. pose proof sv_overhead_nonneg. unfold fits in *.
  eapply give_step; [eapply law_b64_decode; [exact Hst|done|done|lia]|keep|]. intros s1 [Hst1 Hr1].
  apply completes_bind; [keep|]. eapply completes_conseq; [eapply (law_verify s1 m u (statement creator r)); [exact Hst1|done..|lia]|].
  intros ok s2 (-> & Hst2 & Hr2). apply require_step; destruct (decide (verdict = 0%Z)) as [E|E].
  - by rewrite bool_decide_eq_true_2.
  - intros _. apply Hyes; [done..|lia].
  - intros _. by apply Hno.
  - by rewrite bool_decide_eq_false_2.
Qed.

Definition code_room (own : bytes) (r : endpoint_request) : Z :=
  3 * zlen own + zlen r.(er_nonce) + zlen r.(er_code_hash) + 2 * zlen (decode r.(er_code_hash)) + 183 + 13 * sv_overhead.

Lemma code_step own r rsp k s m u Q :
  sv_store s m u -> m !! entry contract_attestation_store code_hash_key = Some own ->
  (0 < zlen own < 2 ^ 30)%Z -> fits r.(er_nonce) -> fits r.(er_code_hash) -> fits (decode r.(er_code_hash)) -> (u + block_data_len < ADDR_LIMIT)%Z ->
  (code_room own r <= sv_room s)%Z -> keeps sv_sound k ->
  (same_code own r = true -> forall s', sv_store s' m u -> (sv_room s - code_room own r <= sv_room s')%Z -> completes sv_sound k s' Q) ->
  (same_code own r = false -> forall e s', sv_store s' m u -> Q (Response.error e rsp) s') ->
  completes sv_sound (check_code_hash r.(er_nonce) r.(er_code_hash) rsp k) s Q.
Proof.
  unfold code_room. intros Hst Hown Ho Hn Hc Hd Hu Hroom Hkeep Hyes Hno. pose proof sv_overhead_nonneg.
  pose proof (hash_length r.(er_nonce)) as Hh. unfold fits in *. pose proof (zlen_nonneg r.(er_nonce)).
  eapply give_step; [eapply (get_step s m u contract_attestation_store code_hash_key own Hst Hown);
    [apply zlen_pos_not_nil; lia|done|done|lia|done|]|keep|]; change (zlen (make_key _ _)) with 14%Z; change (zlen code_hash_key) with 9%Z; [lia|].
  intros s1 [Hst1 Hr1].
  eapply give_step; [eapply law_hash; [exact Hst1|done|lia]|keep|]. intros s2 [Hst2 Hr2].
  eapply give_step; [eapply law_hash; [exact Hst2|unfold fits; rewrite zlen_app; lia|rewrite zlen_app; lia]|keep|]. rewrite zlen_app. intros s3 [Hst3 Hr3].
  eapply give_step; [eapply law_b64_decode; [exact Hst3|done|done|lia]|keep|]. intros s4 [Hst4 Hr4].
  apply require_step; fold (same_code own r).
  - intros E. apply Hyes; [done..|lia].
  - intros E. by apply Hno.
Qed.

Definition keys_room (r : endpoint_request) : Z :=
  zlen r.(er_id) + 3 * zlen (decode r.(er_id)) + zlen r.(er_vk) + zlen r.(er_ek) + zlen r.(er_meta_hash) + 2 * zlen (decode r.(er_meta_hash)) +
  64 + 9 * sv_overhead.

Lemma keys_step r rsp k s m u Q :
  sv_store s m u -> fits r.(er_id) -> fits r.(er_meta_hash) -> fits (decode r.(er_id)) -> fits (decode r.(er_meta_hash)) ->
  fits (decode r.(er_id) ++ r.(er_vk) ++ r.(er_ek)) -> (keys_room r <= sv_room s)%Z -> keeps sv_sound k ->
  (same_keys r = true -> forall s', sv_store s' m u -> (sv_room s - keys_room r <= sv_room s')%Z -> completes sv_sound k s' Q) ->
  (same_keys r = false -> forall e s', sv_store s' m u -> Q (Response.error e rsp) s') ->
  completes sv_sound (check_metadata_hash r.(er_id) r.(er_vk) r.(er_ek) r.(er_meta_hash) rsp k) s Q.
Proof.
  unfold keys_room. intros Hst Hi Hmh Hdi Hdm Hf Hroom Hkeep Hyes Hno. pose proof sv_overhead_nonneg. unfold fits in *. rewrite !zlen_app in Hf.
  pose proof (zlen_nonneg r.(er_vk)). pose proof (zlen_nonneg r.(er_ek)).
  eapply give_step; [eapply law_b64_decode; [exact Hst|done|done|lia]|keep|]. intros s1 [Hst1 Hr1].
  eapply give_step; [eapply law_hash; [exact Hst1|unfold fits; rewrite !zlen_app; lia|rewrite !zlen_app; lia]|keep|]. rewrite !zlen_app. intros s2 [Hst2 Hr2].
  eapply give_step; [eapply law_b64_decode; [exact Hst2|done|done|lia]|keep|]. intros s3 [Hst3 Hr3].
  apply require_step; fold (same_keys r).
  - intros E. apply Hyes; [done..|lia].
  - intros E. by apply Hno.
Qed.

Lemma endpoint_json_wf vk ek : wf_json (endpoint_json vk ek) = true.
Proof. vm_compute. reflexivity. Qed.

Lemma endpoint_json_members vk ek (o := Value.own (Some (endpoint_json vk ek))) : Byte.x00 ∉ vk -> Byte.x00 ∉ ek ->
  Object.get_string (bytes_of "verifying_key") o = Some vk /\ Object.get_string (bytes_of "encryption_key") o = Some ek.
Proof. intros Hv He. rewrite <- (c_str_id vk Hv) at 1. by rewrite <- (c_str_id ek He) at 1. Qed.

Lemma add_endpoint_eq id vk ek : json_valid_string vk = true -> json_valid_string ek = true -> Byte.x00 ∉ vk -> Byte.x00 ∉ ek ->
  add_endpoint (S := S) id vk ek = or_fail (kv_set contract_endpoint_store id (endpoint_text vk ek)) false (retM true).
Proof.
  intros Hv He Hnv Hne. unfold add_endpoint, Object.new. rewrite set_string_own by done. cbn [snd]. rewrite set_string_own by done. cbn [snd].
  cbn [Value.serialize Value.own Value.value_ mbind option_bind json_serialize].
  change (json_serialize_to_buffer_r false 0 _) with (endpoint_text vk ek). unfold endpoint_text. by rewrite c_str_text by apply endpoint_json_wf.
Qed.

(** The strings of a request fit in the memory of the contract, which has room for them. *)
Definition request_fits (creator key own : bytes) (r : endpoint_request) : Prop :=
  (0 < zlen own < 2 ^ 30)%Z /\
  Forall fits [key; r.(er_id); r.(er_code_hash); r.(er_meta_hash); r.(er_signature); r.(er_nonce); statement creator r;
    decode r.(er_signature); decode r.(er_code_hash); decode r.(er_id); decode r.(er_meta_hash); decode r.(er_id) ++ r.(er_vk) ++ r.(er_ek);
    make_key (mk_kvs 0 contract_endpoint_store) r.(er_id); endpoint_text r.(er_vk) r.(er_ek)].
Definition endpoint_room (creator key own : bytes) (r : endpoint_request) : Z :=
  25 + 3 * zlen key + zlen r.(er_signature) + 3 * zlen (decode r.(er_signature)) + zlen (statement creator r) + code_room own r + keys_room r +
  zlen r.(er_id) + zlen (endpoint_text r.(er_vk) r.(er_ek)) + zlen (make_key (mk_kvs 0 contract_endpoint_store) r.(er_id)) + 13 * sv_overhead.

Lemma request_members msg r : request_of msg = Some r ->
  Object.get_string (bytes_of "contract_id") msg = Some r.(er_id) /\
  Object.get_string (bytes_of "ledger_attestation.contract_code_hash") msg = Some r.(er_code_hash) /\
  Object.get_string (bytes_of "ledger_attestation.metadata_hash") msg = Some r.(er_meta_hash) /\
  Object.get_string (bytes_of "ledger_attestation.signature") msg = Some r.(er_signature) /\
  Object.get_string (bytes_of "contract_metadata.verifying_key") msg = Some r.(er_vk) /\
  Object.get_string (bytes_of "contract_metadata.encryption_key") msg = Some r.(er_ek) /\
  Object.get_string (bytes_of "contract_code_metadata.code_nonce") msg = Some r.(er_nonce).
Proof.
  unfold request_of. intros E. repeat (apply bind_Some in E as (? & ? & E)). by simplify_eq.
Qed.

(** The endpoint is stored once the checks have passed. *)
Lemma store_step r rsp s m u (text := endpoint_text r.(er_vk) r.(er_ek)) (e := entry contract_endpoint_store r.(er_id)) :
  sv_store s m u -> fits r.(er_id) -> fits text -> fits (make_key (mk_kvs 0 contract_endpoint_store) r.(er_id)) ->
  json_valid_string r.(er_vk) = true -> json_valid_string r.(er_ek) = true -> Byte.x00 ∉ r.(er_vk) -> Byte.x00 ∉ r.(er_ek) ->
  m !! e <> Some [] -> (u + cost PUT_OP e text + block_data_len < ADDR_LIMIT)%Z ->
  (zlen r.(er_id) + zlen text + zlen (make_key (mk_kvs 0 contract_endpoint_store) r.(er_id)) + 3 * sv_overhead <= sv_room s)%Z ->
  completes sv_sound (let! ok := add_endpoint r.(er_id) r.(er_vk) r.(er_ek) in
    require ok "unexpected error, failed to store endpoint information" rsp (retM (Response.success true rsp))) s
    (fun a s' => a = Response.success true rsp /\ exists u', sv_store s' (<[e := text]> m) u').
Proof.
  intros Hst Hi Ht Hmk Hv He Hnv Hne Hm Hu Hroom. rewrite add_endpoint_eq by done. apply completes_bind; [keep|].
  apply completes_bind; [keep|]. eapply completes_conseq; [by eapply law_kv_set|]. intros ok s1 (-> & (u' & Hst1 & _) & _).
  apply completes_ret, require_step; [|done]. intros _. apply completes_ret. eauto.
Qed.

(** C18: which peers a contract admits.  The contract is initialized with a ledger key that loads and with its own
    code hash, the request passes the schema with keys that are valid UTF-8, no empty value is stored under the
    peer's identity, the texts are not empty and below 2^31 bytes (the code hash below 2^30) and the memory and the store have room.
    Then, for the verdict of VerifySignature on the ledger's signature over the peer's identity, creator and two
    hashes: a signature that does not verify (0) and a code hash or metadata hash that is not that of the
    contract's own code with the peer's nonce, or of the peer's keys, are refused with an error, and the
    state of the contract is as it was; a signature that verifies (positive), with both hashes right, admits the
    peer: the keys are stored under its identity and the caller is told so.  A signature that cannot be decoded
    (negative) admits the peer as well when the hashes are right: the check passes every verdict but 0 (C38). *)
Theorem endpoint_admission msg env rsp r s m u key own pubkey verdict (e := entry contract_endpoint_store r.(er_id)) :
  Object.validate_schema_text ADD_ENDPOINT_PARAM_SCHEMA msg = true -> request_of msg = Some r ->
  sv_store s m u -> m !! entry contract_attestation_store ledger_key = Some key ->
  m !! entry contract_attestation_store code_hash_key = Some own -> m !! e <> Some [] ->
  sig_PublicKey key = Ok pubkey ->
  sig_public_key.VerifySignature pubkey (statement env.(originator_id_) r) (decode r.(er_signature)) = Ok verdict ->
  json_valid_string r.(er_vk) = true -> json_valid_string r.(er_ek) = true ->
  request_fits env.(originator_id_) key own r -> (endpoint_room env.(originator_id_) key own r <= sv_room s)%Z ->
  (u + cost PUT_OP e (endpoint_text r.(er_vk) r.(er_ek)) + block_data_len < ADDR_LIMIT)%Z ->
  completes sv_sound (method_add_endpoint msg env rsp) s (fun a s' =>
    let admitted := a = Response.success true rsp /\ exists u', sv_store s' (<[e := endpoint_text r.(er_vk) r.(er_ek)]> m) u' in
    let refused := (exists why, a = Response.error why rsp) /\ sv_store s' m u in
    (verdict = 0%Z \/ hashes_match own r = false -> refused) /\
    ((0 < verdict)%Z -> hashes_match own r = true -> admitted) /\
    ((verdict < 0)%Z -> hashes_match own r = true -> admitted)).
Proof.
  intros Hval Hr Hst Hkey Hown Hm Hp Hv Hvk Hek [Ho Hfit] Hroom Hu. destruct (request_members _ _ Hr) as (M1 & M2 & M3 & M4 & M5 & M6 & M7).
  pose proof (get_string_clean _ _ _ M5) as Hnv. pose proof (get_string_clean _ _ _ M6) as Hne.
  rewrite !list.Forall_cons in Hfit. destruct Hfit as (F1 & F2 & F3 & F4 & F5 & F6 & F7 & F8 & F9 & F10 & F11 & F12 & F13 & F14 & _).
  pose proof sv_overhead_nonneg. assert (Hc : (0 <= cost PUT_OP e (endpoint_text r.(er_vk) r.(er_ek)))%Z).
  { cbn [cost]. pose proof (zlen_nonneg e). pose proof (zlen_nonneg (endpoint_text r.(er_vk) r.(er_ek))). lia. }
  assert (Hpos : (0 <= code_room own r /\ 0 <= keys_room r)%Z) by (unfold code_room, keys_room, fits in *;
    pose proof (zlen_nonneg r.(er_vk)); pose proof (zlen_nonneg r.(er_ek)); lia).
  unfold endpoint_room in Hroom. unfold method_add_endpoint.
  apply completes_bind; [keep|].
  eapply completes_conseq; [apply (get_step s m u contract_attestation_store ledger_key key Hst Hkey); [apply zlen_pos_not_nil, F1|done|done|apply F1|lia|]|];
    change (zlen (make_key (mk_kvs 0 contract_attestation_store) ledger_key)) with 15%Z; change (zlen ledger_key) with 10%Z; unfold fits in F1, F2, F5, F7, F8, F13, F14; [lia|].
  intros o s1 (-> & Hst1 & Hr1). cbn [default]. change (id key) with key. rewrite bool_decide_eq_false_2 by done. cbn [negb andb require]. rewrite Hval. cbn [require].
  do 7 (eapply member_step; [eassumption|]).
  eapply signature_step; [exact Hst1|done..|lia|keep| |].
  2: { intros E e' s2 Hst2. split; [intros _; eauto|]. split; intros Hz; lia. }
  intros E s2 Hst2 Hr2. unfold hashes_match.
  eapply (code_step own); [exact Hst2|done..|lia|lia|keep| |].
  2: { intros -> e' s3 Hst3. split; [intros _; eauto|]. by split. }
  intros -> s3 Hst3 Hr3. eapply keys_step; [exact Hst3|done..|lia|keep| |].
  2: { intros -> e' s4 Hst4. split; [intros _; eauto|]. by split. }
  intros -> s4 Hst4 Hr4. eapply completes_conseq; [eapply store_step; [exact Hst4|done..|lia]|].
  cbn [andb]. intros a s5 Ha. split; [by intros [?|?]|by split].
Qed.

(** An endpoint that was stored is found again, with both keys byte for byte, and nothing else in the state of
    the contract has changed. *)
Theorem endpoint_roundtrip s m u id vk ek (text := endpoint_text vk ek) (e := entry contract_endpoint_store id)
    (n := (zlen id + zlen (make_key (mk_kvs 0 contract_endpoint_store) id))%Z) :
  sv_store s m u -> fits id -> fits (make_key (mk_kvs 0 contract_endpoint_store) id) -> fits text ->
  json_valid_string vk = true -> json_valid_string ek = true -> (Byte.x00 ∉ vk) -> (Byte.x00 ∉ ek) -> m !! e <> Some [] ->
  (u + cost PUT_OP e text + block_data_len < ADDR_LIMIT)%Z -> (2 * n + 3 * zlen text + 7 * sv_overhead <= sv_room s)%Z ->
  completes sv_sound (let! ok := add_endpoint id vk ek in let! found := get_endpoint id in retM (ok, found)) s
    (fun a s' => a = (true, Some (vk, ek)) /\ exists u', sv_store s' (<[e := text]> m) u').
Proof.
  intros Hst Hi Hmk Ht Hv He Hnv Hne Hm Hu Hroom. pose proof sv_overhead_nonneg. unfold n in Hroom. unfold fits in Hi, Hmk, Ht.
  assert (Hkeep : forall ok : bool, keeps sv_sound (let! found := get_endpoint (S := S) id in retM (ok, found))).
  { unfold get_endpoint. keep. }
  rewrite add_endpoint_eq by done. apply completes_bind; [done|]. apply completes_bind; [keep|].
  eapply completes_conseq; [eapply law_kv_set; [exact Hst|done..|fold text; lia]|].
  intros ok s1 (-> & (u' & Hst1 & Hu1) & Hr1). apply completes_ret, completes_bind; [keep|]. fold text e in Hst1, Hr1, Hu1.
  unfold get_endpoint.
  eapply give_step; [eapply (get_step s1 _ u' contract_endpoint_store id text Hst1); [apply lookup_insert_eq|apply zlen_pos_not_nil; lia|done|done|lia|lia|lia]|keep|].
  intros s2 [Hst2 _]. unfold text at 1, endpoint_text. unfold endpoint_json at 1.
  rewrite object_text_read by (apply endpoint_json_wf || by vm_compute). cbn [negb].
  destruct (endpoint_json_members vk ek Hnv Hne). do 2 (eapply member_step; [eassumption|]). apply completes_ret, completes_ret. eauto.
Qed.
End Endpoints.
