(* ===== verification/ContractBaseWitnesses.v ===== *)
(** The contract code of ContractBase on services that are pure functions of a map: the laws of the services hold of them, and
    the witnesses of the theorems about secrets and endpoints run on them. *)
From S2P Require Import Prelude Crypto BlockStore Codec DataNode FreeSpace Json JsonSpec StateNode Cache CacheSpec.
From S2P Require Import DataNodeIO MemorySpec Trie StateKV KVSpec Platform TrieSpec TrieHeap TrieModel TrieNodes TrieWalk TrieRefine KVRefine.
From S2P Require Import Keys KeysSpec EnclaveData EnclavePlatform EnclaveWitnesses Wasm ContractLib ContractKV.
From S2P Require Import Values ValuesSpec ContractBase ContractServices ContractBaseSpec.

#[local] Abbreviation St := (gmap bytes bytes).

(** The result of a function, or the answer of a call that failed. *)
Definition answer_of {A} (r : result A) : option A := match r with Ok a => Some a | Err _ => None end.
Definition pure {A} (a : A) : M St A := retM a.

#[export] Instance pure_services : ContractServices St := {|
  kv_get p k := readM (fun m => let v := default [] (m !! entry p k) in if bool_decide (v = []) then None else Some v);
  kv_set p k v := let! _ := modifyM (fun m => <[entry p k := v]> m) in retM true;
  kv_get_uint32 p k := pure None;
  kv_set_uint32 p k z := pure false;
  privileged_get k := readM (fun m => m !! k);
  sv_b64_encode b := pure (Some (ByteArrayToBase64EncodedString b));
  sv_b64_decode b := pure (Some (Base64EncodedStringToByteArray b));
  sv_crypto_hash b := pure (Some (SHA256Hash b));
  sv_aes_generate_key := pure None;
  sv_aes_generate_iv := pure None;
  sv_aes_encrypt b k i := pure (answer_of (EncryptMessage_iv k i b));
  sv_aes_decrypt c k i := pure (answer_of (DecryptMessage_iv k i c));
  sv_rsa_encrypt b k := pure None;
  sv_rsa_decrypt c k := pure (answer_of (let? key := run_method (pkenc_private_key.Deserialize k) None in pkenc_private_key.DecryptMessage key c));
  sv_ecdsa_verify b k g := pure (match (let? key := sig_PublicKey k in sig_public_key.VerifySignature key b g) with
    | Ok v => negb (bool_decide (v = 0)%Z) | Err _ => false end);
|}.

#[export] Instance pure_services_laws : ServicesLaws pure_services.
Proof.
  refine {| sv_sound := fun _ => True; sv_room := fun _ => (2 ^ 32)%Z; sv_overhead := 0; sv_store s m u := s = m |}.
  all: try done.
  all: intros; subst; cbn [kv_get kv_set sv_b64_decode sv_crypto_hash sv_aes_decrypt sv_rsa_decrypt sv_ecdsa_verify pure_services].
  all: unfold fits in *; intros _; cbn [pure retM readM modifyM bindM].
  - split; [done|]. split; [done|]. lia.
  - split; [done|]. split; [done|]. lia.
  - rewrite H4. split; [done|]. split; [done|]. lia.
  - rewrite H3. cbn [result_bind]. rewrite H4. split; [done|]. split; [done|]. lia.
  - rewrite H3. cbn [result_bind]. rewrite H4. split; [done|]. split; [done|]. lia.
  - split; [done|]. split; [done|]. pose proof (zlen_nonneg v). lia.
  - split; [done|]. split; [|lia]. exists u. split; [done|]. cbn [cost]. pose proof (zlen_nonneg (entry p k)). lia.
Defined.

(** A list of conditions, checked one by one. *)
#[local] Ltac computed := apply (bool_decide_unpack _); vm_compute; exact I.

(** * A secret *)

Definition peer_rsa : RSA := match RSA_generate_key_ex 4 RSA_KEY_SIZE RSA_F4 with Some k => k | None => mk_rsa 0 0 None end.
Definition peer_rsa_text : bytes := ok_or [] (pkenc_private_key.Serialize (Some peer_rsa)).
Definition iv0 : bytes := replicate 12 "i"%byte.
Definition sealed_message : bytes := ok_or [] (EncryptMessage_iv key0 iv0 (bytes_of "attack at dawn")).
Definition sealed_key : bytes := ok_or [] (pkenc_public_key.EncryptMessage 1 (Some (RSAPublicKey_dup peer_rsa)) key0).
Definition secret_text : bytes := text_of (secret_json (base64_encode sealed_key) (base64_encode iv0) (base64_encode sealed_message)).

Lemma secret_received_witness :
  completes sv_sound (recv_secret_text peer_rsa_text secret_text) (∅ : St) (fun o s' => o = Some (bytes_of "attack at dawn") /\ sv_store s' ∅ 0).
Proof.
  apply (secret_received (∅ : St) ∅ 0 peer_rsa peer_rsa_text 1 key0 iv0 (bytes_of "attack at dawn") sealed_message sealed_key secret_text).
  - exists 4. vm_compute. reflexivity.
  - vm_compute. reflexivity.
  - vm_compute. reflexivity.
  - vm_compute. reflexivity.
  - vm_compute. reflexivity.
  - vm_compute. reflexivity.
  - vm_compute. reflexivity.
  - reflexivity.
  - apply (bool_decide_unpack _). vm_compute. exact I.
Defined.

(** * A peer the ledger vouches for *)

Definition own_hash : bytes := SHA256Hash (bytes_of "code").
Definition peer_request : endpoint_request :=
  let id := base64_encode (bytes_of "peer") in
  let ch := base64_encode (SHA256Hash (own_hash ++ SHA256Hash (bytes_of "nonce"))) in
  let mh := base64_encode (SHA256Hash (bytes_of "peer" ++ bytes_of "vk" ++ bytes_of "ek")) in
  let sg := ok_or [] (sig_private_key.SignMessage 0 originator (id ++ bytes_of "creator" ++ ch ++ mh)) in
  mk_endpoint_request id ch mh (base64_encode sg) (bytes_of "vk") (bytes_of "ek") (bytes_of "nonce").
Definition peer_message : Value.t :=
  let set name v o := (Object.set_string (bytes_of name) (Some v) o).2 in
  set "contract_id" peer_request.(er_id) (set "ledger_attestation.contract_code_hash" peer_request.(er_code_hash)
    (set "ledger_attestation.metadata_hash" peer_request.(er_meta_hash) (set "ledger_attestation.signature" peer_request.(er_signature)
    (set "contract_metadata.verifying_key" peer_request.(er_vk) (set "contract_metadata.encryption_key" peer_request.(er_ek)
    (set "contract_code_metadata.code_hash" [] (set "contract_code_metadata.code_nonce" peer_request.(er_nonce) Object.new))))))).
Definition peer_env : Environment := mk_Environment [] [] (bytes_of "creator") [] [] [] [].
Definition initialized : St :=
  <[entry contract_attestation_store ledger_key := originator_text]> {[entry contract_attestation_store code_hash_key := own_hash]}.
Definition ledger_public : Key := ok_or (sig_Key UNDEFINED) (sig_PublicKey originator_text).

Lemma endpoint_admission_witness :
  completes sv_sound (method_add_endpoint peer_message peer_env Response.new) initialized (fun a s' => a = Response.success true Response.new /\
    exists u' : Z, sv_store s' (<[entry contract_endpoint_store peer_request.(er_id) :=
      endpoint_text peer_request.(er_vk) peer_request.(er_ek)]> initialized) u').
Proof.
  assert (Hv : hashes_match own_hash peer_request = true) by (vm_compute; reflexivity).
  pose proof (endpoint_admission peer_message peer_env Response.new peer_request initialized initialized 0 originator_text own_hash
    ledger_public 1) as Ha. cbv zeta in Ha.
  eapply completes_conseq; [apply Ha; clear Ha|].
  - vm_compute. reflexivity.
  - vm_compute. reflexivity.
  - reflexivity.
  - vm_compute. reflexivity.
  - vm_compute. reflexivity.
  - vm_compute. discriminate.
  - vm_compute. reflexivity.
  - vm_compute. reflexivity.
  - vm_compute. reflexivity.
  - vm_compute. reflexivity.
  - split; [computed|]. repeat (apply list.Forall_cons; split; [computed|]). apply list.Forall_nil_2.
  - change (sv_room initialized) with (2 ^ 32)%Z. assert (Hr : endpoint_room (originator_id_ peer_env) originator_text own_hash peer_request = 992%Z) by (vm_compute; reflexivity).
    rewrite Hr. computed.
  - computed.
  - intros a s' (_ & Hyes & _). apply Hyes; [lia|exact Hv].
Defined.

Lemma endpoint_roundtrip_witness :
  completes sv_sound (let! ok := add_endpoint (bytes_of "peer") (bytes_of "vk") (bytes_of "ek") in
      let! found := get_endpoint (bytes_of "peer") in retM (ok, found)) (∅ : St)
    (fun a s' => a = (true, Some (bytes_of "vk", bytes_of "ek")) /\
      exists u' : Z, sv_store s' (<[entry contract_endpoint_store (bytes_of "peer") := endpoint_text (bytes_of "vk") (bytes_of "ek")]> ∅) u').
Proof.
  apply (endpoint_roundtrip (∅ : St) ∅ 0 (bytes_of "peer") (bytes_of "vk") (bytes_of "ek")).
  - reflexivity.
  - computed.
  - computed.
  - computed.
  - vm_compute. reflexivity.
  - vm_compute. reflexivity.
  - computed.
  - computed.
  - vm_compute. discriminate.
  - computed.
  - computed.
Defined.
