(* ===== verification/HostEnclave.v ===== *)
(** The host side of an SGX enclave: common/error.cpp, and enclave.cpp and base.cpp under
    eservice/pdo/eservice/enclave/enclave/ (pservice/pdo/pservice/enclave/enclave/ has the same two files for a
    single enclave).  The host creates enclaves, crosses into them with [CallSgx], which tries again when the device is
    busy or the enclave was lost, and turns the errors of both sides into exceptions and status codes. *)
From S2P Require Import Prelude Crypto BlockStore Codec Json Attestation EnclaveData.
From Stdlib Require Import Strings.String.

(** * SGX status codes: common/error.cpp *)

(** An error of the SDK that [sgx_errlist] has, by the name of its constant, or another code. *)
Inductive sgx_status_t := SGX_SUCCESS | SGX_ERROR (name : string) | SGX_UNLISTED (code : Z).

#[global] Instance sgx_status_eq_dec : EqDecision sgx_status_t.
Proof. solve_decision. Defined.

Definition SGX_ERROR_ENCLAVE_LOST : sgx_status_t := SGX_ERROR "SGX_ERROR_ENCLAVE_LOST".
Definition SGX_ERROR_DEVICE_BUSY : sgx_status_t := SGX_ERROR "SGX_ERROR_DEVICE_BUSY".
Definition SGX_ERROR_BUSY : sgx_status_t := SGX_ERROR "SGX_ERROR_BUSY".
Definition SGX_ERROR_INVALID_ENCLAVE_ID : sgx_status_t := SGX_ERROR "SGX_ERROR_INVALID_ENCLAVE_ID".

Definition SGX_ERR_ITEM (x : string) : string * string := (x, x).
Definition sgx_errlist : list (string * string) :=
  [("SGX_ERROR_UNEXPECTED", "Unexpected error occurred."); ("SGX_ERROR_INVALID_PARAMETER", "Invalid parameter.");
   ("SGX_ERROR_OUT_OF_MEMORY", "Out of memory."); ("SGX_ERROR_INVALID_STATE", "SGX API is invoked in incorrect order or state");
   SGX_ERR_ITEM "SGX_ERROR_HYPERV_ENABLED"; SGX_ERR_ITEM "SGX_ERROR_FEATURE_NOT_SUPPORTED"; SGX_ERR_ITEM "SGX_ERROR_INVALID_FUNCTION";
   SGX_ERR_ITEM "SGX_ERROR_OUT_OF_TCS"; SGX_ERR_ITEM "SGX_ERROR_ENCLAVE_CRASHED"; SGX_ERR_ITEM "SGX_ERROR_ECALL_NOT_ALLOWED";
   SGX_ERR_ITEM "SGX_ERROR_OCALL_NOT_ALLOWED"; SGX_ERR_ITEM "SGX_ERROR_UNDEFINED_SYMBOL";
   ("SGX_ERROR_ENCLAVE_LOST", "Power transition occurred."); ("SGX_ERROR_INVALID_ENCLAVE", "Invalid enclave image.");
   ("SGX_ERROR_INVALID_ENCLAVE_ID", "Invalid enclave identification."); ("SGX_ERROR_INVALID_SIGNATURE", "Invalid enclave signature.");
   SGX_ERR_ITEM "SGX_ERROR_NDEBUG_ENCLAVE"; ("SGX_ERROR_OUT_OF_EPC", "Out of EPC memory."); ("SGX_ERROR_NO_DEVICE", "Invalid SGX device.");
   ("SGX_ERROR_MEMORY_MAP_CONFLICT", "Memory map conflicted."); ("SGX_ERROR_INVALID_METADATA", "Invalid enclave metadata.");
   ("SGX_ERROR_DEVICE_BUSY", "SGX device was busy."); ("SGX_ERROR_INVALID_VERSION", "Enclave version was invalid.");
   SGX_ERR_ITEM "SGX_ERROR_MODE_INCOMPATIBLE"; ("SGX_ERROR_INVALID_ATTRIBUTE", "Enclave was not authorized.");
   ("SGX_ERROR_ENCLAVE_FILE_ACCESS", "Can't open enclave file."); SGX_ERR_ITEM "SGX_ERROR_INVALID_MISC"; SGX_ERR_ITEM "SGX_ERROR_MAC_MISMATCH";
   SGX_ERR_ITEM "SGX_ERROR_INVALID_CPUSVN"; SGX_ERR_ITEM "SGX_ERROR_INVALID_ISVSVN"; SGX_ERR_ITEM "SGX_ERROR_INVALID_KEYNAME";
   SGX_ERR_ITEM "SGX_ERROR_SERVICE_UNAVAILABLE"; SGX_ERR_ITEM "SGX_ERROR_SERVICE_TIMEOUT"; SGX_ERR_ITEM "SGX_ERROR_AE_INVALID_EPIDBLOB";
   SGX_ERR_ITEM "SGX_ERROR_SERVICE_INVALID_PRIVILEGE"; SGX_ERR_ITEM "SGX_ERROR_EPID_MEMBER_REVOKED"; SGX_ERR_ITEM "SGX_ERROR_UPDATE_NEEDED";
   SGX_ERR_ITEM "SGX_ERROR_NETWORK_FAILURE"; SGX_ERR_ITEM "SGX_ERROR_AE_SESSION_INVALID"; SGX_ERR_ITEM "SGX_ERROR_BUSY";
   SGX_ERR_ITEM "SGX_ERROR_MC_NOT_FOUND"; SGX_ERR_ITEM "SGX_ERROR_MC_NO_ACCESS_RIGHT"; SGX_ERR_ITEM "SGX_ERROR_MC_USED_UP";
   SGX_ERR_ITEM "SGX_ERROR_MC_OVER_QUOTA"; SGX_ERR_ITEM "SGX_ERROR_EFI_NOT_SUPPORTED"; SGX_ERR_ITEM "SGX_ERROR_NO_PRIVILEGE"]%string.

(** [snprintf] into the buffer of 256 bytes. *)
Definition in_buffer (s : string) : string := substring 0 255 s.
(** [%.8X]. *)
Definition hex8 (code : Z) : string := string_of_list_byte (BinaryToHexString (rev (le_split 4 code))).

Fixpoint find_error (name : string) (l : list (string * string)) : option string :=
  match l with
  | [] => None
  | (err, text) :: l => if bool_decide (err = name) then Some text else find_error name l
  end.

Definition ThrowSgxError (ret : sgx_status_t) (msg : string) : result unit :=
  let unknown code := Err (SystemError (in_buffer (msg ++ ": UNKNOWN SGX ERROR: 0x" ++ hex8 code))) in
  match ret with
  | SGX_SUCCESS => Ok tt
  | SGX_ERROR name =>
      match find_error name sgx_errlist with
      | Some text =>
          let buffer := in_buffer (msg ++ ": SGX ERROR: " ++ text) in
          if bool_decide (ret = SGX_ERROR_BUSY) then Err (SystemBusyError buffer) else Err (SystemError buffer)
      | None => unknown 0%Z
      end
  | SGX_UNLISTED code => unknown code
  end%string.

(** [e.what()], and an [Error] with a code: the code never is that of success where one is thrown. *)
Definition what (e : error) : string :=
  match e with
  | ValueError m | RuntimeError m | CryptoError m | MemoryError m | SystemError m | IOError m | IndexError m | DivisionByZero m
  | OverflowError m | SystemBusyError m | UnknownError m | NotFoundError m | StdException m | UndefinedBehaviour m => m
  | OutOfFuel => ""
  end.

Definition Error (code : pdo_err_t) (msg : string) : error :=
  match code with
  | PDO_SUCCESS | PDO_ERR_UNKNOWN => UnknownError msg
  | PDO_ERR_MEMORY => MemoryError msg
  | PDO_ERR_IO => IOError msg
  | PDO_ERR_RUNTIME => RuntimeError msg
  | PDO_ERR_INDEX => IndexError msg
  | PDO_ERR_DIVIDE_BY_ZERO => DivisionByZero msg
  | PDO_ERR_OVERFLOW => OverflowError msg
  | PDO_ERR_VALUE => ValueError msg
  | PDO_ERR_SYSTEM => SystemError msg
  | PDO_ERR_SYSTEM_BUSY => SystemBusyError msg
  | PDO_ERR_CRYPTO => CryptoError msg
  | PDO_ERR_NOTFOUND => NotFoundError msg
  end.

(** * What the host runs on *)

Inductive sgx_device_status_t := SGX_ENABLED | SGX_DISABLED_REBOOT_REQUIRED | SGX_DISABLED_LEGACY_OS | SGX_DISABLED | SGX_DEVICE_OTHER.

(** The untrusted SGX runtime, the operating system and the device.  An output is meant to be read only when the status is
    success.  [sgx_enter] is the transition of an ecall: whether the call reaches the code of the enclave.  The global
    [g_enclaveError] (ocall.cpp) is here because the enclaves write it, with [ocall_SetErrorMessage]. *)
Class SgxRuntime (platform : Type) := {
  sgx_enable_device : platform -> sgx_status_t * sgx_device_status_t * platform;
  sgx_create_enclave : bytes -> platform -> sgx_status_t * Z * platform;
  sgx_destroy_enclave : Z -> platform -> platform;
  sgx_init_quote : platform -> sgx_status_t * (bytes * bytes) * platform;
  sgx_calc_quote_size : option bytes -> sgx_status_t * Z;
  sgx_get_quote : bytes -> bytes -> option bytes -> Z -> platform -> sgx_status_t * bytes * platform;
  sgx_enter : Z -> platform -> sgx_status_t * platform;
  pthread_create : platform -> Z * Z * platform;
  pthread_join : Z -> platform -> platform;
  g_enclaveError : platform -> string;
  clear_enclaveError : platform -> platform;
}.

(** The code inside the enclaves of a service that this file calls: [shared] is what all of them use, [mem] the memory of
    one; [fresh_memory] is that of an enclave that was just created.  The contract service takes the message of an error from
    the member [enclaveError] ([message_member]), the provisioning service from the global. *)
Class EnclaveCode (shared mem : Type) := {
  fresh_memory : mem;
  message_member : bool;
  ec_Initialize : M (shared * mem) (pdo_err_t * option unit);
  ec_CalculateSealedEnclaveDataSize : M (shared * mem) (pdo_err_t * option Z);
  ec_CreateErsatzEnclaveReport : bytes -> M (shared * mem) (pdo_err_t * option bytes);
}.

(** * enclave.h *)

(** [None] for a member the constructor does not set. *)
Record Enclave := mk_Enclave {
  enclaveFilePath : bytes;
  enclaveId : Z;
  threadId : option Z;
  quoteSize : Z;
  sealedSignupDataSize : Z;
  signatureRevocationList : bytes;
  spid : option bytes;
  reportTargetInfo : bytes;
  epidGroupId : bytes;
  enclaveError : string;
}.

Definition with_path (p : bytes) (e : Enclave) : Enclave :=
  mk_Enclave p e.(enclaveId) e.(threadId) e.(quoteSize) e.(sealedSignupDataSize) e.(signatureRevocationList) e.(spid)
    e.(reportTargetInfo) e.(epidGroupId) e.(enclaveError).
Definition with_id (i : Z) (e : Enclave) : Enclave :=
  mk_Enclave e.(enclaveFilePath) i e.(threadId) e.(quoteSize) e.(sealedSignupDataSize) e.(signatureRevocationList) e.(spid)
    e.(reportTargetInfo) e.(epidGroupId) e.(enclaveError).
Definition with_thread (t : Z) (e : Enclave) : Enclave :=
  mk_Enclave e.(enclaveFilePath) e.(enclaveId) (Some t) e.(quoteSize) e.(sealedSignupDataSize) e.(signatureRevocationList) e.(spid)
    e.(reportTargetInfo) e.(epidGroupId) e.(enclaveError).
Definition with_sealed_size (n : Z) (e : Enclave) : Enclave :=
  mk_Enclave e.(enclaveFilePath) e.(enclaveId) e.(threadId) e.(quoteSize) n e.(signatureRevocationList) e.(spid)
    e.(reportTargetInfo) e.(epidGroupId) e.(enclaveError).
Definition with_revocations (l : bytes) (e : Enclave) : Enclave :=
  mk_Enclave e.(enclaveFilePath) e.(enclaveId) e.(threadId) e.(quoteSize) e.(sealedSignupDataSize) l e.(spid)
    e.(reportTargetInfo) e.(epidGroupId) e.(enclaveError).
Definition with_quote_size (n : Z) (e : Enclave) : Enclave :=
  mk_Enclave e.(enclaveFilePath) e.(enclaveId) e.(threadId) n e.(sealedSignupDataSize) e.(signatureRevocationList) e.(spid)
    e.(reportTargetInfo) e.(epidGroupId) e.(enclaveError).
Definition with_spid (s : bytes) (e : Enclave) : Enclave :=
  mk_Enclave e.(enclaveFilePath) e.(enclaveId) e.(threadId) e.(quoteSize) e.(sealedSignupDataSize) e.(signatureRevocationList) (Some s)
    e.(reportTargetInfo) e.(epidGroupId) e.(enclaveError).
Definition with_quote_info (q : bytes * bytes) (e : Enclave) : Enclave :=
  mk_Enclave e.(enclaveFilePath) e.(enclaveId) e.(threadId) e.(quoteSize) e.(sealedSignupDataSize) e.(signatureRevocationList) e.(spid)
    q.1 q.2 e.(enclaveError).
Definition with_error (m : string) (e : Enclave) : Enclave :=
  mk_Enclave e.(enclaveFilePath) e.(enclaveId) e.(threadId) e.(quoteSize) e.(sealedSignupDataSize) e.(signatureRevocationList) e.(spid)
    e.(reportTargetInfo) e.(epidGroupId) m.

(** * The host *)

Section Host.
Context {platform shared mem : Type} `{R : SgxRuntime platform} `{C : EnclaveCode shared mem}.

(** [loaded] holds the memory of every enclave that exists on the platform.  The vector [g_Enclave] of the contract service, or
    the one enclave of the provisioning service; [g_EnclaveReadyQueue] is null before the first initialization. *)
Record host := mk_host {
  platform_ : platform;
  shared_ : shared;
  loaded : gmap Z mem;
  g_Enclave : list Enclave;
  g_EnclaveReadyQueue : option (list Z);
  g_IsInitialized : bool;
  g_LastError : string;
}.

Definition set_platform (p : platform) (h : host) : host :=
  mk_host p h.(shared_) h.(loaded) h.(g_Enclave) h.(g_EnclaveReadyQueue) h.(g_IsInitialized) h.(g_LastError).
Definition set_loaded (l : gmap Z mem) (h : host) : host :=
  mk_host h.(platform_) h.(shared_) l h.(g_Enclave) h.(g_EnclaveReadyQueue) h.(g_IsInitialized) h.(g_LastError).
Definition set_enclaves (l : list Enclave) (h : host) : host :=
  mk_host h.(platform_) h.(shared_) h.(loaded) l h.(g_EnclaveReadyQueue) h.(g_IsInitialized) h.(g_LastError).
Definition set_queue (q : option (list Z)) (h : host) : host :=
  mk_host h.(platform_) h.(shared_) h.(loaded) h.(g_Enclave) q h.(g_IsInitialized) h.(g_LastError).
Definition set_initialized (b : bool) (h : host) : host :=
  mk_host h.(platform_) h.(shared_) h.(loaded) h.(g_Enclave) h.(g_EnclaveReadyQueue) b h.(g_LastError).
Definition set_last_error (m : string) (h : host) : host :=
  mk_host h.(platform_) h.(shared_) h.(loaded) h.(g_Enclave) h.(g_EnclaveReadyQueue) h.(g_IsInitialized) m.

(** A function of the runtime. *)
Definition runtime {A} (f : platform -> A * platform) : M host A := fun h =>
  let '(a, p) := f h.(platform_) in (Ok a, set_platform p h).

(** [g_Enclave[i]], read and written. *)
Definition this (i : nat) : M host Enclave := fun h =>
  (of_option (h.(g_Enclave) !! i) (UndefinedBehaviour "vector index out of range"), h).
Definition update (i : nat) (f : Enclave -> Enclave) : M host unit := modifyM (fun h => set_enclaves (alter f i h.(g_Enclave)) h).

Definition ConvertErrorStatus (ret : sgx_status_t) (pdoRet : pdo_err_t) : sgx_status_t :=
  if bool_decide (ret = SGX_SUCCESS) && bool_decide (pdoRet = PDO_ERR_SYSTEM_BUSY) then SGX_ERROR_DEVICE_BUSY else ret.

(** An ecall: the runtime lets it through or not, and the code runs on what is shared and on the memory of its enclave.
    An output is only given when the code ran. *)
Definition ecall_into {A} (eid : Z) (code : M (shared * mem) (pdo_err_t * option A)) :
    M host (sgx_status_t * option (pdo_err_t * option A)) := fun h =>
  match h.(loaded) !! eid with
  | None => (Ok (SGX_ERROR_INVALID_ENCLAVE_ID, None), h)
  | Some m =>
      let '(ret, p) := sgx_enter eid h.(platform_) in
      match ret with
      | SGX_SUCCESS =>
          let '(r, (sh, m)) := code (h.(shared_), m) in
          let h := mk_host p sh (<[eid := m]> h.(loaded)) h.(g_Enclave) h.(g_EnclaveReadyQueue) h.(g_IsInitialized) h.(g_LastError) in
          match r with
          | Ok (pdo, out) => (Ok (ConvertErrorStatus SGX_SUCCESS pdo, Some (pdo, out)), h)
          | Err e => (Err e, h)
          end
      | _ => (Ok (ret, None), set_platform p h)
      end
  end.

(** ** CallSgx and LoadEnclave *)

Definition ThrowPDOError (i : nat) (err : pdo_err_t) : M host unit :=
  if bool_decide (err = PDO_SUCCESS) then retM tt
  else if message_member then
    let! e := this i in
    update i (with_error "") ;;!
    throwM (Error err e.(enclaveError))
  else
    let! tmp := runtime (fun p => (g_enclaveError p, clear_enclaveError p)) in
    throwM (Error err tmp).

(** The checks after a call that crosses: its output is there when both pass. *)
Definition checked {A} (i : nat) (msg : string) (r : sgx_status_t * option (pdo_err_t * option A)) : M host A :=
  let '(ret, out) := r in
  liftM (ThrowSgxError ret msg) ;;!
  let! '(pdo, out) := liftM (of_option out (UndefinedBehaviour "output of a call that did not run")) in
  ThrowPDOError i pdo ;;!
  liftM (of_option out (UndefinedBehaviour "output of a call that did not run")).

(** A message that ends its line. *)
Definition line (s : string) : string := (s ++ String (Ascii.ascii_of_nat 10) EmptyString)%string.

Definition QuerySgxStatus : M host unit :=
  let! '(ret, status) := runtime sgx_enable_device in
  liftM (ThrowSgxError ret "") ;;!
  match status with
  | SGX_ENABLED => retM tt
  | SGX_DISABLED_REBOOT_REQUIRED => throwM (RuntimeError (line "SGX device will be enabled after this machine is rebooted."))
  | SGX_DISABLED_LEGACY_OS => throwM (RuntimeError (line "SGX device can't be enabled on an OS that doesn't support EFI interface."))
  | SGX_DISABLED => throwM (RuntimeError (line "SGX device not found."))
  | SGX_DEVICE_OTHER => throwM (RuntimeError (line "Unexpected error."))
  end.

Definition create_enclave (i : nat) : M host (sgx_status_t * unit) :=
  let! e := this i in
  let! '(ret, id) := runtime (sgx_create_enclave (c_str e.(enclaveFilePath))) in
  whenM (bool_decide (ret = SGX_SUCCESS))
    (update i (with_id id) ;;! modifyM (fun h => set_loaded (<[id := fresh_memory]> h.(loaded)) h)) ;;!
  retM (ret, tt).

(** The ecalls of [LoadEnclave] read the member [enclaveId] when they are made. *)
Definition ecall_this {A} (i : nat) (code : M (shared * mem) (pdo_err_t * option A)) :
    M host (sgx_status_t * option (pdo_err_t * option A)) :=
  let! e := this i in ecall_into e.(enclaveId) code.

Definition default_retries : Z := 5.

(** [CallSgx] and [LoadEnclave] call each other.  A call gives the output of its last attempt, the only one whose output is
    used.  The loop has no bound when the enclave is lost; [fuel] counts turns of it. *)
Definition LoadEnclave_with (call : forall {A}, nat -> M host (sgx_status_t * A) -> Z -> M host (sgx_status_t * A)) (i : nat) : M host unit :=
  let! e := this i in
  if negb (bool_decide (e.(enclaveId) = 0%Z)) then retM tt
  else
    QuerySgxStatus ;;!
    let! '(ret, _) := call i (create_enclave i) 10%Z in
    liftM (ThrowSgxError ret "Unable to create enclave.") ;;!
    let! r := call i (ecall_this i ec_Initialize) default_retries in
    let! _ := checked i "Enclave call to ecall_Initialize failed" r in
    let! r := call i (ecall_this i ec_CalculateSealedEnclaveDataSize) default_retries in
    let! size := checked i "Failed to calculate length of sealed signup data" r in
    update i (with_sealed_size size).

Fixpoint CallSgx_loop (fuel : nat) {A} (i : nat) (fxn : M host (sgx_status_t * A)) (retries count : Z) : M host (sgx_status_t * A) :=
  match fuel with
  | O => throwM OutOfFuel
  | S fuel =>
      let! '(ret, a) := fxn in
      if bool_decide (ret = SGX_ERROR_ENCLAVE_LOST) then
        LoadEnclave_with (fun A i fxn retries => CallSgx_loop fuel i fxn retries 0) i ;;!
        CallSgx_loop fuel i fxn retries count
      else if bool_decide (ret = SGX_ERROR_DEVICE_BUSY) then
        let count := (count + 1)%Z in
        if bool_decide (count <= retries)%Z then CallSgx_loop fuel i fxn retries count else retM (ret, a)
      else retM (ret, a)
  end.
Definition CallSgx (fuel : nat) {A} (i : nat) (fxn : M host (sgx_status_t * A)) (retries : Z) : M host (sgx_status_t * A) :=
  CallSgx_loop fuel i fxn retries 0.
Definition LoadEnclave (fuel : nat) : nat -> M host unit := LoadEnclave_with (fun A => CallSgx fuel).

(** ** The other methods of [Enclave] *)

Section Methods.
Context (fuel : nat).

(** [g_Enclave[i].CallSgx] with [sgx_init_quote] in a lambda: a method of the element [i], which has to exist. *)
Definition init_quote (i : nat) : M host (sgx_status_t * (bytes * bytes)) :=
  let! _ := this i in CallSgx fuel i (runtime sgx_init_quote) default_retries.

(** The constructor calls [CallSgx] of [g_Enclave[0]], also when it makes the first element. *)
Definition Enclave_new : M host Enclave :=
  let '(ret, size) := sgx_calc_quote_size None in
  liftM (ThrowSgxError ret "Failed to get SGX quote size.") ;;!
  let! '(ret, info) := init_quote 0 in
  liftM (ThrowSgxError ret "Failed to initialized quote in enclave constructore") ;;!
  retM (mk_Enclave [] 0 None size 0 [] None info.1 info.2 "").

Definition Unload (i : nat) : M host unit :=
  let! e := this i in
  whenM (negb (bool_decide (e.(enclaveId) = 0%Z)))
    (modifyM (fun h => set_loaded (delete e.(enclaveId) h.(loaded)) (set_platform (sgx_destroy_enclave e.(enclaveId) h.(platform_)) h)) ;;!
     update i (with_id 0)).

Definition PATH_MAX : Z := 4096.

Definition Load (i : nat) (inEnclaveFilePath : bytes) : M host unit :=
  throw_ifM (bool_decide (inEnclaveFilePath = []) || bool_decide (PATH_MAX < zlen inEnclaveFilePath)%Z)
    (ValueError "Invalid enclave path.") ;;!
  Unload i ;;!
  update i (with_path inEnclaveFilePath) ;;!
  LoadEnclave fuel i.

Definition GetEpidGroup (i : nat) : M host bytes :=
  let! '(ret, info) := init_quote 0 in
  liftM (ThrowSgxError ret "Failed to get epid group id from init_quote") ;;!
  update i (with_quote_info info) ;;!
  let! e := this i in retM e.(epidGroupId).

Definition isxdigit (c : byte) : bool :=
  let z := byte.unsigned c in
  (bool_decide (48 <= z <= 57) || bool_decide (65 <= z <= 70) || bool_decide (97 <= z <= 102))%Z.

Definition SetSpid (i : nat) (inSpid : bytes) : M host unit :=
  throw_ifM (bool_decide (zlen inSpid <> 32%Z)) (ValueError "Invalid SPID length") ;;!
  throw_ifM (negb (forallb isxdigit inSpid)) (ValueError "Invalid SPID format") ;;!
  let! id := liftM (HexStringToBinary inSpid) in
  update i (with_spid id).

(** The pointer to the revocation list: null when it is empty. *)
Definition revocations (e : Enclave) : option bytes :=
  if bool_decide (e.(signatureRevocationList) = []) then None else Some e.(signatureRevocationList).

(** The list is kept when its quote size cannot be computed. *)
Definition SetSignatureRevocationList (i : nat) (inSignatureRevocationList : bytes) : M host unit :=
  update i (with_revocations inSignatureRevocationList) ;;!
  let! e := this i in
  let '(ret, size) := sgx_calc_quote_size (revocations e) in
  liftM (ThrowSgxError ret "") ;;!
  update i (with_quote_size size).

(** [sgx_get_quote] in a lambda: the members are read when it runs. *)
Definition get_quote (i : nat) (report : bytes) (size : Z) : M host bytes :=
  let! '(ret, quote) := CallSgx fuel i (
    let! e := this i in
    let! id := liftM (of_option e.(spid) (UndefinedBehaviour "uninitialized member")) in
    runtime (sgx_get_quote report id (revocations e) size)) default_retries in
  liftM (ThrowSgxError ret "Failed to create linkable quote for enclave report") ;;!
  retM quote.

Definition CreateQuoteFromReport (i : nat) (inEnclaveReport : bytes) : M host bytes :=
  let! e := this i in get_quote i inEnclaveReport e.(quoteSize).

(** The basename in a quote. *)
Definition basename_offset : Z := 16.

Definition GetEnclaveCharacteristics (i : nat) : M host (bytes * bytes) :=
  let! '(ret, (targetInfo, _)) := init_quote i in
  liftM (ThrowSgxError ret "Failed to initialize enclave quote") ;;!
  let! r := CallSgx fuel i (ecall_this i (ec_CreateErsatzEnclaveReport targetInfo)) default_retries in
  let! enclaveReport := checked i "Failed to retrieve ersatz enclave report" r in
  let! e := this i in
  let! quote := get_quote i enclaveReport e.(quoteSize) in
  let! measurement := liftM (quote_field quote mr_enclave_offset SGX_HASH_SIZE) in
  let! basename := liftM (quote_field quote basename_offset 32) in
  retM (measurement, basename).

(** ** base.cpp *)

Definition SetLastError (message : string) : M host unit := modifyM (set_last_error message).

(** [try { m } catch ...] around the body of every function of the interface. *)
Definition guarded {A} (m : M host A) : M host (pdo_err_t * option A) :=
  catchM (let! a := m in retM (PDO_SUCCESS, Some a)) (fun e => SetLastError (what e) ;;! retM (error_code e, None)).

Definition GetEnclaveQuoteSize : M host Z := let! e := this 0 in retM e.(quoteSize).

Definition base_GetEpidGroup : M host (pdo_err_t * option bytes) :=
  guarded (let! epidGroup := GetEpidGroup 0 in retM (BinaryToHexString (rev epidGroup))).

Definition base_GetEnclaveCharacteristics : M host (pdo_err_t * option (bytes * bytes)) :=
  guarded (let! '(measurement, basename) := GetEnclaveCharacteristics 0 in
           retM (BinaryToHexString measurement, BinaryToHexString basename)).

Definition base_SetSignatureRevocationList (inSignatureRevocationList : bytes) : M host (pdo_err_t * option unit) :=
  guarded (SetSignatureRevocationList 0 inSignatureRevocationList).

(** An ecall with the id of [g_Enclave[i]], read before the call, and the checks after it. *)
Definition enclave_call {A} (i : nat) (msg : string) (code : M (shared * mem) (pdo_err_t * option A)) : M host A :=
  let! e := this i in
  let! r := CallSgx fuel i (ecall_into e.(enclaveId) code) default_retries in
  checked i msg r.
End Methods.

(** * swig_utils.cpp *)

Definition swig_ThrowPDOError (ret : pdo_err_t) : M host unit :=
  let! message := readM g_LastError in
  match ret with
  | PDO_SUCCESS => retM tt
  | PDO_ERR_CRYPTO | PDO_ERR_NOTFOUND => throwM (StdException message)
  | _ => throwM (Error ret message)
  end.

(** A call of the interface and the check of its status; the outputs are used afterwards. *)
Definition api {A} (call : M host (pdo_err_t * option A)) : M host A :=
  let! '(ret, out) := call in
  swig_ThrowPDOError ret ;;!
  liftM (of_option out (UndefinedBehaviour "output of a call that failed")).
End Host.
