(* ===== verification/HostContract.v ===== *)
(** The host of the contract enclaves: base.cpp, contract.cpp and signup.cpp under eservice/pdo/eservice/enclave/enclave/, and above
    them contract.cpp, signup_info.cpp and enclave_info.cpp under eservice/pdo/eservice/enclave/, which Python calls.
    The enclaves run the code of Enclave and EnclaveData; base_enclave.cpp is here. *)
From S2P Require Import Prelude Crypto BlockStore Codec Json Keys Attestation EnclaveData Enclave HostEnclave.

(** The globals of one contract enclave (contract_enclave.cpp). *)
Record contract_memory := mk_memory {
  cm_last_result : bytes;
  cm_worker_initialized : bool;
  cm_shutdown_worker : bool;
}.

(** [MAX_SIG_SIZE] of crypto/sig.h. *)
Definition MAX_SIG_SIZE : Z := 104.

Section ContractHost.
Context `{OpenSSL, BlockStore, LibC, OpenSSLKeys, SGX, Build} {I : ContractInterpreter}.

(** * The code inside *)

(** An ecall of Enclave, on the memory of one enclave and the world all of them use. *)
Definition in_enclave {A} (m : M enclave_state A) : M (world * contract_memory) A := fun '(w, cm) =>
  let '(r, s) := m (mk_estate _ w cm.(cm_last_result) cm.(cm_worker_initialized)) in
  (r, (s.(e_world), mk_memory s.(last_result) s.(worker_initialized) cm.(cm_shutdown_worker))).

(** An ecall of EnclaveData, which only draws random bytes. *)
Definition set_w_rng (n : nat) (w : world) : world := mk_world _ w.(w_store) n w.(w_ctx) w.(w_evicted).
Definition in_signup {A} (m : M nat A) : M (world * contract_memory) A := fun '(w, cm) =>
  let '(r, n) := m w.(w_rng) in (r, (set_w_rng n w, cm)).

(** ** base_enclave.cpp *)

Definition ecall_Initialize {S} : M S (pdo_err_t * option unit) := retM (PDO_SUCCESS, Some tt).
(** A null pointer to report data stands for zeros. *)
Definition ecall_CreateErsatzEnclaveReport {S} (targetInfo : bytes) : M S (pdo_err_t * option bytes) :=
  ecall (liftM (sgx_create_report targetInfo (replicate (Z.to_nat report_data_size) Byte.x00))).

#[export] Instance contract_code : EnclaveCode world contract_memory := {|
  fresh_memory := mk_memory [] false false;
  message_member := true;
  ec_Initialize := ecall_Initialize;
  ec_CalculateSealedEnclaveDataSize := in_signup signup_enclave.ecall_CalculateSealedEnclaveDataSize;
  ec_CreateErsatzEnclaveReport := ecall_CreateErsatzEnclaveReport;
|}.

(** ** The worker of contract_enclave.cpp *)

(** The call returns once the worker is shut down; what it does in between is the worker of Concurrency. *)
Definition ecall_CreateContractWorker (inThreadId : Z) : M (world * contract_memory) (pdo_err_t * option unit) :=
  modifyM (fun '(w, cm) => (w, mk_memory cm.(cm_last_result) true cm.(cm_shutdown_worker))) ;;!
  retM (PDO_SUCCESS, Some tt).
Definition ecall_ShutdownContractWorker : M (world * contract_memory) (pdo_err_t * option unit) :=
  modifyM (fun '(w, cm) =>
    (w, mk_memory cm.(cm_last_result) cm.(cm_worker_initialized) (cm.(cm_shutdown_worker) || cm.(cm_worker_initialized)))) ;;!
  retM (PDO_SUCCESS, Some tt).

(** * The host *)

Context {platform : Type} `{R : SgxRuntime platform} (fuel : nat).
#[local] Abbreviation HM := (M (@host platform world contract_memory)).

(** ** The worker threads: enclave.cpp *)

(** The thread; it may run before the creator has stored its id, which is only used in log messages. *)
Definition Worker (i : nat) : HM unit :=
  let! r := CallSgx fuel i (
    let! e := this i in ecall_into e.(enclaveId) (ecall_CreateContractWorker (default 0%Z e.(threadId)))) default_retries in
  checked i "Enclave call to ecall_CreateContractWorker failed" r.

(** A thread that cannot be created is only logged. *)
Definition StartWorker (i : nat) : HM unit :=
  let! '(err, thread) := runtime pthread_create in
  if bool_decide (err = 0%Z) then update i (with_thread thread) else retM tt.

Definition ShutdownWorker (i : nat) : HM unit :=
  let! r := CallSgx fuel i (ecall_this i ecall_ShutdownContractWorker) default_retries in
  checked i "Enclave call to ecall_ShutdownContractWorker failed" r ;;!
  let! e := this i in
  let! thread := liftM (of_option e.(threadId) (UndefinedBehaviour "uninitialized member")) in
  runtime (fun p => (tt, pthread_join thread p)).

(** ** base.cpp *)

(** [for (Enclave& enc : g_Enclave) f(enc)]. *)
Fixpoint for_range (f : nat -> HM unit) (l : list nat) : HM unit :=
  match l with
  | [] => retM tt
  | i :: l => f i ;;! for_range f l
  end.
Definition for_enclaves (f : nat -> HM unit) : HM unit :=
  let! n := readM (fun h => length h.(g_Enclave)) in for_range f (seq 0 n).

Definition push (i : Z) : HM unit := modifyM (fun h => set_queue (Some (default [] h.(g_EnclaveReadyQueue) ++ [i])) h).

(** A new enclave at the end of the vector, and its number in the queue.  When the vector has to grow, the destructors of the elements
    it moves destroy the enclaves that are loaded; this is not modelled, and happens only when an initialization that failed
    is tried again. *)
Definition add_enclave (i : Z) : HM unit :=
  let! e := Enclave_new fuel in
  modifyM (fun h => set_enclaves (h.(g_Enclave) ++ [e]) h) ;;!
  push i.
Fixpoint add_enclaves (l : list nat) : HM unit :=
  match l with
  | [] => retM tt
  | i :: l => add_enclave (Z.of_nat i) ;;! add_enclaves l
  end.

Definition start_enclave (inPathToEnclave inSpid : bytes) (i : nat) : HM unit :=
  SetSpid i inSpid ;;! Load fuel i inPathToEnclave ;;! StartWorker i.

(** A negative number of enclaves is a huge capacity to [reserve]. *)
Definition Initialize (inPathToEnclave inSpid : bytes) (numOfEnclaves : Z) : HM (pdo_err_t * option unit) :=
  guarded (
    let! initialized := readM g_IsInitialized in
    if initialized then retM tt
    else
      modifyM (fun h => set_queue (Some (default [] h.(g_EnclaveReadyQueue))) h) ;;!
      throw_ifM (bool_decide (numOfEnclaves < 0)%Z) (StdException "vector::reserve") ;;!
      add_enclaves (seq 0 (Z.to_nat numOfEnclaves)) ;;!
      for_enclaves (start_enclave inPathToEnclave inSpid) ;;!
      modifyM (set_initialized true)).

Definition Terminate : HM (pdo_err_t * option unit) :=
  guarded (
    let! initialized := readM g_IsInitialized in
    if negb initialized then retM tt
    else for_enclaves (fun i => ShutdownWorker i ;;! Unload i) ;;! modifyM (set_initialized false)).

Definition ShutdownWorkers : HM (pdo_err_t * option unit) :=
  guarded (
    let! initialized := readM g_IsInitialized in
    if negb initialized then retM tt else for_enclaves ShutdownWorker).

(** ** contract.cpp *)

Definition EncryptedContractKeySize (contractIdSize : Z) (i : nat) : HM Z :=
  enclave_call fuel i "SGX enclave call failed (ecall_CalculateSealedContractKeySize)"
    (in_enclave (ecall_CalculateSealedContractKeySize contractIdSize)).

Definition VerifySecrets (inSealedEnclaveData inContractId inContractCreatorId inSerializedSecretList : bytes) (i : nat) :
    HM (pdo_err_t * option (bytes * bytes)) :=
  guarded (
    let sealed_enclave_data := Base64EncodedStringToByteArray inSealedEnclaveData in
    let! size := EncryptedContractKeySize (zlen inContractId) i in
    let! '(key, signature, signature_length) := enclave_call fuel i "SGX enclave call failed (VerifySecrets)"
      (in_enclave (ecall_VerifySecrets sealed_enclave_data (c_str inContractId) (c_str inContractCreatorId) (c_str inSerializedSecretList)
        size MAX_SIG_SIZE)) in
    retM (ByteArrayToBase64EncodedString key, ByteArrayToBase64EncodedString (take (Z.to_nat signature_length) signature))).

(** The size of the response; the identifier of the response is not written. *)
Definition HandleContractRequest (inSealedEnclaveData inEncryptedSessionKey inSerializedRequest : bytes) (i : nat) :
    HM (pdo_err_t * option Z) :=
  guarded (enclave_call fuel i "SGX enclave call failed (InitializeContract)"
    (in_enclave (ecall_HandleContractRequest (Base64EncodedStringToByteArray inSealedEnclaveData) inEncryptedSessionKey inSerializedRequest))).

Definition InitializeContractState (inSealedEnclaveData inEncryptedSessionKey inSerializedRequest : bytes) (i : nat) :
    HM (pdo_err_t * option Z) :=
  guarded (enclave_call fuel i "SGX enclave call failed (InitializeContract)"
    (in_enclave (ecall_InitializeContractState (Base64EncodedStringToByteArray inSealedEnclaveData) inEncryptedSessionKey inSerializedRequest))).

Definition GetSerializedResponse (inSealedEnclaveData : bytes) (inSerializedResponseSize : Z) (i : nat) : HM (pdo_err_t * option bytes) :=
  guarded (enclave_call fuel i "SGX enclave call failed (GetSerializedResponse)"
    (in_enclave (ecall_GetSerializedResponse (Base64EncodedStringToByteArray inSealedEnclaveData)
      (replicate (Z.to_nat inSerializedResponseSize) Byte.x00)))).

(** ** The interface to Python: contract.cpp *)

(** [readyEnclave] is the number of the enclave that was taken from the queue. *)
Definition contract_verify_secrets (sealed_signup_data contract_id contract_creator_id serialized_secret_list : bytes) (readyEnclave : nat) :
    HM (list (string * bytes)) :=
  let! '(key, signature) := api (VerifySecrets sealed_signup_data contract_id contract_creator_id serialized_secret_list readyEnclave) in
  retM [("encrypted_state_encryption_key"%string, key); ("signature"%string, signature)].

(** The request, then the response it left in the enclave. *)
Definition fetch_response (sealed_signup_data : bytes) (response_size : Z) (readyEnclave : nat) : HM bytes :=
  api (GetSerializedResponse sealed_signup_data response_size readyEnclave).

Definition contract_handle_contract_request (sealed_signup_data encrypted_session_key serialized_request : bytes) (readyEnclave : nat) : HM bytes :=
  let! response_size := api (HandleContractRequest sealed_signup_data encrypted_session_key serialized_request readyEnclave) in
  fetch_response sealed_signup_data response_size readyEnclave.

Definition contract_handle_contract_encoded_request (sealed_signup_data encrypted_session_key serialized_request : bytes) (readyEnclave : nat) : HM bytes :=
  let decoded_key := Base64EncodedStringToByteArray encrypted_session_key in
  let decoded_request := Base64EncodedStringToByteArray serialized_request in
  let! response_array := contract_handle_contract_request sealed_signup_data decoded_key decoded_request readyEnclave in
  retM (ByteArrayToBase64EncodedString response_array).

Definition initialize_contract_state (sealed_signup_data encrypted_session_key serialized_request : bytes) (readyEnclave : nat) : HM bytes :=
  let! response_size := api (InitializeContractState sealed_signup_data encrypted_session_key serialized_request readyEnclave) in
  fetch_response sealed_signup_data response_size readyEnclave.
End ContractHost.
