(* ===== verification/HostSignup.v ===== *)
(** The host's side of signing up an enclave: signup.cpp under eservice/pdo/eservice/enclave/enclave/, which crosses into the enclave,
    and signup_info.cpp and enclave_info.cpp under eservice/pdo/eservice/enclave/, which Python calls. *)
From S2P Require Import Prelude Crypto BlockStore Codec Json Keys Attestation EnclaveData Enclave HostEnclave HostContract.
From Stdlib Require Import Strings.String.

(** * signup_info.h *)

Record SignupInfo := mk_signup_info {
  si_serialized_ : bytes;
  si_interpreter : bytes;
  si_verifying_key : bytes;
  si_encryption_key : bytes;
  si_proof_data : bytes;
  si_enclave_persistent_id : bytes;
}.

Section HostSignup.
Context `{OpenSSL, BlockStore, LibC, OpenSSLKeys, SGX, Build} {I : ContractInterpreter}.
Context {platform : Type} `{R : SgxRuntime platform} (fuel : nat).
#[local] Abbreviation HM := (M (@host platform world contract_memory)).

(** * signup.cpp *)

Definition CalculateSealedEnclaveDataSize : HM Z :=
  enclave_call fuel 0 "SGX enclave call failed (ecall_CalculateSealedEnclaveDataSize)"
    (in_signup signup_enclave.ecall_CalculateSealedEnclaveDataSize).

Definition CalculatePublicEnclaveDataSize : HM Z :=
  enclave_call fuel 0 "SGX enclave call failed (ecall_CalculatePublicEnclaveDataSize)"
    (in_signup signup_enclave.ecall_CalculatePublicEnclaveDataSize).

(** A [StringArray] whose vector was resized down: its storage, and its size.  [str] reads up to the first NUL of the storage,
    whatever the size. *)
Definition StringArray : Type := bytes * Z.
Definition StringArray_str (a : StringArray) : bytes := c_str a.1.

(** The id of the enclave is read before the call that gets the target information. *)
Definition CreateEnclaveData (inOriginatorPublicKeyHash : bytes) : HM (pdo_err_t * option (StringArray * bytes * bytes)) :=
  guarded (
    let! public_size := CalculatePublicEnclaveDataSize in
    let! sealed_size := CalculateSealedEnclaveDataSize in
    let! e := this 0 in
    let! '(sresult, (target_info, _)) := init_quote fuel 0 in
    liftM (ThrowSgxError sresult "SGX enclave call failed (sgx_init_quote), failed to initialize the quote") ;;!
    let! r := CallSgx fuel 0 (ecall_into e.(enclaveId) (in_signup (signup_enclave.ecall_CreateEnclaveData target_info
      (c_str inOriginatorPublicKeyHash) public_size sealed_size))) default_retries in
    let! '(c, enclave_report) := checked 0 "SGX enclave call failed (ecall_CreateSignupData), failed to create signup data" r in
    let sealed_enclave_data_buffer := take (Z.to_nat c.(outSealedEnclaveDataSize)) c.(outSealedEnclaveData) in
    let! enclave_quote_buffer := CreateQuoteFromReport fuel 0 enclave_report in
    retM ((c.(outPublicEnclaveData), c.(outPublicEnclaveDataSize)), ByteArrayToBase64EncodedString sealed_enclave_data_buffer,
          ByteArrayToBase64EncodedString enclave_quote_buffer)).

Definition UnsealEnclaveData (inSealedEnclaveData : bytes) : HM (pdo_err_t * option StringArray) :=
  guarded (
    let sealed_enclave_data := Base64EncodedStringToByteArray inSealedEnclaveData in
    let! public_size := CalculatePublicEnclaveDataSize in
    enclave_call fuel 0 "SGX enclave call failed (ecall_UnsealSignupData)"
      (in_signup (signup_enclave.ecall_UnsealEnclaveData sealed_enclave_data public_size))).

(** * signup_info.cpp *)

(** The root object of a JSON text. *)
Definition root_object (s : bytes) (badly_formed no_root : string) : result json :=
  let? parsed := of_option (json_parse (c_str s)) (ValueError badly_formed) in
  throw_if (negb (json_is_object parsed)) (ValueError no_root) ;;?
  Ok parsed.

Definition DeserializeSignupInfo (serialized_signup_info : bytes) : result SignupInfo :=
  let? data_object := root_object serialized_signup_info
    "failed to parse serialized signup info; badly formed JSON" "invalid serialized signup info; missing root object" in
  let? interpreter := required (get_cstring data_object (bytes_of "interpreter")) "invalid serialized signup info; missing interpreter" in
  let? verifying_key := required (get_cstring data_object (bytes_of "verifying_key")) "invalid serialized signup info; missing verifying_key" in
  let? encryption_key := required (get_cstring data_object (bytes_of "encryption_key")) "invalid serialized signup info; missing encryption_key" in
  let? proof_data := required (get_cstring data_object (bytes_of "proof_data")) "invalid serialized signup info; missing proof_data" in
  let? enclave_persistent_id := required (get_cstring data_object (bytes_of "enclave_persistent_id"))
    "invalid serialized signup info; missing enclave_persistent_id" in
  Ok (mk_signup_info serialized_signup_info interpreter verifying_key encryption_key proof_data enclave_persistent_id).

Definition deserialize_signup_info (serialized_signup_info : bytes) : HM SignupInfo :=
  api (guarded (liftM (DeserializeSignupInfo serialized_signup_info))).

Definition parse_public_data (public_enclave_data : bytes) : result (bytes * bytes * bytes) :=
  let? data_object := root_object public_enclave_data
    "failed to parse the public enclave data, badly formed JSON" "invalid public enclave data; missing root object" in
  let? interpreter := required (get_cstring data_object (bytes_of "Interpreter")) "invalid serialized signup info; missing interpreter" in
  let? verifying_key := required (get_cstring data_object (bytes_of "VerifyingKey")) "invalid public enclave data; missing VerifyingKey" in
  let? encryption_key := required (get_cstring data_object (bytes_of "EncryptionKey")) "invalid public enclave data; missing EncryptionKey" in
  Ok (interpreter, verifying_key, encryption_key).
Definition DeserializePublicEnclaveData (public_enclave_data : bytes) : HM (pdo_err_t * option (bytes * bytes * bytes)) :=
  guarded (liftM (parse_public_data public_enclave_data)).

Definition public_entries (k : bytes * bytes * bytes) : list (string * bytes) :=
  [("interpreter"%string, k.1.1); ("verifying_key"%string, k.1.2); ("encryption_key"%string, k.2)].

Definition create_enclave_data (originator_public_key_hash : bytes) : HM (list (string * bytes)) :=
  let! '(public_enclave_data, sealed_enclave_data, enclave_quote) := api (CreateEnclaveData originator_public_key_hash) in
  let! keys := api (DeserializePublicEnclaveData (StringArray_str public_enclave_data)) in
  retM (public_entries keys ++ [("sealed_enclave_data"%string, sealed_enclave_data); ("enclave_quote"%string, enclave_quote)]).

Definition unseal_enclave_data (sealed_enclave_data : bytes) : HM (list (string * bytes)) :=
  let! public_enclave_data := api (UnsealEnclaveData sealed_enclave_data) in
  let! keys := api (DeserializePublicEnclaveData (StringArray_str public_enclave_data)) in
  retM (public_entries keys).

(** * enclave_info.cpp *)

(** The constructor: the measurement and the basename of the enclaves. *)
Definition pdo_enclave_info_new (enclaveModulePath spid : bytes) (numberOfEnclaves : Z) : HM (bytes * bytes) :=
  api (Initialize fuel enclaveModulePath spid numberOfEnclaves) ;;!
  api (base_GetEnclaveCharacteristics fuel).

(** The destructor. *)
Definition pdo_enclave_info_delete : HM unit := let! _ := Terminate fuel in retM tt.

Definition get_epid_group : HM bytes := api (base_GetEpidGroup fuel).

Definition set_signature_revocation_list (signature_revocation_list : bytes) : HM unit :=
  api (base_SetSignatureRevocationList signature_revocation_list).
End HostSignup.
