(* ===== verification/ProvisioningHost.v ===== *)
(** The host of the provisioning service's enclave, under pservice/pdo/pservice/enclave/: enclave/base.cpp and enclave/secret.cpp, which cross
    into the enclave, and secret_info.cpp and enclave_info.cpp, which Python calls.  enclave/enclave.cpp is that of the contract service
    (HostEnclave) for the only element of [g_Enclave], without workers and with the error message in a global. *)
From S2P Require Import Prelude Crypto BlockStore Codec Json Keys Attestation EnclaveData Provisioning Enclave HostEnclave HostContract HostSignup.
From Stdlib Require Import Strings.String.

Module pservice.

(** secret_info.h *)
Record EnclaveInfo := mk_enclave_info {
  ei_serialized_ : bytes;
  ei_verifying_key : bytes;
  ei_encryption_key : bytes;
  ei_proof_data : bytes;
  ei_enclave_persistent_id : bytes;
}.

Section Host.
Context `{OpenSSL, LibC, OpenSSLKeys, SGX, X509, ProvisioningBuild}.

(** An ecall of the enclave, which keeps nothing between calls; what is shared is the count of the random draws. *)
Definition in_secret {A} (m : M nat A) : M (nat * unit) A := fun '(n, u) => let '(r, n) := m n in (r, (n, u)).

#[export] Instance secret_code : EnclaveCode nat unit := {|
  fresh_memory := tt;
  message_member := false;
  ec_Initialize := ecall_Initialize;
  ec_CalculateSealedEnclaveDataSize := in_secret secret_enclave.ecall_CalculateSealedEnclaveDataSize;
  ec_CreateErsatzEnclaveReport := ecall_CreateErsatzEnclaveReport;
|}.

Context {platform : Type} `{R : SgxRuntime platform} (fuel : nat).
#[local] Abbreviation HM := (M (@host platform nat unit)).

(** * base.cpp *)

Definition Initialize (inPathToEnclave inSpid : bytes) : HM (pdo_err_t * option unit) :=
  guarded (
    let! initialized := readM g_IsInitialized in
    if initialized then retM tt
    else SetSpid 0 inSpid ;;! Load fuel 0 inPathToEnclave ;;! modifyM (set_initialized true)).

Definition Terminate : HM (pdo_err_t * option unit) :=
  guarded (
    let! initialized := readM g_IsInitialized in
    if negb initialized then retM tt else Unload 0 ;;! modifyM (set_initialized false)).

(** * secret.cpp *)

Definition CalculateSealedEnclaveDataSize : HM Z :=
  enclave_call fuel 0 "SGX enclave call failed (ecall_CalculateSealedEnclaveDataSize)"
    (in_secret secret_enclave.ecall_CalculateSealedEnclaveDataSize).

Definition CalculatePublicEnclaveDataSize : HM Z :=
  enclave_call fuel 0 "SGX enclave call failed (ecall_CalculatePublicEnclaveDataSize)"
    (in_secret secret_enclave.ecall_CalculatePublicEnclaveDataSize).

Definition CalculateSealedSecretSize (plain_len : Z) : HM Z :=
  enclave_call fuel 0 "SGX enclave call failed (ecall_CalculateSealedSecretSize)"
    (in_secret (secret_enclave.ecall_CalculateSealedSecretSize plain_len)).

Definition CalculatePlainSecretSize (inSealedSecret : bytes) : HM Z :=
  enclave_call fuel 0 "SGX enclave call failed (ecall_CalculatePlainSecretSize)"
    (in_secret (secret_enclave.ecall_CalculatePlainSecretSize (Base64EncodedStringToByteArray inSealedSecret))).

(** A buffer is made for the quote, but no quote: its output is left as it was, empty. *)
Definition CreateEnclaveData : HM (pdo_err_t * option (StringArray * bytes * bytes)) :=
  guarded (
    let! public_size := CalculatePublicEnclaveDataSize in
    let! sealed_size := CalculateSealedEnclaveDataSize in
    let! e := this 0 in
    let! '(sresult, _) := init_quote fuel 0 in
    liftM (ThrowSgxError sresult "SGX enclave call failed (sgx_init_quote), failed to initialize the quote") ;;!
    let! r := CallSgx fuel 0 (ecall_into e.(enclaveId) (in_secret (secret_enclave.ecall_CreateEnclaveData public_size sealed_size)))
      default_retries in
    let! '(c, _) := checked 0 "SGX enclave call failed (ecall_CreateSignupData), failed to create signup data" r in
    let sealed_enclave_data_buffer := take (Z.to_nat c.(outSealedEnclaveDataSize)) c.(outSealedEnclaveData) in
    retM ((c.(outPublicEnclaveData), c.(outPublicEnclaveDataSize)), ByteArrayToBase64EncodedString sealed_enclave_data_buffer, [])).

Definition UnsealEnclaveData (inSealedEnclaveData : bytes) : HM (pdo_err_t * option StringArray) :=
  guarded (
    let sealed_enclave_data := Base64EncodedStringToByteArray inSealedEnclaveData in
    let! public_size := CalculatePublicEnclaveDataSize in
    enclave_call fuel 0 "SGX enclave call failed (ecall_UnsealSignupData)"
      (in_secret (secret_enclave.ecall_UnsealEnclaveData sealed_enclave_data public_size))).

Definition CreateSealedSecret (secret_len : Z) : HM (pdo_err_t * option bytes) :=
  guarded (
    let! size := CalculateSealedSecretSize secret_len in
    let! sealed := enclave_call fuel 0 "SGX enclave call failed (ecall_CreateSealedSecret)"
      (in_secret (secret_enclave.ecall_CreateSealedSecret secret_len size)) in
    retM (ByteArrayToBase64EncodedString sealed)).

Definition UnsealSecret (inSealedSecret : bytes) : HM (pdo_err_t * option bytes) :=
  guarded (
    let sealed_secret := Base64EncodedStringToByteArray inSealedSecret in
    let! size := CalculatePlainSecretSize inSealedSecret in
    let! plain := enclave_call fuel 0 "SGX enclave call failed (ecall_UnsealSecret)"
      (in_secret (secret_enclave.ecall_UnsealSecret sealed_secret size)) in
    retM (ByteArrayToHexEncodedString plain)).

Definition GenerateEnclaveSecret (inSealedEnclaveData inSealedSecret inContractId inOpk inEnclaveInfo : bytes) : HM (pdo_err_t * option bytes) :=
  guarded (
    let sealed_enclave_data := Base64EncodedStringToByteArray inSealedEnclaveData in
    let sealed_secret := Base64EncodedStringToByteArray inSealedSecret in
    let! signature_buffer := enclave_call fuel 0 "SGX enclave call failed (ecall_GenerateEnclaveSecret)"
      (in_secret (secret_enclave.ecall_GenerateEnclaveSecret sealed_enclave_data sealed_secret (c_str inContractId) (c_str inOpk)
        (c_str inEnclaveInfo) (Z.shiftr RSA_KEY_SIZE 3))) in
    retM (ByteArrayToBase64EncodedString signature_buffer)).

(** * secret_info.cpp *)

Definition DeserializeEnclaveInfo (serialized_enclave_info : bytes) : result EnclaveInfo :=
  let? data_object := root_object serialized_enclave_info
    "failed to parse serialized enclave info; badly formed JSON" "invalid serialized enclave info; missing root object" in
  let? verifying_key := required (get_cstring data_object (bytes_of "verifying_key")) "invalid serialized enclave info; missing verifying_key" in
  let? encryption_key := required (get_cstring data_object (bytes_of "encryption_key")) "invalid serialized enclave info; missing encryption_key" in
  let? proof_data := required (get_cstring data_object (bytes_of "proof_data")) "invalid serialized enclave info; missing proof_data" in
  let? enclave_persistent_id := required (get_cstring data_object (bytes_of "enclave_persistent_id"))
    "invalid serialized enclave info; missing enclave_persistent_id" in
  Ok (mk_enclave_info serialized_enclave_info verifying_key encryption_key proof_data enclave_persistent_id).

Definition deserialize_enclave_info (serialized_enclave_info : bytes) : HM EnclaveInfo :=
  api (guarded (liftM (DeserializeEnclaveInfo serialized_enclave_info))).

Definition parse_public_data (public_enclave_data : bytes) : result (bytes * bytes) :=
  let? data_object := root_object public_enclave_data
    "failed to parse the public enclave data, badly formed JSON" "invalid public enclave data; missing root object" in
  let? verifying_key := required (get_cstring data_object (bytes_of "VerifyingKey")) "invalid public enclave data; missing VerifyingKey" in
  let? encryption_key := required (get_cstring data_object (bytes_of "EncryptionKey")) "invalid public enclave data; missing EncryptionKey" in
  Ok (verifying_key, encryption_key).
Definition DeserializePublicEnclaveData (public_enclave_data : bytes) : HM (pdo_err_t * option (bytes * bytes)) :=
  guarded (liftM (parse_public_data public_enclave_data)).

Definition public_entries (k : bytes * bytes) : list (string * bytes) := [("verifying_key"%string, k.1); ("encryption_key"%string, k.2)].

Definition create_enclave_data : HM (list (string * bytes)) :=
  let! '(public_enclave_data, sealed_enclave_data, enclave_quote) := api CreateEnclaveData in
  let! keys := api (DeserializePublicEnclaveData (StringArray_str public_enclave_data)) in
  retM (public_entries keys ++ [("sealed_enclave_data"%string, sealed_enclave_data); ("enclave_quote"%string, enclave_quote)]).

Definition unseal_enclave_data (sealed_enclave_data : bytes) : HM (list (string * bytes)) :=
  let! public_enclave_data := api (UnsealEnclaveData sealed_enclave_data) in
  let! keys := api (DeserializePublicEnclaveData (StringArray_str public_enclave_data)) in
  retM (public_entries keys).

(** The [int] becomes a [size_t]. *)
Definition create_sealed_secret (key_len : Z) : HM (list (string * bytes)) :=
  let! sealed_secret := api (CreateSealedSecret (u64 key_len)) in
  retM [("sealed_secret"%string, sealed_secret)].

Definition unseal_secret (sealed_secret : bytes) : HM (list (string * bytes)) :=
  let! plain_secret := api (UnsealSecret sealed_secret) in
  retM [("plain_secret"%string, plain_secret)].

Definition generate_enclave_secret (sealed_enclave_data sealed_secret contract_id opk enclave_info : bytes) : HM (list (string * bytes)) :=
  let! enclave_secret := api (GenerateEnclaveSecret sealed_enclave_data sealed_secret contract_id opk enclave_info) in
  retM [("enclave_secret"%string, enclave_secret)].

(** * enclave_info.cpp *)

Definition pdo_enclave_info_new (enclaveModulePath spid : bytes) : HM (bytes * bytes) :=
  api (Initialize enclaveModulePath spid) ;;!
  api (base_GetEnclaveCharacteristics fuel).

Definition pdo_enclave_info_delete : HM unit := let! _ := Terminate in retM tt.

Definition get_epid_group : HM bytes := api (base_GetEpidGroup fuel).

Definition set_signature_revocation_list (signature_revocation_list : bytes) : HM unit :=
  api (base_SetSignatureRevocationList signature_revocation_list).
End Host.
End pservice.
