(* ===== verification/HostSpec.v ===== *)
(** What the host's side of the enclaves promises: how often it calls into an enclave, when a call never returns, and that a request goes through to the enclave and its response comes back. *)
From S2P Require Import Prelude Crypto BlockStore Codec Json Keys Attestation EnclaveData EnclaveDataSpec Provisioning Enclave EnclaveSpec.
From S2P Require Import HostEnclave HostContract HostSignup.

(** * CallSgx *)

Section Calls.
Context {platform shared mem : Type} `{R : SgxRuntime platform} `{C : EnclaveCode shared mem}.
#[local] Abbreviation hst := (@host platform shared mem).

(** The reference: the call is made again, at most [n] times, as long as the device is busy. *)
Fixpoint first_answer {A} (n : nat) (fxn : M hst (sgx_status_t * A)) : M hst (sgx_status_t * A) :=
  let! '(ret, a) := fxn in
  match n with
  | S n => if bool_decide (ret = SGX_ERROR_DEVICE_BUSY) then first_answer n fxn else retM (ret, a)
  | O => retM (ret, a)
  end.

Definition never_lost {A} (fxn : M hst (sgx_status_t * A)) : Prop := forall h a h', fxn h <> (Ok (SGX_ERROR_ENCLAVE_LOST, a), h').

Lemma CallSgx_loop_answer {A} i (fxn : M hst (sgx_status_t * A)) retries : never_lost fxn ->
  forall n fuel count h, (count + Z.of_nat n = retries)%Z -> n < fuel -> CallSgx_loop fuel i fxn retries count h = first_answer n fxn h.
Proof.
  intros Hl. induction n as [|n IH]; intros [|fuel] count h Hc Hf; try lia; cbn [CallSgx_loop first_answer]; unfold bindM;
    destruct (fxn h) as [[[ret a]|e] h'] eqn:E; try done;
    (rewrite bool_decide_eq_false_2 by (intros ->; by apply (Hl _ _ _ E))); case_bool_decide; try done.
  - rewrite bool_decide_eq_false_2 by lia. done.
  - rewrite bool_decide_eq_true_2 by lia. apply IH; lia.
Qed.

(** A call into SGX ends.  Unless the enclave is lost, [CallSgx] makes the call once and then again while the device answers
    that it is busy, [retries] times at most, and gives the last answer; [retries + 1] turns of its loop are enough. *)
Theorem call_sgx_terminates {A} fuel i (fxn : M hst (sgx_status_t * A)) retries h :
  never_lost fxn -> (0 <= retries)%Z -> Z.to_nat retries < fuel ->
  CallSgx fuel i fxn retries h = first_answer (Z.to_nat retries) fxn h.
Proof. intros. apply CallSgx_loop_answer; [done|lia|lia]. Qed.

(** ** A lost enclave *)

(** Once lost, an enclave stays lost until it is destroyed. *)
Definition stays_lost (eid : Z) (lost : platform -> Prop) : Prop :=
  forall p, lost p -> exists p', sgx_enter eid p = (SGX_ERROR_ENCLAVE_LOST, p') /\ lost p'.

Lemma ecall_into_refused {A} eid (code : M (shared * mem) (pdo_err_t * option A)) m ret p h :
  h.(loaded) !! eid = Some m -> sgx_enter eid h.(platform_) = (ret, p) -> ret <> SGX_SUCCESS ->
  ecall_into eid code h = (Ok (ret, None), set_platform p h).
Proof. intros Hm Hp Hr. unfold ecall_into. rewrite Hm, Hp. by destruct ret. Qed.

Lemma lost_loop {A} eid lost i e (code : M (shared * mem) (pdo_err_t * option A)) retries :
  stays_lost eid lost -> eid <> 0%Z -> e.(enclaveId) = eid ->
  forall fuel count h m, lost h.(platform_) -> h.(g_Enclave) !! i = Some e -> h.(loaded) !! eid = Some m ->
  exists p, CallSgx_loop fuel i (ecall_into eid code) retries count h = (Err OutOfFuel, set_platform p h).
Proof.
  intros Hs H0 He. induction fuel as [|fuel IH]; intros count h m Hl Hi Hm; [exists h.(platform_); by destruct h|].
  destruct (Hs _ Hl) as (p' & Hp & Hl'). cbn [CallSgx_loop]. unfold bindM at 1. rewrite (ecall_into_refused _ _ _ _ _ _ Hm Hp) by done.
  change (bool_decide (SGX_ERROR_ENCLAVE_LOST = SGX_ERROR_ENCLAVE_LOST)) with true. cbv iota. unfold LoadEnclave_with, this, bindM, retM.
  cbn [g_Enclave set_platform]. rewrite Hi. cbn [of_option]. rewrite bool_decide_eq_false_2 by (by rewrite He). cbn [negb].
  destruct (IH count (set_platform p' h) m Hl' Hi Hm) as (p & ->). by exists p.
Qed.

(** C40: a lost enclave blocks its callers.  When a loaded enclave is lost (after a power transition), every call into it goes round
    the loop of [CallSgx] for ever: [LoadEnclave] does nothing since the enclave still has an id, and the call is made again with
    the id of the lost enclave. *)
Theorem lost_enclave_blocks {A} fuel i e m lost msg (code : M (shared * mem) (pdo_err_t * option A)) h :
  stays_lost e.(enclaveId) lost -> lost h.(platform_) -> e.(enclaveId) <> 0%Z ->
  h.(g_Enclave) !! i = Some e -> h.(loaded) !! e.(enclaveId) = Some m ->
  exists p, enclave_call fuel i msg code h = (Err OutOfFuel, set_platform p h) /\
            LoadEnclave fuel i h = (Ok tt, h).
Proof.
  intros Hs Hl H0 Hi Hm. destruct (lost_loop _ _ i e code default_retries Hs H0 eq_refl fuel 0%Z h m Hl Hi Hm) as (p & Hp).
  exists p. split.
  - unfold enclave_call, CallSgx. unfold bindM at 1, this. rewrite Hi. cbn [of_option]. unfold bindM. by rewrite Hp.
  - unfold LoadEnclave, LoadEnclave_with, bindM, this. rewrite Hi. cbn [of_option]. by rewrite bool_decide_eq_false_2.
Qed.

(** ** A call that gets through *)

(** The enclave is entered after [n] answers that it is busy. *)
Inductive enters (eid : Z) : nat -> platform -> platform -> Prop :=
  | enters_now p p' : sgx_enter eid p = (SGX_SUCCESS, p') -> enters eid 0 p p'
  | enters_busy n p p1 p' : sgx_enter eid p = (SGX_ERROR_DEVICE_BUSY, p1) -> enters eid n p1 p' -> enters eid (S n) p p'.

(** A platform that lets calls through within the default number of retries. *)
Definition responsive (eid : Z) (up : platform -> Prop) : Prop :=
  forall p, up p -> exists n p', (Z.of_nat n <= default_retries)%Z /\ enters eid n p p' /\ up p'.

(** The host after the code ran. *)
Definition after (p : platform) (sh : shared) (eid : Z) (m : mem) (h : hst) : hst :=
  mk_host p sh (<[eid := m]> h.(loaded)) h.(g_Enclave) h.(g_EnclaveReadyQueue) h.(g_IsInitialized) h.(g_LastError).

Lemma entered_loop {A} eid (code : M (shared * mem) (pdo_err_t * option A)) i fxn retries c o (h : hst) m sh' m' n p p' :
  (forall p, fxn (set_platform p h) = ecall_into eid code (set_platform p h)) -> h.(loaded) !! eid = Some m ->
  code (h.(shared_), m) = (Ok (c, o), (sh', m')) -> c <> PDO_ERR_SYSTEM_BUSY -> enters eid n p p' ->
  forall fuel count, n < fuel -> (count + Z.of_nat n <= retries)%Z ->
  CallSgx_loop fuel i fxn retries count (set_platform p h) = (Ok (SGX_SUCCESS, Some (c, o)), after p' sh' eid m' h).
Proof.
  intros Hfxn Hm Hc Hb He. induction He as [p p' Hp|n p p1 p' Hp _ IH]; intros [|fuel] count Hf Hr; try lia; cbn [CallSgx_loop]; unfold bindM at 1;
    rewrite Hfxn.
  - unfold ecall_into. cbn [loaded set_platform platform_ shared_]. rewrite Hm, Hp, Hc. unfold ConvertErrorStatus.
    rewrite (bool_decide_eq_false_2 (c = _)) by done. by rewrite andb_false_r.
  - rewrite (ecall_into_refused _ _ m SGX_ERROR_DEVICE_BUSY p1) by done. change (bool_decide (SGX_ERROR_DEVICE_BUSY = SGX_ERROR_ENCLAVE_LOST)) with false.
    change (bool_decide (SGX_ERROR_DEVICE_BUSY = SGX_ERROR_DEVICE_BUSY)) with true. cbv iota zeta.
    rewrite bool_decide_eq_true_2 by lia. change (set_platform p1 (set_platform p h)) with (set_platform p1 h). apply IH; lia.
Qed.

Lemma set_platform_id (h : hst) : set_platform h.(platform_) h = h.
Proof. by destruct h. Qed.

(** An ecall of the host: its result is that of the code, its effects are on what is shared and on the memory of the enclave. *)
Lemma enclave_call_entered {A} fuel i e m up msg (code : M (shared * mem) (pdo_err_t * option A)) h c o sh m' :
  responsive e.(enclaveId) up -> up h.(platform_) -> (default_retries < Z.of_nat fuel)%Z ->
  h.(g_Enclave) !! i = Some e -> h.(loaded) !! e.(enclaveId) = Some m ->
  code (h.(shared_), m) = (Ok (c, o), (sh, m')) -> c <> PDO_ERR_SYSTEM_BUSY ->
  exists p, up p /\ enclave_call fuel i msg code h = checked i msg (SGX_SUCCESS, Some (c, o)) (after p sh e.(enclaveId) m' h).
Proof.
  intros Hr Hup Hf Hi Hm Hc Hb. destruct (Hr _ Hup) as (n & p & Hn & He & Hp). exists p. split; [done|].
  unfold enclave_call, bindM at 1, this. rewrite Hi. cbn [of_option]. unfold bindM, CallSgx.
  rewrite <-(set_platform_id h) at 1. by rewrite (entered_loop _ _ i _ default_retries _ _ h m _ _ _ _ _ (fun _ => eq_refl) Hm Hc Hb He fuel 0%Z) by lia.
Qed.

Lemma checked_ok {A} i msg (a : A) h : checked i msg (SGX_SUCCESS, Some (PDO_SUCCESS, Some a)) h = (Ok a, h).
Proof. done. Qed.

Lemma update_idle i f e (h : hst) : h.(g_Enclave) !! i = Some e -> f e = e -> update i f h = (Ok tt, h).
Proof.
  intros Hi Hf. unfold update, modifyM, set_enclaves. f_equal.
  rewrite (list_alter_ext f id h.(g_Enclave) h.(g_Enclave) i), list_alter_id; [by destruct h|done| |done].
  intros x Hx. change (f x = x). congruence.
Qed.

(** An error of the enclave is thrown with the message of the member, which is empty and stays so. *)
Lemma checked_error {A} i msg c e (h : hst) : message_member = true -> h.(g_Enclave) !! i = Some e -> e.(enclaveError) = ""%string ->
  c <> PDO_SUCCESS -> checked (A := A) i msg (SGX_SUCCESS, Some (c, None)) h = (Err (Error c ""), h).
Proof.
  intros Hmm Hi He Hc. unfold checked. cbn [ThrowSgxError]. unfold liftM at 1, bindM at 1. cbn [of_option]. unfold liftM at 1, bindM at 1, bindM at 1.
  unfold ThrowPDOError. rewrite bool_decide_eq_false_2, Hmm by done. unfold bindM at 1, this. rewrite Hi. cbn [of_option]. unfold bindM at 1.
  rewrite (update_idle _ _ e) by (done || (destruct e; cbn in He; by subst)). by rewrite He.
Qed.

(** ** The guard of the interface *)

(** What Python sees of a status. *)
Definition python_error (c : pdo_err_t) (msg : string) : error :=
  match c with PDO_ERR_CRYPTO | PDO_ERR_NOTFOUND => StdException msg | _ => Error c msg end.

Lemma api_ok {A} (m : M hst A) h a h' : m h = (Ok a, h') -> api (guarded m) h = (Ok a, h').
Proof. intros Hm. unfold api, guarded, catchM, bindM. by rewrite Hm. Qed.

Lemma api_error {A} (m : M hst A) h c msg h' : m h = (Err (Error c msg), h') -> c <> PDO_SUCCESS ->
  api (guarded m) h = (Err (python_error c msg), set_last_error msg h').
Proof.
  intros Hm Hc. unfold api, guarded, catchM, bindM. rewrite Hm. by destruct c.
Qed.
End Calls.

(** * Requests *)

Section Requests.
Context {OS : OpenSSL} {BS : BlockStore} {PA : LibC} {KE : OpenSSLKeys} {SG : SGX} {BU : Build} {I : ContractInterpreter}.
Context {platform : Type} {R : SgxRuntime platform}.
#[local] Abbreviation hst := (@host platform world contract_memory).

(** An enclave's state, in the world all of them use. *)
Definition estate_of (w : world) (m : contract_memory) : enclave_state := mk_estate _ w m.(cm_last_result) m.(cm_worker_initialized).
Definition memory_of (s : enclave_state) (m : contract_memory) : contract_memory :=
  mk_memory s.(last_result) s.(worker_initialized) m.(cm_shutdown_worker).

(** A request that succeeds has opened a session and kept a response. *)
Definition keeps_response (sealed : bytes) (code : M enclave_state (pdo_err_t * option Z)) : Prop :=
  forall s c o s', code s = (Ok (c, o), s') ->
    if bool_decide (c = PDO_SUCCESS)
    then o = Some (zlen (last_result s')) /\ exists d, EnclaveData_unseal (Some GetInterpreterIdentity) sealed = Ok d
    else o = None.

Lemma session_opened sealed esk s x s1 : open_session sealed esk s = (Ok x, s1) ->
  exists d, EnclaveData_unseal (Some GetInterpreterIdentity) sealed = Ok d.
Proof.
  intros (s0 & s00 & _ & Hs)%bind_ok. apply bind_ok in Hs as (u0 & s01 & _ & Hs). apply bind_ok in Hs as (d & s02 & Hd & _).
  injection Hd as Hd _. by exists d.
Qed.

Lemma response_kept k d r s z s' : keep_response k d r s = (Ok z, s') -> z = zlen (last_result s').
Proof. intros (enc & s4 & _ & Hm)%bind_ok. by apply bind_ok in Hm as (u & s5 & [= _ <-] & [= <- <-]). Qed.

Lemma body_keeps_response sealed (m : M enclave_state Z) :
  (forall s z s', m s = (Ok z, s') -> z = zlen (last_result s') /\ exists d, EnclaveData_unseal (Some GetInterpreterIdentity) sealed = Ok d) ->
  keeps_response sealed (ecall m).
Proof.
  intros Hm s c o s' [(a & Ha & -> & ->)|(e & Ha & -> & ->)]%ecall_ok.
  - destruct (Hm _ _ _ Ha) as [-> Hd]. by rewrite bool_decide_eq_true_2.
  - rewrite bool_decide_eq_false_2; [done|by destruct e].
Qed.

Lemma handle_keeps_response sealed esk req : keeps_response sealed (ecall_HandleContractRequest sealed esk req).
Proof.
  apply body_keeps_response. intros s z s' ([d k] & s1 & Hs & Hm)%bind_ok. apply bind_ok in Hm as ([[r ch] sh] & s2 & _ & Hm).
  apply bind_ok in Hm as (resp & s3 & _ & Hm). split; [by eapply response_kept|by eapply session_opened].
Qed.

Lemma initialize_keeps_response sealed esk req : keeps_response sealed (ecall_InitializeContractState sealed esk req).
Proof.
  apply body_keeps_response. intros s z s' ([d k] & s1 & Hs & Hm)%bind_ok. apply bind_ok in Hm as (r & s2 & _ & Hm).
  apply bind_ok in Hm as (resp & s3 & _ & Hm). split; [by eapply response_kept|by eapply session_opened].
Qed.

Lemma overwrite_zeros b : overwrite (replicate (Z.to_nat (zlen b)) Byte.x00) 0 b = b.
Proof.
  unfold overwrite, zlen. rewrite Nat2Z.id. cbn [Z.to_nat take Nat.add]. rewrite drop_ge by (by rewrite length_replicate). cbn. apply app_nil_r.
Qed.

(** The response is read into a buffer of its size. *)
Lemma response_fetched sealed d s : EnclaveData_unseal (Some GetInterpreterIdentity) sealed = Ok d ->
  ecall_GetSerializedResponse sealed (replicate (Z.to_nat (zlen (last_result s))) Byte.x00) s = (Ok (PDO_SUCCESS, Some (last_result s)), s).
Proof.
  intros Hd. unfold ecall_GetSerializedResponse, ecall, catchM. run_monad. rewrite Hd, bool_decide_eq_false_2, overwrite_zeros; [done|].
  rewrite zlen_replicate. pose proof (zlen_nonneg (last_result s)). lia.
Qed.

(** The host after an ecall left the enclave in a state. *)
Definition left_in (p : platform) (eid : Z) (m : contract_memory) (s : enclave_state) (h : hst) : hst :=
  after p s.(e_world) eid (memory_of s m) h.

Lemma host_ecall {A} fuel i e m up msg (code : M enclave_state (pdo_err_t * option A)) (h : hst) c o s :
  responsive e.(enclaveId) up -> up h.(platform_) -> (default_retries < Z.of_nat fuel)%Z ->
  h.(g_Enclave) !! i = Some e -> h.(loaded) !! e.(enclaveId) = Some m ->
  code (estate_of h.(shared_) m) = (Ok (c, o), s) -> c <> PDO_ERR_SYSTEM_BUSY ->
  exists p, up p /\ enclave_call fuel i msg (in_enclave code) h = checked i msg (SGX_SUCCESS, Some (c, o)) (left_in p e.(enclaveId) m s h).
Proof.
  intros Hr Hup Hf Hi Hm Hc Hb. apply (enclave_call_entered fuel i e m up msg (in_enclave code) h); try done.
  unfold in_enclave. fold (estate_of h.(shared_) m). by rewrite Hc.
Qed.

(** What the enclave answers to a request, as Python sees it. *)
Definition request_outcome (c : pdo_err_t) (s : enclave_state) : result bytes :=
  match c with PDO_SUCCESS => Ok s.(last_result) | _ => Err (python_error c "") end.
Definition noted (c : pdo_err_t) (h : hst) : hst := match c with PDO_SUCCESS => h | _ => set_last_error "" h end.

Lemma request_through fuel (h : hst) i e m up sealed msg (code : M enclave_state (pdo_err_t * option Z)) c o s :
  responsive e.(enclaveId) up -> up h.(platform_) -> (default_retries < Z.of_nat fuel)%Z ->
  h.(g_Enclave) !! i = Some e -> h.(loaded) !! e.(enclaveId) = Some m -> e.(enclaveError) = ""%string ->
  keeps_response (Base64EncodedStringToByteArray sealed) code -> code (estate_of h.(shared_) m) = (Ok (c, o), s) -> c <> PDO_ERR_SYSTEM_BUSY ->
  exists p, up p /\ bindM (api (guarded (enclave_call fuel i msg (in_enclave code)))) (fun n => fetch_response fuel sealed n i) h =
    (request_outcome c s, noted c (left_in p e.(enclaveId) m s h)).
Proof.
  intros Hr Hup Hf Hi Hm He Hk Hc Hb. destruct (host_ecall fuel i e m up msg code h c o s Hr Hup Hf Hi Hm Hc Hb) as (p & Hp & Hcall).
  specialize (Hk _ _ _ _ Hc). case_bool_decide as Hs; [subst c; destruct Hk as [-> [d Hd]]|subst o].
  - rewrite checked_ok in Hcall.
    assert (estate_of (e_world s) (memory_of s m) = s) as Hes by (by destruct s).
    destruct (host_ecall fuel i e (memory_of s m) up "SGX enclave call failed (GetSerializedResponse)"
      (ecall_GetSerializedResponse (Base64EncodedStringToByteArray sealed) (replicate (Z.to_nat (zlen (last_result s))) Byte.x00))
      (left_in p e.(enclaveId) m s h) PDO_SUCCESS (Some (last_result s)) s) as (p' & Hp' & Hfetch); try done.
    + apply lookup_insert_eq.
    + cbn [left_in after shared_]. rewrite Hes. by eapply response_fetched.
    + exists p'. split; [done|]. rewrite checked_ok in Hfetch. unfold bindM at 1, fetch_response, GetSerializedResponse.
      rewrite (api_ok _ _ _ _ Hcall), (api_ok _ _ _ _ Hfetch). cbn. unfold left_in, after. cbn. by rewrite insert_insert_eq.
  - exists p. split; [done|]. rewrite (checked_error _ _ _ e) in Hcall by done. unfold bindM at 1.
    rewrite (api_error _ _ _ _ _ Hcall Hs). by destruct c.
Qed.

(** C11: a contract request goes through the host.  On a platform that lets calls through within the default number of retries, the
    function Python calls gives exactly the response that the enclave kept when it handled the request, or, when the enclave refused
    it, throws the exception of the enclave's status code with an empty message; the world and the memory of the chosen enclave are
    what the enclave left, and nothing else of the host changes but the last error.  The enclave's status is not "busy" (which the host
    would answer by trying again), and the member with the enclave's error text is empty, as it always is. *)
Theorem host_request_correct fuel (h : hst) i e m up sealed esk req c o s :
  responsive e.(enclaveId) up -> up h.(platform_) -> (default_retries < Z.of_nat fuel)%Z ->
  h.(g_Enclave) !! i = Some e -> h.(loaded) !! e.(enclaveId) = Some m -> e.(enclaveError) = ""%string ->
  ecall_HandleContractRequest (Base64EncodedStringToByteArray sealed) esk req (estate_of h.(shared_) m) = (Ok (c, o), s) ->
  c <> PDO_ERR_SYSTEM_BUSY ->
  exists p, up p /\ contract_handle_contract_request fuel sealed esk req i h =
    (request_outcome c s, noted c (left_in p e.(enclaveId) m s h)).
Proof. intros. eapply request_through; try done. apply handle_keeps_response. Qed.

(** The same for the request that creates the state of a contract. *)
Lemma host_initialize_correct fuel (h : hst) i e m up sealed esk req c o s :
  responsive e.(enclaveId) up -> up h.(platform_) -> (default_retries < Z.of_nat fuel)%Z ->
  h.(g_Enclave) !! i = Some e -> h.(loaded) !! e.(enclaveId) = Some m -> e.(enclaveError) = ""%string ->
  ecall_InitializeContractState (Base64EncodedStringToByteArray sealed) esk req (estate_of h.(shared_) m) = (Ok (c, o), s) ->
  c <> PDO_ERR_SYSTEM_BUSY ->
  exists p, up p /\ initialize_contract_state fuel sealed esk req i h =
    (request_outcome c s, noted c (left_in p e.(enclaveId) m s h)).
Proof. intros. eapply request_through; try done. apply initialize_keeps_response. Qed.
End Requests.

(** * Answers *)

Section Answers.
Context {platform shared mem : Type} {R : SgxRuntime platform} {C : EnclaveCode shared mem}.
#[local] Abbreviation hst := (@host platform shared mem).
Implicit Types (h : hst).

(** The answer of [CallSgx] is that of its last attempt. *)
Lemma loop_last fuel {A} i (fxn : M hst (sgx_status_t * A)) retries : forall count h x h',
  CallSgx_loop fuel i fxn retries count h = (Ok x, h') -> exists h1, fxn h1 = (Ok x, h').
Proof.
  induction fuel as [|fuel IH]; intros count h x h' Hx; [done|]. cbn [CallSgx_loop] in Hx.
  apply bind_ok in Hx as ([ret a] & h1 & Hf & Hx). case_bool_decide.
  - apply bind_ok in Hx as (u & h2 & _ & Hx). eauto.
  - case_bool_decide; [case_bool_decide; [eauto|]|]; injection Hx as <- <-; eauto.
Qed.

Lemma sgx_success ret msg h u h' : liftM (ThrowSgxError ret msg) h = (Ok u, h') -> ret = SGX_SUCCESS /\ h' = h.
Proof.
  unfold liftM, ThrowSgxError. destruct ret; [by intros [= _ <-]| |done]. destruct (find_error _ _); [|done]. by case_bool_decide.
Qed.
End Answers.

(** * Initialization *)

(** An enclave that was created has an id. *)
Class SgxRuntimeLaws (platform : Type) {R : SgxRuntime platform} : Prop :=
  created_id : forall path p id p', sgx_create_enclave path p = (SGX_SUCCESS, id, p') -> id <> 0%Z.
