(* ===== verification/HostInitSpec.v ===== *)
(** Initialization of the two services: that of the provisioning service on a platform that cooperates, and its termination; the
    first initialization of the contract service is undefined. *)
From S2P Require Import Prelude Crypto BlockStore Codec Json Keys Attestation EnclaveData EnclaveDataSpec Enclave EnclaveSpec.
From S2P Require Import Provisioning HostEnclave HostContract HostSignup HostSpec ProvisioningHost.

(** * A platform that cooperates *)

Section Cooperation.
Context {platform : Type} {R : SgxRuntime platform}.

(** The device is enabled, enclaves can be created, and calls get through within the default number of retries. *)
Record cooperative (up : platform -> Prop) : Prop := {
  co_enter eid : responsive eid up;
  co_enable p : up p -> exists p', sgx_enable_device p = (SGX_SUCCESS, SGX_ENABLED, p') /\ up p';
  co_create path p : up p -> exists id p', sgx_create_enclave path p = (SGX_SUCCESS, id, p') /\ up p';
}.

Context {shared mem : Type} {C : EnclaveCode shared mem}.
#[local] Abbreviation hst := (@host platform shared mem).
Implicit Types (h : hst).

(** The method returns, with [Q] of its result. *)
Definition finishes {A} (m : M hst A) h (Q : A -> hst -> Prop) : Prop := exists a h', m h = (Ok a, h') /\ Q a h'.

Lemma finishes_bind {A B} (m : M hst A) (f : A -> M hst B) h Q :
  finishes m h (fun a h1 => finishes (f a) h1 Q) -> finishes (bindM m f) h Q.
Proof. intros (a & h1 & Hm & b & h2 & Hf & Hq). exists b, h2. unfold bindM. by rewrite Hm. Qed.

Lemma finishes_bind2 {A B D} (m : M hst A) (f : A -> M hst B) (g : B -> M hst D) h Q :
  finishes (bindM m f) h (fun b h1 => finishes (g b) h1 Q) -> finishes (bindM m (fun a => bindM (f a) g)) h Q.
Proof.
  intros (b & h1 & Hm & d & h2 & Hg & Hq). exists d, h2. split; [|done]. unfold bindM in *. destruct (m h) as [[a|e] h0]; [|done]. by rewrite Hm.
Qed.

Lemma finishes_conseq {A} (m : M hst A) h (Q Q' : A -> hst -> Prop) :
  finishes m h Q -> (forall a h', Q a h' -> Q' a h') -> finishes m h Q'.
Proof. intros (a & h' & Hm & Hq) HQ. exists a, h'. auto. Qed.

(** The host of one enclave [e], with the enclaves in [l] loaded. *)
Definition host_of (p : platform) (l : gmap Z mem) (e : HostEnclave.Enclave) h : hst :=
  mk_host p h.(shared_) l [e] h.(g_EnclaveReadyQueue) h.(g_IsInitialized) h.(g_LastError).

Lemma host_of_id h e : h.(g_Enclave) = [e] -> h = host_of h.(platform_) h.(loaded) e h.
Proof. destruct h. cbn. by intros ->. Qed.

Definition valid_path (path : bytes) : Prop := path <> [] /\ (zlen path <= PATH_MAX)%Z.
Definition valid_spid (spid : bytes) : Prop := zlen spid = 32%Z /\ forallb isxdigit spid = true.

Lemma spid_binary spid : valid_spid spid -> exists b, HexStringToBinary spid = Ok b.
Proof.
  intros [Hl Hx]. unfold HexStringToBinary. rewrite Hl. change (bool_decide (32 `mod` 2 ≠ 0)%Z) with false. cbn [throw_if result_bind].
  pose proof (hex_loop_ok spid []) as Hh. destruct (hex_loop spid []) as [b|e']; [eauto|].
  destruct Hh as [_ Hh]; [exists 16; unfold zlen in Hl; lia|]. change (forallb hex_digit_char spid) with (forallb isxdigit spid) in Hh. congruence.
Qed.

Lemma SetSpid_valid spid b e h p l : valid_spid spid -> HexStringToBinary spid = Ok b ->
  SetSpid 0 spid (host_of p l e h) = (Ok tt, host_of p l (with_spid b e) h).
Proof.
  intros [Hl Hx] Hb. unfold SetSpid, throw_ifM, bindM, liftM, throw_if. rewrite bool_decide_eq_false_2 by (by intros ?). rewrite Hx, Hb. done.
Qed.

Lemma SetSpid_invalid spid h : ~ valid_spid spid -> exists msg, SetSpid 0 spid h = (Err (ValueError msg), h).
Proof.
  intros Hn. unfold SetSpid, throw_ifM, bindM, liftM, throw_if. case_bool_decide as Hl; [eauto|].
  destruct (forallb isxdigit spid) eqn:Hx; [|cbn; eauto]. exfalso. apply Hn. by split.
Qed.

Lemma Load_invalid fuel i path h : ~ valid_path path -> exists msg, Load fuel i path h = (Err (ValueError msg), h).
Proof.
  intros Hn. unfold Load, throw_ifM, bindM, liftM, throw_if. destruct (_ || _) eqn:E; [eauto|]. exfalso. apply Hn.
  rewrite orb_false_iff, !bool_decide_eq_false in E. unfold valid_path. split; [apply E|lia].
Qed.

Context (fuel : nat) (up : platform -> Prop) (CO : cooperative up) (Hfuel : (default_retries < Z.of_nat fuel)%Z).

(** An ecall of the enclave that is being loaded. *)
Lemma this_call_finishes {A} i e m msg (code : M (shared * mem) (pdo_err_t * option A)) h a sh m' :
  up h.(platform_) -> h.(g_Enclave) !! i = Some e -> h.(loaded) !! e.(enclaveId) = Some m ->
  code (h.(shared_), m) = (Ok (PDO_SUCCESS, Some a), (sh, m')) ->
  finishes (bindM (CallSgx fuel i (ecall_this i code) default_retries) (checked i msg)) h
    (fun b h' => b = a /\ exists p, up p /\ h' = after p sh e.(enclaveId) m' h).
Proof.
  intros Hup Hi Hm Hc. destruct (co_enter _ CO e.(enclaveId) _ Hup) as (n & p & Hn & He & Hp).
  pose proof (entered_loop e.(enclaveId) code i (ecall_this i code) default_retries PDO_SUCCESS (Some a) h m sh m' n h.(platform_) p) as Hl.
  specialize (Hl ltac:(intros p0; unfold ecall_this, bindM, this; cbn; by rewrite Hi) Hm Hc ltac:(done) He fuel 0%Z ltac:(lia) ltac:(lia)).
  rewrite set_platform_id in Hl. exists a, (after p sh e.(enclaveId) m' h). split; [|eauto].
  unfold bindM, CallSgx. rewrite Hl. apply checked_ok.
Qed.

Context (Hinit : forall s : shared * mem, ec_Initialize s = (Ok (PDO_SUCCESS, Some tt), s))
  (size : Z) (Hsize : forall s : shared * mem, ec_CalculateSealedEnclaveDataSize s = (Ok (PDO_SUCCESS, Some size), s)).

Lemma create_finishes e h p l : up p ->
  finishes (CallSgx fuel 0 (create_enclave 0) 10) (host_of p l e h) (fun r h' => r = (SGX_SUCCESS, tt) /\
    exists p' id, up p' /\ sgx_create_enclave (c_str e.(enclaveFilePath)) p = (SGX_SUCCESS, id, p') /\
      h' = host_of p' (<[id := fresh_memory]> l) (with_id id e) h).
Proof.
  intros Hup. destruct (co_create _ CO (c_str e.(enclaveFilePath)) _ Hup) as (id & p' & Hc & Hp).
  destruct fuel as [|k] eqn:Ek; [unfold default_retries in Hfuel; lia|].
  eexists. eexists. split.
  - unfold CallSgx. cbn [CallSgx_loop]. unfold create_enclave at 1, bindM.
    change (this 0 (host_of p l e h)) with (Ok e, host_of p l e h). unfold runtime. cbn [platform_ host_of]. rewrite Hc. reflexivity.
  - split; [reflexivity|]. exists p', id. by split_and!.
Qed.

(** An enclave that is not loaded gets an id, a fresh memory, and the size of its sealed data. *)
Lemma load_finishes e h p l : up p -> e.(enclaveId) = 0%Z ->
  finishes (LoadEnclave fuel 0) (host_of p l e h) (fun u h' => u = tt /\ exists p' id p0 p1, up p' /\
    sgx_create_enclave (c_str e.(enclaveFilePath)) p0 = (SGX_SUCCESS, id, p1) /\
    h' = host_of p' (<[id := fresh_memory]> l) (with_sealed_size size (with_id id e)) h).
Proof.
  intros Hup He. unfold LoadEnclave, LoadEnclave_with. apply finishes_bind. exists e, (host_of p l e h). split; [done|].
  rewrite bool_decide_eq_true_2 by done. cbn [negb].
  apply finishes_bind. destruct (co_enable _ CO _ Hup) as (p0 & Hp & Hup1). exists tt, (host_of p0 l e h).
  split; [unfold QuerySgxStatus, bindM, runtime; cbn [platform_ host_of]; by rewrite Hp|].
  apply finishes_bind. eapply finishes_conseq; [by apply create_finishes|].
  intros [ret []] h1 ([= ->] & p1 & id & Hup2 & Hc & ->). apply finishes_bind. eexists tt, _. split; [done|].
  apply finishes_bind2. eapply finishes_conseq.
  { apply (this_call_finishes 0 (with_id id e) fresh_memory _ _ _ tt h.(shared_) fresh_memory); [exact Hup2|done|apply lookup_insert_eq|apply Hinit]. }
  intros [] h2 (_ & p2 & Hp2 & ->).
  apply finishes_bind2. eapply finishes_conseq.
  { apply (this_call_finishes 0 (with_id id e) fresh_memory _ _ _ size h.(shared_) fresh_memory); [exact Hp2|done|apply lookup_insert_eq|apply Hsize]. }
  intros n h3 (-> & p3 & Hp3 & ->). do 2 eexists. split; [done|]. split; [done|]. exists p3, id, p0, p1. split_and!; [done|done|].
  unfold after, host_of. cbn. by rewrite !insert_insert_eq.
Qed.

Lemma Load_finishes e path h p l : up p -> e.(enclaveId) = 0%Z -> valid_path path ->
  finishes (Load fuel 0 path) (host_of p l e h) (fun u h' => u = tt /\ exists p' id p0 p1, up p' /\
    sgx_create_enclave (c_str path) p0 = (SGX_SUCCESS, id, p1) /\
    h' = host_of p' (<[id := fresh_memory]> l) (with_sealed_size size (with_id id (with_path path e))) h).
Proof.
  intros Hup He [Hp Hl]. unfold Load. apply finishes_bind. exists tt, (host_of p l e h). split.
  { unfold throw_ifM. by rewrite !bool_decide_eq_false_2 by (done || lia). }
  apply finishes_bind. exists tt, (host_of p l e h). split.
  { unfold Unload, bindM. change (this 0 (host_of p l e h)) with (Ok e, host_of p l e h). cbn [of_option]. by rewrite He. }
  apply finishes_bind. exists tt, (host_of p l (with_path path e) h). split; [done|]. by apply load_finishes.
Qed.

End Cooperation.

(** * The provisioning service *)

Section ProvisioningInit.
Context {OS : OpenSSL} {LC : LibC} {OK : OpenSSLKeys} {SG : SGX} {XC : X509} {PB : ProvisioningBuild}.
Context {platform : Type} {R : SgxRuntime platform} {RL : SgxRuntimeLaws platform} (fuel : nat).
#[local] Existing Instance pservice.secret_code.
#[local] Abbreviation hst := (@host platform nat unit).
Implicit Types (h : hst).

(** The service with the enclave [e] loaded as [id], with its path and SPID. *)
Definition started (p : platform) (id : Z) (path b : bytes) (e : HostEnclave.Enclave) h : hst :=
  set_initialized true
    (host_of p (<[id := tt]> h.(loaded)) (with_sealed_size cMaxSealedDataSize (with_id id (with_path path (with_spid b e)))) h).

Lemma secret_init (s : nat * unit) : ec_Initialize s = (Ok (PDO_SUCCESS, Some tt), s).
Proof. done. Qed.
Lemma secret_size (s : nat * unit) : ec_CalculateSealedEnclaveDataSize s = (Ok (PDO_SUCCESS, Some cMaxSealedDataSize), s).
Proof. by destruct s as [n []]. Qed.

Lemma not_initialized path spid h : h.(g_IsInitialized) = false -> pservice.Initialize fuel path spid h =
  guarded (SetSpid 0 spid ;;! Load fuel 0 path ;;! modifyM (set_initialized true)) h.
Proof. intros Hi. unfold pservice.Initialize, guarded, catchM, bindM, readM. by rewrite Hi. Qed.

Lemma terminated p id path b e h : id <> 0%Z -> e.(enclaveId) = 0%Z -> h.(g_IsInitialized) = false ->
  pservice.Terminate (started p id path b e h) = (Ok (PDO_SUCCESS, Some tt),
    host_of (sgx_destroy_enclave id p) (delete id h.(loaded)) (with_sealed_size cMaxSealedDataSize (with_path path (with_spid b e))) h).
Proof.
  intros Hid He Hi. unfold pservice.Terminate, guarded, catchM, bindM, readM, started, host_of. cbn [set_initialized g_IsInitialized negb].
  unfold Unload, bindM. set (e1 := with_sealed_size _ _). set (h1 := mk_host _ _ _ _ _ _ _).
  change (this 0 (set_initialized true h1)) with (Ok e1, set_initialized true h1). cbv iota beta. change e1.(enclaveId) with id.
  rewrite bool_decide_eq_false_2 by done. cbn. rewrite delete_insert_eq. unfold e1. destruct h, e. cbn in *. by subst.
Qed.

End ProvisioningInit.

(** * The contract service *)

Section ContractInit.
Context {OS : OpenSSL} {BS : BlockStore} {PA : LibC} {KE : OpenSSLKeys} {SG : SGX} {BU : Build} {I : ContractInterpreter}.
Context {platform : Type} {R : SgxRuntime platform}.

(** The first initialization of the contract service, for any number of enclaves above 0, path, SPID and platform on which the size of a
    quote is known: the constructor of the first enclave calls a method of [g_Enclave[0]], which is not there. *)
Theorem first_initialize_undefined fuel path spid n (h : @host platform world contract_memory) size :
  h.(g_IsInitialized) = false -> h.(g_Enclave) = [] -> (0 < n)%Z -> sgx_calc_quote_size None = (SGX_SUCCESS, size) ->
  (Initialize fuel path spid n h).1 = Err (UndefinedBehaviour "vector index out of range").
Proof.
  intros Hi HE Hn Hs. unfold Initialize, guarded, catchM, bindM, readM, modifyM. rewrite Hi. unfold throw_ifM, liftM, throw_if.
  rewrite bool_decide_eq_false_2 by lia. destruct (Z.to_nat n) as [|k] eqn:Ek; [lia|]. cbn [seq add_enclaves].
  unfold add_enclave, Enclave_new. rewrite Hs. unfold bindM, init_quote, liftM, bindM, this. cbn [ThrowSgxError set_queue g_Enclave].
  by rewrite HE.
Qed.
End ContractInit.
