(* ===== verification/HostSignupSpec.v ===== *)
(** Signing up through the host: the keys Python gets are those of the enclave, and the sealed data gives them again. *)
From S2P Require Import Prelude Crypto BlockStore Codec Json JsonSpec Keys KeysSpec Attestation EnclaveData EnclaveDataSpec Enclave.
From S2P Require Import HostEnclave HostContract HostSignup HostSpec.

(** * The public data of an enclave *)

Definition public_object (interpreter pub epub : bytes) : list (bytes * json) :=
  [(bytes_of "Interpreter", JString interpreter); (bytes_of "VerifyingKey", JString pub); (bytes_of "EncryptionKey", JString epub)].

Section PublicData.
Context {OS : OpenSSL} {LC : LibC} {LL : LibCLaws} {OK : OpenSSLKeys} {OL : OpenSSLKeysLaws} {SG : SGX} {BU : Build}.

Lemma identity_c_str : c_str GetInterpreterIdentity = GetInterpreterIdentity.
Proof. unfold GetInterpreterIdentity. by destruct USE_WAWAKA_OPT. Qed.

Lemma SerializePublicData_ok d text : SerializePublicData (Some GetInterpreterIdentity) d = Ok text -> exists pub epub,
  sig_public_key.Serialize d.(public_signing_key_) = Ok pub /\ pkenc_public_key.Serialize d.(public_encryption_key_) = Ok epub /\
  text = json_serialize_to_buffer_r false 0 (JObject (public_object GetInterpreterIdentity (c_str pub) (c_str epub))).
Proof.
  unfold SerializePublicData. rewrite identity_c_str. intros Hs.
  assert (json_object_dotset_string [] [bytes_of "Interpreter"] GetInterpreterIdentity =
    Some [(bytes_of "Interpreter", JString GetInterpreterIdentity)]) as Hi.
  { unfold GetInterpreterIdentity. by destruct USE_WAWAKA_OPT; vm_compute. }
  rewrite Hi in Hs. cbn [of_option result_bind] in Hs.
  destruct (set_key _ _ _ _ _) as [o1|] eqn:E1; [|done]. cbn [result_bind] in Hs.
  apply set_key_ok in E1 as (pub & Hpub & E1). cbn in E1. injection E1 as <-.
  destruct (set_key _ _ _ _ _) as [o2|] eqn:E2; [|done]. cbn [result_bind] in Hs.
  apply set_key_ok in E2 as (epub & Hepub & E2). cbn in E2. injection E2 as <-.
  exists pub, epub. unfold serialized_object in Hs. injection Hs as <-. by split_and!.
Qed.

Lemma public_text_parsed pub epub : Byte.x00 ∉ pub -> Byte.x00 ∉ epub ->
  parse_public_data (json_serialize_to_buffer_r false 0 (JObject (public_object GetInterpreterIdentity pub epub))) =
  Ok (GetInterpreterIdentity, pub, epub).
Proof.
  intros H1 H2. set (o := JObject (public_object GetInterpreterIdentity pub epub)).
  assert (Hw : wf_json o = true) by (by vm_compute).
  assert (json_parse (c_str (json_serialize_to_buffer_r false 0 o)) = Some o) as Hp.
  { rewrite c_str_id by (by apply serialize_no_nul). rewrite <-(app_nil_r (json_serialize_to_buffer_r _ _ _)).
    apply serialized_object_parses; [done|by vm_compute]. }
  assert (json_is_object o = true) as Ho by done.
  assert (get_cstring o (bytes_of "Interpreter") = Some (c_str GetInterpreterIdentity)) as G1 by done.
  assert (get_cstring o (bytes_of "VerifyingKey") = Some (c_str pub)) as G2 by done.
  assert (get_cstring o (bytes_of "EncryptionKey") = Some (c_str epub)) as G3 by done.
  clearbody o. unfold parse_public_data, root_object. rewrite Hp. cbn [of_option result_bind]. rewrite Ho. cbn [negb throw_if result_bind].
  rewrite G1, G2, G3. cbn [required of_option result_bind]. by rewrite identity_c_str, !c_str_id by done.
Qed.

(** The keys as the enclave publishes them. *)
Lemma good_data_public d text : good_data d -> SerializePublicData (Some GetInterpreterIdentity) d = Ok text -> exists id ek,
  get_enclave_id d = Ok id /\ get_serialized_encryption_key d = Ok ek /\ (Byte.x00 ∉ text) /\
  parse_public_data text = Ok (GetInterpreterIdentity, id, ek).
Proof.
  intros [_ [Hpub _] (k & Hk & _ & Hep)] (id & ek & Hid & Hek & ->)%SerializePublicData_ok.
  destruct (sig_public_serialized _ _ Hpub Hid) as (_ & _ & N1). rewrite Hep in Hek.
  destruct (pkenc_public_serialized (RSAPublicKey_dup k) _ eq_refl Hek) as (_ & _ & N2).
  exists id, ek. unfold get_serialized_encryption_key. rewrite Hep, !c_str_id by done. split_and!; try done.
  - apply serialize_no_nul. by vm_compute.
  - by apply public_text_parsed.
Qed.
End PublicData.

(** The text in the caller's buffer, when there is room for its end. *)
Lemma StringArray_text n t k : Byte.x00 ∉ t -> (zlen t < n)%Z -> StringArray_str (strncpy_s n t, k) = t.
Proof.
  intros Ht Hn. unfold StringArray_str, strncpy_s, fill_buffer. cbn [fst]. rewrite bool_decide_eq_false_2 by lia.
  rewrite c_str_app by done. destruct (Z.to_nat (n - zlen t)) eqn:E; [lia|]. cbn. by rewrite app_nil_r.
Qed.

Lemma StringArray_full n t k : (0 < n)%Z -> (n <= zlen t)%Z -> StringArray_str (strncpy_s n t, k) = [].
Proof.
  intros H0 Hn. unfold StringArray_str, strncpy_s, fill_buffer. cbn [fst]. rewrite bool_decide_eq_true_2 by lia.
  destruct t as [|x t]; [unfold zlen in Hn; cbn in Hn; lia|]. by destruct (Z.to_nat n) eqn:E; [lia|].
Qed.

(** * Through the host *)

Section Inversion.
Context {platform shared mem : Type} {R : SgxRuntime platform} {C : EnclaveCode shared mem}.
#[local] Abbreviation hst := (@host platform shared mem).

Lemma checked_inv {A} i msg ret (out : option (pdo_err_t * option A)) (h : hst) a h' : checked i msg (ret, out) h = (Ok a, h') ->
  ret = SGX_SUCCESS /\ out = Some (PDO_SUCCESS, Some a) /\ h' = h.
Proof.
  intros (u & h1 & [-> ->]%sgx_success & Hm)%bind_ok. destruct out as [[c o]|]; [|done].
  apply bind_ok in Hm as ([c' o'] & h2 & [= <- <- <-] & Hm). apply bind_ok in Hm as (u2 & h3 & Ht & Hm).
  unfold ThrowPDOError in Ht. case_bool_decide as Hc.
  - injection Ht as _ <-. destruct o; [|done]. injection Hm as <- <-. by subst.
  - destruct message_member; (apply bind_ok in Ht as (e & h4 & _ & Ht); try done).
Qed.

(** A call that gave an output ran the code with success, in some state. *)
Lemma call_inv {A} fuel i msg eid (code : M (shared * mem) (pdo_err_t * option A)) n r (h h1 : hst) a h2 :
  CallSgx fuel i (ecall_into eid code) n h = (Ok r, h1) -> checked i msg r h1 = (Ok a, h2) ->
  exists s s', code s = (Ok (PDO_SUCCESS, Some a), s').
Proof.
  intros Hc0 Hk. destruct (loop_last fuel i (ecall_into eid code) n 0%Z h r h1 Hc0) as (h0 & Hc). destruct r as [ret out]. apply checked_inv in Hk as (-> & -> & _).
  unfold ecall_into in Hc. destruct (h0.(loaded) !! eid) as [m|]; [|done]. destruct (sgx_enter eid _) as [[] p]; [|done..].
  destruct (code (h0.(shared_), m)) as [[[c o]|e] [sh m']] eqn:E; [|done]. injection Hc as _ -> -> _. eauto.
Qed.

Lemma enclave_call_inv {A} fuel i msg (code : M (shared * mem) (pdo_err_t * option A)) (h : hst) a h' :
  enclave_call fuel i msg code h = (Ok a, h') -> exists s s', code s = (Ok (PDO_SUCCESS, Some a), s').
Proof. intros (e & h1 & _ & Hm)%bind_ok. apply bind_ok in Hm as (r & h2 & H1 & H2). by eapply call_inv. Qed.

Lemma api_inv {A} (m : M hst A) h a h' : api (guarded m) h = (Ok a, h') -> m h = (Ok a, h').
Proof.
  unfold api, guarded, catchM, bindM. destruct (m h) as [[x|e] h1]; [by intros [= <- <-]|]. destruct e; cbn; done.
Qed.
End Inversion.

Section Signup.
Context {OS : OpenSSL} {BS : BlockStore} {LC : LibC} {LL : LibCLaws} {OK : OpenSSLKeys} {OL : OpenSSLKeysLaws} {SG : SGX} {SL : SGXLaws}
  {BU : Build} {I : ContractInterpreter}.
Context {platform : Type} {R : SgxRuntime platform}.
#[local] Abbreviation hst := (@host platform world contract_memory).

Lemma in_signup_ok {A} (code : M nat A) s x s' : in_signup code s = (Ok x, s') -> exists n n', code n = (Ok x, n').
Proof. destruct s as [w m]. unfold in_signup. destruct (code w.(w_rng)) as [r n] eqn:E. intros [= -> _]. eauto. Qed.

Lemma public_size_ok fuel (h : hst) n h' : CalculatePublicEnclaveDataSize fuel h = (Ok n, h') -> n = cMaxPublicDataSize.
Proof. intros (s & s' & (k & k' & Hc)%in_signup_ok)%enclave_call_inv. by injection Hc. Qed.
Lemma sealed_size_ok fuel (h : hst) n h' : CalculateSealedEnclaveDataSize fuel h = (Ok n, h') -> n = cMaxSealedDataSize.
Proof. intros (s & s' & (k & k' & Hc)%in_signup_ok)%enclave_call_inv. by injection Hc. Qed.

(** What the host gets from the enclave. *)
Lemma created_through fuel okh (h : hst) pub sealed quote h' : api (CreateEnclaveData fuel okh) h = (Ok (pub, sealed, quote), h') ->
  exists d k, good_data d /\ with_serialized_data (Some GetInterpreterIdentity) (set_serialized [] [] d) = Ok d /\
    pub = (strncpy_s cMaxPublicDataSize d.(serialized_public_data_), k) /\ (zlen d.(serialized_public_data_) <= cMaxPublicDataSize)%Z /\
    EnclaveData_unseal (Some GetInterpreterIdentity) (Base64EncodedStringToByteArray sealed) = Ok d.
Proof.
  intros (ps & h1 & ->%public_size_ok & Hm)%api_inv%bind_ok. apply bind_ok in Hm as (ss & h2 & ->%sealed_size_ok & Hm).
  apply bind_ok in Hm as (e & h3 & _ & Hm). apply bind_ok in Hm as ([sresult [target ?]] & h4 & _ & Hm).
  apply bind_ok in Hm as (u & h5 & _ & Hm). apply bind_ok in Hm as (r & h6 & Hcall & Hm). apply bind_ok in Hm as ([c report] & h7 & Hk & Hm).
  apply bind_ok in Hm as (qb & h8 & _ & Hm). injection Hm as <- <- _ _.
  destruct (call_inv _ _ _ _ _ _ _ _ _ _ _ Hcall Hk) as (s & s' & (k & k' & Hc)%in_signup_ok).
  apply ecall_ok in Hc as [(a & Hb & _ & [= <-])|(er & _ & _ & [=])].
  destruct (created_data_sealed _ _ _ _ _ _ _ _ Hb) as (d & blob & Hgood & _ & Hun & -> & Hps & Hss). exists d. eexists. cbn.
  split_and!; try done.
  - specialize (Hun []). unfold EnclaveData_unseal in Hun. result_inv. destruct a. result_inv. by eapply with_serialized_again.
  - unfold Base64EncodedStringToByteArray, ByteArrayToBase64EncodedString. rewrite base64_roundtrip_bytes. unfold fill_buffer, zlen.
    rewrite Nat2Z.id, take_app_length. rewrite <-(app_nil_r blob). apply Hun.
Qed.

(** The public data as the host reads it from the buffer: all of it, unless it fills the buffer. *)
Lemma public_read d k keys : with_serialized_data (Some GetInterpreterIdentity) (set_serialized [] [] d) = Ok d -> good_data d ->
  parse_public_data (StringArray_str (strncpy_s cMaxPublicDataSize d.(serialized_public_data_), k)) = Ok keys ->
  get_enclave_id d = Ok keys.1.2 /\ get_serialized_encryption_key d = Ok keys.2 /\ keys.1.1 = GetInterpreterIdentity.
Proof.
  intros (priv & pub & _ & Hpub & Heq)%with_serialized_ok Hgood Hp. change (SerializePublicData (Some GetInterpreterIdentity) d = Ok pub) in Hpub.
  assert (d.(serialized_public_data_) = pub) as Hd by (by rewrite Heq). rewrite Hd in Hp.
  destruct (good_data_public d pub Hgood Hpub) as (id & ek & Hid & Hek & Hnul & Hparse).
  destruct (decide (zlen pub < cMaxPublicDataSize)%Z) as [Hlt|Hge].
  - rewrite StringArray_text in Hp by done. rewrite Hparse in Hp. by injection Hp as <-.
  - rewrite StringArray_full in Hp by (unfold cMaxPublicDataSize in *; lia). by vm_compute in Hp.
Qed.

(** An ecall that draws no random bytes and leaves the memory alone. *)
Lemma signup_call {A} fuel i e m up msg (code : M nat (pdo_err_t * option A)) (h : hst) a :
  responsive e.(enclaveId) up -> up h.(platform_) -> (default_retries < Z.of_nat fuel)%Z ->
  h.(g_Enclave) !! i = Some e -> h.(loaded) !! e.(enclaveId) = Some m ->
  code h.(shared_).(w_rng) = (Ok (PDO_SUCCESS, Some a), h.(shared_).(w_rng)) ->
  exists p, up p /\ enclave_call fuel i msg (in_signup code) h = (Ok a, set_platform p h).
Proof.
  intros Hr Hup Hf Hi Hm Hc.
  destruct (enclave_call_entered fuel i e m up msg (in_signup code) h PDO_SUCCESS (Some a) h.(shared_) m) as (p & Hp & Hcall); try done.
  - unfold in_signup. rewrite Hc. by destruct h.(shared_).
  - exists p. split; [done|]. rewrite Hcall, checked_ok. unfold after, set_platform. by rewrite insert_id.
Qed.

(** C26: signing up through the host.  When [create_enclave_data] gives Python an answer, the two keys in it are those of fresh key
    pairs that are sealed in it, with the name of the interpreter; and [unseal_enclave_data] of the sealed data, later and in
    any host whose first enclave can be called, gives the same three entries and changes nothing of that host but the platform. *)
Theorem signup_host_roundtrip fuel okh (h : hst) entries h' :
  create_enclave_data fuel okh h = (Ok entries, h') ->
  exists d id ek sealed quote, good_data d /\ get_enclave_id d = Ok id /\ get_serialized_encryption_key d = Ok ek /\
    entries = public_entries (GetInterpreterIdentity, id, ek) ++ [("sealed_enclave_data"%string, sealed); ("enclave_quote"%string, quote)] /\
    EnclaveData_unseal (Some GetInterpreterIdentity) (Base64EncodedStringToByteArray sealed) = Ok d /\
    forall fuel' (g : hst) e m up, responsive e.(enclaveId) up -> up g.(platform_) -> (default_retries < Z.of_nat fuel')%Z ->
      g.(g_Enclave) !! 0 = Some e -> g.(loaded) !! e.(enclaveId) = Some m ->
      exists p, up p /\ unseal_enclave_data fuel' sealed g = (Ok (public_entries (GetInterpreterIdentity, id, ek)), set_platform p g).
Proof.
  intros ([[pub sealed] quote] & h1 & Hc & Hm)%bind_ok. apply bind_ok in Hm as (keys & h2 & Hk & Hm). injection Hm as <- _.
  apply created_through in Hc as (d & k & Hgood & Hser & -> & Hle & Hun). apply api_inv in Hk. injection Hk as Hk _.
  destruct (public_read d k keys Hser Hgood Hk) as (Hid & Hek & Hint). destruct keys as [[int id] ek]. cbn in Hid, Hek, Hint. subst int.
  exists d, id, ek, sealed, quote. split_and!; try done. intros fuel' g e m up Hr Hup Hf Hi Hm.
  destruct (signup_call fuel' 0 e m up "SGX enclave call failed (ecall_CalculatePublicEnclaveDataSize)"
    signup_enclave.ecall_CalculatePublicEnclaveDataSize g cMaxPublicDataSize Hr Hup Hf Hi Hm eq_refl) as (p & Hp & Hsize).
  destruct (signup_call fuel' 0 e m up "SGX enclave call failed (ecall_UnsealSignupData)"
    (signup_enclave.ecall_UnsealEnclaveData (Base64EncodedStringToByteArray sealed) cMaxPublicDataSize) (set_platform p g)
    (strncpy_s cMaxPublicDataSize d.(serialized_public_data_), zlen d.(serialized_public_data_)) Hr Hp Hf Hi Hm) as (p' & Hp' & Hunseal).
  { unfold signup_enclave.ecall_UnsealEnclaveData, ecall, catchM, UnsealEnclaveData_body. run_monad. rewrite Hun.
    by rewrite bool_decide_eq_false_2 by lia. }
  exists p'. split; [done|]. unfold unseal_enclave_data, bindM at 1, UnsealEnclaveData.
  erewrite api_ok; [|unfold bindM at 1, CalculatePublicEnclaveDataSize; rewrite Hsize; exact Hunseal].
  unfold bindM at 1, DeserializePublicEnclaveData. by erewrite api_ok by (unfold liftM; f_equal; exact Hk).
Qed.
End Signup.
