(* ===== verification/ProvisioningHostSpec.v ===== *)
(** The provisioning service through its host: a secret that was sealed is unsealed to the same bytes, and the secret for a contract enclave, or
    the error with its message, is what the enclave gave. *)
From S2P Require Import Prelude Crypto BlockStore Codec Json Keys Attestation EnclaveData EnclaveDataSpec Provisioning Enclave.
From S2P Require Import HostEnclave HostContract HostSignup ProvisioningHost HostSpec HostSignupSpec.

#[local] Existing Instance pservice.secret_code.

Section Secrets.
Context {OS : OpenSSL} {LC : LibC} {OK : OpenSSLKeys} {SG : SGX} {SL : SGXLaws} {XC : X509} {PB : ProvisioningBuild}.
Context {platform : Type} {R : SgxRuntime platform}.
#[local] Abbreviation hst := (@host platform nat unit).

Lemma in_secret_ok {A} (code : M nat A) s x s' : pservice.in_secret code s = (Ok x, s') -> exists n n', code n = (Ok x, n').
Proof. destruct s as [n u]. unfold pservice.in_secret. destruct (code n) as [r n'] eqn:E. intros [= -> _]. eauto. Qed.

Lemma secret_call {A} fuel i e up msg (code : M nat (pdo_err_t * option A)) (h : hst) c o n :
  responsive e.(enclaveId) up -> up h.(platform_) -> (default_retries < Z.of_nat fuel)%Z ->
  h.(g_Enclave) !! i = Some e -> h.(loaded) !! e.(enclaveId) = Some tt -> code h.(shared_) = (Ok (c, o), n) -> c <> PDO_ERR_SYSTEM_BUSY ->
  exists p, up p /\ enclave_call fuel i msg (pservice.in_secret code) h = checked i msg (SGX_SUCCESS, Some (c, o)) (after p n e.(enclaveId) tt h).
Proof.
  intros Hr Hup Hf Hi Hm Hc Hb. apply (enclave_call_entered fuel i e tt up msg (pservice.in_secret code) h); try done.
  unfold pservice.in_secret. by rewrite Hc.
Qed.

(** A call that draws no random bytes. *)
Lemma secret_read {A} fuel i e up msg (code : M nat (pdo_err_t * option A)) (h : hst) a :
  responsive e.(enclaveId) up -> up h.(platform_) -> (default_retries < Z.of_nat fuel)%Z ->
  h.(g_Enclave) !! i = Some e -> h.(loaded) !! e.(enclaveId) = Some tt -> code h.(shared_) = (Ok (PDO_SUCCESS, Some a), h.(shared_)) ->
  exists p, up p /\ enclave_call fuel i msg (pservice.in_secret code) h = (Ok a, set_platform p h).
Proof.
  intros Hr Hup Hf Hi Hm Hc. destruct (secret_call fuel i e up msg code h PDO_SUCCESS (Some a) h.(shared_)) as (p & Hp & Hcall); try done.
  exists p. split; [done|]. rewrite Hcall, checked_ok. unfold after, set_platform. by rewrite insert_id.
Qed.

(** The member that keeps the message is not used: it comes from the global that the enclave wrote. *)
Lemma checked_secret_error {A} i msg c (h : hst) : c <> PDO_SUCCESS ->
  checked (A := A) i msg (SGX_SUCCESS, Some (c, None)) h =
  (Err (Error c (g_enclaveError h.(platform_))), set_platform (clear_enclaveError h.(platform_)) h).
Proof.
  intros Hc. unfold checked. cbn [ThrowSgxError]. unfold liftM at 1, bindM at 1. cbn [of_option]. unfold liftM at 1, bindM at 1, bindM at 1.
  unfold ThrowPDOError. by rewrite bool_decide_eq_false_2.
Qed.

(** A sealed secret through the host.  The secret that [create_sealed_secret] makes has the length it was asked for, and
    [unseal_secret] of it, in any host of the service whose enclave can be called, gives the same bytes in hexadecimal. *)
Theorem sealed_secret_roundtrip fuel len (h : hst) entries h' :
  pservice.create_sealed_secret fuel len h = (Ok entries, h') ->
  exists secret sealed, zlen secret = u64 len /\ entries = [("sealed_secret"%string, sealed)] /\
    forall fuel' (g : hst) e up, responsive e.(enclaveId) up -> up g.(platform_) -> (default_retries < Z.of_nat fuel')%Z ->
      g.(g_Enclave) !! 0 = Some e -> g.(loaded) !! e.(enclaveId) = Some tt ->
      exists p, up p /\ pservice.unseal_secret fuel' sealed g = (Ok [("plain_secret"%string, ByteArrayToHexEncodedString secret)], set_platform p g).
Proof.
  intros (b64 & h1 & Hc & Hm)%bind_ok. injection Hm as <- _. apply api_inv in Hc. apply bind_ok in Hc as (size & h2 & _ & Hm).
  apply bind_ok in Hm as (blob & h3 & Hcall & Hm). injection Hm as <- _.
  apply enclave_call_inv in Hcall as (s & s' & (k & k' & Hc)%in_secret_ok). apply ecall_ok in Hc as [(x & Hb & _ & [= <-])|(er & _ & _ & [=])].
  apply bind_ok in Hb as (u & k1 & _ & Hb). apply bind_ok in Hb as (secret & k2 & Hrand & Hseal).
  injection Hrand as Hrand _. injection Hseal as Hseal _. destruct (unseal_seal _ _ _ _ _ [] Hseal) as [Hu Hl]. rewrite app_nil_r in Hu, Hl.
  exists secret, (ByteArrayToBase64EncodedString blob). split; [by eapply read_rand_length|]. split; [done|].
  intros fuel' g e up Hr Hup Hf Hi Hm.
  assert (Base64EncodedStringToByteArray (ByteArrayToBase64EncodedString blob) = blob) as Hbase by apply base64_roundtrip_bytes.
  destruct (secret_read fuel' 0 e up "SGX enclave call failed (ecall_CalculatePlainSecretSize)" (secret_enclave.ecall_CalculatePlainSecretSize blob) g
    (zlen secret) Hr Hup Hf Hi Hm) as (p & Hp & Hsize).
  { unfold secret_enclave.ecall_CalculatePlainSecretSize, secret_enclave.text_len, ecall, catchM. run_monad. by rewrite Hl. }
  destruct (secret_read fuel' 0 e up "SGX enclave call failed (ecall_UnsealSecret)" (secret_enclave.ecall_UnsealSecret blob (zlen secret))
    (set_platform p g) secret Hr Hp Hf Hi Hm) as (p' & Hp' & Hunseal).
  { unfold secret_enclave.ecall_UnsealSecret, secret_enclave.UnsealSecret_body, secret_enclave.text_len, unseal, ecall, catchM. run_monad.
    rewrite Hl, Hu. cbn [of_option result_bind]. rewrite bool_decide_eq_false_2 by lia. cbn [throw_if result_bind]. unfold fill_buffer.
    by rewrite Z.sub_diag, app_nil_r. }
  exists p'. split; [done|]. unfold pservice.unseal_secret, bindM at 1, pservice.UnsealSecret. erewrite api_ok; [done|].
  unfold bindM at 1, pservice.CalculatePlainSecretSize. rewrite Hbase, Hsize. unfold bindM. by rewrite Hunseal.
Qed.

(** The secret for a contract enclave through the host.  [generate_enclave_secret] gives the encrypted secret that the enclave made,
    or throws the exception of the enclave's status code with the message that the enclave left. *)
Theorem generated_secret_through fuel sealed secret cid opk info (h : hst) e up c o n :
  responsive e.(enclaveId) up -> up h.(platform_) -> (default_retries < Z.of_nat fuel)%Z ->
  h.(g_Enclave) !! 0 = Some e -> h.(loaded) !! e.(enclaveId) = Some tt ->
  secret_enclave.ecall_GenerateEnclaveSecret (Base64EncodedStringToByteArray sealed) (Base64EncodedStringToByteArray secret)
    (c_str cid) (c_str opk) (c_str info) (Z.shiftr RSA_KEY_SIZE 3) h.(shared_) = (Ok (c, o), n) -> c <> PDO_ERR_SYSTEM_BUSY ->
  exists p, up p /\ pservice.generate_enclave_secret fuel sealed secret cid opk info h =
    match o with
    | Some out => (Ok [("enclave_secret"%string, ByteArrayToBase64EncodedString out)], after p n e.(enclaveId) tt h)
    | None => (Err (python_error c (g_enclaveError p)),
               set_last_error (g_enclaveError p) (set_platform (clear_enclaveError p) (after p n e.(enclaveId) tt h)))
    end.
Proof.
  intros Hr Hup Hf Hi Hm Hc Hb. destruct (secret_call fuel 0 e up "SGX enclave call failed (ecall_GenerateEnclaveSecret)" _ h c o n Hr Hup Hf Hi Hm Hc Hb)
    as (p & Hp & Hcall). exists p. split; [done|].
  unfold pservice.generate_enclave_secret, pservice.GenerateEnclaveSecret. apply ecall_ok in Hc as [(x & _ & -> & ->)|(er & _ & -> & ->)].
  - rewrite checked_ok in Hcall. unfold bindM at 1. erewrite api_ok; [done|]. unfold bindM. by rewrite Hcall.
  - assert (error_code er <> PDO_SUCCESS) as Hne by (by destruct er). rewrite checked_secret_error in Hcall by done. unfold bindM at 1.
    erewrite api_error; [done| |done]. unfold bindM. by rewrite Hcall.
Qed.
End Secrets.
