(* ===== verification/HostWitnesses.v ===== *)
(** A platform on which the host runs, and the inputs at which the theorems on the host apply. *)
From S2P Require Import Prelude Crypto BlockStore Codec Json Keys Attestation EnclaveData EnclaveDataSpec Enclave Platform EnclavePlatform.
From S2P Require Import EnclaveWitnesses HostEnclave HostContract HostSignup HostSpec HostInitSpec HostSignupSpec ProvisioningHost ProvisioningHostSpec Provisioning.

(** A device that is busy twice before every call it lets through, unless it has lost its enclaves. *)
Record device := mk_device { next_id : Z; busy : nat; lost : bool; message : string }.

Definition attempt {A} (a : A) (d : device) : sgx_status_t * A * device :=
  match d.(busy) with
  | O => (SGX_SUCCESS, a, mk_device d.(next_id) 2 d.(lost) d.(message))
  | S n => (SGX_ERROR_DEVICE_BUSY, a, mk_device d.(next_id) n d.(lost) d.(message))
  end.

#[local] Instance device_runtime : SgxRuntime device := {|
  sgx_enable_device d := (SGX_SUCCESS, SGX_ENABLED, d);
  sgx_create_enclave _ d := let id := Z.max 1 d.(next_id) in (SGX_SUCCESS, id, mk_device (id + 1) d.(busy) d.(lost) d.(message));
  sgx_destroy_enclave _ d := d;
  sgx_init_quote := attempt (bytes_of "target", bytes_of "gid");
  sgx_calc_quote_size _ := (SGX_SUCCESS, 4%Z);
  sgx_get_quote _ _ _ n d := (SGX_SUCCESS, replicate (Z.to_nat n) Byte.x01, d);
  sgx_enter _ d := if d.(lost) then (SGX_ERROR_ENCLAVE_LOST, d) else let '(ret, _, d) := attempt tt d in (ret, d);
  pthread_create d := (0%Z, 5%Z, d);
  pthread_join _ d := d;
  g_enclaveError := message;
  clear_enclaveError d := mk_device d.(next_id) d.(busy) d.(lost) EmptyString;
|}.

#[local] Instance device_laws : SgxRuntimeLaws device.
Proof. intros path p id p' [= <- _]. lia. Qed.

Definition working (d : device) : Prop := d.(lost) = false /\ d.(busy) <= 2.

Lemma device_responsive eid : responsive eid working.
Proof.
  intros [id b l m] [Hl Hb]. cbn in Hl, Hb. subst l.
  assert (forall b, enters eid b (mk_device id b false m) (mk_device id 2 false m)) as He.
  { clear. induction b as [|b IH]; [by apply enters_now|]. eapply enters_busy; [reflexivity|exact IH]. }
  exists b, (mk_device id 2 false m). split_and!; [unfold default_retries; lia|apply He|split; [done|cbn; lia]].
Qed.

Lemma device_cooperates : cooperative working.
Proof.
  split.
  - apply device_responsive.
  - intros d Hd. by exists d.
  - intros path [id b l m] [Hl Hb]. do 2 eexists. by split.
Qed.

#[local] Existing Instance interpreter_1.

Definition enclave_at (id : Z) : HostEnclave.Enclave := mk_Enclave (bytes_of "enclave.so") id (Some 5%Z) 4 8192 [] (Some []) [] [] "".
Definition memory_1 : contract_memory := mk_memory enclave_1.(last_result) enclave_1.(worker_initialized) false.
Definition host_on (d : device) : @host device world contract_memory :=
  mk_host d enclave_1.(e_world) {[7%Z := memory_1]} [enclave_at 7] (Some [0%Z]) true "".
Definition device_1 : device := mk_device 8 1 false "".

Lemma call_sgx_terminates_witness :
  CallSgx 6 0 (runtime sgx_init_quote) 5 (host_on device_1) = first_answer 5 (runtime sgx_init_quote) (host_on device_1).
Proof.
  refine (call_sgx_terminates 6 0 (runtime sgx_init_quote) 5 (host_on device_1) _ _ _); [|done|cbn; lia].
  intros h a h'. unfold runtime. cbn [sgx_init_quote device_runtime]. unfold attempt. destruct (busy (platform_ h)); discriminate.
Defined.

Definition lost_device : device := mk_device 8 0 true "".
Lemma lost_enclave_blocks_witness : exists p,
  enclave_call 1000 0 "call" (in_enclave (ecall_CalculateSealedContractKeySize 44)) (host_on lost_device) = (Err OutOfFuel, set_platform p (host_on lost_device)).
Proof.
  destruct (lost_enclave_blocks 1000 0 (enclave_at 7) memory_1 (fun d => d.(lost) = true) "call"
    (in_enclave (ecall_CalculateSealedContractKeySize 44)) (host_on lost_device)) as (p & Hp & _).
  - intros d Hd. exists d. split; [cbn; rewrite Hd; reflexivity|exact Hd].
  - reflexivity.
  - discriminate.
  - reflexivity.
  - apply lookup_singleton_eq.
  - exists p. exact Hp.
Defined.

Lemma host_request_correct_witness : exists p s, working p /\
  contract_handle_contract_request 6 (ByteArrayToBase64EncodedString signup_1) session_1 update_request 0 (host_on device_1) =
  (Ok s.(last_result), left_in p 7 memory_1 s (host_on device_1)).
Proof.
  destruct (succeeded_inv _ update_ok) as (o & s & E).
  destruct (host_request_correct 6 (host_on device_1) 0 (enclave_at 7) memory_1 working (ByteArrayToBase64EncodedString signup_1) session_1
    update_request PDO_SUCCESS o s) as (p & Hp & Hr).
  - apply device_responsive.
  - split; [reflexivity|]. cbn. lia.
  - unfold default_retries. lia.
  - reflexivity.
  - apply lookup_singleton_eq.
  - reflexivity.
  - unfold Base64EncodedStringToByteArray, ByteArrayToBase64EncodedString. rewrite base64_roundtrip_bytes.
    assert (estate_of (shared_ (host_on device_1)) memory_1 = enclave_1) as -> by (unfold estate_of, memory_1; cbn; by destruct enclave_1).
    exact E.
  - discriminate.
  - exists p, s. split; [exact Hp|exact Hr].
Defined.

(** * Signup *)

#[local] Abbreviation signup_host_run := (create_enclave_data 6 (bytes_of "owner") (host_on device_1)).
Lemma signup_host_ok : is_ok signup_host_run.1 = true.
Proof. vm_compute. reflexivity. Qed.

Lemma signup_host_roundtrip_witness : exists keys sealed quote p,
  signup_host_run.1 = Ok (public_entries keys ++ [("sealed_enclave_data"%string, sealed); ("enclave_quote"%string, quote)]) /\
  unseal_enclave_data 6 sealed (host_on device_1) = (Ok (public_entries keys), set_platform p (host_on device_1)).
Proof.
  pose proof signup_host_ok as Hok. destruct signup_host_run as [[entries|e] h'] eqn:E; [|discriminate Hok].
  destruct (signup_host_roundtrip 6 (bytes_of "owner") (host_on device_1) entries h' E) as (d & id & ek & sealed & quote & _ & _ & _ & He & _ & Hu).
  destruct (Hu 6 (host_on device_1) (enclave_at 7) memory_1 working) as (p & _ & Hp).
  - apply device_responsive.
  - split; [reflexivity|]. cbn. lia.
  - unfold default_retries. lia.
  - reflexivity.
  - apply lookup_singleton_eq.
  - exists (GetInterpreterIdentity, id, ek), sealed, quote, p. split; [cbn [fst]; rewrite He; reflexivity|exact Hp].
Defined.

(** * Provisioning *)

#[local] Existing Instance pservice.secret_code.
#[local] Instance service_build : ProvisioningBuild := build true.
Definition service_host : @host device nat unit := mk_host device_1 0 {[7%Z := tt]} [enclave_at 7] None true "".
(** The service before its initialization. *)
Definition fresh_host : @host device nat unit := mk_host (mk_device 3 2 false "") 0 ∅ [enclave_at 0] None false "".
Definition spid_1 : bytes := replicate 32 "a"%byte.
Definition path_1 : bytes := bytes_of "enclave.so".


(** The contract service on the same device. *)
Example first_initialize_on_device :
  (Initialize 6 path_1 spid_1 2 (mk_host (mk_device 1 0 false "") world0 ∅ [] None false "")).1 =
    Err (UndefinedBehaviour "vector index out of range").
Proof. by apply first_initialize_undefined with 4%Z. Qed.

#[local] Abbreviation secret_run := (pservice.create_sealed_secret 6 16 service_host).
Lemma secret_run_ok : is_ok secret_run.1 = true.
Proof. vm_compute. reflexivity. Qed.

Lemma sealed_secret_roundtrip_witness : exists secret sealed p, zlen secret = 16%Z /\ secret_run.1 = Ok [("sealed_secret"%string, sealed)] /\
  pservice.unseal_secret 6 sealed service_host = (Ok [("plain_secret"%string, ByteArrayToHexEncodedString secret)], set_platform p service_host).
Proof.
  pose proof secret_run_ok as Hok. destruct secret_run as [[entries|e] h'] eqn:E; [|discriminate Hok].
  destruct (sealed_secret_roundtrip 6 16 service_host entries h' E) as (secret & sealed & Hl & He & Hu).
  destruct (Hu 6 service_host (enclave_at 7) working) as (p & _ & Hp).
  - apply device_responsive.
  - split; [reflexivity|]. cbn. lia.
  - unfold default_retries. lia.
  - reflexivity.
  - apply lookup_singleton_eq.
  - exists secret, sealed, p. split; [exact Hl|]. split; [cbn [fst]; rewrite He; reflexivity|exact Hp].
Defined.
